(* ===== verification/_CoqProject ===== *)
-Q . S2P
Prelude.v
Config.v
Checksum.v
Fragment.v
Fragment6.v
Buffer.v
Payloads.v
Split.v
Segment.v
Families.v
Tls.v
Mutation.v
Strategies.v
FakeSni.v
Decoys.v
Oob.v
Disorder.v
Dispatch.v
Quic.v
Assemble.v
QuicSni.v
Voice.v
GoString.v
Text.v
NetIP.v
Udp.v
Rewrite.v
Syn.v
Incoming.v
Dns.v
Ports.v
Escalate.v
Lru.v
Match.v
Overlap.v
ConnState.v
Worker.v
Held.v
DnsHandler.v
Handler.v
Pool.v
HandlerOk.v
HandlerDns.v
