(* ===== verification/Prelude.v ===== *)
(** * b4: a verification of the packet engine

    b4 (src/src, in Go) sits on a netfilter queue: it recognises TLS and QUIC
    handshakes by the host name they carry, rewrites and splits the packets that
    carry the handshake so that a middlebox does not see the name while the server
    receives the same stream, sends decoys meant for the middlebox only, and tracks
    connections to detect interference.  This development models that engine: the
    parsers, the packet rewriting, the strategies that decide what is sent and in
    which order, and the state the workers share.

    ** Conventions (this file)

    Go code that can panic is a value of [go A]: [Ret a], [Panic] for an index or
    slice out of range, [Spin] when the fuel of a loop ran out; [wp m Q] says that
    [m] returns a value with [Q], so every theorem of the form [wp m Q] also says
    that the code neither panics nor loops.  Bytes are [Z] in lists, machine
    integers are [Z] with [u8], [u16] and [u32] where Go wraps.  Go's [int] is
    that of a 64-bit target, whose bounds the lengths and sums of packet fields do not
    reach, and is a [Z] without wrap-around; where 62-bit numbers of a packet become an [int] its width is the class [Target] of Quic.v, and a theorem
    there says what happens on the 32-bit targets of src/Makefile.  [idx], [slice],
    [upd], [copy_at], [be16], [put16] are Go's indexing, slicing, assignment, copy
    and big-endian access with their bounds; a slice has no capacity beyond its
    length.  Every loop has fuel of the length of
    its input plus one, and the theorems show that this is enough.  Sending is the
    list of [action]s ([Send], [Sleep]) a sender returns.  Random draws, clock
    readings and the order in which Go visits a map are arguments, so the theorems
    hold for all of them.

    ** The files

    - Config.v: the records of the settings and the default set (config/types.go,
      config.go), with the questions the code asks of them (methods.go).
    - Text.v, NetIP.v, GoString.v: the strings and addresses of Go's packages.
    - Ports.v, Escalate.v: port filters and their merging (utils/port.go,
      config/methods.go), and the repair of escalation chains (config/methods.go).
    - Lru.v, Match.v: the matcher of names, addresses and ports, with its caches
      (sni/match.go); the packages regexp and cidranger, the text forms of addresses
      and the Unicode tables are parameters, with the laws the proofs use as fields of
      the classes [Regexp], [Ranger], [Net], [Unicode] and [SortSlice].
    - Overlap.v: the lookups of Match.v as sequences of accesses - locked sections and
      atomic operations - that any number of goroutines interleave, as a step function on
      the matcher and the running calls, with the invariant of every interleaving.
    - Buffer.v: rules for packets that are built by a sequence of writes.
    - Checksum.v: src/src/sock/fake_ipv4.go, fake_ipv6.go, udp_ipv4.go, udp_ipv6.go
      (checksum routines), against the one's-complement sum of RFC 1071.
    - Fragment.v, Fragment6.v: sock/fragment_ipv4.go, fragment_ipv6.go and the UDP
      fragmenters, against a receiver that reassembles fragments in any order.
    - Split.v: where a ClientHello is cut and how pieces are reordered (nfq/common.go,
      extsplit.go).
    - Segment.v, Families.v: building TCP segments, decoys and sequence overlaps
      (nfq/common.go, common_ipv6.go, parts of desync.go).  The code has each routine
      for IPv4 and for IPv6; they are written once over the class [Family], whose
      instances [IPv4] and [IPv6] are the lines in which the two differ, and the
      proofs use the laws of the classes [Receiver] and [Reader].
    - Mutation.v: rewriting the ClientHello (nfq/mutation.go, mutation_ipv6.go).
    - Strategies.v, Disorder.v: the senders (nfq/tls.go, nfq.go, nfq_ipv6.go,
      disorder*.go, combo*.go, hybrid*.go, extsplit*.go, firstbyte*.go).
    - Payloads.v, FakeSni.v: the payloads of fake ClientHellos and their TLS
      modifications (sock/payload.go, tls.go, config/payloads.go), the packets built
      from them (sock/fake_ipv4.go, fake_ipv6.go, tcp_timestamp.go) and the sequences
      sent (nfq/nfq.go, nfq_ipv6.go).
    - Decoys.v, Oob.v: bursts of decoys, window probes, the reset for the client and
      the urgent byte (nfq/desync.go, post_desync.go, win.go, rst_client.go, oob.go).
    - Dispatch.v: the injection that composes all of these (dropAndInjectTCP and
      dropAndInjectTCPv6).
    - Tls.v: the ClientHello parser (sni/tls.go), against an encoder.
    - Udp.v: building UDP packets and fakes, and the injection of QUIC packets
      (sock/udp_ipv4.go, udp_ipv6.go, quic_fake.go, nfq/nfq.go, nfq_ipv6.go).
    - Quic.v, Assemble.v: QUIC Initial parsing, decryption and CRYPTO reassembly
      (quic/*.go); AES and HKDF are parameters.
    - QuicSni.v, Voice.v: the name in a QUIC connection (sni/quic.go; the package
      cryptobyte is the class [Cryptobyte]) and the filter of voice traffic (stun,
      discord).
    - Rewrite.v, Syn.v, Incoming.v: stripping SACK and rejecting by ICMP (sock/sack.go,
      icmp_*.go), the fakes before a SYN (nfq/syn.go) and the packets injected among the
      server's answers (nfq/inc.go).
    - Dns.v: DNS queries and responses (dns/dns.go, query.go, nfq/dns.go).
    - ConnState.v: the workers' shared state (nfq/connstate.go) as finite maps, with
      one function per method; GoString.v has the facts about their string keys.
    - Worker.v, DnsHandler.v, Handler.v: the packet handler that puts the parts together
      (nfq/handler.go, inc.go, dns.go, dns_routing.go, verdict.go, iface.go).  A handler
      takes the state of the worker and gives the next one with the list of what it did;
      clock readings and draws are a record of one packet's [readings].
    - Held.v: what holds of every set the worker was given holds of each it reads back.
    - Pool.v: the changes between packets (nfq/pool.go): a new configuration, the
      clean-up ticks and the clearing of escalations.
    - HandlerOk.v: the handler never panics or loops in a reachable state, gives each
      packet one verdict, drops a packet only to go on with it (unless a set is set to
      discard) and hands its goroutines packets that the senders are correct for.
    - HandlerDns.v: what the handler does with queries and responses as a client sees it:
      blocked names and remembered routes.

    ** What the theorems show

    Refinement: each sender delivers the payload: what it sends are valid segments
    of the connection that carry the payload's bytes at their place of the stream - at
    most one of them with the configured overlap of pattern bytes before its data - and
    decoys that are lower in TTL with an inverted checksum.  The composition says the same
    of everything the worker sends in place of one captured ClientHello.  Fragments
    reassemble to the datagram they were cut from.  Mutations leave a valid segment with the
    extensions of the ClientHello.  Checksums verify at the receiver.  Parsers are
    total and invert the encoders.  The shared state stays within its bounds, evicts
    its oldest entry, and its detectors fire exactly on their conditions.  Matching
    finds the longest suffix and the most specific network, also when lookups overlap; port filters mean what
    they list; escalation chains end.  The packet handler is total in
    every state that packets, ticks and changes of the configuration lead to, for
    well-formed TCP packets and any others, answers blocked names with NXDOMAIN - in the
    cases the theorem lists - and routes the responses to the queries it remembered.  Where
    the code departs from what it means to do, a theorem states the departure.

    ** Not modelled

    Sockets, the netfilter queue, goroutines and locks - a method that runs under one
    mutex is one step; Overlap.v interleaves the lookups, which do not, and the handlers
    are modelled one packet at a time - starting and stopping the workers (pool.go), the address table of the TUN device,
    DNS over HTTPS and the forwarding of queries, the derivation of QUIC keys, logs,
    metrics and captures; firewall rules, discovery, the proxies, the web server and the
    rest of the program, as PROJECT.json lists them. *)

From Stdlib Require Import ZArith Lia.
From stdpp Require Import base list numbers.

#[global] Set Default Proof Using "Type".
Local Open Scope Z_scope.

(** ** The outcome of running Go code *)

Declare Scope go_scope.
Delimit Scope go_scope with go.

(** [Ret a]: the code returns [a].  [Panic]: it indexes or slices out of range
    (a Go run-time panic).  [Spin]: the loop's fuel ran out. *)
Inductive go (A : Type) : Type :=
| Ret (a : A)
| Panic
| Spin.
Arguments Ret {A} a.
Arguments Panic {A}.
Arguments Spin {A}.

Definition go_bind {A B : Type} (m : go A) (f : A → go B) : go B :=
  match m with
  | Ret a => f a
  | Panic => Panic
  | Spin => Spin
  end.

Notation "'let!' x ':=' m 'in' k" := (go_bind m (fun x => k))
  (at level 10, x pattern, m at level 100, k at level 200,
   format "'[v' 'let!'  x  ':='  m  'in' '//' k ']'") : go_scope.
Open Scope go_scope.

(** [wp m Q]: [m] returns, without panicking and within its fuel, a value that
    satisfies [Q] (a total-correctness triple). *)
Definition wp {A : Type} (m : go A) (Q : A → Prop) : Prop :=
  match m with
  | Ret a => Q a
  | Panic => False
  | Spin => False
  end.

Section wp_rules.
Context {A B : Type}.

Lemma wp_ret (a : A) (Q : A → Prop) : Q a → wp (Ret a) Q.
Proof. exact id. Qed.

Lemma wp_bind (m : go A) (f : A → go B) (Q : B → Prop) :
  wp m (λ a, wp (f a) Q) → wp (go_bind m f) Q.
Proof. by destruct m. Qed.

(** Two steps taken as one. *)
Lemma wp_bind2 {C : Type} (m : go A) (f : A → go B) (k : B → go C) (Q : C → Prop) :
  wp (go_bind m f) (λ b, wp (k b) Q) → wp (go_bind m (λ a, go_bind (f a) k)) Q.
Proof. destruct m as [a| |]; simpl; [|done..]. by destruct (f a). Qed.

Lemma wp_mono (m : go A) (P Q : A → Prop) :
  wp m P → (∀ a, P a → Q a) → wp m Q.
Proof. destruct m; simpl; auto. Qed.

Lemma wp_iff (m : go A) (Q : A → Prop) : wp m Q ↔ ∃ a, m = Ret a ∧ Q a.
Proof.
  destruct m; simpl; split; try done; try (by intros (?&?&?)).
  - eauto.
  - by intros (?&[= ->]&?).
Qed.

Lemma wp_eq (m : go A) (a : A) : wp m (λ x, x = a) → m = Ret a.
Proof. intros (x & -> & ->)%wp_iff. done. Qed.

Lemma wp_self (m : go A) (Q : A → Prop) : wp m Q → wp m (λ a, Q a ∧ m = Ret a).
Proof. destruct m; simpl; auto. Qed.

Lemma wp_and (m : go A) (P Q : A → Prop) :
  wp m P → wp m Q → wp m (λ a, P a ∧ Q a).
Proof. destruct m; simpl; auto. Qed.
End wp_rules.

(** ** Byte slices

    A Go [[]byte] is a list of [Z]; the lemmas that need the elements to be bytes
    assume [bytes_ok].  A slice expression may not run past the length (Go allows
    it up to the capacity, so code that is safe here is safe in Go, and every
    slice the code makes with [make] has capacity equal to length). *)
Abbreviation bytes := (list Z).

Abbreviation len l := (Z.of_nat (length l)).

Definition is_byte (b : Z) : Prop := 0 <= b < 256.
Definition bytes_ok (l : bytes) : Prop := Forall is_byte l.

(** The wrap-around of a value stored in a fixed-width unsigned integer. *)
Definition u8 (z : Z) : Z := z mod 256.
Definition u16 (z : Z) : Z := z mod 65536.
Definition u32 (z : Z) : Z := z mod 4294967296.

(** The element at [i], 0 outside the slice: what [idx] returns in range, and
    the specification's way to name a byte of a buffer. *)
Definition get (l : bytes) (i : Z) : Z :=
  if 0 <=? i then nth (Z.to_nat i) l 0 else 0.

(** [l[i]] *)
Definition idx (l : bytes) (i : Z) : go Z :=
  if (0 <=? i) && (i <? len l) then Ret (get l i) else Panic.

(** [l[i:j]] and [l[i:]] *)
Definition sub (l : bytes) (i j : Z) : bytes :=
  take (Z.to_nat (j - i)) (drop (Z.to_nat i) l).
Definition slice (l : bytes) (i j : Z) : go bytes :=
  if (0 <=? i) && (i <=? j) && (j <=? len l) then Ret (sub l i j) else Panic.
Definition slice_from (l : bytes) (i : Z) : go bytes := slice l i (len l).

(** [l[i] = v] *)
Definition upd (l : bytes) (i v : Z) : go bytes :=
  if (0 <=? i) && (i <? len l) then Ret (<[Z.to_nat i := v]> l) else Panic.

(** [make([]byte, n)] *)
Definition make (n : Z) : go bytes :=
  if 0 <=? n then Ret (replicate (Z.to_nat n) 0) else Panic.

(** Overwrite [dst] from offset [i] with [src], which fits. *)
Definition splice (dst : bytes) (i : Z) (src : bytes) : bytes :=
  take (Z.to_nat i) dst ++ src ++ drop (Z.to_nat i + length src) dst.

(** [copy(dst[i:j], src)]: copies as many bytes as both sides have. *)
Definition copy_at (dst : bytes) (i j : Z) (src : bytes) : go bytes :=
  if (0 <=? i) && (i <=? j) && (j <=? len dst)
  then Ret (splice dst i (take (Z.to_nat (j - i)) src)) else Panic.
Definition copy_from (dst : bytes) (i : Z) (src : bytes) : go bytes :=
  copy_at dst i (len dst) src.

(** The unsigned value of two and of four big-endian bytes at [i]. *)
Definition get16 (l : bytes) (i : Z) : Z :=
  Z.lor (Z.shiftl (get l i) 8) (get l (i + 1)).
Definition get32 (l : bytes) (i : Z) : Z :=
  Z.lor (Z.shiftl (get l i) 24)
    (Z.lor (Z.shiftl (get l (i + 1)) 16)
      (Z.lor (Z.shiftl (get l (i + 2)) 8) (get l (i + 3)))).

(** [binary.BigEndian.Uint16(l[i:i+2])] and the 32-bit form. *)
Definition be16 (l : bytes) (i : Z) : go Z :=
  if (0 <=? i) && (i + 2 <=? len l) then Ret (get16 l i) else Panic.
Definition be32 (l : bytes) (i : Z) : go Z :=
  if (0 <=? i) && (i + 4 <=? len l) then Ret (get32 l i) else Panic.

(** The big-endian bytes of a 16- and a 32-bit value. *)
Definition bytes16 (v : Z) : bytes := [u8 (Z.shiftr v 8); u8 v].
Definition bytes32 (v : Z) : bytes :=
  [u8 (Z.shiftr v 24); u8 (Z.shiftr v 16); u8 (Z.shiftr v 8); u8 v].

(** [binary.BigEndian.PutUint16(l[i:i+2], v)] and the 32-bit form; [v] is
    converted to the width as the argument type does. *)
Definition put16 (l : bytes) (i v : Z) : go bytes := copy_at l i (i + 2) (bytes16 (u16 v)).
Definition put32 (l : bytes) (i v : Z) : go bytes := copy_at l i (i + 4) (bytes32 (u32 v)).

(** ** Tactics

    [bprop] turns the boolean tests of the code (hypotheses [b = true] or
    [b = false]) into the propositions they decide; [zlia] closes arithmetic
    goals after it. *)
Ltac bprop :=
  repeat match goal with
  | H : negb _ = true |- _ => apply negb_true_iff in H
  | H : negb _ = false |- _ => apply negb_false_iff in H
  | H : (_ && _)%bool = true |- _ => apply andb_true_iff in H; destruct H
  | H : (_ && _)%bool = false |- _ => apply andb_false_iff in H
  | H : (_ || _)%bool = false |- _ => apply orb_false_iff in H; destruct H
  | H : (_ || _)%bool = true |- _ => apply orb_true_iff in H
  | H : (_ <=? _) = true |- _ => apply Z.leb_le in H
  | H : (_ <=? _) = false |- _ => apply Z.leb_gt in H
  | H : (_ <? _) = true |- _ => apply Z.ltb_lt in H
  | H : (_ <? _) = false |- _ => apply Z.ltb_ge in H
  | H : (_ =? _) = true |- _ => apply Z.eqb_eq in H
  | H : (_ =? _) = false |- _ => apply Z.eqb_neq in H
  | H : (_ <? _)%nat = true |- _ => apply Nat.ltb_lt in H
  | H : (_ <? _)%nat = false |- _ => apply Nat.ltb_ge in H
  | H : (_ <=? _)%nat = true |- _ => apply Nat.leb_le in H
  | H : (_ <=? _)%nat = false |- _ => apply Nat.leb_gt in H
  | H : _ ∨ _ |- _ =>
      progress (rewrite ?negb_true_iff, ?negb_false_iff, ?andb_false_iff, ?andb_true_iff,
        ?orb_true_iff, ?orb_false_iff, ?Z.leb_le, ?Z.leb_gt, ?Z.ltb_lt, ?Z.ltb_ge,
        ?Z.eqb_eq, ?Z.eqb_neq in H)
  end.

(** Evaluate sums of literals, as they appear in offsets. *)
Ltac znorm := repeat match goal with
  | |- context [0 + ?b] => change (0 + b) with b
  | |- context [Zpos ?a + Zpos ?b] =>
      let r := eval compute in (Zpos a + Zpos b) in change (Zpos a + Zpos b) with r
  end.

Ltac znorm_in H := repeat match type of H with
  | context [0 + ?b] => change (0 + b) with b in H
  | context [Zpos ?a + Zpos ?b] =>
      let r := eval compute in (Zpos a + Zpos b) in change (Zpos a + Zpos b) with r in H
  end.

Ltac zlia := bprop; lia.

(** Case analysis on the tests of the goal, discarding the impossible cases. *)
Ltac case_if :=
  match goal with
  | |- context [if ?b then _ else _] => destruct b eqn:?
  end.
Ltac zcases := repeat (case_if; try (exfalso; zlia)).

(** ** Reading a buffer back, byte by byte *)

Lemma list_ext_get (l1 l2 : bytes) :
  len l1 = len l2 → (∀ k, 0 <= k < len l1 → get l1 k = get l2 k) → l1 = l2.
Proof.
  intros Hl Hk. apply (nth_ext _ _ 0 0); [zlia|].
  intros n Hn. specialize (Hk (Z.of_nat n) ltac:(zlia)). unfold get in Hk.
  destruct (0 <=? Z.of_nat n) eqn:E; [|zlia]. by rewrite Nat2Z.id in Hk.
Qed.

Lemma get_neg (l : bytes) (i : Z) : i < 0 → get l i = 0.
Proof. intros H. unfold get. by destruct (0 <=? i) eqn:E; [zlia|]. Qed.

Lemma get_over (l : bytes) (i : Z) : len l <= i → get l i = 0.
Proof.
  intros H. unfold get. destruct (0 <=? i) eqn:E; [|done]. apply nth_overflow. zlia.
Qed.


Lemma get_out (l : bytes) (i : Z) : ¬ (0 <= i < len l) → get l i = 0.
Proof. intros H. destruct (decide (i < 0)); [by apply get_neg|apply get_over; lia]. Qed.

Lemma get_nth (l : bytes) (n : nat) : get l (Z.of_nat n) = nth n l 0.
Proof. unfold get. destruct (0 <=? Z.of_nat n) eqn:E; [|zlia]. by rewrite Nat2Z.id. Qed.

Lemma get_app (l1 l2 : bytes) (k : Z) :
  get (l1 ++ l2) k = if k <? len l1 then get l1 k else get l2 (k - len l1).
Proof.
  destruct (k <? len l1) eqn:E.
  - unfold get. destruct (0 <=? k) eqn:E0; [|done]. apply app_nth1. zlia.
  - unfold get. destruct (0 <=? k) eqn:E0; [|zlia].
    destruct (0 <=? k - len l1) eqn:E1; [|zlia].
    rewrite app_nth2 by zlia. f_equal. zlia.
Qed.

Lemma get_take (n : nat) (l : bytes) (k : Z) :
  get (take n l) k = if k <? Z.of_nat n then get l k else 0.
Proof.
  unfold get. destruct (0 <=? k) eqn:E0; [|by destruct (k <? _)].
  rewrite nth_firstn.
  destruct (Z.to_nat k <? n)%nat eqn:E1, (k <? Z.of_nat n) eqn:E2; try done; zlia.
Qed.

Lemma get_drop (n : nat) (l : bytes) (k : Z) :
  0 <= k → get (drop n l) k = get l (Z.of_nat n + k).
Proof.
  intros Hk. unfold get. destruct (0 <=? k) eqn:E0; [|zlia].
  destruct (0 <=? Z.of_nat n + k) eqn:E1; [|zlia].
  rewrite nth_skipn. f_equal. zlia.
Qed.

Lemma get_replicate (n : nat) (v k : Z) :
  get (replicate n v) k = if (0 <=? k) && (k <? Z.of_nat n) then v else 0.
Proof.
  unfold get. destruct (0 <=? k) eqn:E0; [|done]. simpl.
  rewrite nth_lookup. destruct (k <? Z.of_nat n) eqn:E1.
  - rewrite lookup_replicate_2; [done|zlia].
  - assert (replicate n v !! Z.to_nat k = None) as ->; [|done].
    apply lookup_ge_None_2. rewrite length_replicate. zlia.
Qed.

Lemma get_cons (x : Z) (l : bytes) (k : Z) :
  get (x :: l) k = if k =? 0 then x else if k <? 0 then 0 else get l (k - 1).
Proof.
  destruct (k =? 0) eqn:E0; [by replace k with 0 by zlia|].
  destruct (k <? 0) eqn:E1; [apply get_neg; zlia|].
  change (x :: l) with ([x] ++ l). rewrite get_app. change (len [x]) with 1.
  zcases. done.
Qed.

Lemma get_nil (k : Z) : get [] k = 0.
Proof. unfold get. destruct (0 <=? k); [|done]. by destruct (Z.to_nat k). Qed.

Lemma get_insert (l : bytes) (i v k : Z) :
  0 <= i < len l →
  get (<[Z.to_nat i := v]> l) k = if k =? i then v else get l k.
Proof.
  intros Hi. destruct (k =? i) eqn:E.
  - replace k with i by zlia. unfold get. destruct (0 <=? i) eqn:E0; [|zlia].
    rewrite nth_lookup, list_lookup_insert_eq by zlia. done.
  - unfold get. destruct (0 <=? k) eqn:E0; [|done].
    rewrite !nth_lookup, list_lookup_insert_ne by zlia. done.
Qed.

(** Lengths of the buffers the slice operations build. *)
Lemma len_sub (l : bytes) (i j : Z) :
  0 <= i → i <= j → j <= len l → len (sub l i j) = j - i.
Proof. intros. unfold sub. rewrite length_take, length_drop. zlia. Qed.

Lemma len_splice (d : bytes) (i : Z) (s : bytes) :
  0 <= i → i + len s <= len d → len (splice d i s) = len d.
Proof.
  intros. unfold splice. rewrite !length_app, length_take, length_drop. zlia.
Qed.

Lemma len_insert (l : bytes) (n : nat) (v : Z) : len (<[n := v]> l) = len l.
Proof. by rewrite length_insert. Qed.

Lemma len_replicate (n : nat) (v : Z) : len (replicate n v) = Z.of_nat n.
Proof. by rewrite length_replicate. Qed.

Lemma len_app (l1 l2 : bytes) : len (l1 ++ l2) = len l1 + len l2.
Proof. rewrite length_app. zlia. Qed.

Lemma get_sub (l : bytes) (i j k : Z) :
  0 <= i → get (sub l i j) k = if (0 <=? k) && (k <? j - i) then get l (i + k) else 0.
Proof.
  intros Hi. destruct (0 <=? k) eqn:E0; simpl; [|apply get_neg; zlia].
  unfold sub. rewrite get_take, get_drop by zlia.
  destruct (k <? j - i) eqn:E1, (k <? Z.of_nat (Z.to_nat (j - i))) eqn:E2; try done; try zlia.
  f_equal. zlia.
Qed.

Lemma get_splice (d : bytes) (i : Z) (s : bytes) (k : Z) :
  0 <= i → i + len s <= len d →
  get (splice d i s) k =
    if (i <=? k) && (k <? i + len s) then get s (k - i) else get d k.
Proof.
  intros Hi Hs. unfold splice.
  rewrite !get_app, get_take, length_take.
  destruct (i <=? k) eqn:E0, (k <? i + len s) eqn:E1; simpl;
    repeat match goal with |- context [if ?b then _ else _] => destruct b eqn:?; try zlia end;
    try (f_equal; zlia).
  - rewrite get_drop by zlia. f_equal. zlia.
Qed.

(** *** [bytes_ok] is preserved by every operation *)

Lemma bytes_ok_get (l : bytes) (i : Z) : bytes_ok l → is_byte (get l i).
Proof.
  intros H. unfold get. destruct (0 <=? i); [|unfold is_byte; zlia].
  destruct (nth_in_or_default (Z.to_nat i) l 0) as [Hin| ->]; [|unfold is_byte; zlia].
  unfold bytes_ok in H. rewrite Forall_forall in H. first [exact (H _ Hin) | by apply H, list_elem_of_In].
Qed.

Lemma bytes_ok_app (l1 l2 : bytes) : bytes_ok (l1 ++ l2) ↔ bytes_ok l1 ∧ bytes_ok l2.
Proof. apply Forall_app. Qed.

Lemma bytes_ok_take (n : nat) (l : bytes) : bytes_ok l → bytes_ok (take n l).
Proof. apply Forall_take. Qed.

Lemma bytes_ok_drop (n : nat) (l : bytes) : bytes_ok l → bytes_ok (drop n l).
Proof. apply Forall_drop. Qed.

Lemma bytes_ok_sub (l : bytes) (i j : Z) : bytes_ok l → bytes_ok (sub l i j).
Proof. intros. by apply Forall_take, Forall_drop. Qed.

Lemma bytes_ok_splice (d : bytes) (i : Z) (s : bytes) :
  bytes_ok d → bytes_ok s → bytes_ok (splice d i s).
Proof.
  intros. unfold splice. rewrite !bytes_ok_app.
  auto using bytes_ok_take, bytes_ok_drop.
Qed.

Lemma is_byte_u8 (z : Z) : is_byte (u8 z).
Proof. unfold is_byte, u8. apply Z.mod_pos_bound. zlia. Qed.

Lemma bytes_ok_bytes16 (v : Z) : bytes_ok (bytes16 v).
Proof. repeat constructor; apply is_byte_u8. Qed.

Lemma bytes_ok_bytes32 (v : Z) : bytes_ok (bytes32 v).
Proof. repeat constructor; apply is_byte_u8. Qed.

Lemma bytes_ok_replicate (n : nat) (v : Z) : is_byte v → bytes_ok (replicate n v).
Proof. intros. apply Forall_replicate; done. Qed.

Lemma bytes_ok_insert (l : bytes) (n : nat) (v : Z) :
  bytes_ok l → is_byte v → bytes_ok (<[n := v]> l).
Proof. intros. apply Forall_insert; done. Qed.

Lemma bytes_ok_nil : bytes_ok [].
Proof. constructor. Qed.

Lemma bytes_ok_cons (x : Z) (l : bytes) : is_byte x → bytes_ok l → bytes_ok (x :: l).
Proof. by constructor. Qed.

Lemma is_byte_0 : is_byte 0.
Proof. unfold is_byte. zlia. Qed.

Create HintDb b4.
#[export] Hint Resolve bytes_ok_get bytes_ok_take bytes_ok_drop bytes_ok_sub
  bytes_ok_splice is_byte_u8 bytes_ok_bytes16 bytes_ok_bytes32 bytes_ok_replicate
  bytes_ok_insert bytes_ok_nil bytes_ok_cons is_byte_0 : b4.
#[export] Hint Extern 2 (is_byte _) => unfold is_byte; lia : b4.
#[export] Hint Extern 1 (bytes_ok (_ ++ _)) => apply bytes_ok_app; split : b4.

(** ** Machine integers *)

Lemma lor_shiftl_add (a b n : Z) :
  0 <= n → 0 <= b < 2 ^ n → Z.lor (Z.shiftl a n) b = a * 2 ^ n + b.
Proof.
  intros Hn Hb. rewrite <- (Z.shiftl_mul_pow2 a n Hn).
  enough (Z.land (Z.shiftl a n) b = 0) as H0.
  { pose proof (Z.add_lor_land (Z.shiftl a n) b). lia. }
  apply Z.bits_inj'. intros k Hk. rewrite Z.land_spec, Z.bits_0.
  destruct (Z.ltb_spec k n).
  - rewrite Z.shiftl_spec_low by lia. done.
  - rewrite <- (Z.mod_small b (2 ^ n)) by lia.
    rewrite Z.mod_pow2_bits_high by lia. apply andb_false_r.
Qed.

Lemma u8_small (z : Z) : is_byte z → u8 z = z.
Proof. unfold is_byte, u8. intros. by apply Z.mod_small. Qed.
Lemma u16_range (z : Z) : 0 <= u16 z < 65536.
Proof. unfold u16. apply Z.mod_pos_bound. lia. Qed.
Lemma u32_range (z : Z) : 0 <= u32 z < 4294967296.
Proof. unfold u32. apply Z.mod_pos_bound. lia. Qed.
Lemma u16_small (z : Z) : 0 <= z < 65536 → u16 z = z.
Proof. apply Z.mod_small. Qed.
Lemma u32_small (z : Z) : 0 <= z < 4294967296 → u32 z = z.
Proof. apply Z.mod_small. Qed.

Lemma get16_val (l : bytes) (i : Z) :
  bytes_ok l → get16 l i = get l i * 256 + get l (i + 1).
Proof.
  intros H. unfold get16. rewrite lor_shiftl_add; [done|lia|].
  apply (bytes_ok_get l (i + 1) H).
Qed.

Lemma get16_eq (p q : bytes) (i j : Z) :
  get p i = get q j → get p (i + 1) = get q (j + 1) → get16 p i = get16 q j.
Proof. unfold get16. by intros -> ->. Qed.

Lemma get16_range (l : bytes) (i : Z) : bytes_ok l → 0 <= get16 l i < 65536.
Proof.
  intros H. rewrite get16_val by done.
  pose proof (bytes_ok_get l i H). pose proof (bytes_ok_get l (i + 1) H).
  unfold is_byte in *. lia.
Qed.

Lemma get32_val (l : bytes) (i : Z) :
  bytes_ok l →
  get32 l i = get l i * 16777216 + get l (i + 1) * 65536 + get l (i + 2) * 256 + get l (i + 3).
Proof.
  intros H. unfold get32.
  pose proof (bytes_ok_get l i H). pose proof (bytes_ok_get l (i + 1) H).
  pose proof (bytes_ok_get l (i + 2) H). pose proof (bytes_ok_get l (i + 3) H).
  unfold is_byte in *.
  rewrite (lor_shiftl_add (get l (i + 2)) _ 8) by lia.
  rewrite (lor_shiftl_add (get l (i + 1)) _ 16) by lia.
  rewrite lor_shiftl_add by lia. lia.
Qed.

Lemma get32_range (l : bytes) (i : Z) : bytes_ok l → 0 <= get32 l i < 4294967296.
Proof.
  intros H. rewrite get32_val by done.
  pose proof (bytes_ok_get l i H). pose proof (bytes_ok_get l (i + 1) H).
  pose proof (bytes_ok_get l (i + 2) H). pose proof (bytes_ok_get l (i + 3) H).
  unfold is_byte in *. lia.
Qed.

Lemma bytes16_val (v : Z) :
  0 <= v < 65536 → get (bytes16 v) 0 * 256 + get (bytes16 v) 1 = v.
Proof.
  intros H. change (get (bytes16 v) 0) with (u8 (Z.shiftr v 8)).
  change (get (bytes16 v) 1) with (u8 v). unfold u8.
  rewrite Z.shiftr_div_pow2 by lia. change (2 ^ 8) with 256.
  Z.div_mod_to_equations. lia.
Qed.

Lemma bytes32_val (v : Z) :
  0 <= v < 4294967296 →
  get (bytes32 v) 0 * 16777216 + get (bytes32 v) 1 * 65536
    + get (bytes32 v) 2 * 256 + get (bytes32 v) 3 = v.
Proof.
  intros H. change (get (bytes32 v) 0) with (u8 (Z.shiftr v 24)).
  change (get (bytes32 v) 1) with (u8 (Z.shiftr v 16)).
  change (get (bytes32 v) 2) with (u8 (Z.shiftr v 8)).
  change (get (bytes32 v) 3) with (u8 v). unfold u8.
  rewrite !Z.shiftr_div_pow2 by lia.
  change (2 ^ 24) with 16777216. change (2 ^ 16) with 65536. change (2 ^ 8) with 256.
  Z.div_mod_to_equations. lia.
Qed.

(** Reading back what [PutUint16]/[PutUint32] wrote. *)
Lemma get16_splice (d : bytes) (i v : Z) :
  bytes_ok d → 0 <= i → i + 2 <= len d → 0 <= v < 65536 →
  get16 (splice d i (bytes16 v)) i = v.
Proof.
  intros Hd Hi Hl Hv. rewrite get16_val by auto with b4.
  rewrite !get_splice by (simpl length; lia). simpl length.
  zcases. replace (i - i) with 0 by lia. replace (i + 1 - i) with 1 by lia.
  by apply bytes16_val.
Qed.

Lemma get32_splice (d : bytes) (i v : Z) :
  bytes_ok d → 0 <= i → i + 4 <= len d → 0 <= v < 4294967296 →
  get32 (splice d i (bytes32 v)) i = v.
Proof.
  intros Hd Hi Hl Hv. rewrite get32_val by auto with b4.
  rewrite !get_splice by (simpl length; lia). simpl length.
  zcases. replace (i - i) with 0 by lia. replace (i + 1 - i) with 1 by lia.
  replace (i + 2 - i) with 2 by lia. replace (i + 3 - i) with 3 by lia.
  by apply bytes32_val.
Qed.

(** ** Rules for the slice operations *)
Section wp_slices.
Implicit Types (l d s : bytes) (i j n v : Z).

Lemma wp_idx l i Q : 0 <= i < len l → Q (get l i) → wp (idx l i) Q.
Proof. intros. unfold idx. zcases. done. Qed.

Lemma wp_slice l i j Q :
  0 <= i → i <= j → j <= len l → Q (sub l i j) → wp (slice l i j) Q.
Proof. intros. unfold slice. zcases. done. Qed.

Lemma wp_slice_from l i Q :
  0 <= i → i <= len l → Q (sub l i (len l)) → wp (slice_from l i) Q.
Proof. intros. unfold slice_from. apply wp_slice; auto; lia. Qed.

Lemma wp_upd l i v Q :
  0 <= i < len l → Q (<[Z.to_nat i := v]> l) → wp (upd l i v) Q.
Proof. intros. unfold upd. zcases. done. Qed.

Lemma wp_make n Q : 0 <= n → Q (replicate (Z.to_nat n) 0) → wp (make n) Q.
Proof. intros. unfold make. zcases. done. Qed.

Lemma wp_copy_at d i j s Q :
  0 <= i → i <= j → j <= len d →
  Q (splice d i (take (Z.to_nat (j - i)) s)) → wp (copy_at d i j s) Q.
Proof. intros. unfold copy_at. zcases. done. Qed.

(** The common case: the source fills the destination range. *)
Lemma wp_copy_fit d i j s Q :
  0 <= i → i + len s <= j → j <= len d →
  Q (splice d i s) → wp (copy_at d i j s) Q.
Proof.
  intros. apply wp_copy_at; [lia..|]. rewrite take_ge by lia. done.
Qed.

Lemma wp_copy_from d i s Q :
  0 <= i → i <= len d →
  Q (splice d i (take (Z.to_nat (len d - i)) s)) → wp (copy_from d i s) Q.
Proof. intros. unfold copy_from. apply wp_copy_at; auto; lia. Qed.

Lemma wp_be16 l i Q : 0 <= i → i + 2 <= len l → Q (get16 l i) → wp (be16 l i) Q.
Proof. intros. unfold be16. zcases. done. Qed.

Lemma wp_be32 l i Q : 0 <= i → i + 4 <= len l → Q (get32 l i) → wp (be32 l i) Q.
Proof. intros. unfold be32. zcases. done. Qed.

Lemma wp_put16 l i v Q :
  0 <= i → i + 2 <= len l → Q (splice l i (bytes16 (u16 v))) → wp (put16 l i v) Q.
Proof. intros. unfold put16. apply wp_copy_fit; simpl; auto; lia. Qed.

Lemma wp_put32 l i v Q :
  0 <= i → i + 4 <= len l → Q (splice l i (bytes32 (u32 v))) → wp (put32 l i v) Q.
Proof. intros. unfold put32. apply wp_copy_fit; simpl; auto; lia. Qed.
End wp_slices.

(** Lengths of the terms the rules introduce. *)
(** The same as equations. *)
Lemma idx_ret (l : bytes) (i : Z) : 0 <= i < len l → idx l i = Ret (get l i).
Proof. intros H. unfold idx. zcases. done. Qed.

Lemma slice_ret (l : bytes) (i j : Z) : 0 <= i → i <= j → j <= len l → slice l i j = Ret (sub l i j).
Proof. intros. unfold slice. zcases. done. Qed.

Lemma be16_ret (l : bytes) (i : Z) : 0 <= i → i + 2 <= len l → be16 l i = Ret (get16 l i).
Proof. intros. unfold be16. zcases. done. Qed.

Lemma len_take_le (n : nat) (l : bytes) : len (take n l) <= Z.of_nat n.
Proof. rewrite length_take. lia. Qed.

Lemma len_bytes16 (v : Z) : len (bytes16 v) = 2.
Proof. done. Qed.
Lemma len_bytes32 (v : Z) : len (bytes32 v) = 4.
Proof. done. Qed.

Lemma len_cons (x : Z) (l : bytes) : len (x :: l) = 1 + len l.
Proof. cbn [length]. lia. Qed.

(** [len_simp] rewrites the lengths of buffers built by the operations, side
    conditions by [lia]. *)
Ltac len_simp :=
  repeat match goal with
  | |- context [len (splice ?d ?i ?s)] => rewrite (len_splice d i s) by (len_simp; zlia)
  | |- context [len (<[?n := ?v]> ?l)] => rewrite (len_insert l n v)
  | |- context [len (replicate ?n ?v)] => rewrite (len_replicate n v)
  | |- context [len (sub ?l ?i ?j)] => rewrite (len_sub l i j) by (len_simp; zlia)
  | |- context [len (bytes16 ?v)] => rewrite (len_bytes16 v)
  | |- context [len (bytes32 ?v)] => rewrite (len_bytes32 v)
  | |- context [len (?a ++ ?b)] => rewrite (len_app a b)
  | |- context [len (?x :: ?l)] => rewrite (len_cons x l)
  | |- context [length (@nil ?A)] => change (length (@nil A)) with 0%nat
  | |- context [length (take ?n ?l)] => rewrite (length_take l n)
  end.
Ltac len_lia := bprop; len_simp; lia.

(** [wp_step] runs one Go statement: it applies the rule of the operation and
    proves its range condition, or stops. *)
Ltac wp_step :=
  lazymatch goal with
  | |- wp (Ret _) _ => apply wp_ret
  | |- wp (go_bind _ _) _ => apply wp_bind
  | |- wp (idx _ _) _ => apply wp_idx; [solve [len_lia]|]
  | |- wp (slice _ _ _) _ => apply wp_slice; [solve [len_lia]..|]
  | |- wp (slice_from _ _) _ => apply wp_slice_from; [solve [len_lia]..|]
  | |- wp (upd _ _ _) _ => apply wp_upd; [solve [len_lia]|]
  | |- wp (make _) _ => apply wp_make; [solve [len_lia]|]
  | |- wp (copy_at _ _ _ _) _ => apply wp_copy_at; [solve [len_lia]..|]
  | |- wp (copy_from _ _ _) _ => apply wp_copy_from; [solve [len_lia]..|]
  | |- wp (be16 _ _) _ => apply wp_be16; [solve [len_lia]..|]
  | |- wp (be32 _ _) _ => apply wp_be32; [solve [len_lia]..|]
  | |- wp (put16 _ _ _) _ => apply wp_put16; [solve [len_lia]..|]
  | |- wp (put32 _ _ _) _ => apply wp_put32; [solve [len_lia]..|]
  | |- wp (if ?b then _ else _) _ => destruct b eqn:?
  | |- wp (let _ := _ in _) _ => cbv zeta
  end.
Ltac wp_run := repeat (wp_step; cbv beta).

(** Taking a sub-slice apart. *)
Lemma sub_cons (l : bytes) (i j : Z) :
  0 <= i → i < j → j <= len l → sub l i j = get l i :: sub l (i + 1) j.
Proof.
  intros. apply list_ext_get.
  - cbn [length]. rewrite Nat2Z.inj_succ. len_simp; lia.
  - rewrite len_sub by lia. intros k Hk. rewrite get_cons, !get_sub by lia.
    zcases; f_equal; lia.
Qed.

Lemma sub_nil (l : bytes) (i : Z) : sub l i i = [].
Proof. unfold sub. by rewrite Z.sub_diag. Qed.

Lemma sub_full (l : bytes) : sub l 0 (len l) = l.
Proof. unfold sub. rewrite Z.sub_0_r, Nat2Z.id. simpl. by rewrite firstn_all. Qed.

Lemma sub_app (l : bytes) (i j k : Z) :
  0 <= i → i <= j → j <= k → k <= len l → sub l i k = sub l i j ++ sub l j k.
Proof.
  intros. apply list_ext_get.
  - len_simp; lia.
  - rewrite len_sub by lia. intros n Hn. rewrite get_app, len_sub, !get_sub by lia.
    zcases; f_equal; lia.
Qed.

Lemma sub_splice (l s : bytes) (i a b : Z) :
  0 <= a → a <= i → i + len s <= b → b <= len l →
  sub (splice l i s) a b = splice (sub l a b) (i - a) s.
Proof.
  intros. apply list_ext_get.
  - len_simp; lia.
  - intros k Hk. rewrite len_sub in Hk by (len_simp; lia).
    rewrite get_splice by (len_simp; lia). rewrite !get_sub by lia.
    rewrite get_splice by lia. zcases; f_equal; lia.
Qed.

(** A sub-slice that does not meet the rewritten range. *)
Lemma sub_splice_out (l s : bytes) (i a b : Z) :
  0 <= i → i + len s <= len l → 0 <= a → a <= b → b <= len l →
  b <= i ∨ i + len s <= a → sub (splice l i s) a b = sub l a b.
Proof.
  intros. apply list_ext_get.
  - len_simp; lia.
  - intros k Hk. rewrite len_sub in Hk by (len_simp; lia).
    rewrite !get_sub, get_splice by lia. zcases; f_equal; lia.
Qed.

Lemma splice_splice (l s t : bytes) (i : Z) :
  0 <= i → i + len s <= len l → len t = len s →
  splice (splice l i s) i t = splice l i t.
Proof.
  intros. apply list_ext_get.
  - len_simp; lia.
  - intros k Hk. rewrite !get_splice by (len_simp; lia). zcases; reflexivity.
Qed.

(** Two single-byte writes in a row. *)
Lemma insert2_splice (l : bytes) (i v w : Z) :
  0 <= i → i + 2 <= len l →
  <[Z.to_nat (i + 1) := w]> (<[Z.to_nat i := v]> l) = splice l i [v; w].
Proof.
  intros. apply list_ext_get.
  - len_lia.
  - intros k Hk. rewrite !get_insert, get_splice by len_lia.
    rewrite !get_cons, get_nil. simpl length. zcases; reflexivity.
Qed.

(** The range of the header length fields, which hold four bits. *)
Lemma land15_range (z : Z) : 0 <= z → 0 <= Z.land z 15 < 16.
Proof.
  intros. change 15 with (Z.ones 4). rewrite Z.land_ones by lia.
  apply Z.mod_pos_bound. lia.
Qed.

(** Drop the 32-bit wrap-arounds whose argument is in range, innermost first. *)
Ltac u32_inner := repeat match goal with
  | |- context [u32 ?z] =>
      lazymatch z with context [u32 _] => fail | _ => rewrite (u32_small z) by lia end
  end.

(** [f(l[i:j])] where [f] rewrites the slice it is given, which shares [l]'s
    storage. *)
Definition on_slice (f : bytes → go bytes) (l : bytes) (i j : Z) : go bytes :=
  let! s := slice l i j in
  let! s := f s in
  Ret (splice l i s).

(** [x &^ y] *)
Abbreviation andnot := Z.ldiff.

Lemma andnot7 (x : Z) : andnot x 7 = 8 * (x / 8).
Proof.
  change 7 with (Z.ones 3). rewrite Z.ldiff_ones_r, Z.shiftr_div_pow2, Z.shiftl_mul_pow2 by lia.
  change (2 ^ 3) with 8. lia.
Qed.

Lemma take_ge_len (n : Z) (l : bytes) : len l <= n → take (Z.to_nat n) l = l.
Proof. intros. apply take_ge. lia. Qed.

(** Read through every update of a buffer, side conditions by arithmetic. *)
Ltac get_step :=
  match goal with
  | |- context [get (splice ?d ?i ?s) ?k] => rewrite (get_splice d i s k) by len_lia
  | |- context [get (<[Z.to_nat ?i := ?v]> ?l) ?k] => rewrite (get_insert l i v k) by len_lia
  | |- context [get (sub ?l ?i ?j) ?k] => rewrite (get_sub l i j k) by len_lia
  | |- context [get (replicate ?n ?v) ?k] => rewrite (get_replicate n v k)
  | |- context [get (?a ++ ?b) ?k] => rewrite (get_app a b k)
  | |- context [get (?x :: ?l) ?k] => rewrite (get_cons x l k)
  | |- context [get [] ?k] => rewrite (get_nil k)
  end.
Ltac gets := repeat (get_step; len_simp; zcases).
Ltac u16_inner := repeat match goal with
  | |- context [u16 ?z] =>
      lazymatch z with
      | context [u16 _] => fail
      | _ => rewrite (u16_small z) by (Z.div_mod_to_equations; lia)
      end
  end.

Lemma take_sub (n : Z) (l : bytes) : take (Z.to_nat n) l = sub l 0 n.
Proof. unfold sub. by rewrite Z.sub_0_r. Qed.

(** Bytes are closed under the bit operations. *)
Lemma lor_bound (a b n : Z) :
  0 <= n → 0 <= a < 2 ^ n → 0 <= b < 2 ^ n → 0 <= Z.lor a b < 2 ^ n.
Proof.
  intros Hn Ha Hb. split; [apply Z.lor_nonneg; lia|].
  destruct (Z.eq_dec (Z.lor a b) 0) as [->|Hz]; [lia|].
  assert (0 <= Z.lor a b) by (apply Z.lor_nonneg; lia).
  apply Z.log2_lt_pow2; [lia|]. rewrite Z.log2_lor by lia.
  assert (∀ c, 0 <= c < 2 ^ n → c = 0 ∨ Z.log2 c < n) as Hlog.
  { intros c Hc. destruct (Z.eq_dec c 0); [by left|right]. apply Z.log2_lt_pow2; lia. }
  pose proof (Z.log2_nonneg a). pose proof (Z.log2_nonneg b).
  destruct (Hlog a Ha) as [->|], (Hlog b Hb) as [->|].
  - by rewrite Z.lor_0_l in Hz.
  - rewrite (Z.log2_nonpos 0) by lia. lia.
  - rewrite (Z.log2_nonpos 0) by lia. lia.
  - lia.
Qed.

Lemma is_byte_lor (a b : Z) : is_byte a → is_byte b → is_byte (Z.lor a b).
Proof. intros. apply (lor_bound a b 8); [lia|assumption..]. Qed.

Lemma is_byte_lxor (a b : Z) : is_byte a → is_byte b → is_byte (Z.lxor a b).
Proof.
  unfold is_byte. intros Ha Hb. assert (0 <= Z.lxor a b) as H by (apply Z.lxor_nonneg; lia).
  split; [done|]. destruct (decide (Z.lxor a b = 0)) as [->|Hne]; [done|].
  apply (Z.log2_lt_pow2 _ 8); [lia|]. eapply Z.le_lt_trans; [apply Z.log2_lxor; lia|].
  apply Z.max_lub_lt.
  - destruct (decide (a = 0)) as [->|]; [done|]. apply Z.log2_lt_pow2; lia.
  - destruct (decide (b = 0)) as [->|]; [done|]. apply Z.log2_lt_pow2; lia.
Qed.

Lemma is_byte_land (a b : Z) : is_byte a → 0 <= b → is_byte (Z.land a b).
Proof.
  unfold is_byte. intros Ha Hb.
  assert (a = Z.land a (Z.ones 8)) as ->.
  { rewrite Z.land_ones by lia. symmetry. by apply Z.mod_small. }
  rewrite <- Z.land_assoc, (Z.land_comm (Z.ones 8)), Z.land_assoc, Z.land_ones by lia.
  apply Z.mod_pos_bound. lia.
Qed.
#[export] Hint Resolve is_byte_lor : b4.
#[export] Hint Extern 1 (is_byte (Z.land _ _)) => apply is_byte_land; [|lia] : b4.

Lemma bytes16_get16 (p : bytes) (i : Z) :
  bytes_ok p → bytes16 (get16 p i) = [get p i; get p (i + 1)].
Proof.
  intros H. rewrite get16_val by done. pose proof (bytes_ok_get p i H).
  pose proof (bytes_ok_get p (i + 1) H). unfold is_byte, bytes16, u8 in *.
  rewrite Z.shiftr_div_pow2 by lia. change (2 ^ 8) with 256.
  f_equal; [|f_equal]; Z.div_mod_to_equations; lia.
Qed.

(** [bytes_ok] of a concrete buffer, by evaluation. *)
Definition bytes_okb (l : bytes) : bool := forallb (λ b, (0 <=? b) && (b <? 256)) l.
Lemma bytes_okb_spec (l : bytes) : bytes_okb l = true → bytes_ok l.
Proof.
  unfold bytes_okb, bytes_ok. induction l as [|b l IH]; cbn; [constructor|].
  intros [Hb Hl]%andb_true_iff. constructor; [unfold is_byte; zlia|auto].
Qed.

(** Close a goal that evaluates to arithmetic on literals. *)
Ltac vmc := vm_compute; repeat split; try discriminate; try reflexivity.

(** ** Reading a buffer of known contents

    [at_pos l i r]: from position [i] on, [l] holds [r].  A decoder that reads an
    encoded message is run by these rules. *)
Definition at_pos (l : bytes) (i : Z) (r : bytes) : Prop := ∃ pre, l = pre ++ r ∧ i = len pre.

Lemma at_pos_start (l : bytes) : at_pos l 0 l.
Proof. by exists []. Qed.

Lemma at_pos_len (l : bytes) (i : Z) (r : bytes) : at_pos l i r → len l = i + len r ∧ 0 <= i.
Proof. intros (pre & -> & ->). len_simp. lia. Qed.

Lemma at_pos_app (l : bytes) (i : Z) (d r : bytes) :
  at_pos l i (d ++ r) → at_pos l (i + len d) r.
Proof. intros (pre & -> & ->). exists (pre ++ d). split; [by rewrite app_assoc|len_lia]. Qed.

Lemma at_pos_cons (l : bytes) (i x : Z) (r : bytes) : at_pos l i (x :: r) → at_pos l (i + 1) r.
Proof. apply (at_pos_app l i [x] r). Qed.

Lemma at_pos_get (l : bytes) (i k : Z) (r : bytes) :
  at_pos l i r → 0 <= k → get l (i + k) = get r k.
Proof. intros (pre & -> & ->) Hk. rewrite get_app. zcases. f_equal. lia. Qed.

Lemma at_pos_idx (l : bytes) (i x : Z) (r : bytes) : at_pos l i (x :: r) → idx l i = Ret x.
Proof.
  intros H. destruct (at_pos_len _ _ _ H) as [Hl Hi]. pose proof (at_pos_get _ _ 0 _ H) as Hg.
  rewrite Z.add_0_r in Hg. unfold idx. cbn [length] in Hl. zcases. by rewrite Hg.
Qed.

Lemma at_pos_be16 (l : bytes) (i v : Z) (r : bytes) :
  at_pos l i (bytes16 v ++ r) → 0 <= v < 65536 → be16 l i = Ret v.
Proof.
  intros H Hv. destruct (at_pos_len _ _ _ H) as [Hl Hi]. unfold be16.
  pose proof (at_pos_get _ _ 0 _ H ltac:(lia)) as H0.
  pose proof (at_pos_get _ _ 1 _ H ltac:(lia)) as H1. rewrite Z.add_0_r in H0.
  cbn [length app bytes16] in Hl. zcases. f_equal. unfold get16. rewrite H0, H1.
  change (get (bytes16 v ++ r) 0) with (u8 (Z.shiftr v 8)).
  change (get (bytes16 v ++ r) 1) with (u8 v).
  pose proof (is_byte_u8 v) as Hb. unfold is_byte in Hb.
  rewrite lor_shiftl_add by lia. by apply bytes16_val.
Qed.

Lemma at_pos_get16 (l : bytes) (i v : Z) (r : bytes) :
  0 <= v < 65536 → at_pos l i (bytes16 v ++ r) → get16 l i = v.
Proof.
  intros Hv H. pose proof (at_pos_be16 _ _ _ _ H Hv) as Hb. unfold be16 in Hb.
  revert Hb. case_if; [by injection 1|done].
Qed.

Lemma at_pos_slice (l : bytes) (i j : Z) (d r : bytes) :
  at_pos l i (d ++ r) → j = i + len d → slice l i j = Ret d.
Proof.
  intros H ->. destruct (at_pos_len _ _ _ H) as [Hl Hi]. rewrite len_app in Hl.
  unfold slice. zcases. f_equal. apply list_ext_get; [len_lia|].
  intros k Hk. rewrite len_sub in Hk by lia. rewrite get_sub by lia. zcases.
  rewrite (at_pos_get _ _ _ _ H) by lia. rewrite get_app. zcases. done.
Qed.

Lemma at_pos_slice_from (l : bytes) (i : Z) (r : bytes) : at_pos l i r → slice_from l i = Ret r.
Proof.
  intros H. destruct (at_pos_len _ _ _ H) as [Hl _]. unfold slice_from.
  rewrite <- (app_nil_r r) in H. by apply (at_pos_slice _ _ _ _ _ H).
Qed.

Lemma at_pos_slice_sub (l : bytes) (i a b : Z) (r : bytes) :
  at_pos l i r → 0 <= a → a <= b → b <= len r → slice l (i + a) (i + b) = Ret (sub r a b).
Proof.
  intros H Ha Hb Hr. destruct (at_pos_len _ _ _ H) as [Hl Hi]. unfold slice.
  case_if; [|zlia]. f_equal. apply list_ext_get; [len_simp; lia|]. intros k Hk.
  rewrite len_sub in Hk by lia. rewrite !get_sub by lia. zcases.
  rewrite <- Z.add_assoc. by apply at_pos_get; [|lia].
Qed.

Lemma at_pos_be32 (l : bytes) (i v : Z) (r : bytes) :
  at_pos l i (bytes32 v ++ r) → 0 <= v < 4294967296 → be32 l i = Ret v.
Proof.
  intros H Hv. destruct (at_pos_len _ _ _ H) as [Hl Hi]. unfold be32.
  revert Hl. len_simp. intros Hl. destruct (_ && _) eqn:E; [|zlia].
  pose proof (at_pos_get _ _ 0 _ H ltac:(lia)) as H0. rewrite Z.add_0_r in H0.
  pose proof (at_pos_get _ _ 1 _ H ltac:(lia)) as H1.
  pose proof (at_pos_get _ _ 2 _ H ltac:(lia)) as H2.
  pose proof (at_pos_get _ _ 3 _ H ltac:(lia)) as H3.
  transitivity (Ret (get32 (bytes32 v) 0)).
  { f_equal. unfold get32. by rewrite H0, H1, H2, H3. }
  rewrite get32_val by apply bytes_ok_bytes32. f_equal. by apply bytes32_val.
Qed.

(** The reads of a decoder over known contents, as rewriting steps. *)
Ltac read16 H :=
  znorm; rewrite (at_pos_be16 _ _ _ _ H) by lia; cbn [go_bind]; apply at_pos_app in H;
  rewrite len_bytes16 in H; znorm_in H; znorm.
Ltac read8 H :=
  znorm; rewrite (at_pos_idx _ _ _ _ H); cbn [go_bind]; apply at_pos_cons in H;
  znorm_in H; znorm.
Ltac skip_if := match goal with |- context [if ?b then _ else _] => destruct b eqn:?; [zlia|] end.

(** The ranges of every byte and 16-bit field the goal reads from [l]. *)
Ltac read_ranges Hok :=
  let l := lazymatch type of Hok with bytes_ok ?l => l end in
  repeat match goal with
  | |- context [get16 l ?i] =>
      lazymatch goal with
      | H : 0 <= get16 l i < _ |- _ => fail
      | _ => pose proof (get16_range l i Hok)
      end
  | |- context [get l ?i] =>
      lazymatch goal with
      | H : 0 <= get l i < _ |- _ => fail
      | _ => pose proof (bytes_ok_get l i Hok : 0 <= get l i < 256)
      end
  end.
