(* ===== verification/Config.v ===== *)
(** * Configuration

    The settings of src/src/config/types.go that the modelled code reads, and its
    three random choices.  A field whose name the Go structs share has the initial of
    its struct in front. *)

From Stdlib Require Import ZArith Lia.
From Stdlib Require Ascii Strings.String.
From stdpp Require Import base list numbers strings gmap.
From S2P Require Import Prelude.

Local Open Scope Z_scope.

(** The bytes of a string, [[]byte(s)]. *)
Definition string_bytes (s : string) : bytes :=
  map (λ c, Z.of_nat (Ascii.nat_of_ascii c)) (Strings.String.list_ascii_of_string s).

Definition ConfigOff : string := "off".
Definition ConfigNone : string := "none".

(** The kinds of fake payload. *)
Definition FakePayloadRandom : Z := 0.
Definition FakePayloadCustom : Z := 1.
Definition FakePayloadDefault1 : Z := 2.
Definition FakePayloadDefault2 : Z := 3.
Definition FakePayloadCapture : Z := 4.
Definition FakePayloadZero : Z := 5.
Definition FakePayloadInverted : Z := 6.
Definition FakePayloadDomain : Z := 7.
Definition FakePayloadAutoQUIC : string := "@quic_initial".

Record ComboFragConfig := {
  FirstByteSplit : bool; ExtensionSplit : bool; c_ShuffleMode : string; DecoyEnabled : bool;
  FirstDelayMs : Z; FirstDelayMsMax : Z; JitterMaxUs : Z; JitterMaxUsMax : Z;
  c_FakePerSegment : bool; c_FakePerSegCount : Z; c_FakePerSegCountMax : Z }.

Record DisorderFragConfig := {
  d_ShuffleMode : string; MinJitterUs : Z; MaxJitterUs : Z; d_FakePerSegment : bool;
  d_FakePerSegCount : Z; d_FakePerSegCountMax : Z }.

Record FragmentationConfig := {
  Strategy : string; ReverseOrder : bool; StrategyPool : list string;
  TLSRecordPosition : Z; TLSRecordPositionMax : Z; MiddleSNI : bool;
  SNIPosition : Z; SNIPositionMax : Z; OOBPosition : Z; OOBPositionMax : Z; OOBChar : Z;
  SeqOverlapPattern : list string; SeqOverlapBytes : bytes; SeqOverlapLength : Z;
  Combo : ComboFragConfig; Disorder : DisorderFragConfig }.

Record SNIMutationConfig := {
  Mode : string; GreaseCount : Z; PaddingSize : Z; FakeExtCount : Z; FakeSNIs : list bytes }.

Record FakingConfig := {
  SNI : bool; FakingTTL : Z; f_Strategy : string; SeqOffset : Z; SNISeqLength : Z; SNIType : Z;
  CustomPayload : bytes; PayloadFile : string; PayloadDomain : string; PayloadData : bytes; TLSMod : list string; TimestampDecrease : Z;
  SNIMutation : SNIMutationConfig; TCPMD5 : bool }.

Record DesyncConfig := { ds_Mode : string; ds_TTL : Z; ds_Count : Z; PostDesync : bool }.
Record WinConfig := { w_Mode : string; w_Values : list Z }.

Record IncomingConfig := {
  in_Mode : string; in_Min : Z; in_Max : Z; in_FakeTTL : Z; in_FakeCount : Z; in_Strategy : string }.
Record DuplicateConfig := { dup_Enabled : bool; dup_Count : Z }.
Record IPBlockDetectConfig := {
  ib_Enabled : bool; RetransmitThreshold : Z; TimeoutMs : Z; CacheBlockedIPs : bool }.
Record RSTProtectionConfig := { rp_Enabled : bool; TTLTolerance : Z }.

Record TCPConfig := {
  t_ConnBytesLimit : Z; Seg2Delay : Z; Seg2DelayMax : Z; SynFake : bool; SynFakeLen : Z; SynTTL : Z;
  DropSACK : bool; t_DPortFilter : string; Incoming : IncomingConfig; Desync : DesyncConfig; Win : WinConfig;
  Duplicate : DuplicateConfig; IPBlockDetect : IPBlockDetectConfig; RSTProtection : RSTProtectionConfig }.

Record UDPConfig := {
  u_Mode : string; u_FakeSeqLength : Z; u_FakeLen : Z; u_FakingStrategy : string;
  u_FakePayloadFile : string; u_FakePayloadData : bytes; u_DPortFilter : string; u_FilterQUIC : string;
  u_FilterSTUN : bool; u_ConnBytesLimit : Z; u_Seg2Delay : Z; u_Seg2DelayMax : Z }.

Record TargetsConfig := {
  SNIDomains : list string; IPs : list string; GeoSiteCategories : list string; GeoIpCategories : list string;
  SourceDevices : list string; SourceDevicesExclude : bool; DomainOnly : bool; TLSVersion : string;
  IPVersion : string; DomainsToMatch : list string; IpsToMatch : list string }.

Record DNSConfig := { dns_Enabled : bool; TargetDNS : string; DoHURL : string; FragmentQuery : bool }.
Record UpstreamProxyConfig := {
  up_Host : string; up_Port : Z; up_Username : string; up_Password : string; FailOpen : bool; UseDomain : bool;
  up_UDP : bool }.
Record RoutingConfig := {
  rt_Enabled : bool; rt_Mode : string; EgressInterface : string; Upstream : UpstreamProxyConfig; FWMark : Z;
  Table : Z; SourceInterfaces : list string; IPTTLSeconds : Z; BlockAction : string }.
Record EscalateConfig := { To : string; RstThreshold : Z; RstWindowSec : Z; TtlSec : Z }.
Record MSSClampConfig := { mss_Enabled : bool; mss_Size : Z }.
(** A range of ports, [PortRange] with its [Min] and [Max]. *)
Abbreviation PortRange := (Z * Z)%type.

Record SetConfig := {
  Id : string; Name : string; TCP : TCPConfig; UDP : UDPConfig; Fragmentation : FragmentationConfig;
  Faking : FakingConfig; Targets : TargetsConfig; Enabled : bool; DNS : DNSConfig;
  TCPPortRanges : list PortRange; UDPPortRanges : list PortRange; Routing : RoutingConfig;
  Escalate : EscalateConfig; MSSClamp : MSSClampConfig }.

(** The settings of the whole program; of [Queue] and [System] the fields the modelled
    code reads. *)
Record Device := { MAC : string; dev_MSSClamp : Z; Selected : bool; IsManual : bool }.
Record QueueConfig := {
  q_Mode : string; StartNum : Z; Threads : Z; Mark : Z; TCPConnBytesLimit : Z; UDPConnBytesLimit : Z;
  Interfaces : list string; Devices : list Device; q_MSSClamp : MSSClampConfig; IsDiscovery : bool;
  IPv4Enabled : bool; IPv6Enabled : bool }.
Record WebServerConfig := { web_Port : Z; TLSCert : string; TLSKey : string; IsEnabled : bool }.
Record Socks5Config := { s5_Enabled : bool; s5_Port : Z }.
Record MTProtoConfig := {
  mt_Enabled : bool; mt_Port : Z; MaxConnections : Z; TCPUserTimeoutSec : Z; IdleTimeoutSec : Z;
  UpstreamMode : string; WSEndpointHost : string }.
Record SystemConfig := {
  WebServer : WebServerConfig; Socks5 : Socks5Config; MTProto : MTProtoConfig; MemoryLimit : string;
  GeoSitePath : string; GeoIpPath : string; Directory : string; Masquerade : bool;
  DiscoveryFlowMark' : Z; DiscoveryInjectedMark' : Z }.
(** [tcpPortMap] holds the ports that the Go map maps to true. *)
Record Config := {
  Queue : QueueConfig; System : SystemConfig; Sets : list SetConfig; tcpPortMap : option (gset Z);
  ConfigPath : string }.

(** ** Values of the settings *)

Definition RoutingModeInterface : string := "interface".
Definition RoutingModeProxy : string := "proxy".
Definition RoutingModeMTProtoWS : string := "mtproto-ws".
Definition RoutingModeBlock : string := "block".
Definition BlockActionDrop : string := "drop".
Definition BlockActionReject : string := "reject".

Definition RoutingUsesTProxy (mode : string) : bool :=
  bool_decide (mode = RoutingModeProxy) || bool_decide (mode = RoutingModeMTProtoWS).
Definition RoutingIsBlock (mode : string) : bool := bool_decide (mode = RoutingModeBlock).
Definition NormalizeBlockAction (action : string) : string :=
  if bool_decide (action = BlockActionDrop) then BlockActionDrop else BlockActionReject.

Definition DefaultSetConfig : SetConfig := {|
  Id := ""; Name := ""; Enabled := true;
  UDP := {| u_Mode := "fake"; u_FakeSeqLength := 6; u_FakeLen := 64; u_FakingStrategy := "none";
    u_FakePayloadFile := ""; u_FakePayloadData := []; u_DPortFilter := ""; u_FilterQUIC := "disabled";
    u_FilterSTUN := true; u_ConnBytesLimit := 8; u_Seg2Delay := 0; u_Seg2DelayMax := 0 |};
  TCP := {| t_ConnBytesLimit := 19; Seg2Delay := 0; Seg2DelayMax := 0; SynFake := false; SynFakeLen := 0;
    SynTTL := 7; t_DPortFilter := ""; DropSACK := false;
    Win := {| w_Mode := ConfigOff; w_Values := [0; 1460; 8192; 65535] |};
    Desync := {| ds_Mode := ConfigOff; ds_TTL := 7; ds_Count := 3; PostDesync := false |};
    Incoming := {| in_Mode := ConfigOff; in_Min := 14; in_Max := 14; in_FakeTTL := 7; in_FakeCount := 3;
      in_Strategy := "badsum" |};
    Duplicate := {| dup_Enabled := false; dup_Count := 3 |};
    IPBlockDetect := {| ib_Enabled := false; RetransmitThreshold := 3; TimeoutMs := 3000; CacheBlockedIPs := true |};
    RSTProtection := {| rp_Enabled := false; TTLTolerance := 3 |} |};
  DNS := {| dns_Enabled := false; FragmentQuery := false; TargetDNS := ""; DoHURL := "" |};
  Routing := {| rt_Enabled := false; rt_Mode := RoutingModeInterface; EgressInterface := "";
    Upstream := {| up_Host := ""; up_Port := 0; up_Username := ""; up_Password := ""; FailOpen := false;
      UseDomain := true; up_UDP := false |};
    FWMark := 0; Table := 0; SourceInterfaces := []; IPTTLSeconds := 3600; BlockAction := BlockActionReject |};
  Fragmentation := {| Strategy := "combo"; ReverseOrder := true; StrategyPool := []; MiddleSNI := true;
    SNIPosition := 1; SNIPositionMax := 0; OOBPosition := 0; OOBPositionMax := 0; OOBChar := 120;
    TLSRecordPosition := 0; TLSRecordPositionMax := 0; SeqOverlapBytes := []; SeqOverlapPattern := [];
    SeqOverlapLength := 0;
    Combo := {| FirstByteSplit := true; ExtensionSplit := true; c_ShuffleMode := "full"; FirstDelayMs := 30;
      FirstDelayMsMax := 0; JitterMaxUs := 1000; JitterMaxUsMax := 0; DecoyEnabled := false;
      c_FakePerSegment := false; c_FakePerSegCount := 1; c_FakePerSegCountMax := 0 |};
    Disorder := {| d_ShuffleMode := "full"; MinJitterUs := 1000; MaxJitterUs := 3000; d_FakePerSegment := false;
      d_FakePerSegCount := 1; d_FakePerSegCountMax := 0 |} |};
  Faking := {| SNI := true; FakingTTL := 7; SNISeqLength := 1; SNIType := FakePayloadDefault1; CustomPayload := [];
    f_Strategy := "pastseq"; SeqOffset := 10000; PayloadFile := ""; PayloadDomain := ""; PayloadData := [];
    TLSMod := []; TimestampDecrease := 600000; TCPMD5 := false;
    SNIMutation := {| Mode := ConfigOff; GreaseCount := 3; PaddingSize := 2048; FakeExtCount := 5;
      FakeSNIs := [string_bytes "ya.ru"; string_bytes "vk.com"; string_bytes "max.ru"] |} |};
  Targets := {| SNIDomains := []; IPs := []; GeoSiteCategories := []; GeoIpCategories := []; SourceDevices := [];
    SourceDevicesExclude := false; DomainOnly := false; TLSVersion := ""; IPVersion := ""; DomainsToMatch := [];
    IpsToMatch := [] |};
  Escalate := {| To := ""; RstThreshold := 3; RstWindowSec := 30; TtlSec := 3600 |};
  TCPPortRanges := []; UDPPortRanges := []; MSSClamp := {| mss_Enabled := false; mss_Size := 0 |} |}.

(** ** What a set matches *)

Definition TLSVersionCode (filter : string) : Z :=
  if bool_decide (filter = "1.0") then 0x0301
  else if bool_decide (filter = "1.1") then 0x0302
  else if bool_decide (filter = "1.2") then 0x0303
  else if bool_decide (filter = "1.3") then 0x0304
  else 0.
Definition TLSVersionString (ver : Z) : string :=
  if ver =? 0x0301 then "1.0" else if ver =? 0x0302 then "1.1"
  else if ver =? 0x0303 then "1.2" else if ver =? 0x0304 then "1.3" else "".

Definition MatchesTLSVersion (set : SetConfig) (tlsVersion : Z) : bool :=
  if bool_decide (TLSVersion (Targets set) = "") then true
  else let filterVer := TLSVersionCode (TLSVersion (Targets set)) in
       if filterVer =? 0 then false else (tlsVersion =? 0) || (tlsVersion =? filterVer).
Definition MatchesIPVersion (set : SetConfig) (version : Z) : bool :=
  let f := IPVersion (Targets set) in
  if bool_decide (f = "") then true
  else if bool_decide (f = "4") then (version =? 0) || (version =? 4)
  else if bool_decide (f = "6") then (version =? 0) || (version =? 6)
  else false.
Definition HasIPOrDomainTargets (set : SetConfig) : bool :=
  negb (bool_decide (IpsToMatch (Targets set) = [])) || negb (bool_decide (DomainsToMatch (Targets set) = [])).

Definition port_in (port : Z) (r : PortRange) : bool := (fst r <=? port) && (port <=? snd r).
Definition MatchesTCPDPort (set : SetConfig) (port : Z) : bool :=
  bool_decide (TCPPortRanges set = []) || existsb (port_in port) (TCPPortRanges set).
Definition MatchesUDPDPort (set : SetConfig) (port : Z) : bool :=
  bool_decide (UDPPortRanges set = []) || existsb (port_in port) (UDPPortRanges set).

(** ** Random choices *)

(** [min + rand.Intn(max-min+1)] for the draw [d]. *)
Definition ResolveRange (d min max : Z) : Z :=
  if max <=? min then min else min + d mod (max - min + 1).
Definition ResolveSeg2Delay (d min max : Z) : Z := ResolveRange d min max.
Definition ResolveStrategyPool (d : Z) (pool : list string) (fallback : string) : string :=
  if bool_decide (pool = []) then fallback
  else default fallback (pool !! Z.to_nat (d mod Z.of_nat (length pool))).
