(* ===== verification/Checksum.v ===== *)
(** * Internet checksums of package [sock]

    The one's-complement checksum routines of src/src/sock/fake_ipv4.go,
    fake_ipv6.go, udp_ipv4.go and udp_ipv6.go: the 16-bit summing loops, the
    carry fold, and the six routines that rewrite a header's checksum field in
    place.  The reference definition is [wsum], the plain sum of the big-endian
    words of a byte string; a checksum verifies when that sum is a non-zero
    multiple of 65535 (its fold is 0xffff, RFC 1071). *)

From Stdlib Require Import ZArith Lia.
From stdpp Require Import base list numbers.
From S2P Require Import Prelude.

Local Open Scope Z_scope.

(** ** The code *)

(** [for i := ..; i < stop; i += 2 { sum += uint32(BigEndian.Uint16(l[i:i+2])) }] *)
Fixpoint sum_words (fuel : nat) (l : bytes) (i stop sum : Z) : go Z :=
  match fuel with
  | O => Spin
  | S f =>
      if i <? stop
      then let! w := be16 l i in sum_words f l (i + 2) stop (u32 (sum + w))
      else Ret sum
  end.

(** The loop over whole words followed by the odd last byte, shifted up. *)
Definition sum_segment (l : bytes) (sum : Z) : go Z :=
  let! sum := sum_words (S (length l)) l 0 (len l - 1) sum in
  if len l mod 2 =? 1
  then let! b := idx l (len l - 1) in Ret (u32 (sum + Z.shiftl b 8))
  else Ret sum.

(** [for sum > 0xffff { sum = (sum >> 16) + (sum & 0xffff) }] *)
Fixpoint fold_carry (fuel : nat) (sum : Z) : go Z :=
  match fuel with
  | O => Spin
  | S f =>
      if 65535 <? sum
      then fold_carry f (u32 (Z.shiftr sum 16 + Z.land sum 65535))
      else Ret sum
  end.

(** [^uint16(sum)] *)
Definition not16 (sum : Z) : Z := u16 (Z.lnot (u16 sum)).

Definition FixIPv4Checksum (ip : bytes) : go bytes :=
  if len ip <? 20 then Ret ip else
  let! ip := upd ip 10 0 in
  let! ip := upd ip 11 0 in
  let! b0 := idx ip 0 in
  let ihl := u8 (Z.land b0 15 * 4) in
  let! sum := sum_words (S (length ip)) ip 0 ihl 0 in
  let! sum := fold_carry 4 sum in
  put16 ip 10 (not16 sum).

Definition FixTCPChecksum (packet : bytes) : go bytes :=
  let! b0 := idx packet 0 in
  let ipHdrLen := u8 (Z.land b0 15 * 4) in
  let tcpOffset := ipHdrLen in
  let! packet := upd packet (tcpOffset + 16) 0 in
  let! packet := upd packet (tcpOffset + 17) 0 in
  let! totalLen := be16 packet 2 in
  let tcpLen := totalLen - ipHdrLen in
  let! pseudo := make 12 in
  let! src := slice packet 12 16 in
  let! pseudo := copy_at pseudo 0 4 src in
  let! dst := slice packet 16 20 in
  let! pseudo := copy_at pseudo 4 8 dst in
  let! pseudo := upd pseudo 9 6 in
  let! pseudo := put16 pseudo 10 tcpLen in
  let! sum := sum_words (S (length pseudo)) pseudo 0 (len pseudo) 0 in
  let! tcp := slice packet tcpOffset (tcpOffset + tcpLen) in
  let! sum := sum_segment tcp sum in
  let! sum := fold_carry 4 sum in
  put16 packet (tcpOffset + 16) (not16 sum).

(** [FixUDPChecksum] sums the pseudo-header word by word. *)
Definition FixUDPChecksum (packet : bytes) (ihl : Z) : go bytes :=
  if len packet <? ihl + 8 then Ret packet else
  let! udp := slice_from packet ihl in
  let udpLen := len udp in
  let! packet := upd packet (ihl + 6) 0 in
  let! packet := upd packet (ihl + 7) 0 in
  let! w12 := be16 packet 12 in
  let! w14 := be16 packet 14 in
  let! w16 := be16 packet 16 in
  let! w18 := be16 packet 18 in
  let sum := u32 (u32 (u32 (u32 (u32 w12 + w14) + w16) + w18) + 17) in
  let sum := u32 (sum + u32 udpLen) in
  let! udp := slice_from packet ihl in
  let! sum := sum_segment udp sum in
  let! sum := fold_carry 4 sum in
  let checksum := not16 sum in
  let checksum := if checksum =? 0 then 65535 else checksum in
  let! packet := upd packet (ihl + 6) (u8 (Z.shiftr checksum 8)) in
  upd packet (ihl + 7) (u8 checksum).

Definition udpChecksumIPv4 (pkt : bytes) : go bytes :=
  let! b0 := idx pkt 0 in
  let ihl := u8 (Z.shiftl (Z.land b0 15) 2) in
  let udpo := ihl in
  let! ulen := be16 pkt (udpo + 4) in
  let! pseudo := make 12 in
  let! src := slice pkt 12 16 in
  let! pseudo := copy_at pseudo 0 4 src in
  let! dst := slice pkt 16 20 in
  let! pseudo := copy_at pseudo 4 8 dst in
  let! pseudo := upd pseudo 9 17 in
  let! pseudo := put16 pseudo 10 ulen in
  let! pkt := upd pkt (udpo + 6) 0 in
  let! pkt := upd pkt (udpo + 7) 0 in
  let! sum := sum_words (S (length pseudo)) pseudo 0 (len pseudo) 0 in
  let! udp := slice pkt udpo (udpo + ulen) in
  let! sum := sum_segment udp sum in
  let! sum := fold_carry 4 sum in
  let c := not16 sum in
  let c := if c =? 0 then 65535 else c in
  put16 pkt (udpo + 6) c.

(** The 40-byte IPv6 pseudo-header that the three IPv6 routines build: source,
    destination, length and next header. *)
Definition pseudo_v6 (packet : bytes) (payloadLen proto : Z) : go bytes :=
  let! pseudo := make 40 in
  let! src := slice packet 8 24 in
  let! pseudo := copy_at pseudo 0 16 src in
  let! dst := slice packet 24 40 in
  let! pseudo := copy_at pseudo 16 32 dst in
  let! pseudo := put32 pseudo 32 payloadLen in
  upd pseudo 39 proto.

Definition FixTCPChecksumV6 (packet : bytes) : go bytes :=
  if len packet <? 40 then Ret packet else
  let ipv6HdrLen := 40 in
  let tcpOffset := ipv6HdrLen in
  let! packet := upd packet (tcpOffset + 16) 0 in
  let! packet := upd packet (tcpOffset + 17) 0 in
  let! payloadLen := be16 packet 4 in
  let! pseudo := pseudo_v6 packet payloadLen 6 in
  let! sum := sum_words (S (length pseudo)) pseudo 0 (len pseudo) 0 in
  let! tcp := slice packet tcpOffset (tcpOffset + payloadLen) in
  let! sum := sum_segment tcp sum in
  let! sum := fold_carry 4 sum in
  put16 packet (tcpOffset + 16) (not16 sum).

Definition FixUDPChecksumV6 (packet : bytes) : go bytes :=
  if len packet <? 48 then Ret packet else
  let ipv6HdrLen := 40 in
  let udpOffset := ipv6HdrLen in
  let! packet := upd packet (udpOffset + 6) 0 in
  let! packet := upd packet (udpOffset + 7) 0 in
  let! payloadLen := be16 packet 4 in
  let! pseudo := pseudo_v6 packet payloadLen 17 in
  let! sum := sum_words (S (length pseudo)) pseudo 0 (len pseudo) 0 in
  let! udp := slice packet udpOffset (udpOffset + payloadLen) in
  let! sum := sum_segment udp sum in
  let! sum := fold_carry 4 sum in
  let checksum := not16 sum in
  let checksum := if checksum =? 0 then 65535 else checksum in
  put16 packet (udpOffset + 6) checksum.

Definition udpChecksumIPv6 (pkt : bytes) : go bytes :=
  if len pkt <? 48 then Ret pkt else
  let ipv6HdrLen := 40 in
  let udpOffset := ipv6HdrLen in
  let! udpLen := be16 pkt (udpOffset + 4) in
  let! pseudo := pseudo_v6 pkt udpLen 17 in
  let! pkt := upd pkt (udpOffset + 6) 0 in
  let! pkt := upd pkt (udpOffset + 7) 0 in
  let! sum := sum_words (S (length pseudo)) pseudo 0 (len pseudo) 0 in
  let! udp := slice pkt udpOffset (udpOffset + udpLen) in
  let! sum := sum_segment udp sum in
  let! sum := fold_carry 4 sum in
  let checksum := not16 sum in
  let checksum := if checksum =? 0 then 65535 else checksum in
  put16 pkt (udpOffset + 6) checksum.

(** ** The reference: sum of big-endian words *)

Fixpoint wsum (l : bytes) : Z :=
  match l with
  | a :: b :: r => a * 256 + b + wsum r
  | [a] => a * 256
  | [] => 0
  end.

(** What the receiver checks: the words, checksum included, add up to 0xffff in
    one's complement. *)
Definition sum_verifies (s : Z) : Prop := 0 < s ∧ s mod 65535 = 0.

Lemma wsum_app (l1 l2 : bytes) :
  (len l1) mod 2 = 0 → wsum (l1 ++ l2) = wsum l1 + wsum l2.
Proof.
  intros Hev. assert (∃ n, length l1 = 2 * n)%nat as [n Hn].
  { exists (Z.to_nat (len l1 / 2)). Z.div_mod_to_equations. lia. }
  clear Hev. revert l1 Hn. induction n as [|n IH]; intros l1 Hn.
  { destruct l1; [done|simpl in Hn; lia]. }
  destruct l1 as [|a [|b r]]; simpl in Hn; [lia..|].
  cbn [wsum app]. rewrite IH by lia. lia.
Qed.

Lemma wsum_bound (l : bytes) :
  bytes_ok l → 0 <= wsum l ∧ 2 * wsum l <= 65535 * (len l + 1).
Proof.
  intros Hok. remember (length l) as n eqn:Hn. revert l Hok Hn.
  induction n as [n IH] using lt_wf_ind; intros l Hok Hn.
  destruct l as [|a [|b r]].
  - simpl in *. lia.
  - simpl in *. apply Forall_cons_1 in Hok as [Ha _]. unfold is_byte in Ha. lia.
  - apply Forall_cons_1 in Hok as [Ha Hr']. apply Forall_cons_1 in Hr' as [Hb Hr].
    destruct (IH (length r) ltac:(simpl in *; lia) r Hr eq_refl).
    unfold is_byte in *. cbn [wsum]. simpl in Hn. lia.
Qed.

(** Rewriting a word at an even offset changes the sum by the difference. *)
Lemma wsum_put (l : bytes) (i v : Z) :
  bytes_ok l → 0 <= i → i + 2 <= len l → i mod 2 = 0 → 0 <= v < 65536 →
  wsum (splice l i (bytes16 v)) = wsum l - get16 l i + v.
Proof.
  intros Hok Hi Hl Hev Hv.
  assert (splice l i (bytes16 v) = sub l 0 i ++ bytes16 v ++ sub l (i + 2) (len l)) as ->.
  { apply list_ext_get.
    - len_simp; lia.
    - intros k Hk. rewrite get_splice by (len_simp; lia).
      rewrite !get_app, !len_sub, len_bytes16, !get_sub by lia.
      zcases; try (f_equal; lia). rewrite len_splice in Hk by (len_simp; lia). lia. }
  assert (Hl' : l = sub l 0 i ++ sub l i (i + 2) ++ sub l (i + 2) (len l)).
  { by rewrite <- (sub_app l i (i + 2) (len l)), <- sub_app, sub_full by lia. }
  assert (He : len (sub l 0 i) mod 2 = 0) by (rewrite len_sub by lia; by rewrite Z.sub_0_r).
  assert (wsum l = wsum (sub l 0 i) + (wsum (sub l i (i + 2)) + wsum (sub l (i + 2) (len l)))) as ->.
  { rewrite Hl' at 1. rewrite !wsum_app; [done| |done].
    rewrite len_sub by lia. by replace (i + 2 - i) with 2 by lia. }
  rewrite !wsum_app by done.
  rewrite get16_val by done. pose proof (bytes16_val v Hv) as Hb.
  rewrite (sub_cons l i), (sub_cons l (i + 1)) by lia.
  replace (i + 1 + 1) with (i + 2) by lia. rewrite sub_nil.
  change (wsum (bytes16 v)) with (get (bytes16 v) 0 * 256 + get (bytes16 v) 1 + 0).
  cbn [wsum]. lia.
Qed.

(** ** The loops compute the reference *)

Lemma wp_sum_words (fuel : nat) (l : bytes) (i e stop sum : Z) Q :
  bytes_ok l → 0 <= i → i <= e → e <= len l → (e - i) mod 2 = 0 →
  e - 1 <= stop <= e → e - i < 2 * Z.of_nat fuel →
  0 <= sum → sum + wsum (sub l i e) < 4294967296 →
  Q (sum + wsum (sub l i e)) → wp (sum_words fuel l i stop sum) Q.
Proof.
  intros Hok. revert i sum. induction fuel as [|fuel IH];
    intros i sum Hi He Hl Hev Hst Hf Hs Hb HQ; [lia|].
  cbn [sum_words]. destruct (i <? stop) eqn:E.
  - assert (i + 2 <= e) by (bprop; Z.div_mod_to_equations; lia).
    rewrite (sub_cons l i), (sub_cons l (i + 1)) in Hb, HQ by lia.
    replace (i + 1 + 1) with (i + 2) in Hb, HQ by lia. cbn [wsum] in Hb, HQ.
    pose proof (bytes_ok_get l i Hok). pose proof (bytes_ok_get l (i + 1) Hok).
    pose proof (proj1 (wsum_bound (sub l (i + 2) e) (bytes_ok_sub l (i+2) e Hok))).
    unfold is_byte in *.
    wp_run. rewrite get16_val by done. rewrite u32_small by lia.
    apply IH; try lia; [|by rewrite Z.add_assoc in HQ].
    replace (e - (i + 2)) with (e - i + -1 * 2) by lia. by rewrite Z.mod_add.
  - assert (i = e) as -> by (bprop; Z.div_mod_to_equations; lia).
    rewrite sub_nil in HQ. simpl. by rewrite Z.add_0_r in HQ.
Qed.

Lemma wp_sum_segment (l : bytes) (sum : Z) Q :
  bytes_ok l → 0 <= sum → sum + wsum l < 4294967296 →
  Q (sum + wsum l) → wp (sum_segment l sum) Q.
Proof.
  intros Hok Hs Hb HQ. unfold sum_segment. apply wp_bind.
  pose proof (wsum_bound l Hok) as [Hw0 _].
  destruct (len l mod 2 =? 1) eqn:E; bprop.
  - assert (Hl : 0 < len l) by (Z.div_mod_to_equations; lia).
    assert (Hsplit : wsum l = wsum (sub l 0 (len l - 1)) + get l (len l - 1) * 256).
    { rewrite <- (sub_full l) at 1. rewrite (sub_app l 0 (len l - 1) (len l)) by lia.
      rewrite wsum_app by (rewrite len_sub by lia; Z.div_mod_to_equations; lia).
      rewrite (sub_cons l (len l - 1)) by lia.
      replace (len l - 1 + 1) with (len l) by lia. by rewrite sub_nil. }
    pose proof (bytes_ok_get l (len l - 1) Hok) as Hg. unfold is_byte in Hg.
    apply (wp_sum_words _ _ _ (len l - 1)); auto; try lia.
    { Z.div_mod_to_equations; lia. }
    wp_run. rewrite Z.shiftl_mul_pow2 by lia. change (2 ^ 8) with 256.
    rewrite u32_small by lia. rewrite Hsplit in HQ. by rewrite Z.add_assoc in HQ.
  - apply (wp_sum_words _ _ _ (len l)); auto; try lia; rewrite ?sub_full; try lia.
    { Z.div_mod_to_equations; lia. }
    wp_run. done.
Qed.

Lemma fold_step (s : Z) :
  0 <= s → Z.shiftr s 16 + Z.land s 65535 = s - 65535 * (s / 65536).
Proof.
  intros. change 65535 with (Z.ones 16) at 1. rewrite Z.land_ones by lia.
  rewrite Z.shiftr_div_pow2 by lia. change (2 ^ 16) with 65536.
  Z.div_mod_to_equations. lia.
Qed.

Lemma wp_fold_carry (s : Z) Q :
  0 <= s < 4294967296 →
  (∀ r, 0 <= r <= 65535 → r mod 65535 = s mod 65535 → r <= s → (0 < s → 0 < r) → Q r) →
  wp (fold_carry 4 s) Q.
Proof.
  intros Hs HQ.
  assert (forall s, 65535 < s < 4294967296 →
    let s' := Z.shiftr s 16 + Z.land s 65535 in
    u32 s' = s' ∧ 0 < s' ∧ s' = s - 65535 * (s / 65536)
    ∧ s' <= 131070 ∧ (s <= 131070 → s' <= 65535)) as Hstep.
  { intros t Ht. cbv zeta. rewrite fold_step by lia.
    unfold u32. rewrite Z.mod_small; Z.div_mod_to_equations; lia. }
  cbn [fold_carry]. destruct (65535 <? s) eqn:E1; bprop.
  2:{ apply HQ; auto; lia. }
  destruct (Hstep s ltac:(lia)) as (-> & Hp1 & He1 & Hb1 & _).
  remember (Z.shiftr s 16 + Z.land s 65535) as s1 eqn:Hs1. clear Hs1.
  assert (s1 mod 65535 = s mod 65535) as Hm1.
  { rewrite He1. replace (s - 65535 * (s / 65536)) with (s + - (s / 65536) * 65535) by lia.
    by rewrite Z.mod_add. }
  destruct (65535 <? s1) eqn:E2; bprop.
  2:{ apply HQ; auto; lia. }
  destruct (Hstep s1 ltac:(lia)) as (-> & Hp2 & He2 & _ & Hb2).
  remember (Z.shiftr s1 16 + Z.land s1 65535) as s2 eqn:Hs2. clear Hs2.
  destruct (65535 <? s2) eqn:E3; bprop; [lia|].
  apply HQ; [lia| |lia..]. rewrite <- Hm1, He2.
  replace (s1 - 65535 * (s1 / 65536)) with (s1 + - (s1 / 65536) * 65535) by lia.
  by rewrite Z.mod_add.
Qed.

Lemma not16_val (r : Z) : 0 <= r <= 65535 → not16 r = 65535 - r.
Proof.
  intros. unfold not16. rewrite (u16_small r) by lia. unfold Z.lnot, u16.
  replace (Z.pred (- r)) with (65535 - r + -1 * 65536) by lia.
  rewrite Z.mod_add by lia. apply Z.mod_small. lia.
Qed.

(** The checksum completes the sum, whether or not a zero is sent as 0xffff. *)
Lemma checksum_completes (s r : Z) :
  0 <= s → 0 <= r <= 65535 → r mod 65535 = s mod 65535 → r <= s → (0 < s → 0 < r) →
  sum_verifies (s + (65535 - r)).
Proof.
  intros Hs Hr Hm Hle Hp. unfold sum_verifies. split; [lia|].
  rewrite <- Z.add_mod_idemp_l, <- Hm, Z.add_mod_idemp_l by lia.
  by replace (r + (65535 - r)) with 65535 by lia.
Qed.

Lemma checksum_completes_udp (s r : Z) :
  0 <= s → 0 <= r <= 65535 → r mod 65535 = s mod 65535 → r <= s → (0 < s → 0 < r) →
  sum_verifies (s + (if 65535 - r =? 0 then 65535 else 65535 - r)).
Proof.
  intros Hs Hr Hm Hle Hp. destruct (65535 - r =? 0) eqn:E; [|by apply checksum_completes].
  bprop. assert (r = 65535) as -> by lia. unfold sum_verifies. split; [lia|].
  replace (s + 65535) with (s + 1 * 65535) by lia. rewrite Z.mod_add by lia.
  rewrite <- Hm. done.
Qed.

(** ** What the six routines guarantee *)

(** [r] is [l] with only the two bytes at [i] rewritten. *)
Definition rewrites (l : bytes) (i : Z) (r : bytes) : Prop :=
  len r = len l ∧ bytes_ok r ∧ (∀ k, k < i ∨ i + 2 <= k → get r k = get l k).

(** The IPv4 header length, and the two pseudo-header sums of RFC 768/793 and
    RFC 8200: addresses, protocol and upper-layer length. *)
Definition ihl4 (p : bytes) : Z := Z.land (get p 0) 15 * 4.
Definition pseudo_sum4 (p : bytes) (proto l : Z) : Z := wsum (sub p 12 20) + proto + l.
Definition pseudo_sum6 (p : bytes) (proto l : Z) : Z := wsum (sub p 8 40) + proto + l.

Lemma ihl4_range (p : bytes) : bytes_ok p → 0 <= ihl4 p <= 60 ∧ ihl4 p mod 2 = 0.
Proof.
  intros H. pose proof (bytes_ok_get p 0 H) as Hb. unfold is_byte in Hb.
  pose proof (land15_range (get p 0) ltac:(lia)). unfold ihl4.
  split; [lia|]. replace (Z.land (get p 0) 15 * 4) with (0 + Z.land (get p 0) 15 * 2 * 2) by lia.
  by rewrite Z.mod_add.
Qed.

Lemma u8_ihl4 (p : bytes) : bytes_ok p → u8 (Z.land (get p 0) 15 * 4) = ihl4 p.
Proof. intros H. pose proof (ihl4_range p H). apply u8_small. unfold is_byte. fold (ihl4 p). lia. Qed.

Lemma rewrites_splice (l : bytes) (i v : Z) :
  bytes_ok l → 0 <= i → i + 2 <= len l → rewrites l i (splice l i (bytes16 v)).
Proof.
  intros. split_and!; [len_simp; lia|auto with b4|].
  intros k Hk. rewrite get_splice by (len_simp; lia). len_simp. zcases; done.
Qed.

(** The sum over a range that contains the checksum field, before and after. *)
Lemma wsum_field (l : bytes) (i v a b : Z) :
  bytes_ok l → 0 <= a → a <= i → i + 2 <= b → b <= len l → (i - a) mod 2 = 0 →
  0 <= v < 65536 →
  wsum (sub (splice l i (bytes16 v)) a b) = wsum (sub (splice l i (bytes16 0)) a b) + v.
Proof.
  intros. rewrite !sub_splice by (len_simp; lia).
  rewrite !wsum_put by (first [lia | done | len_simp; lia | auto with b4]). lia.
Qed.

Lemma wsum_bytes16_0 (l : bytes) (i : Z) :
  bytes_ok l → 0 <= i → i + 2 <= len l →
  <[Z.to_nat (i + 1) := 0]> (<[Z.to_nat i := 0]> l) = splice l i (bytes16 0).
Proof. intros. by apply insert2_splice. Qed.

Lemma FixIPv4Checksum_spec (ip : bytes) :
  bytes_ok ip → 20 <= ihl4 ip <= len ip →
  wp (FixIPv4Checksum ip) (λ r,
    rewrites ip 10 r ∧ sum_verifies (wsum (sub r 0 (ihl4 ip)))).
Proof.
  intros Hok Hl. unfold FixIPv4Checksum. destruct (ihl4_range ip Hok) as [Hr Hev].
  destruct (len ip <? 20) eqn:E; [zlia|].
  do 4 wp_step. change 11 with (10 + 1). rewrite wsum_bytes16_0 by (done || lia).
  do 2 wp_step. rewrite get_splice by (len_simp; lia). zcases. rewrite u8_ihl4 by done.
  wp_step. set (z := splice ip 10 (bytes16 0)).
  assert (bytes_ok z) by (unfold z; auto with b4).
  assert (len z = len ip) as Hlz by (unfold z; len_simp; lia).
  pose proof (wsum_bound (sub z 0 (ihl4 ip)) ltac:(auto with b4)) as [Hs0 Hs1].
  rewrite len_sub in Hs1 by lia.
  apply (wp_sum_words _ _ _ (ihl4 ip)); auto; try lia.
  { by rewrite Z.sub_0_r. }
  wp_step. apply wp_fold_carry; [lia|]. intros r Hr1 Hr2 Hr3 Hr4. wp_step.
  rewrite not16_val, u16_small by lia. unfold z. rewrite splice_splice by (len_simp; lia).
  split; [apply rewrites_splice; auto; lia|].
  rewrite (wsum_field ip 10) by (auto; lia). fold z.
  apply checksum_completes; auto; lia.
Qed.

(** [FixIPv4Checksum] returns on every packet that holds its header; it
    rewrites only the checksum field, and the header then verifies at the
    receiver. *)
Theorem FixIPv4Checksum_ok (ip : bytes) :
  bytes_ok ip → 20 <= ihl4 ip <= len ip →
  wp (FixIPv4Checksum ip) (λ r,
    rewrites ip 10 r ∧ sum_verifies (wsum (sub r 0 (ihl4 ip)))).
Proof. apply FixIPv4Checksum_spec. Qed.

(** The pseudo-header buffer that the IPv4 routines build, and its sum. *)
Lemma pseudo4_sum (src dst : bytes) (proto v : Z) :
  len src = 4 → len dst = 4 → 0 <= v < 65536 →
  wsum (splice (<[Z.to_nat 9 := proto]>
          (splice (splice (replicate (Z.to_nat 12) 0) 0 src) 4 dst)) 10 (bytes16 v))
  = wsum (src ++ dst) + proto + v.
Proof.
  intros Hs Hd Hv.
  destruct src as [|s0 [|s1 [|s2 [|s3 [|]]]]]; simpl in Hs; try lia.
  destruct dst as [|d0 [|d1 [|d2 [|d3 [|]]]]]; simpl in Hd; try lia.
  pose proof (bytes16_val v Hv) as Hb.
  change (get (bytes16 v) 0) with (u8 (Z.shiftr v 8)) in Hb.
  change (get (bytes16 v) 1) with (u8 v) in Hb.
  lazy -[u8 Z.shiftr Z.mul Z.add Z.le Z.lt]. lia.
Qed.

Lemma pseudo6_sum (src dst : bytes) (proto v : Z) :
  len src = 16 → len dst = 16 → 0 <= v < 65536 →
  wsum (<[Z.to_nat 39 := proto]> (splice
          (splice (splice (replicate (Z.to_nat 40) 0) 0 src) 16 dst) 32 (bytes32 v)))
  = wsum (src ++ dst) + proto + v.
Proof.
  intros Hs Hd Hv.
  assert (splice (splice (replicate (Z.to_nat 40) 0) 0 src) 16 dst
          = (src ++ dst) ++ replicate 8 0) as ->.
  { destruct src as [|s0 src]; [done|]. do 15 (destruct src as [|? src]; [done|]).
    destruct src; [|simpl in Hs; lia].
    destruct dst as [|d0 dst]; [done|]. do 15 (destruct dst as [|? dst]; [done|]).
    destruct dst; [|simpl in Hd; lia]. reflexivity. }
  assert (len (src ++ dst) = 32) as Hl by (len_simp; lia).
  remember (src ++ dst) as a eqn:Ha. clear Ha Hs Hd src dst.
  unfold splice. rewrite take_app_length' by lia.
  rewrite drop_app_ge by (simpl; lia).
  replace (Z.to_nat 32 + length (bytes32 v) - length a)%nat with 4%nat by (simpl; lia).
  replace (Z.to_nat 39) with (length a + 7)%nat by lia.
  rewrite insert_app_r.
  rewrite wsum_app by (rewrite Hl; done). generalize (wsum a). intros wa.
  lazy -[u8 Z.shiftr Z.mul Z.add Z.le Z.lt].
  pose proof (bytes32_val v ltac:(lia)) as Hb.
  change (get (bytes32 v) 0) with (u8 (Z.shiftr v 24)) in Hb.
  change (get (bytes32 v) 1) with (u8 (Z.shiftr v 16)) in Hb.
  change (get (bytes32 v) 2) with (u8 (Z.shiftr v 8)) in Hb.
  change (get (bytes32 v) 3) with (u8 v) in Hb.
  pose proof (is_byte_u8 (Z.shiftr v 24)). pose proof (is_byte_u8 (Z.shiftr v 16)).
  pose proof (is_byte_u8 (Z.shiftr v 8)). pose proof (is_byte_u8 v).
  unfold is_byte in *. lia.
Qed.

(** The two addresses, which the checksum does not overwrite. *)
Lemma pseudo_addrs4 (l : bytes) (i v : Z) :
  20 <= i → i + 2 <= len l →
  sub (splice l i (bytes16 v)) 12 16 ++ sub (splice l i (bytes16 v)) 16 20 = sub l 12 20.
Proof.
  intros. rewrite <- sub_app by (len_simp; lia).
  apply sub_splice_out; len_simp; lia.
Qed.

Lemma pseudo_addrs6 (l : bytes) (i v : Z) :
  40 <= i → i + 2 <= len l →
  sub (splice l i (bytes16 v)) 8 24 ++ sub (splice l i (bytes16 v)) 24 40 = sub l 8 40.
Proof.
  intros. rewrite <- sub_app by (len_simp; lia).
  apply sub_splice_out; len_simp; lia.
Qed.

(** From the sum of pseudo-header and segment to its fold. *)
Lemma wp_seg_sum (l : bytes) (sum a b : Z) (K : Z → go bytes) Q :
  bytes_ok l → 0 <= a → a <= b → b <= len l → b - a <= 65535 →
  0 <= sum <= 65535 * 30 →
  (∀ r, 0 <= r <= 65535 →
     r mod 65535 = (sum + wsum (sub l a b)) mod 65535 → r <= sum + wsum (sub l a b) →
     (0 < sum + wsum (sub l a b) → 0 < r) → 0 <= wsum (sub l a b) → wp (K r) Q) →
  wp (sum_segment (sub l a b) sum) (λ s, wp (let! s := fold_carry 4 s in K s) Q).
Proof.
  intros Hok Ha Hab Hb Hsz Hs HQ.
  pose proof (wsum_bound (sub l a b) ltac:(auto with b4)) as [Hs0 Hs1].
  rewrite len_sub in Hs1 by lia.
  apply wp_sum_segment; auto with b4; try lia.
  wp_step. apply wp_fold_carry; [lia|]. intros r ? ? ? ?. by apply HQ.
Qed.

(** The loop over a whole pseudo-header of known sum. *)
Lemma wp_pseudo_sum (l : bytes) (s : Z) Q :
  bytes_ok l → len l mod 2 = 0 → wsum l = s → s < 4294967296 → Q s →
  wp (sum_words (S (length l)) l 0 (len l) 0) Q.
Proof.
  intros Hok Hev <- Hs HQ. apply (wp_sum_words _ _ _ (len l)); auto; try lia;
    rewrite ?sub_full, ?Z.sub_0_r; auto; lia.
Qed.

Lemma wsum_addrs_bound (l : bytes) (a b : Z) :
  bytes_ok l → 0 <= a → a <= b → b <= len l → b - a <= 32 →
  0 <= wsum (sub l a b) <= 65535 * 17.
Proof.
  intros. pose proof (wsum_bound (sub l a b) ltac:(auto with b4)) as [Hs0 Hs1].
  rewrite len_sub in Hs1 by lia. lia.
Qed.

(** The sums over the rewritten packet, in terms of those over the zeroed one. *)
Lemma pseudo_sum_put (l : bytes) (m i a b proto n v lo hi : Z) :
  bytes_ok l → 0 <= lo → lo <= hi → hi <= a → a <= i → i + 2 <= b → b <= len l →
  i = a + 2 * m → 0 <= v < 65536 →
  wsum (sub (splice l i (bytes16 v)) lo hi) + proto + n
    + wsum (sub (splice l i (bytes16 v)) a b)
  = wsum (sub l lo hi) + proto + n + wsum (sub (splice l i (bytes16 0)) a b) + v.
Proof.
  intros. rewrite (wsum_field l i v a b);
    [|done || lia..|subst i; replace (a + 2 * m - a) with (m * 2) by lia; by rewrite Z.mod_mul|lia].
  rewrite sub_splice_out by (len_simp; lia). lia.
Qed.

Lemma upper16 (l : bytes) (i j v : Z) :
  0 <= j → j + 2 <= len l → (i < j - 1 ∨ j + 2 <= i) →
  get16 (splice l j (bytes16 v)) i = get16 l i.
Proof.
  intros. unfold get16. rewrite !get_splice by (len_simp; lia). len_simp. zcases; done.
Qed.

(** The end of every routine: the complement is stored and the sum verifies. *)
Lemma checksum_stored (p : bytes) (m i a b proto n r lo hi : Z) (udp : bool) :
  let c := 65535 - r in
  let c := if udp then (if c =? 0 then 65535 else c) else c in
  let s := wsum (sub p lo hi) + proto + n + wsum (sub (splice p i (bytes16 0)) a b) in
  bytes_ok p → 0 <= lo → lo <= hi → hi <= a → a <= i → i + 2 <= b → b <= len p →
  i = a + 2 * m → 0 <= s → 0 <= r <= 65535 → r mod 65535 = s mod 65535 → r <= s →
  (0 < s → 0 < r) →
  let q := splice (splice p i (bytes16 0)) i (bytes16 (u16 c)) in
  rewrites p i q ∧ (udp = true → get16 q i ≠ 0)
  ∧ sum_verifies (wsum (sub q lo hi) + proto + n + wsum (sub q a b)).
Proof.
  intros c0 c s Hok ? ? ? ? ? ? Hi Hs Hr Hm Hle Hp q.
  assert (0 <= c < 65536) as Hc by (unfold c, c0; destruct udp; [case_if|]; lia).
  unfold q. rewrite u16_small, splice_splice by (done || len_simp; lia).
  split_and!.
  - apply rewrites_splice; auto; lia.
  - intros ->. rewrite get16_splice by (done || lia). unfold c, c0. case_if; zlia.
  - rewrite (pseudo_sum_put p m) by (done || lia). fold s. unfold c, c0. destruct udp.
    + by apply checksum_completes_udp.
    + by apply checksum_completes.
Qed.

Lemma FixTCPChecksum_spec (p : bytes) (n := get16 p 2 - ihl4 p) :
  bytes_ok p → 20 <= ihl4 p → 18 <= n → ihl4 p + n <= len p →
  wp (FixTCPChecksum p) (λ r,
    rewrites p (ihl4 p + 16) r
    ∧ sum_verifies (pseudo_sum4 r 6 n + wsum (sub r (ihl4 p) (ihl4 p + n)))).
Proof.
  intros Hok Hih Hn Hl. unfold FixTCPChecksum. destruct (ihl4_range p Hok) as [Hr Hev].
  pose proof (get16_range p 2 Hok) as Ht.
  do 2 wp_step. cbv zeta. rewrite u8_ihl4 by done.
  do 4 wp_step. replace (ihl4 p + 17) with (ihl4 p + 16 + 1) by lia.
  rewrite wsum_bytes16_0 by (done || lia). wp_run.
  rewrite upper16 by lia. fold n.
  rewrite !(take_ge (sub _ _ _)) by (apply Nat2Z.inj_le; len_simp; lia).
  rewrite u16_small by lia.
  pose proof (wsum_addrs_bound p 12 20 Hok) as Ha.
  eapply wp_pseudo_sum.
  { auto 8 with b4. } { len_simp; done || lia. }
  { rewrite pseudo4_sum by (len_simp; lia). by rewrite pseudo_addrs4 by lia. }
  { lia. }
  wp_run. apply wp_seg_sum; auto with b4; try (len_simp; lia).
  intros r Hr1 Hr2 Hr3 Hr4 Hr5. apply wp_put16; [len_lia..|].
  rewrite not16_val by lia.
  destruct (checksum_stored p 8 (ihl4 p + 16) (ihl4 p) (ihl4 p + n) 6 n r 12 20 false)
    as (?&_&?); auto; lia.
Qed.

(** [FixTCPChecksum] returns on every IPv4 packet whose declared total length
    fits the buffer; it rewrites only the TCP checksum, and pseudo-header and
    segment then verify at the receiver, for odd lengths too. *)
Theorem FixTCPChecksum_ok (p : bytes) (n := get16 p 2 - ihl4 p) :
  bytes_ok p → 20 <= ihl4 p → 18 <= n → ihl4 p + n <= len p →
  wp (FixTCPChecksum p) (λ r,
    rewrites p (ihl4 p + 16) r
    ∧ sum_verifies (pseudo_sum4 r 6 n + wsum (sub r (ihl4 p) (ihl4 p + n)))).
Proof. apply FixTCPChecksum_spec. Qed.

(** [udp_v4]'s IHL is computed with a shift. *)
Lemma u8_ihl4_shift (p : bytes) : bytes_ok p → u8 (Z.shiftl (Z.land (get p 0) 15) 2) = ihl4 p.
Proof. intros H. rewrite Z.shiftl_mul_pow2 by lia. by apply u8_ihl4. Qed.

(** [udpChecksumIPv4] on a datagram whose declared UDP length fits: only the
    checksum is rewritten, never to 0, and it verifies. *)
Theorem udpChecksumIPv4_ok (p : bytes) (n := get16 p (ihl4 p + 4)) :
  bytes_ok p → 20 <= ihl4 p → 8 <= n → ihl4 p + n <= len p →
  wp (udpChecksumIPv4 p) (λ r,
    rewrites p (ihl4 p + 6) r ∧ get16 r (ihl4 p + 6) ≠ 0
    ∧ sum_verifies (pseudo_sum4 r 17 n + wsum (sub r (ihl4 p) (ihl4 p + n)))).
Proof.
  intros Hok Hih Hn Hl. unfold udpChecksumIPv4. destruct (ihl4_range p Hok) as [Hr Hev].
  pose proof (get16_range p (ihl4 p + 4) Hok) as Ht. fold n in Ht.
  do 2 wp_step. cbv zeta. rewrite u8_ihl4_shift by done.
  wp_run. fold n. replace (ihl4 p + 7) with (ihl4 p + 6 + 1) by lia.
  rewrite wsum_bytes16_0 by (done || lia).
  rewrite !(take_ge (sub _ _ _)) by (apply Nat2Z.inj_le; len_simp; lia).
  rewrite u16_small by lia.
  pose proof (wsum_addrs_bound p 12 20 Hok) as Ha.
  eapply wp_pseudo_sum.
  { auto 8 with b4. } { len_simp; done || lia. }
  { rewrite pseudo4_sum by (len_simp; lia). by rewrite <- sub_app by lia. }
  { lia. }
  wp_run. apply wp_seg_sum; auto with b4; try (len_simp; lia).
  intros r Hr1 Hr2 Hr3 Hr4 Hr5. apply wp_put16; [len_lia..|].
  rewrite not16_val by lia.
  destruct (checksum_stored p 3 (ihl4 p + 6) (ihl4 p) (ihl4 p + n) 17 n r 12 20 true)
    as (?&?&?); auto; lia.
Qed.

(** The two 16-byte halves, word by word. *)
Lemma wsum_addrs4 (l : bytes) :
  bytes_ok l → 20 <= len l →
  wsum (sub l 12 20) = get16 l 12 + get16 l 14 + get16 l 16 + get16 l 18.
Proof.
  intros. rewrite !get16_val by done.
  do 8 (rewrite sub_cons by lia). change (12+1+1+1+1+1+1+1+1) with 20. rewrite sub_nil.
  cbn [wsum]. znorm. lia.
Qed.

(** [FixUDPChecksum] rewrites only the UDP checksum, never to the reserved
    value 0, and pseudo-header and datagram then verify at the receiver. *)
Theorem FixUDPChecksum_ok (p : bytes) (ihl : Z) :
  bytes_ok p → 20 <= ihl → ihl + 8 <= len p <= 65535 →
  wp (FixUDPChecksum p ihl) (λ r,
    rewrites p (ihl + 6) r ∧ get16 r (ihl + 6) ≠ 0
    ∧ sum_verifies (pseudo_sum4 r 17 (len p - ihl) + wsum (sub r ihl (len p)))).
Proof.
  intros Hok Hih Hl. unfold FixUDPChecksum.
  wp_step; [zlia|]. wp_run. rewrite len_sub by lia.
  replace (ihl + 7) with (ihl + 6 + 1) by lia.
  rewrite wsum_bytes16_0 by (done || lia). rewrite !upper16 by lia.
  rewrite len_splice by (len_simp; lia).
  pose proof (wsum_addrs_bound p 12 20 Hok) as Ha.
  pose proof (wsum_addrs4 p Hok ltac:(lia)) as Haw.
  pose proof (get16_range p 12 Hok). pose proof (get16_range p 14 Hok).
  pose proof (get16_range p 16 Hok). pose proof (get16_range p 18 Hok).
  u32_inner. rewrite <- Haw. clear Haw.
  apply wp_seg_sum; auto with b4; try (len_simp; lia).
  intros r Hr1 Hr2 Hr3 Hr4 Hr5. rewrite not16_val by lia. wp_run.
  destruct (checksum_stored p 3 (ihl + 6) ihl (len p) 17 (len p - ihl) r 12 20 true)
    as (Hrw&?&?); auto; try lia.
  rewrite u16_small in * by (case_if; lia).
  rewrite insert2_splice by (len_simp; lia).
  split_and!; auto.
Qed.

(** The IPv6 routines share the pseudo-header builder. *)
Lemma wp_pseudo_v6 (p : bytes) (n proto : Z) Q :
  bytes_ok p → 40 <= len p → 0 <= n < 65536 → is_byte proto →
  (∀ l, bytes_ok l → len l = 40 → wsum l = pseudo_sum6 p proto n → Q l) →
  wp (pseudo_v6 p n proto) Q.
Proof.
  intros Hok Hl Hn Hp HQ. unfold pseudo_v6. wp_run.
  rewrite !(take_ge (sub _ _ _)) by (apply Nat2Z.inj_le; len_simp; lia).
  rewrite u32_small by lia.
  apply HQ; [auto 8 with b4|len_simp; lia|].
  rewrite pseudo6_sum by (len_simp; lia). by rewrite <- sub_app by lia.
Qed.

Lemma FixTCPChecksumV6_spec (p : bytes) (n := get16 p 4) :
  bytes_ok p → 18 <= n → 40 + n <= len p →
  wp (FixTCPChecksumV6 p) (λ r,
    rewrites p 56 r ∧ sum_verifies (pseudo_sum6 r 6 n + wsum (sub r 40 (40 + n)))).
Proof.
  intros Hok Hn Hl. unfold FixTCPChecksumV6. pose proof (get16_range p 4 Hok).
  wp_step; [zlia|]. cbv zeta. wp_run.
  change (40 + 16) with 56. change (40 + 17) with (56 + 1).
  rewrite (insert2_splice p 56 0 0) by lia. change [0;0] with (bytes16 0).
  rewrite upper16 by lia. fold n.
  apply wp_pseudo_v6; [auto with b4|len_simp; lia|lia|unfold is_byte; lia|].
  intros ps Hps Hpl Hpsum. wp_step.
  pose proof (wsum_addrs_bound p 8 40 Hok) as Ha.
  unfold pseudo_sum6 in Hpsum. rewrite sub_splice_out in Hpsum by (len_simp; lia).
  eapply wp_pseudo_sum; [done|by rewrite Hpl|exact Hpsum|lia|].
  wp_run. apply wp_seg_sum; auto with b4; try (len_simp; lia).
  intros r Hr1 Hr2 Hr3 Hr4 Hr5. apply wp_put16; [len_lia..|].
  rewrite not16_val by lia.
  destruct (checksum_stored p 8 56 40 (40 + n) 6 n r 8 40 false) as (?&_&?); auto; lia.
Qed.

(** [FixTCPChecksumV6] on a packet whose declared payload fits: only the TCP
    checksum is rewritten and it verifies with the IPv6 pseudo-header. *)
Theorem FixTCPChecksumV6_ok (p : bytes) (n := get16 p 4) :
  bytes_ok p → 18 <= n → 40 + n <= len p →
  wp (FixTCPChecksumV6 p) (λ r,
    rewrites p 56 r ∧ sum_verifies (pseudo_sum6 r 6 n + wsum (sub r 40 (40 + n)))).
Proof. apply FixTCPChecksumV6_spec. Qed.

(** [FixUDPChecksumV6] on a packet whose declared payload fits: only the UDP
    checksum is rewritten, never to 0 (which IPv6 forbids), and it verifies. *)
Theorem FixUDPChecksumV6_ok (p : bytes) (n := get16 p 4) :
  bytes_ok p → 8 <= n → 40 + n <= len p →
  wp (FixUDPChecksumV6 p) (λ r,
    rewrites p 46 r ∧ get16 r 46 ≠ 0
    ∧ sum_verifies (pseudo_sum6 r 17 n + wsum (sub r 40 (40 + n)))).
Proof.
  intros Hok Hn Hl. unfold FixUDPChecksumV6. pose proof (get16_range p 4 Hok).
  wp_step; [zlia|]. cbv zeta. wp_run.
  change (40 + 6) with 46. change (40 + 7) with (46 + 1).
  rewrite (insert2_splice p 46 0 0) by lia. change [0;0] with (bytes16 0).
  rewrite upper16 by lia. fold n.
  apply wp_pseudo_v6; [auto with b4|len_simp; lia|lia|unfold is_byte; lia|].
  intros ps Hps Hpl Hpsum. wp_step.
  pose proof (wsum_addrs_bound p 8 40 Hok) as Ha.
  unfold pseudo_sum6 in Hpsum. rewrite sub_splice_out in Hpsum by (len_simp; lia).
  eapply wp_pseudo_sum; [done|by rewrite Hpl|exact Hpsum|lia|].
  wp_run. apply wp_seg_sum; auto with b4; try (len_simp; lia).
  intros r Hr1 Hr2 Hr3 Hr4 Hr5. apply wp_put16; [len_lia..|].
  rewrite not16_val by lia.
  destruct (checksum_stored p 3 46 40 (40 + n) 17 n r 8 40 true) as (?&?&?); auto; lia.
Qed.

(** [udpChecksumIPv6] likewise, with the length taken from the UDP header. *)
Theorem udpChecksumIPv6_ok (p : bytes) (n := get16 p 44) :
  bytes_ok p → 8 <= n → 40 + n <= len p →
  wp (udpChecksumIPv6 p) (λ r,
    rewrites p 46 r ∧ get16 r 46 ≠ 0
    ∧ sum_verifies (pseudo_sum6 r 17 n + wsum (sub r 40 (40 + n)))).
Proof.
  intros Hok Hn Hl. unfold udpChecksumIPv6. pose proof (get16_range p 44 Hok).
  wp_step; [zlia|]. cbv zeta. wp_run. change (40 + 4) with 44. fold n.
  apply wp_pseudo_v6; [auto with b4|len_simp; lia|lia|unfold is_byte; lia|].
  intros ps Hps Hpl Hpsum. wp_run.
  change (40 + 6) with 46. change (40 + 7) with (46 + 1).
  rewrite (insert2_splice p 46 0 0) by lia. change [0;0] with (bytes16 0).
  pose proof (wsum_addrs_bound p 8 40 Hok) as Ha. unfold pseudo_sum6 in Hpsum.
  eapply wp_pseudo_sum; [done|by rewrite Hpl|exact Hpsum|lia|].
  wp_run. apply wp_seg_sum; auto with b4; try (len_simp; lia).
  intros r Hr1 Hr2 Hr3 Hr4 Hr5. apply wp_put16; [len_lia..|].
  rewrite not16_val by lia.
  destruct (checksum_stored p 3 46 40 (40 + n) 17 n r 8 40 true) as (?&?&?); auto; lia.
Qed.

(** ** Witnesses *)

(** A TCP segment with an odd payload, and UDP datagrams, over both versions. *)
Definition tcp4_demo : bytes :=
  [69;0;0;43; 1;2;64;0; 64;6;0;0; 10;0;0;1; 93;184;216;34;
   200;1;1;187; 0;0;0;1; 0;0;0;2; 80;24;255;255; 9;9;0;0; 97;98;99].
Definition udp4_demo : bytes :=
  [69;0;0;31; 1;2;64;0; 64;17;0;0; 10;0;0;1; 93;184;216;34; 200;1;1;187; 0;11;9;9; 97;98;99].
Definition ip6_demo (nh : Z) (upper : bytes) : bytes :=
  [96;0;0;0; 0; len upper; nh; 64] ++ replicate 15 0 ++ [1] ++ replicate 15 0 ++ [2] ++ upper.

Lemma FixIPv4Checksum_ok_witness :
  wp (FixIPv4Checksum tcp4_demo) (λ r, sum_verifies (wsum (sub r 0 20))).
Proof.
  eapply wp_mono; [apply FixIPv4Checksum_ok|].
  - by apply bytes_okb_spec.
  - vmc.
  - intros r [_ H]. exact H.
Defined.

Lemma FixTCPChecksum_ok_witness :
  wp (FixTCPChecksum tcp4_demo) (λ r, sum_verifies (pseudo_sum4 r 6 23 + wsum (sub r 20 43))).
Proof.
  eapply wp_mono; [apply FixTCPChecksum_ok|].
  - by apply bytes_okb_spec.
  - vmc.
  - vmc.
  - vmc.
  - intros r [_ H]. exact H.
Defined.

Lemma FixUDPChecksum_ok_witness :
  wp (FixUDPChecksum udp4_demo 20) (λ r, get16 r 26 ≠ 0).
Proof.
  eapply wp_mono; [apply FixUDPChecksum_ok|].
  - by apply bytes_okb_spec.
  - lia.
  - vmc.
  - intros r (_ & H & _). exact H.
Defined.

Lemma udpChecksumIPv4_ok_witness :
  wp (udpChecksumIPv4 udp4_demo) (λ r, get16 r 26 ≠ 0).
Proof.
  eapply wp_mono; [apply udpChecksumIPv4_ok|].
  - by apply bytes_okb_spec.
  - vmc.
  - vmc.
  - vmc.
  - intros r (_ & H & _). exact H.
Defined.

Lemma FixTCPChecksumV6_ok_witness :
  let p := ip6_demo 6 (sub tcp4_demo 20 43) in
  wp (FixTCPChecksumV6 p) (λ r, sum_verifies (pseudo_sum6 r 6 23 + wsum (sub r 40 63))).
Proof.
  cbn zeta. eapply wp_mono; [apply FixTCPChecksumV6_ok|].
  - by apply bytes_okb_spec.
  - vmc.
  - vmc.
  - intros r [_ H]. exact H.
Defined.

Lemma FixUDPChecksumV6_ok_witness :
  let p := ip6_demo 17 (sub udp4_demo 20 31) in
  wp (FixUDPChecksumV6 p) (λ r, sum_verifies (pseudo_sum6 r 17 11 + wsum (sub r 40 51))).
Proof.
  cbn zeta. eapply wp_mono; [apply FixUDPChecksumV6_ok|].
  - by apply bytes_okb_spec.
  - vmc.
  - vmc.
  - intros r (_ & _ & H). exact H.
Defined.

Lemma udpChecksumIPv6_ok_witness :
  let p := ip6_demo 17 (sub udp4_demo 20 31) in
  wp (udpChecksumIPv6 p) (λ r, sum_verifies (pseudo_sum6 r 17 11 + wsum (sub r 40 51))).
Proof.
  cbn zeta. eapply wp_mono; [apply udpChecksumIPv6_ok|].
  - by apply bytes_okb_spec.
  - vmc.
  - vmc.
  - intros r (_ & _ & H). exact H.
Defined.
