(* ===== verification/Fragment.v ===== *)
(** * IP fragmentation of package [sock]

    src/src/sock/fragment_ipv4.go and the UDP variant of udp_ipv4.go (the IPv6
    routines are in Fragment6.v).  The reference is a receiver: [frag4] reads a
    fragment's offset, M flag and data, and [reassemble] puts a set of fragments
    back together whatever their order. *)

From Stdlib Require Import ZArith Lia.
From stdpp Require Import base list numbers sets.
From S2P Require Import Prelude Checksum.

Local Open Scope Z_scope.

(** ** The code *)

Definition IPv4FragmentPacket (packet : bytes) (splitPos : Z) : go (option (list bytes)) :=
  if len packet <? 20 then Ret None else
  let! v := idx packet 0 in
  if negb (Z.shiftr v 4 =? 4) then Ret None else
  let ipHdrLen := u8 (Z.land v 15 * 4) in
  if len packet <? ipHdrLen + 8 then Ret None else
  let ipPayloadLen := len packet - ipHdrLen in
  if ipPayloadLen <? 8 then Ret None else
  let splitPos := andnot (splitPos + 7) 7 in
  let splitPos := if splitPos <? 8 then 8 else splitPos in
  let clamp := ipPayloadLen <=? splitPos in
  let splitPos := if clamp then andnot (ipPayloadLen - 8) 7 else splitPos in
  if clamp && (splitPos <? 8) then Ret None else
  let absPos := ipHdrLen + splitPos in
  let! frag1 := make absPos in
  let! src := slice packet 0 absPos in
  let! frag1 := copy_from frag1 0 src in
  let! frag1 := upd frag1 6 32 in
  let! frag1 := upd frag1 7 0 in
  let! frag1 := put16 frag1 2 absPos in
  let! frag1 := on_slice FixIPv4Checksum frag1 0 ipHdrLen in
  let remainingLen := len packet - absPos in
  let frag2Len := ipHdrLen + remainingLen in
  let! frag2 := make frag2Len in
  let! hdr := slice packet 0 ipHdrLen in
  let! frag2 := copy_from frag2 0 hdr in
  let! rest := slice_from packet absPos in
  let! frag2 := copy_from frag2 ipHdrLen rest in
  let fragOff := u16 splitPos / 8 in
  let! frag2 := put16 frag2 6 fragOff in
  let! frag2 := put16 frag2 2 frag2Len in
  let! frag2 := on_slice FixIPv4Checksum frag2 0 ipHdrLen in
  Ret (Some [frag1; frag2]).

Definition IPv4FragmentUDP (orig : bytes) (split : Z) : go (option (list bytes)) :=
  if len orig <? 28 then Ret None else
  let! v := idx orig 0 in
  if negb (Z.shiftr v 4 =? 4) then Ret None else
  let ihl := u8 (Z.shiftl (Z.land v 15) 2) in
  if (ihl <? 20) || (len orig <? ihl + 8) then Ret None else
  let! total := be16 orig 2 in
  let total := if len orig <? total then len orig else total in
  let! udp := slice orig ihl total in
  if len udp <? 8 then Ret None else
  let! payload := slice_from udp 8 in
  let split := if (split <? 1) || (len payload <=? split) then 8 else split in
  let firstData := 8 + split in
  let firstDataAligned := firstData - Z.rem firstData 8 in
  let firstDataAligned := if firstDataAligned <? 8 then 8 else firstDataAligned in
  if len udp <=? firstDataAligned then Ret None else
  let! id := be16 orig 4 in
  let! ip1 := make (20 + firstDataAligned) in
  let! hdr := slice orig 0 20 in
  let! ip1 := copy_from ip1 0 hdr in
  let! b := idx ip1 0 in
  let! ip1 := upd ip1 0 (Z.lor (Z.land b 240) 5) in
  let! ip1 := put16 ip1 4 id in
  let! ip1 := upd ip1 6 32 in
  let! ip1 := upd ip1 7 0 in
  let! ip1 := put16 ip1 2 (20 + firstDataAligned) in
  let! data1 := slice udp 0 firstDataAligned in
  let! ip1 := copy_from ip1 20 data1 in
  let! ip1 := on_slice FixIPv4Checksum ip1 0 20 in
  let! ip2Data := slice_from udp firstDataAligned in
  let offsetUnits := Z.quot firstDataAligned 8 in
  let! ip2 := make (20 + len ip2Data) in
  let! hdr := slice orig 0 20 in
  let! ip2 := copy_from ip2 0 hdr in
  let! b := idx ip2 0 in
  let! ip2 := upd ip2 0 (Z.lor (Z.land b 240) 5) in
  let! ip2 := put16 ip2 4 id in
  let! ip2 := upd ip2 6 (Z.land (u8 (Z.shiftr offsetUnits 8)) 31) in
  let! ip2 := upd ip2 7 (u8 offsetUnits) in
  let! ip2 := put16 ip2 2 (20 + len ip2Data) in
  let! ip2 := copy_from ip2 20 ip2Data in
  let! ip2 := on_slice FixIPv4Checksum ip2 0 20 in
  Ret (Some [ip2; ip1]).

(** ** The receiver (RFC 791) *)

Record frag := { f_off : Z; f_mf : bool; f_data : bytes }.

Definition frag4 (p : bytes) : frag :=
  {| f_off := Z.land (get16 p 6) 8191 * 8; f_mf := Z.testbit (get16 p 6) 13;
     f_data := sub p (ihl4 p) (get16 p 2) |}.
(** Append fragment after fragment from offset [next]; each fragment but the
    last carries a multiple of eight bytes. *)
Fixpoint reassemble (fuel : nat) (fs : list frag) (next : Z) : option bytes :=
  match fuel with
  | O => None
  | S n =>
      match List.find (λ f, f_off f =? next) fs with
      | None => None
      | Some f =>
          if f_mf f
          then if len (f_data f) mod 8 =? 0
               then option_map (app (f_data f)) (reassemble n fs (next + len (f_data f)))
               else None
          else Some (f_data f)
      end
  end.

(** *** Examples *)
Definition demo4 : bytes :=
  [69;0;0;44; 18;52;64;0; 64;6;0;0; 10;0;0;1; 10;0;0;2] ++ seqZ 1 24.

Example demo4_split :
  match IPv4FragmentPacket demo4 9 with
  | Ret (Some fs) => reassemble 2 (map frag4 fs) 0 = Some (seqZ 1 24)
  | _ => False
  end.
Proof. vm_compute. reflexivity. Qed.

(** ** Reassembly of two fragments *)

Lemma reassemble_two (a b : frag) :
  f_off a = 0 → f_mf a = true → len (f_data a) mod 8 = 0 → 0 < len (f_data a) →
  f_off b = len (f_data a) → f_mf b = false →
  reassemble 2 [a; b] 0 = Some (f_data a ++ f_data b)
  ∧ reassemble 2 [b; a] 0 = Some (f_data a ++ f_data b).
Proof.
  intros Ha Hma Hal Hpos Hb Hmb. cbn [reassemble List.find].
  rewrite Ha, Hb, Z.eqb_refl, Hma, Hal, Z.add_0_l.
  assert ((0 =? len (f_data a)) = false) as Hz1 by (apply Z.eqb_neq; lia).
  assert ((len (f_data a) =? 0) = false) as Hz2 by (apply Z.eqb_neq; lia).
  rewrite ?Hz1, ?Hz2, ?Z.eqb_refl, ?Ha, ?Hb, ?Hz1, ?Hz2, ?Z.eqb_refl, ?Hma, ?Hal, ?Hmb. done.
Qed.

(** A header field of the copied header that no write touches. *)
Definition same_header (l : list Z) (p f : bytes) (h : Z) : Prop :=
  ∀ k, 0 <= k < h → k ∉ l → get f k = get p k.

(** What makes an IPv4 fragment acceptable to a receiver. *)
Definition good_frag4 (p f : bytes) (h : Z) : Prop :=
  bytes_ok f ∧ ihl4 f = h ∧ get16 f 2 = len f ∧ len f <= len p
  ∧ same_header [0; 2; 3; 6; 7; 10; 11] p f h
  ∧ sum_verifies (wsum (sub f 0 h)).

Lemma wp_on_slice (f : bytes → go bytes) (l : bytes) (i j : Z) Q :
  0 <= i → i <= j → j <= len l →
  wp (f (sub l i j)) (λ s, Q (splice l i s)) → wp (on_slice f l i j) Q.
Proof.
  intros ? ? ? Hf. unfold on_slice. wp_step. wp_step. wp_step.
  eapply wp_mono; [exact Hf|]. done.
Qed.

(** Rewriting the checksum of a header that is part of a longer packet. *)
Lemma wp_fix_header (l : bytes) (h : Z) Q :
  bytes_ok l → 20 <= h → h = ihl4 l → h <= len l →
  (∀ r, rewrites l 10 r → sum_verifies (wsum (sub r 0 h)) → Q r) →
  wp (on_slice FixIPv4Checksum l 0 h) Q.
Proof.
  intros Hok Hh Hih Hl HQ. apply wp_on_slice; [lia..|].
  assert (ihl4 (sub l 0 h) = h) as Hih'.
  { unfold ihl4 in *. rewrite get_sub by lia. zcases. by rewrite Z.add_0_l. }
  eapply wp_mono; [apply FixIPv4Checksum_spec|].
  { auto with b4. }
  { rewrite Hih'. len_simp; lia. }
  intros r ((Hrl & Hrok & Hrk) & Hs). rewrite Hih' in Hs.
  rewrite len_sub in Hrl by lia. apply HQ.
  - split_and!; [len_simp; lia|auto with b4|]. intros k Hk.
    rewrite get_splice by lia. case_if; [|done]. rewrite Hrk by lia.
    rewrite get_sub by lia. zcases. f_equal; lia.
  - rewrite sub_splice by lia.
    replace (splice (sub l 0 h) (0 - 0) r) with (sub r 0 h); [done|].
    apply list_ext_get; [len_simp; lia|]. intros k Hk.
    rewrite len_sub in Hk by lia. gets; f_equal; lia.
Qed.

(** A fragment's length does not change what a header of the same first byte
    declares. *)
Lemma ihl4_eq (p q : bytes) : get p 0 = get q 0 → ihl4 p = ihl4 q.
Proof. unfold ihl4. by intros ->. Qed.

(** What is left to show of a fragment built as [l], before its checksum. *)
Lemma good_frag4_intro (p l r : bytes) (h off : Z) (mf : bool) (a b : Z) :
  bytes_ok p → bytes_ok l → 20 <= h → ihl4 l = h →
  rewrites l 10 r → sum_verifies (wsum (sub r 0 h)) →
  h <= len l → len l <= len p → len l <= 65535 → h + (b - a) = len l → 0 <= a → a <= b → b <= len p →
  get16 l 2 = len l → get16 l 6 = (if mf then 8192 else 0) + off → 0 <= off < 8192 →
  (∀ k, 0 <= k < h → k ∉ [0; 2; 3; 6; 7; 10; 11] → get l k = get p k) →
  (∀ k, 0 <= k < b - a → get l (h + k) = get p (a + k)) →
  good_frag4 p r h ∧ f_off (frag4 r) = off * 8 ∧ f_mf (frag4 r) = mf
  ∧ f_data (frag4 r) = sub p a b.
Proof.
  intros Hp Hl Hh Hih (Hrl & Hrok & Hrk) Hsum Hhl Hlp Hsz Hlen Ha Hab Hb Htl Hof Hor Hhdr Hdat.
  assert (ihl4 r = h) as Hir by (rewrite <- Hih; apply ihl4_eq, Hrk; lia).
  assert (get16 r 2 = len l) as Hr2 by (rewrite <- Htl; apply get16_eq; apply Hrk; lia).
  assert (get16 r 6 = get16 l 6) as Hr6 by (apply get16_eq; apply Hrk; lia).
  split; [|split_and!; unfold frag4; cbn [f_off f_mf f_data]].
  - split_and!; auto; try lia. intros k Hk Hn. rewrite Hrk; [auto|].
    rewrite !not_elem_of_cons in Hn. lia.
  - rewrite Hr6, Hof. change 8191 with (Z.ones 13). rewrite Z.land_ones by lia.
    change (2 ^ 13) with 8192. destruct mf; Z.div_mod_to_equations; lia.
  - rewrite Hr6, Hof, Z.testbit_eqb by lia. change (2 ^ 13) with 8192.
    destruct mf; [apply Z.eqb_eq|apply Z.eqb_neq]; Z.div_mod_to_equations; lia.
  - rewrite Hir, Hr2. apply list_ext_get; [len_simp; lia|].
    intros k Hk. rewrite len_sub in Hk by lia. rewrite !get_sub by lia. zcases.
    rewrite Hrk by lia. apply Hdat. lia.
Qed.

Lemma version4_b0 (p : bytes) : bytes_ok p → Z.shiftr (get p 0) 4 = 4 →
  get p 0 = 64 + Z.land (get p 0) 15.
Proof.
  intros Hp H. pose proof (bytes_ok_get p 0 Hp) as Hb. unfold is_byte in Hb.
  rewrite Z.shiftr_div_pow2 in H by lia. change (2 ^ 4) with 16 in H.
  change 15 with (Z.ones 4). rewrite Z.land_ones by lia. change (2 ^ 4) with 16.
  Z.div_mod_to_equations. lia.
Qed.

(** The 16-bit value just stored. *)
Lemma get16_bytes16 (l : bytes) (i v : Z) :
  0 <= v < 65536 → get l i = get (bytes16 v) 0 → get l (i + 1) = get (bytes16 v) 1 →
  get16 l i = v.
Proof.
  intros Hv H0 H1. unfold get16. rewrite H0, H1. rewrite lor_shiftl_add; [|lia|].
  - by apply bytes16_val.
  - change (get (bytes16 v) 1) with (u8 v). apply is_byte_u8.
Qed.

(** The first byte of a fragment with a bare 20-byte header. *)
Lemma bare_ihl (b : Z) : Z.land (Z.lor (Z.land b 240) 5) 15 * 4 = 20.
Proof.
  rewrite Z.land_lor_distr_l, <- Z.land_assoc. change (Z.land 240 15) with 0.
  rewrite Z.land_0_r. reflexivity.
Qed.

Lemma ihl4_bare (l : bytes) (b : Z) : get l 0 = Z.lor (Z.land b 240) 5 → ihl4 l = 20.
Proof. unfold ihl4. intros ->. apply bare_ihl. Qed.

(** Discharge a condition of [good_frag4_intro] on a buffer of explicit updates. *)
Ltac frag_cond :=
  lazymatch goal with
  | |- rewrites _ _ _ => assumption
  | |- sum_verifies _ => assumption
  | |- bytes_ok _ => solve [auto 12 with b4]
  | |- ihl4 _ = ihl4 _ => apply ihl4_eq; gets; f_equal; lia
  | |- ihl4 _ = 20 => eapply ihl4_bare; gets; reflexivity
  | |- get16 _ _ = _ =>
      len_simp; apply get16_bytes16; [lia|..]; gets;
      first [reflexivity | do 2 f_equal; len_lia]
  | |- ∀ k, _ → k ∉ _ → _ =>
      let k := fresh "k" in let Hk := fresh "Hk" in let Hn := fresh "Hn" in
      intros k Hk Hn; rewrite !not_elem_of_cons in Hn; gets; f_equal; lia
  | |- ∀ k, _ → _ =>
      let k := fresh "k" in let Hk := fresh "Hk" in intros k Hk; gets; f_equal; lia
  | |- _ => len_lia
  end.
Ltac good_frag p f H h off mf a b G :=
  match type of H with
  | rewrites ?l _ _ => pose proof (good_frag4_intro p l f h off mf a b) as G
  end;
  repeat match type of G with
  | (?A → _) => let X := fresh "X" in assert (X : A); [frag_cond| specialize (G X); clear X ]
  end.

Lemma wp_IPv4FragmentPacket (p : bytes) (s : Z) :
  bytes_ok p → 20 <= ihl4 p → len p <= 65535 →
  wp (IPv4FragmentPacket p s) (λ o,
    match o with
    | None => len p < 20 ∨ Z.shiftr (get p 0) 4 ≠ 4 ∨ len p < ihl4 p + 16
    | Some fs => ∃ f1 f2, fs = [f1; f2]
        ∧ good_frag4 p f1 (ihl4 p) ∧ good_frag4 p f2 (ihl4 p)
        ∧ reassemble 2 [frag4 f1; frag4 f2] 0 = Some (sub p (ihl4 p) (len p))
        ∧ reassemble 2 [frag4 f2; frag4 f1] 0 = Some (sub p (ihl4 p) (len p))
    end).
Proof.
  intros Hp Hih Hsz. unfold IPv4FragmentPacket. destruct (ihl4_range p Hp) as [Hr _].
  wp_step; [apply wp_ret; left; zlia|]. do 2 wp_step. wp_step.
  { apply wp_ret. right. left. bprop. done. }
  cbv zeta. rewrite u8_ihl4 by done.
  wp_step; [apply wp_ret; right; right; zlia|].
  wp_step; [zlia|].
  rewrite !andnot7.
  set (s0 := if 8 * ((s + 7) / 8) <? 8 then 8 else 8 * ((s + 7) / 8)).
  set (s1 := if len p - ihl4 p <=? s0 then 8 * ((len p - ihl4 p - 8) / 8) else s0).
  assert (∃ q, s1 = 8 * q) as [q Hq].
  { unfold s1, s0. repeat case_if; [eexists; reflexivity..| |eexists; reflexivity].
    by exists 1. }
  wp_step.
  { apply wp_ret. right; right. bprop. unfold s1 in *.
    destruct (len p - ihl4 p <=? s0) eqn:E; [|zlia]. bprop. Z.div_mod_to_equations. lia. }
  assert (8 <= s1 < len p - ihl4 p) as Hs1.
  { bprop. unfold s1, s0 in *. repeat case_if; bprop; simpl in *; Z.div_mod_to_equations; try lia. }
  clearbody s1. clear Heqb3 s0.
  wp_run. rewrite take_ge_len by len_lia. u16_inner.
  eapply wp_fix_header; [auto 12 with b4|lia| |len_lia|].
  { apply ihl4_eq. gets. f_equal; lia. }
  intros f1 Hf1 Hs1'. wp_run. rewrite !take_ge_len by len_lia. u16_inner.
  replace (s1 / 8) with q by (Z.div_mod_to_equations; lia).
  eapply wp_fix_header; [auto 12 with b4|lia| |len_lia|].
  { apply ihl4_eq. gets. f_equal; lia. }
  intros f2 Hf2 Hs2'. apply wp_ret. exists f1, f2. split; [done|].
  good_frag p f1 Hf1 (ihl4 p) 0 true (ihl4 p) (ihl4 p + s1) Hg1.
  good_frag p f2 Hf2 (ihl4 p) q false (ihl4 p + s1) (len p) Hg2.
  destruct Hg1 as (Hg1&Ho1&Hm1&Hd1), Hg2 as (Hg2&Ho2&Hm2&Hd2).
  split; [done|]. split; [done|].
  rewrite (sub_app p (ihl4 p) (ihl4 p + s1) (len p)), <- Hd1, <- Hd2 by lia.
  apply reassemble_two; rewrite ?Ho1, ?Hd1, ?Ho2; auto; len_simp; try lia.
  rewrite Hq. replace (ihl4 p + 8 * q - ihl4 p) with (q * 8) by lia. by rewrite Z.mod_mul.
Qed.

(** C22: For every split position, [IPv4FragmentPacket] either gives up, only on a
    packet too short to split (or not IPv4), or returns two fragments with valid
    headers that a receiver reassembles, in either order, into the original
    payload; it never panics. *)
Theorem IPv4FragmentPacket_reassembles (p : bytes) (s : Z) :
  bytes_ok p → 20 <= ihl4 p → len p <= 65535 →
  wp (IPv4FragmentPacket p s) (λ o,
    match o with
    | None => len p < 20 ∨ Z.shiftr (get p 0) 4 ≠ 4 ∨ len p < ihl4 p + 16
    | Some fs => ∃ f1 f2, fs = [f1; f2]
        ∧ good_frag4 p f1 (ihl4 p) ∧ good_frag4 p f2 (ihl4 p)
        ∧ reassemble 2 [frag4 f1; frag4 f2] 0 = Some (sub p (ihl4 p) (len p))
        ∧ reassemble 2 [frag4 f2; frag4 f1] 0 = Some (sub p (ihl4 p) (len p))
    end).
Proof. apply wp_IPv4FragmentPacket. Qed.

(** [IPv4FragmentUDP] always splits on a multiple of eight. *)
Lemma udp_split_aligned (split n : Z) :
  let split := if (split <? 1) || (n <=? split) then 8 else split in
  let d := 8 + split - Z.rem (8 + split) 8 in
  (if d <? 8 then 8 else d) = 8 * ((8 + split) / 8) ∧ 8 <= 8 * ((8 + split) / 8) <= 8 + split.
Proof.
  intros s d. assert (1 <= s) as Hs by (unfold s; case_if; bprop; lia).
  unfold d. rewrite Z.rem_mod_nonneg by lia. case_if; bprop; Z.div_mod_to_equations; lia.
Qed.

Lemma offset_bytes (q : Z) : 0 <= q < 8192 →
  Z.land (u8 (Z.shiftr q 8)) 31 = get (bytes16 q) 0.
Proof.
  intros Hq. change (get (bytes16 q) 0) with (u8 (Z.shiftr q 8)).
  change 31 with (Z.ones 5). rewrite Z.land_ones by lia. apply Z.mod_small.
  unfold u8. rewrite Z.shiftr_div_pow2 by lia. change (2 ^ 8) with 256. change (2 ^ 5) with 32.
  Z.div_mod_to_equations. lia.
Qed.

(** Where a datagram with [n] bytes of payload is cut for the requested position. *)
Definition udp_cut (split n : Z) : Z :=
  8 * ((8 + (if (split <? 1) || (n <=? split) then 8 else split)) / 8).

(** [IPv4FragmentUDP] splits a datagram, for every requested position, into
    two fragments with bare 20-byte headers that reassemble in either order into
    the datagram; it gives up only on packets too short or malformed. *)
Theorem IPv4FragmentUDP_reassembles (p : bytes) (s : Z)
    (total := Z.min (get16 p 2) (len p)) :
  bytes_ok p → ihl4 p <= get16 p 2 →
  wp (IPv4FragmentUDP p s) (λ o,
    match o with
    | None => len p < 28 ∨ Z.shiftr (get p 0) 4 ≠ 4 ∨ ihl4 p < 20 ∨ total - ihl4 p < 17
    | Some fs => ∃ f1 f2, fs = [f2; f1]
        ∧ good_frag4 p f1 20 ∧ good_frag4 p f2 20
        ∧ reassemble 2 [frag4 f1; frag4 f2] 0 = Some (sub p (ihl4 p) total)
        ∧ reassemble 2 [frag4 f2; frag4 f1] 0 = Some (sub p (ihl4 p) total)
        ∧ f_data (frag4 f1) = sub p (ihl4 p) (ihl4 p + udp_cut s (total - ihl4 p - 8))
    end).
Proof.
  intros Hp Hih. unfold IPv4FragmentUDP. destruct (ihl4_range p Hp) as [Hr _].
  pose proof (get16_range p 2 Hp). pose proof (get16_range p 4 Hp).
  wp_step; [apply wp_ret; left; zlia|]. do 2 wp_step. wp_step.
  { apply wp_ret. right. left. bprop. done. }
  cbv zeta. rewrite u8_ihl4_shift by done.
  wp_step; [apply wp_ret; right; right; zlia|]. do 2 wp_step.
  replace (if len p <? get16 p 2 then len p else get16 p 2) with total
    by (unfold total; case_if; bprop; lia).
  assert (Ht : ihl4 p <= total <= len p) by (unfold total; bprop; lia).
  do 2 wp_step. set (udp := sub p (ihl4 p) total).
  set (n := total - ihl4 p). assert (len udp = n) as Hlu by (unfold udp; len_lia).
  assert (bytes_ok udp) by (unfold udp; auto with b4).
  wp_step; [apply wp_ret; right; right; right; zlia|]. wp_step. wp_step.
  rewrite len_sub by zlia. rewrite Hlu.
  destruct (udp_split_aligned s (n - 8)) as [-> Hd]. cbv zeta in Hd.
  set (s0 := if (s <? 1) || (n - 8 <=? s) then 8 else s) in *.
  assert (s0 = 8 ∨ s0 < n - 8) as Hs0 by (unfold s0; case_if; bprop; lia).
  assert (udp_cut s (n - 8) = 8 * ((8 + s0) / 8)) as Hcut by done.
  set (q := (8 + s0) / 8) in *.
  wp_step; [apply wp_ret; right; right; right; bprop; destruct Hs0; lia|].
  assert (n <= 65535) by (unfold n, total; lia).
  assert (8 * q < n) as Hqn by zlia. clearbody q. 
  wp_run. rewrite !take_ge_len by len_lia. u16_inner. rewrite bytes16_get16 by done.
  eapply wp_fix_header; [auto 14 with b4|lia| |len_lia|].
  { symmetry. eapply ihl4_bare. gets. reflexivity. }
  intros f1 Hf1 Hs1.
  wp_run. rewrite Z.quot_div_nonneg, (Z.mul_comm 8 q), Z.div_mul by lia.
  rewrite !take_ge_len by len_lia. rewrite len_sub by lia. u16_inner.
  rewrite bytes16_get16, offset_bytes by (done || lia).
  eapply wp_fix_header; [auto 14 with b4|lia| |len_lia|].
  { symmetry. eapply ihl4_bare. gets. reflexivity. }
  intros f2 Hf2 Hs2. apply wp_ret. exists f1, f2. split; [done|].
  unfold n in *. clear n. rewrite !Hlu in *. subst udp.
  good_frag p f1 Hf1 20 0 true (ihl4 p) (ihl4 p + 8 * q) Hg1.
  good_frag p f2 Hf2 20 q false (ihl4 p + 8 * q) total Hg2.
  destruct Hg1 as (Hg1&Ho1&Hm1&Hd1), Hg2 as (Hg2&Ho2&Hm2&Hd2).
  split; [done|]. split; [done|].
  rewrite Hcut, <- Hd1.
  rewrite (sub_app p (ihl4 p) (ihl4 p + 8 * q) total), <- Hd1, <- Hd2 by lia.
  apply and_assoc. split; [|done].
  apply reassemble_two; rewrite ?Ho1, ?Hd1, ?Ho2; auto; len_simp; try lia.
  replace (ihl4 p + 8 * q - ihl4 p) with (q * 8) by lia. by rewrite Z.mod_mul.
Qed.

(** ** Witnesses *)
Lemma IPv4FragmentPacket_reassembles_witness :
  wp (IPv4FragmentPacket demo4 9) (λ o, match o with Some [f1; f2] =>
    reassemble 2 [frag4 f2; frag4 f1] 0 = Some (seqZ 1 24) | _ => False end).
Proof.
  eapply wp_mono; [apply (IPv4FragmentPacket_reassembles demo4 9)|].
  - by apply bytes_okb_spec.
  - vmc.
  - vmc.
  - intros [fs|].
    + intros (f1 & f2 & -> & _ & _ & _ & H). exact H.
    + vm_compute. intros [H|[H|H]]; [discriminate|by apply H|discriminate].
Defined.

Lemma IPv4FragmentUDP_reassembles_witness :
  wp (IPv4FragmentUDP demo4 3) (λ o, match o with Some [f2; f1] =>
    reassemble 2 [frag4 f2; frag4 f1] 0 = Some (seqZ 1 24) | _ => False end).
Proof.
  eapply wp_mono; [apply (IPv4FragmentUDP_reassembles demo4 3)|].
  - by apply bytes_okb_spec.
  - vmc.
  - intros [fs|].
    + intros (f1 & f2 & -> & _ & _ & _ & [H _]). exact H.
    + vm_compute. intros [H|[H|[H|H]]]; [discriminate|by apply H|discriminate..].
Defined.
