(* ===== verification/Fragment6.v ===== *)
(** * IPv6 fragmentation of package [sock]

    src/src/sock/fragment_ipv6.go and the UDP variant of udp_ipv6.go, against
    the receiver of RFC 8200 ([frag6] and [Fragment.reassemble]). *)

From Stdlib Require Import ZArith Lia.
From stdpp Require Import base list numbers sets.
From S2P Require Import Prelude Checksum Fragment.

Local Open Scope Z_scope.

(** ** The code *)

(** The two fragments of the IPv6 routines: header, Fragment header, data.
    [frag6_build] is the block that both routines write out twice. *)
Definition frag6_build (packet : bytes) (nextHeader offField identification : Z)
    (dataLen : Z) (data : bytes) : go bytes :=
  let! frag := make (40 + 8 + dataLen) in
  let! hdr := slice packet 0 40 in
  let! frag := copy_from frag 0 hdr in
  let! frag := upd frag 6 44 in
  let! frag := put16 frag 4 (8 + dataLen) in
  let! fragHdr := slice frag 40 48 in
  let! fragHdr := upd fragHdr 0 nextHeader in
  let! fragHdr := upd fragHdr 1 0 in
  let! fragHdr := put16 fragHdr 2 offField in
  let! fragHdr := put32 fragHdr 4 identification in
  let frag := splice frag 40 fragHdr in
  copy_from frag 48 data.

(** [identification] is the value [utils.RandUint32] returned. *)
Definition IPv6FragmentPacket (identification : Z) (packet : bytes) (splitPos : Z)
    : go (option (list bytes)) :=
  if len packet <? 40 then Ret None else
  let! v := idx packet 0 in
  if negb (Z.shiftr v 4 =? 6) then Ret None else
  let ipv6HdrLen := 40 in
  let! nextHeader := idx packet 6 in
  if negb (nextHeader =? 6) && negb (nextHeader =? 17) then Ret None else
  let! payloadLen := be16 packet 4 in
  if (payloadLen <? 8) || (len packet <? ipv6HdrLen + payloadLen) then Ret None else
  let splitPos := andnot (splitPos + 7) 7 in
  let clamp := payloadLen <=? splitPos in
  let splitPos := if clamp then payloadLen - 8 else splitPos in
  if clamp && (splitPos <? 8) then Ret None else
  let! data1 := slice packet ipv6HdrLen (ipv6HdrLen + splitPos) in
  let! frag1 := frag6_build packet nextHeader (Z.lor 0 1) identification splitPos data1 in
  let remainingLen := payloadLen - splitPos in
  let offsetUnits := u16 (splitPos / 8) in
  let! data2 := slice_from packet (ipv6HdrLen + splitPos) in
  let! frag2 := frag6_build packet nextHeader (u16 (Z.shiftl offsetUnits 3)) identification
                  remainingLen data2 in
  Ret (Some [frag1; frag2]).

Definition IPv6FragmentUDP (identification : Z) (orig : bytes) (split : Z)
    : go (option (list bytes)) :=
  if len orig <? 48 then Ret None else
  let! v := idx orig 0 in
  if negb (Z.shiftr v 4 =? 6) then Ret None else
  let ipv6HdrLen := 40 in
  let! nh := idx orig 6 in
  if (len orig <? ipv6HdrLen + 8) || negb (nh =? 17) then Ret None else
  let! payloadLen := be16 orig 4 in
  if (payloadLen <? 8) || (len orig <? ipv6HdrLen + payloadLen) then Ret None else
  let! udp := slice orig ipv6HdrLen (ipv6HdrLen + payloadLen) in
  if len udp <? 8 then Ret None else
  let! payload := slice_from udp 8 in
  let split := if (split <? 1) || (len payload <=? split) then 8 else split in
  let firstData := 8 + split in
  let firstDataAligned := firstData - Z.rem firstData 8 in
  let firstDataAligned := if firstDataAligned <? 8 then 8 else firstDataAligned in
  if len udp <=? firstDataAligned then Ret None else
  let! data1 := slice udp 0 firstDataAligned in
  let! frag1 := frag6_build orig 17 (Z.lor 0 1) identification firstDataAligned data1 in
  let! remainingData := slice_from udp firstDataAligned in
  let offsetUnits := u16 (Z.quot firstDataAligned 8) in
  let! frag2 := frag6_build orig 17 (u16 (Z.shiftl offsetUnits 3)) identification
                  (len remainingData) remainingData in
  Ret (Some [frag2; frag1]).

(** ** The receiver *)

Definition frag6 (p : bytes) : frag :=
  {| f_off := Z.shiftr (get16 p 42) 3 * 8; f_mf := Z.testbit (get16 p 42) 0;
     f_data := sub p 48 (40 + get16 p 4) |}.

(** ** What the fragments are *)

(** What makes an IPv6 fragment acceptable: the Fragment header is chained in,
    it names the original protocol and carries [identification]. *)
Definition good_frag6 (p f : bytes) (nextHeader identification : Z) : Prop :=
  bytes_ok f ∧ len f = 40 + get16 f 4
  ∧ same_header [4; 5; 6] p f 40
  ∧ get f 6 = 44 ∧ get f 40 = nextHeader ∧ get f 41 = 0 ∧ get32 f 44 = identification.

Lemma get32_bytes32 (l : bytes) (i v : Z) :
  0 <= v < 4294967296 → (∀ j, 0 <= j < 4 → get l (i + j) = get (bytes32 v) j) →
  get32 l i = v.
Proof.
  intros Hv Hj. rewrite <- (get32_splice [0;0;0;0] 0 v) at 1; [|repeat constructor; done|done..].
  unfold get32. pose proof (Hj 0 ltac:(lia)) as H0. rewrite Z.add_0_r in H0.
  rewrite H0, !Hj by lia. reflexivity.
Qed.

Lemma wp_frag6_build (p : bytes) (nh off id n : Z) (data : bytes) Q :
  bytes_ok p → bytes_ok data → is_byte nh → 0 <= off < 65536 → 0 <= id < 4294967296 →
  40 <= len p → 0 <= n → n + 8 <= 65535 → n <= len data →
  (∀ f, good_frag6 p f nh id → len f = 48 + n → f_off (frag6 f) = Z.shiftr off 3 * 8 →
     f_mf (frag6 f) = Z.testbit off 0 → f_data (frag6 f) = sub data 0 n → Q f) →
  wp (frag6_build p nh off id n data) Q.
Proof.
  intros Hp Hd Hnh Hoff Hid Hlp Hn Hsz Hnd HQ. unfold frag6_build.
  wp_run. rewrite take_ge_len by len_lia. u16_inner. rewrite (u32_small id) by lia.
  rewrite take_sub.
  match goal with |- context [sub data 0 ?m] => replace m with n by len_lia end.
  match goal with |- Q ?l => set (f := l) end.
  assert (get16 f 4 = 8 + n) as H4.
  { unfold f. apply get16_bytes16; [lia|..]; gets; first [reflexivity | f_equal; lia]. }
  assert (get16 f 42 = off) as H42.
  { unfold f. apply get16_bytes16; [lia|..]; gets; first [reflexivity | f_equal; lia]. }
  assert (len f = 48 + n) as Hlf by (unfold f; len_lia).
  apply HQ; [|done|..|].
  - split_and!.
    + unfold f. auto 20 with b4.
    + lia.
    + intros k Hk Hnk. rewrite !not_elem_of_cons in Hnk. unfold f. gets. f_equal; lia.
    + unfold f. gets. reflexivity.
    + unfold f. gets. reflexivity.
    + unfold f. gets. reflexivity.
    + apply get32_bytes32; [lia|]. intros j Hj. unfold f. gets. f_equal; lia.
  - unfold frag6. cbn [f_off]. by rewrite H42.
  - unfold frag6. cbn [f_mf]. by rewrite H42.
  - unfold frag6. cbn [f_data]. rewrite H4.
    apply list_ext_get; [len_lia|]. intros k Hk. rewrite len_sub in Hk by lia.
    unfold f. gets. f_equal; lia.
Qed.

(** A version-6 packet that carries TCP or UDP straight after its header, of the
    length the header declares. *)
Definition plain6 (p : bytes) : Prop :=
  40 <= len p ∧ Z.shiftr (get p 0) 4 = 6 ∧ (get p 6 = 6 ∨ get p 6 = 17)
  ∧ 40 + get16 p 4 <= len p.

(** Where the routine splits: the first multiple of eight from [s] on, and eight
    bytes before the end when that is past the end. *)
Definition split6 (s n : Z) : Z :=
  if n <=? andnot (s + 7) 7 then n - 8 else andnot (s + 7) 7.

Lemma shiftr3_units (x : Z) : 0 <= x < 65536 →
  Z.shiftr (u16 (Z.shiftl (u16 (x / 8)) 3)) 3 * 8 = 8 * (x / 8)
  ∧ Z.testbit (u16 (Z.shiftl (u16 (x / 8)) 3)) 0 = false
  ∧ 0 <= u16 (Z.shiftl (u16 (x / 8)) 3) < 65536.
Proof.
  intros Hx. rewrite Z.shiftl_mul_pow2, !Z.shiftr_div_pow2 by lia. change (2 ^ 3) with 8.
  u16_inner. rewrite Z.div_mul by lia. split; [lia|]. split; [|Z.div_mod_to_equations; lia].
  rewrite Z.testbit_eqb by lia. apply Z.eqb_neq. change (2 ^ 0) with 1. rewrite Z.div_1_r.
  replace (x / 8 * 8) with (x / 8 * 4 * 2) by lia. rewrite Z.mod_mul; lia.
Qed.

(** The two fragments, whatever the alignment: the first carries [split6] bytes,
    the second the rest at the offset rounded down to a multiple of eight. *)
Lemma wp_IPv6FragmentPacket (id : Z) (p : bytes) (s : Z) Q :
  bytes_ok p → 0 <= id < 4294967296 → 1 <= s → get16 p 4 <= 65528 →
  (¬ (plain6 p ∧ 16 <= get16 p 4) → Q None) →
  (∀ f1 f2, let d := split6 s (get16 p 4) in 8 <= d < get16 p 4 →
    plain6 p → good_frag6 p f1 (get p 6) id → good_frag6 p f2 (get p 6) id →
    f_off (frag6 f1) = 0 → f_mf (frag6 f1) = true → f_data (frag6 f1) = sub p 40 (40 + d) →
    f_off (frag6 f2) = 8 * (d / 8) → f_mf (frag6 f2) = false →
    f_data (frag6 f2) = sub p (40 + d) (40 + get16 p 4) → Q (Some [f1; f2])) →
  wp (IPv6FragmentPacket id p s) Q.
Proof.
  intros Hp Hid Hs Hbig HN HS. pose proof (get16_range p 4 Hp) as Hpl. unfold plain6 in *.
  unfold IPv6FragmentPacket.
  wp_step; [apply wp_ret, HN; zlia|]. do 2 wp_step. wp_step; [apply wp_ret, HN; zlia|]. do 2 wp_step.
  wp_step; [apply wp_ret, HN; zlia|]. do 2 wp_step.
  wp_step; [apply wp_ret, HN; zlia|]. cbv zeta. fold (split6 s (get16 p 4)).
  assert (8 <= split6 s (get16 p 4) < get16 p 4
    ∨ (get16 p 4 <=? andnot (s + 7) 7) = true ∧ split6 s (get16 p 4) < 8) as Hd.
  { unfold split6. case_if; bprop; rewrite andnot7 in *; Z.div_mod_to_equations; lia. }
  set (d := split6 s (get16 p 4)) in *.
  wp_step.
  { apply wp_ret, HN. destruct Hd as [|[E Hlt]]; [zlia|].
    unfold d, split6 in Hlt. rewrite E in Hlt. zlia. }
  assert (8 <= d < get16 p 4) as Hd' by (destruct Hd as [|[E ?]]; [done|]; rewrite E in *; zlia).
  clear Hd. destruct (shiftr3_units d ltac:(lia)) as (Hu1 & Hu2 & Hu3).
  assert (plain6 p) as Hplain by (unfold plain6; bprop; lia).
  assert (is_byte (get p 6)) by auto with b4.
  change (Z.lor 0 1) with 1.
  do 3 wp_step. apply wp_frag6_build; try (auto with b4; len_lia).
  intros f1 Hg1 Hl1 Ho1 Hm1 Hd1. wp_run. apply wp_frag6_build; try (auto with b4; len_lia).
  intros f2 Hg2 Hl2 Ho2 Hm2 Hd2. apply wp_ret, HS; auto.
  - rewrite Hd1. rewrite <- take_sub. apply take_ge_len. len_lia.
  - by rewrite Ho2.
  - by rewrite Hm2.
  - rewrite Hd2. apply list_ext_get; [len_lia|]. intros k Hk. gets; f_equal; lia.
Qed.

(** [split6] is aligned unless it had to back off from the end of a payload that
    is not a multiple of eight long. *)
Lemma split6_aligned (s n : Z) :
  andnot (s + 7) 7 < n ∨ n mod 8 = 0 → split6 s n mod 8 = 0.
Proof.
  unfold split6. rewrite andnot7. intros [H|H]; case_if; bprop; try lia.
  - by rewrite Z.mul_comm, Z.mod_mul.
  - replace (n - 8) with (n + -1 * 8) by lia. by rewrite Z.mod_add.
  - by rewrite Z.mul_comm, Z.mod_mul.
Qed.

Lemma wp_IPv6FragmentPacket_plain (id : Z) (p : bytes) (s : Z) :
  bytes_ok p → 0 <= id < 4294967296 → 1 <= s → get16 p 4 <= 65528 →
  andnot (s + 7) 7 < get16 p 4 ∨ get16 p 4 mod 8 = 0 →
  wp (IPv6FragmentPacket id p s) (λ o,
    match o with
    | None => ¬ (plain6 p ∧ 16 <= get16 p 4)
    | Some fs => ∃ f1 f2, fs = [f1; f2]
        ∧ good_frag6 p f1 (get p 6) id ∧ good_frag6 p f2 (get p 6) id
        ∧ reassemble 2 [frag6 f1; frag6 f2] 0 = Some (sub p 40 (40 + get16 p 4))
        ∧ reassemble 2 [frag6 f2; frag6 f1] 0 = Some (sub p 40 (40 + get16 p 4))
    end).
Proof.
  intros Hp Hid Hs Hbig Hal. apply wp_IPv6FragmentPacket; auto.
  intros f1 f2 d Hd (?&?&?&?) Hg1 Hg2 Ho1 Hm1 Hd1 Ho2 Hm2 Hd2.
  pose proof (split6_aligned s _ Hal) as Hmod. fold d in Hmod.
  exists f1, f2. split; [done|]. split; [done|]. split; [done|].
  rewrite (sub_app p 40 (40 + d)), <- Hd1, <- Hd2 by lia.
  assert (len (f_data (frag6 f1)) = d) as Hl by (rewrite Hd1; len_lia).
  apply reassemble_two; rewrite ?Ho1, ?Hl, ?Ho2; auto; try lia.
  Z.div_mod_to_equations. lia.
Qed.

(** [IPv6FragmentPacket] on a positive split position whose next multiple of
    eight falls inside the payload (or on any, if the payload is a multiple of
    eight long) gives two well-formed fragments with the given identification
    that reassemble, in either order, into the original payload. *)
Theorem IPv6FragmentPacket_reassembles (id : Z) (p : bytes) (s : Z) :
  bytes_ok p → 0 <= id < 4294967296 → 1 <= s → get16 p 4 <= 65528 →
  andnot (s + 7) 7 < get16 p 4 ∨ get16 p 4 mod 8 = 0 →
  wp (IPv6FragmentPacket id p s) (λ o,
    match o with
    | None => ¬ (plain6 p ∧ 16 <= get16 p 4)
    | Some fs => ∃ f1 f2, fs = [f1; f2]
        ∧ good_frag6 p f1 (get p 6) id ∧ good_frag6 p f2 (get p 6) id
        ∧ reassemble 2 [frag6 f1; frag6 f2] 0 = Some (sub p 40 (40 + get16 p 4))
        ∧ reassemble 2 [frag6 f2; frag6 f1] 0 = Some (sub p 40 (40 + get16 p 4))
    end).
Proof. apply wp_IPv6FragmentPacket_plain. Qed.

(** When [IPv6FragmentPacket] has to back off from the end of a payload that
    is not a multiple of eight long, it splits at an unaligned position (the IPv4
    routine rounds down here) and the fragments do not reassemble. *)
Theorem IPv6FragmentPacket_misaligned (id : Z) (p : bytes) (s : Z) :
  bytes_ok p → 0 <= id < 4294967296 → 1 <= s → 16 <= get16 p 4 <= 65528 → plain6 p →
  get16 p 4 <= andnot (s + 7) 7 → get16 p 4 mod 8 ≠ 0 →
  wp (IPv6FragmentPacket id p s) (λ o, ∃ f1 f2, o = Some [f1; f2]
    ∧ reassemble 2 [frag6 f1; frag6 f2] 0 = None).
Proof.
  intros Hp Hid Hs Hbig Hpl Hs7 Hmod. apply wp_IPv6FragmentPacket; auto; [lia|intros []; split; [done|lia]|].
  intros f1 f2 d Hd (?&?&?&?) Hg1 Hg2 Ho1 Hm1 Hd1 Ho2 Hm2 Hd2.
  exists f1, f2. split; [done|]. cbn [reassemble List.find].
  rewrite Ho1, Z.eqb_refl, Hm1, Hd1. rewrite len_sub by lia.
  assert (((40 + d - 40) mod 8 =? 0) = false) as ->; [|done].
  apply Z.eqb_neq. unfold d, split6. case_if; [|zlia]. Z.div_mod_to_equations. lia.
Qed.

(** [IPv6FragmentUDP] splits a UDP packet, for every requested position, into
    two well-formed fragments that reassemble in either order into the datagram,
    and gives up only on packets too short or not plain UDP. *)
Theorem IPv6FragmentUDP_reassembles (id : Z) (p : bytes) (s : Z) :
  bytes_ok p → 0 <= id < 4294967296 → get16 p 4 <= 65528 →
  wp (IPv6FragmentUDP id p s) (λ o,
    match o with
    | None => ¬ (plain6 p ∧ get p 6 = 17 ∧ 17 <= get16 p 4)
    | Some fs => ∃ f1 f2, fs = [f2; f1]
        ∧ good_frag6 p f1 17 id ∧ good_frag6 p f2 17 id
        ∧ reassemble 2 [frag6 f1; frag6 f2] 0 = Some (sub p 40 (40 + get16 p 4))
        ∧ reassemble 2 [frag6 f2; frag6 f1] 0 = Some (sub p 40 (40 + get16 p 4))
        ∧ f_data (frag6 f1) = sub p 40 (40 + udp_cut s (get16 p 4 - 8))
    end).
Proof.
  intros Hp Hid Hbig. pose proof (get16_range p 4 Hp) as Hpl. unfold plain6.
  unfold IPv6FragmentUDP.
  wp_step; [apply wp_ret; zlia|]. do 2 wp_step. wp_step; [apply wp_ret; zlia|]. do 2 wp_step.
  wp_step; [apply wp_ret; zlia|]. do 2 wp_step.
  wp_step; [apply wp_ret; zlia|]. do 2 wp_step.
  set (n := get16 p 4) in *. set (udp := sub p 40 (40 + n)).
  assert (len udp = n) as Hlu by (unfold udp; bprop; len_lia).
  wp_step; [apply wp_ret; zlia|]. wp_step. wp_step.
  cbv zeta. rewrite len_sub by zlia. rewrite Hlu.
  destruct (udp_split_aligned s (n - 8)) as [-> Hd]. cbv zeta in Hd.
  set (s0 := if (s <? 1) || (n - 8 <=? s) then 8 else s) in *.
  assert (s0 = 8 ∨ s0 < n - 8) as Hs0 by (unfold s0; case_if; bprop; lia).
  assert (udp_cut s (n - 8) = 8 * ((8 + s0) / 8)) as Hcut by done.
  set (d := 8 * ((8 + s0) / 8)) in *.
  assert (d mod 8 = 0) as Hmod by (unfold d; by rewrite Z.mul_comm, Z.mod_mul).
  wp_step.
  { apply wp_ret. intros (_&_&Hn17). bprop. destruct Hs0; lia. }
  destruct (shiftr3_units d ltac:(bprop; lia)) as (Hu1 & Hu2 & Hu3).
  assert (is_byte 17) by auto with b4. change (Z.lor 0 1) with 1.
  do 3 wp_step. apply wp_frag6_build; try (unfold udp; auto with b4; len_lia).
  intros f1 Hg1 Hl1 Ho1 Hm1 Hd1. wp_run. rewrite Z.quot_div_nonneg by lia.
  apply wp_frag6_build; try (unfold udp; auto with b4; len_lia).
  intros f2 Hg2 Hl2 Ho2 Hm2 Hd2. apply wp_ret. exists f1, f2. split; [done|].
  assert (f_data (frag6 f1) = sub udp 0 d) as Hd1' by (rewrite Hd1; apply list_ext_get;
    [len_lia|intros k Hk; gets; f_equal; lia]).
  assert (f_data (frag6 f2) = sub udp d n) as Hd2' by (rewrite Hd2, Hlu; apply list_ext_get;
    [len_lia|intros k Hk; gets; f_equal; lia]).
  split; [done|]. split; [done|].
  replace udp with (sub udp 0 n) by (rewrite <- Hlu; apply sub_full).
  rewrite (sub_app udp 0 d n), <- Hd1', <- Hd2' by zlia.
  assert (len (f_data (frag6 f1)) = d) as Hl by (rewrite Hd1'; len_lia).
  apply and_assoc. split.
  2:{ rewrite Hcut, Hd1'. apply list_ext_get; [unfold udp; len_lia|]. intros k Hk. rewrite len_sub in Hk by lia.
      unfold udp. gets; f_equal; lia. }
  apply reassemble_two; rewrite ?Ho1, ?Hl, ?Ho2, ?Hm1, ?Hm2, ?Hu1, ?Hu2; auto; try lia.
  Z.div_mod_to_equations. lia.
Qed.

(** ** Witnesses *)
Definition demo6 (nh n : Z) : bytes := ip6_demo nh (seqZ 1 n).

Lemma IPv6FragmentPacket_reassembles_witness :
  wp (IPv6FragmentPacket 77 (demo6 6 20) 9) (λ o, match o with Some [f1; f2] =>
    reassemble 2 [frag6 f2; frag6 f1] 0 = Some (seqZ 1 20) | _ => False end).
Proof.
  eapply wp_mono; [apply (IPv6FragmentPacket_reassembles 77 (demo6 6 20) 9)|].
  - by apply bytes_okb_spec.
  - lia.
  - lia.
  - vmc.
  - left. vmc.
  - intros [fs|].
    + intros (f1 & f2 & -> & _ & _ & _ & H). exact H.
    + intros H. apply H. unfold plain6. split; [|vmc]. split_and!; [vmc|vmc|by left|vmc].
Defined.

Lemma IPv6FragmentPacket_misaligned_witness :
  wp (IPv6FragmentPacket 77 (demo6 6 20) 18) (λ o, match o with Some [f1; f2] =>
    reassemble 2 [frag6 f1; frag6 f2] 0 = None | _ => False end).
Proof.
  eapply wp_mono; [apply (IPv6FragmentPacket_misaligned 77 (demo6 6 20) 18)|].
  - by apply bytes_okb_spec.
  - lia.
  - lia.
  - vmc.
  - unfold plain6. split_and!; [vmc|vmc|by left|vmc].
  - vmc.
  - vmc.
  - intros o (f1 & f2 & -> & H). exact H.
Defined.

Lemma IPv6FragmentUDP_reassembles_witness :
  wp (IPv6FragmentUDP 77 (demo6 17 20) 3) (λ o, match o with Some [f2; f1] =>
    reassemble 2 [frag6 f2; frag6 f1] 0 = Some (seqZ 1 20) | _ => False end).
Proof.
  eapply wp_mono; [apply (IPv6FragmentUDP_reassembles 77 (demo6 17 20) 3)|].
  - by apply bytes_okb_spec.
  - lia.
  - vmc.
  - intros [fs|].
    + intros (f1 & f2 & -> & _ & _ & _ & [H _]). exact H.
    + intros H. apply H. unfold plain6. split_and!; try vmc. by right.
Defined.
