(* ===== verification/Buffer.v ===== *)
(** * Writing into a buffer

    A packet is built by a sequence of writes.  The rules below name each buffer and
    keep what it holds as a hypothesis, so that a proof about a long sequence does not
    carry the nested updates: [wp_write] runs a write, [readback] reads a byte of the
    last buffer through the writes. *)

From Stdlib Require Import ZArith Lia.
From stdpp Require Import base list numbers.
From S2P Require Import Prelude Checksum Fragment.

Local Open Scope Z_scope.

(** [r] is [l] with the [n] bytes at [i] written; [v] gives the byte of each position. *)
Definition written (l : bytes) (i n : Z) (v : Z → Z) (r : bytes) : Prop :=
  len r = len l ∧ (bytes_ok l → (∀ k, 0 <= k < n → is_byte (v (i + k))) → bytes_ok r)
  ∧ ∀ k, get r k = if (i <=? k) && (k <? i + n) then v k else get l k.

Lemma written_splice (l s : bytes) (i : Z) : 0 <= i → i + len s <= len l →
  written l i (len s) (λ k, get s (k - i)) (splice l i s).
Proof.
  intros Hi Hl. split; [len_simp; lia|]. split.
  - intros Hok Hs. apply bytes_ok_splice; [done|]. apply Forall_lookup. intros n x Hn.
    specialize (Hs (Z.of_nat n)). pose proof (lookup_lt_Some _ _ _ Hn).
    replace (i + Z.of_nat n - i) with (Z.of_nat n) in Hs by lia.
    rewrite get_nth, (nth_lookup_Some _ _ _ _ Hn) in Hs. apply Hs. lia.
  - intros k. by rewrite get_splice by lia.
Qed.

Lemma wp_upd_w l i v Q : 0 <= i < len l → (∀ r, written l i 1 (λ _, v) r → Q r) → wp (upd l i v) Q.
Proof.
  intros Hi HQ. apply wp_upd; [done|]. apply HQ. split; [len_simp; lia|]. split.
  - intros Hok Hv. apply bytes_ok_insert; [done|]. by apply (Hv 0).
  - intros k. rewrite get_insert by lia. zcases; done || zlia.
Qed.
Lemma wp_copy_w d i j s Q : 0 <= i → i + len s <= j → j <= len d →
  (∀ r, written d i (len s) (λ k, get s (k - i)) r → Q r) → wp (copy_at d i j s) Q.
Proof. intros Hi Hs Hj HQ. apply wp_copy_fit; [lia..|]. by apply HQ, written_splice; lia. Qed.
Lemma wp_copy_from_w d i s Q : 0 <= i → i + len s <= len d →
  (∀ r, written d i (len s) (λ k, get s (k - i)) r → Q r) → wp (copy_from d i s) Q.
Proof. intros. unfold copy_from. by apply wp_copy_w; [lia..|]. Qed.
Lemma wp_put16_w l i v Q : 0 <= i → i + 2 <= len l →
  (∀ r, written l i 2 (λ k, get (bytes16 (u16 v)) (k - i)) r → Q r) → wp (put16 l i v) Q.
Proof. intros. unfold put16. apply wp_copy_w; [lia|rewrite len_bytes16; lia|lia|done]. Qed.
Lemma wp_put32_w l i v Q : 0 <= i → i + 4 <= len l →
  (∀ r, written l i 4 (λ k, get (bytes32 (u32 v)) (k - i)) r → Q r) → wp (put32 l i v) Q.
Proof. intros. unfold put32. apply wp_copy_w; [lia|rewrite len_bytes32; lia|lia|done]. Qed.
Lemma wp_make_w n Q : 0 <= n →
  (∀ r, len r = n → bytes_ok r → (∀ k, get r k = 0) → Q r) → wp (make n) Q.
Proof.
  intros Hn HQ. apply wp_make; [done|]. apply HQ; [len_simp; lia|auto with b4|].
  intros k. rewrite get_replicate. by case_if.
Qed.

(** A range of a buffer from its bytes. *)
Lemma sub_is (l d : bytes) (i : Z) :
  0 <= i → i + len d <= len l → (∀ k, 0 <= k < len d → get l (i + k) = get d k) → sub l i (i + len d) = d.
Proof.
  intros Hi Hl Hd. apply list_ext_get; [len_simp; lia|]. intros k Hk. rewrite len_sub in Hk by lia.
  rewrite get_sub by lia. zcases. apply Hd. lia.
Qed.

Lemma sub_copied (l s : bytes) (i j : Z) : 0 <= i → j = i + len s → j <= len l →
  (∀ k, 0 <= k < len s → get l (i + k) = get s k) → sub l i j = s.
Proof. intros ? -> ? ?. by apply sub_is. Qed.

Lemma ihl4_69 r : get r 0 = 69 → ihl4 r = 20.
Proof. unfold ihl4. by intros ->. Qed.

(** One write, or a slice that is read. *)
Ltac wp_write :=
  lazymatch goal with
  | |- wp (go_bind _ _) _ => apply wp_bind
  | _ => idtac
  end;
  cbv beta;
  let r := fresh "b" in let L := fresh "L" in let O := fresh "O" in let G := fresh "G" in
  lazymatch goal with
  | |- wp (make _) _ => apply wp_make_w; [lia|]; intros r L O G
  | |- wp (upd _ _ _) _ => apply wp_upd_w; [lia|]; intros r (L & O & G); try specialize (O ltac:(assumption) ltac:(auto with b4))
  | |- wp (copy_at _ _ _ _) _ => apply wp_copy_w; [lia|len_lia|lia|]; intros r (L & O & G); try specialize (O ltac:(assumption) ltac:(auto with b4))
  | |- wp (copy_from _ _ _) _ => apply wp_copy_from_w; [lia|len_lia|]; intros r (L & O & G); try specialize (O ltac:(assumption) ltac:(auto with b4))
  | |- wp (put16 _ _ _) _ => apply wp_put16_w; [lia|lia|]; intros r (L & O & G); try specialize (O ltac:(assumption) ltac:(auto with b4))
  | |- wp (put32 _ _ _) _ => apply wp_put32_w; [lia|lia|]; intros r (L & O & G); try specialize (O ltac:(assumption) ltac:(auto with b4))
  | |- wp (slice _ _ _) _ => apply wp_slice; [lia..|]
  | |- wp (slice_from _ _) _ => apply wp_slice_from; [lia..|]
  | |- wp (idx _ _) _ => apply wp_idx; [lia|]
  | |- wp (be16 _ _) _ => apply wp_be16; [lia..|]
  | |- wp (be32 _ _) _ => apply wp_be32; [lia..|]
  end; cbv beta.

(** Decide the tests on positions: by evaluation, then by arithmetic. *)
Ltac test_step :=
  match goal with
  | |- context [if ?b then _ else _] =>
      let r := eval vm_compute in b in
      lazymatch r with
      | true => change b with true; cbv iota
      | false => change b with false; cbv iota
      end
  | |- context [if ?b then _ else _] =>
      let E := fresh "E" in destruct b eqn:E; try (exfalso; zlia)
  end.
Ltac readback :=
  repeat (first
    [ match goal with
      | |- context [get ?r ?k] =>
          match goal with
          | G : ∀ k', get r k' = _ |- _ => rewrite (G k); cbv beta
          end
      | |- context [len (sub ?l ?i ?j)] => rewrite (len_sub l i j) by lia
      | |- context [get (?a ++ ?b) ?k] => rewrite (get_app a b k), ?len_bytes16, ?len_bytes32
      | |- context [get (sub ?l ?i ?j) ?k] => rewrite (get_sub l i j k) by lia
      end
    | test_step ]).

(** A field of a packet built by writes, against what was written. *)
Ltac packet_field :=
  lazymatch goal with
  | |- ∀ k, _ → _ => let k := fresh "k" in let Hk := fresh "Hk" in intros k Hk
  | _ => idtac
  end;
  lazymatch goal with
  | |- get16 _ _ = _ => apply get16_bytes16; [lia|..]
  | _ => idtac
  end;
  readback; rewrite ?u16_small by lia; try reflexivity; try (f_equal; lia); try (do 2 f_equal; lia).

(** A range that was copied into the buffer. *)
Ltac copied :=
  apply sub_copied; [lia|len_lia|lia|];
  let k := fresh "k" in let Hk := fresh "Hk" in intros k Hk; rewrite ?len_sub in Hk by lia; readback; f_equal; lia.
