(* ===== verification/Payloads.v ===== *)
(** * Fake payloads

    src/src/sock/payload.go and tls.go with the two ClientHellos of
    src/src/config/payloads.go: which bytes a fake packet carries, and how they are
    made to look like the packet they imitate.  [rand.Read] is the argument [rnd]. *)

From Stdlib Require Import ZArith Lia Ascii.
From stdpp Require Import base list numbers strings.
From S2P Require Import Prelude Config.

Local Open Scope Z_scope.

Definition FakeSNI1 : bytes := [
  22;3;1;4;206;1;0;4;202;3;3;75;43;186;204;224;198;252;62;100;119;37;12;147;230;149;184;184;126;221;
  23;12;180;225;72;183;239;195;142;84;210;91;249;32;165;208;138;86;54;252;248;54;154;17;54;66;213;
  187;80;8;192;62;27;50;62;242;211;27;210;193;132;18;102;56;147;140;0;34;19;1;19;3;19;2;192;43;192;
  47;204;169;204;168;192;44;192;48;192;10;192;9;192;19;192;20;0;156;0;157;0;47;0;53;1;0;4;95;0;0;0;
  19;0;17;0;0;14;119;119;119;46;103;111;111;103;108;101;46;99;111;109;0;23;0;0;255;1;0;1;0;0;10;0;
  14;0;12;0;29;0;23;0;24;0;25;1;0;1;1;0;11;0;2;1;0;0;16;0;11;0;9;8;104;116;116;112;47;49;46;49;0;5;
  0;5;1;0;0;0;0;0;34;0;10;0;8;4;3;5;3;6;3;2;3;0;51;0;107;0;105;0;29;0;32;219;67;138;156;45;9;159;35;
  130;92;153;201;18;93;219;225;116;40;9;190;85;251;117;156;206;74;126;44;94;124;42;90;0;23;0;65;4;
  107;10;173;172;254;88;150;116;1;59;110;126;27;28;46;165;23;20;254;50;95;234;36;252;230;94;102;12;
  70;44;129;189;179;222;79;153;1;26;128;239;100;73;182;121;25;211;201;118;82;154;4;13;246;70;84;4;
  221;214;238;174;152;66;9;203;0;42;0;0;0;43;0;5;4;3;4;3;3;0;13;0;24;0;22;4;3;5;3;6;3;8;4;8;5;8;6;4;
  1;5;1;6;1;2;3;2;1;0;45;0;2;1;1;0;28;0;2;64;1;254;13;2;57;0;0;1;0;3;228;0;32;223;198;163;218;89;27;
  7;170;234;21;245;90;29;147;150;196;173;243;141;71;238;103;228;37;125;55;143;27;110;137;94;129;2;
  15;103;183;220;214;79;68;125;222;225;90;67;152;150;39;149;203;239;137;92;162;187;24;107;142;255;
  85;205;134;161;48;128;131;218;90;147;5;248;8;196;248;102;15;128;19;161;147;126;63;184;123;31;98;
  202;1;184;151;246;238;234;2;204;233;6;159;161;113;150;192;204;209;111;167;123;129;207;152;125;66;
  5;84;246;48;221;208;218;114;63;83;143;9;113;30;25;214;73;124;159;93;201;32;99;12;20;114;25;200;87;
  251;175;204;113;41;113;24;159;177;151;143;75;100;63;175;39;71;208;16;224;174;78;68;167;5;225;212;
  20;79;80;62;248;232;184;98;201;119;65;106;9;201;139;245;105;131;152;120;135;236;165;60;188;130;
  152;99;11;48;89;179;244;18;195;97;128;18;25;204;185;114;108;61;215;222;1;215;180;183;226;235;234;
  61;236;91;117;148;176;175;28;4;154;19;150;125;151;24;101;145;34;232;135;23;100;73;100;212;197;242;
  78;58;29;199;96;132;223;129;59;145;208;182;98;242;104;114;72;229;101;134;166;37;6;16;97;52;227;48;
  30;149;141;188;189;240;81;38;185;159;41;146;117;75;242;15;111;144;150;87;239;183;35;239;11;19;236;
  139;178;57;217;7;100;5;47;126;54;107;0;91;167;193;184;200;113;74;4;195;124;109;53;243;254;89;2;
  163;125;54;169;120;20;217;41;71;72;221;133;114;73;26;12;136;7;138;231;93;185;24;231;46;17;139;245;
  22;24;224;47;78;121;13;218;239;55;208;51;22;105;88;125;62;168;55;215;38;88;82;88;85;33;15;184;73;
  203;234;232;94;63;234;85;115;115;15;182;112;70;146;78;73;165;199;95;197;35;241;234;163;43;45;182;
  207;81;30;115;163;191;237;123;83;38;19;62;189;240;141;26;86;159;88;79;89;229;117;62;2;197;170;84;
  236;29;215;118;123;80;234;77;155;246;145;184;255;169;177;102;43;114;70;129;119;76;50;87;182;88;
  170;162;88;171;54;73;223;99;133;117;90;172;70;101;197;104;9;249;254;142;114;222;89;215;104;231;42;
  217;175;45;90;81;123;40;222;150;134;15;31;30;17;225;23;122;27;172;157;170;151;148;4;63;112;163;
  233;92;179;234;133;215;35;87;229;173;174;253;183;98;80;196;55;243;33;42;75;3;116;138;40;198;140;
  80;141;232;54;106;21;253;139;101;172;115;0;41;1;28;0;247;0;241;2;190;87;37;154;63;214;147;191;137;
  118;15;7;241;231;202;78;150;20;76;176;118;136;185;106;212;91;124;184;228;255;51;209;45;203;98;62;
  126;200;171;88;73;82;212;41;38;59;27;123;103;59;41;228;173;150;248;231;73;92;121;16;212;240;137;
  118;67;200;150;115;183;124;187;36;225;218;132;53;113;104;165;119;149;53;140;206;24;173;193;214;67;
  227;196;61;165;153;104;96;121;100;0;35;115;2;248;252;90;27;54;165;241;150;146;198;26;107;165;55;
  14;104;204;40;82;59;214;84;126;69;72;72;234;199;19;94;167;243;209;96;86;224;171;90;155;239;151;73;
  251;223;122;127;10;118;177;170;249;15;150;147;229;5;205;121;52;8;158;78;48;179;48;15;141;99;197;
  38;76;176;230;74;159;131;81;40;221;87;23;124;62;237;51;189;106;199;63;87;53;230;51;107;99;232;178;
  67;241;32;31;119;33;249;125;140;34;73;255;124;217;64;97;59;226;238;54;202;186;90;215;117;55;132;
  39;141;89;66;76;76;157;158;162;229;141;165;84;137;97;202;179;226;0;33;32;145;130;88;36;194;207;
  131;166;135;99;123;153;216;180;212;92;107;185;186;222;238;2;124;177;79;135;24;43;247;80;207;238].

Definition FakeSNI2 : bytes := [
  22;3;1;6;32;1;0;6;28;3;3;77;170;182;34;143;170;69;198;34;102;75;132;94;113;225;184;102;37;109;119;
  246;74;71;237;77;110;171;78;20;128;77;186;32;111;221;3;54;226;181;209;26;100;251;149;148;153;26;
  188;150;231;133;198;204;207;23;107;157;22;6;61;36;147;70;63;195;0;60;19;2;19;3;19;1;192;44;192;48;
  0;159;204;169;204;168;204;170;192;43;192;47;0;158;192;36;192;40;0;107;192;35;192;39;0;103;192;10;
  192;20;0;57;192;9;192;19;0;51;0;157;0;156;0;61;0;60;0;53;0;47;1;0;5;151;255;1;0;1;0;0;0;0;29;0;27;
  0;0;24;115;116;97;116;105;99;99;100;110;46;100;117;99;107;100;117;99;107;103;111;46;99;111;109;0;
  11;0;2;1;0;0;10;0;18;0;16;17;236;0;29;0;23;0;30;0;24;0;25;1;0;1;1;0;16;0;14;0;12;2;104;50;8;104;
  116;116;112;47;49;46;49;0;22;0;0;0;23;0;0;0;49;0;0;0;13;0;54;0;52;9;5;9;6;9;4;4;3;5;3;6;3;8;7;8;8;
  8;26;8;27;8;28;8;9;8;10;8;11;8;4;8;5;8;6;4;1;5;1;6;1;3;3;3;1;3;2;4;2;5;2;6;2;0;43;0;5;4;3;4;3;3;0;
  45;0;2;1;1;0;51;4;234;4;232;17;236;4;192;201;218;43;153;156;155;158;203;125;131;235;38;216;193;
  122;191;105;24;109;35;121;77;0;86;124;171;166;218;83;6;210;218;154;41;108;195;107;26;67;74;226;
  204;28;170;139;160;193;29;120;179;117;93;233;170;176;240;7;251;148;77;215;199;2;177;108;61;208;34;
  140;143;211;133;236;49;81;46;9;109;85;249;86;93;89;146;58;18;67;87;84;29;246;151;20;168;216;73;
  239;8;76;167;82;140;13;130;141;41;162;148;31;167;108;209;135;133;77;208;169;221;32;7;232;28;80;
  125;167;144;41;75;121;90;219;131;50;130;51;79;40;49;158;70;120;33;97;168;167;192;174;79;69;80;146;
  112;207;197;177;131;4;154;205;81;28;78;7;218;192;6;214;97;194;235;67;111;99;72;190;8;174;152;183;
  131;94;151;138;140;120;73;74;155;51;112;6;162;167;92;2;235;87;94;222;130;50;134;212;35;186;113;19;
  181;128;19;29;74;140;23;243;197;125;84;126;138;220;84;219;124;38;216;75;114;24;84;17;162;161;75;
  69;55;3;81;234;168;91;104;101;77;52;0;236;155;40;200;2;25;223;32;114;22;116;129;214;149;79;96;39;
  23;145;74;191;100;197;46;149;43;179;83;230;123;66;228;6;157;137;190;59;53;78;250;74;144;162;84;86;
  237;70;93;255;83;155;247;224;74;23;102;63;142;176;173;145;203;76;211;5;143;206;67;59;16;22;121;
  193;1;123;200;27;68;19;184;189;249;200;63;155;113;19;29;145;207;5;167;182;187;69;136;143;195;84;
  111;25;0;67;166;197;35;124;199;52;232;77;84;68;85;164;53;34;144;166;163;170;131;105;6;84;190;219;
  124;143;173;20;61;77;200;82;251;166;149;11;105;186;141;236;146;71;81;86;39;176;81;200;100;120;9;
  177;169;54;228;51;235;235;99;69;69;155;130;88;76;255;231;141;37;27;50;250;183;120;232;20;51;233;
  97;197;56;82;29;190;129;11;132;247;63;126;145;82;152;73;91;58;197;159;209;156;118;227;49;106;224;
  184;174;6;25;166;122;4;63;86;90;78;42;117;143;170;236;6;130;76;14;166;24;179;139;34;112;229;246;
  89;147;153;84;62;37;53;79;229;174;121;83;179;196;82;137;21;250;30;1;55;64;125;43;81;241;230;135;
  237;92;168;38;231;0;216;153;29;49;19;165;44;243;118;105;135;132;151;149;113;98;170;185;44;155;150;
  185;86;98;204;137;157;117;26;168;157;219;35;182;167;123;196;139;190;10;121;17;185;164;137;169;114;
  122;4;67;162;81;204;167;133;136;13;157;162;170;81;177;137;157;87;39;41;33;185;24;210;183;70;241;
  80;156;247;38;159;172;160;158;241;161;238;155;114;125;3;179;66;200;196;123;196;88;118;84;0;39;32;
  188;92;74;5;172;166;78;148;40;58;185;68;166;236;122;185;103;203;76;162;114;119;241;44;157;142;37;
  85;145;70;147;93;42;56;114;236;67;24;98;114;201;201;175;41;35;203;245;9;9;116;83;149;245;64;63;
  153;177;69;105;201;67;7;69;56;114;172;89;203;21;161;221;0;64;229;4;10;12;23;178;172;96;7;236;115;
  194;144;65;63;168;85;175;137;210;67;134;0;129;24;162;145;220;186;192;89;165;11;123;226;45;239;134;
  114;205;147;17;47;148;140;218;139;106;21;55;141;192;116;141;96;117;87;211;74;14;33;226;54;44;235;
  168;230;65;96;79;196;8;110;200;36;47;177;122;105;103;2;234;43;171;71;234;50;127;24;123;204;60;145;
  204;68;157;253;1;208;16;35;120;149;54;42;102;215;5;141;165;191;127;88;101;94;214;6;46;6;12;199;
  248;187;239;12;7;11;33;196;203;72;23;222;118;41;192;41;74;212;49;120;9;130;63;55;5;191;114;163;
  123;217;28;163;155;204;34;73;150;81;23;72;205;204;51;179;150;216;106;232;24;199;212;121;20;107;
  179;45;142;212;12;117;66;118;60;100;7;171;132;169;204;98;184;129;105;61;171;82;172;55;202;165;102;
  51;96;251;133;42;130;35;83;24;105;70;109;102;35;166;74;146;206;53;18;28;155;142;85;82;12;162;117;
  59;140;241;162;65;219;106;249;246;114;100;164;1;135;69;21;240;50;144;25;184;77;85;57;186;42;100;3;
  159;219;45;218;137;192;14;5;6;226;36;61;220;249;6;177;20;134;33;231;157;182;80;98;216;252;90;7;
  214;19;254;48;178;186;11;87;186;212;150;254;88;0;39;87;160;5;123;14;200;177;104;155;23;154;168;33;
  77;78;27;193;0;134;188;120;155;148;99;197;138;223;201;120;19;11;58;108;99;78;131;53;35;72;64;57;
  114;228;72;39;117;79;149;240;32;153;71;11;189;54;94;192;12;60;58;135;198;97;52;123;209;224;153;
  188;155;18;193;224;43;194;168;61;111;113;70;109;248;188;41;0;136;130;86;107;115;112;205;104;182;
  47;34;27;203;49;178;190;232;241;121;44;195;200;86;195;1;87;204;142;4;48;138;242;105;91;59;199;178;
  56;213;48;110;2;169;127;251;129;19;74;25;38;225;180;94;123;143;170;81;9;203;57;38;134;66;193;241;
  160;66;132;227;21;214;103;42;219;25;90;191;68;205;163;245;246;34;28;14;27;186;116;167;140;46;118;
  121;8;116;168;63;167;244;190;160;177;142;111;102;35;128;26;190;89;218;30;196;195;154;87;171;184;
  27;187;197;42;83;43;113;156;211;30;135;254;135;25;64;106;51;76;208;189;132;77;0;29;0;32;30;84;232;
  214;81;221;135;141;22;95;70;16;127;104;110;210;188;225;97;36;103;39;116;100;117;87;34;57;135;7;50;
  11].

(** The bytes of a [rand.Read] into a slice of length [n]. *)
Definition random_bytes (rnd : Z → Z) (n : nat) : bytes := map (λ j, u8 (rnd (Z.of_nat j))) (seq 0 n).

Definition GetPayload (faking : FakingConfig) (rnd : Z → Z) : bytes :=
  if SNIType faking =? FakePayloadRandom then random_bytes rnd 1200
  else if SNIType faking =? FakePayloadZero then replicate 1200 0
  else if 0 <? len (PayloadData faking) then PayloadData faking
  else if SNIType faking =? FakePayloadDefault2 then FakeSNI2
  else if SNIType faking =? FakePayloadCustom then CustomPayload faking
  else FakeSNI1.

(** ** Modifying a fake ClientHello *)

Record TLSModFlags := { Randomize : bool; DupSessID : bool }.

(** [strings.ToLower(strings.TrimSpace(s))] of an ASCII string. *)
Definition is_space (c : ascii) : bool :=
  let n := nat_of_ascii c in (n =? 32)%nat || ((9 <=? n)%nat && (n <=? 13)%nat).
Definition lower (c : ascii) : ascii :=
  let n := nat_of_ascii c in
  if (65 <=? n)%nat && (n <=? 90)%nat then ascii_of_nat (n + 32) else c.
Fixpoint drop_spaces (l : list ascii) : list ascii :=
  match l with
  | c :: l => if is_space c then drop_spaces l else c :: l
  | [] => []
  end.
Definition trim_lower (s : string) : string :=
  String.string_of_list_ascii
    (map lower (rev (drop_spaces (rev (drop_spaces (String.list_ascii_of_string s)))))).

Definition ParseTLSMod (mods : list string) : TLSModFlags :=
  fold_left (λ flags mod_,
    if bool_decide (trim_lower mod_ = "rnd"%string)
    then {| Randomize := true; DupSessID := DupSessID flags |}
    else if bool_decide (trim_lower mod_ = "dupsid"%string)
    then {| Randomize := Randomize flags; DupSessID := true |}
    else flags) mods {| Randomize := false; DupSessID := false |}.

(** The empty list is Go's nil. *)
Definition ExtractSessionID (payload : bytes) : go bytes :=
  if len payload <? 5 then Ret [] else
  let! b0 := idx payload 0 in
  if negb (b0 =? 22) then Ret [] else
  let! recLen := be16 payload 3 in
  if len payload <? 5 + recLen then Ret [] else
  let! hs := slice_from payload 5 in
  if len hs <? 4 then Ret [] else
  let! h0 := idx hs 0 in
  if negb (h0 =? 1) then Ret [] else
  let pos := 4 + 2 + 32 in
  if len hs <=? pos then Ret [] else
  let! sidLen := idx hs pos in
  let pos := pos + 1 in
  if (sidLen =? 0) || (len hs <? pos + sidLen) then Ret [] else
  slice hs pos (pos + sidLen).

Definition injectSessionID (fakePayload newSID : bytes) : go bytes :=
  if len fakePayload <? 5 then Ret fakePayload else
  let! b0 := idx fakePayload 0 in
  if negb (b0 =? 22) then Ret fakePayload else
  let hsStart := 5 in
  let! hs := slice_from fakePayload hsStart in
  if len hs <? 39 then Ret fakePayload else
  let! h0 := idx hs 0 in
  if negb (h0 =? 1) then Ret fakePayload else
  let sidLenPos := 38 in
  if len hs <=? sidLenPos then Ret fakePayload else
  let! oldSIDLen := idx hs sidLenPos in
  let newSIDLen := len newSID in
  let oldSIDEnd := hsStart + sidLenPos + 1 + oldSIDLen in
  if len fakePayload <? oldSIDEnd then Ret fakePayload else
  let sizeDiff := newSIDLen - oldSIDLen in
  let newLen := len fakePayload + sizeDiff in
  let! newPayload := make newLen in
  let! s := slice fakePayload 0 (hsStart + sidLenPos) in
  let! newPayload := copy_from newPayload 0 s in
  let! newPayload := upd newPayload (hsStart + sidLenPos) (u8 newSIDLen) in
  let! newPayload := copy_from newPayload (hsStart + sidLenPos + 1) newSID in
  let! s := slice_from fakePayload oldSIDEnd in
  let! newPayload := copy_from newPayload (hsStart + sidLenPos + 1 + newSIDLen) s in
  let! recLen := be16 newPayload 3 in
  let! newPayload := put16 newPayload 3 (recLen + sizeDiff) in
  let! b6 := idx newPayload 6 in
  let! b7 := idx newPayload 7 in
  let! b8 := idx newPayload 8 in
  let hsLen := Z.lor (Z.lor (Z.shiftl b6 16) (Z.shiftl b7 8)) b8 + sizeDiff in
  let! newPayload := upd newPayload 6 (u8 (Z.shiftr hsLen 16)) in
  let! newPayload := upd newPayload 7 (u8 (Z.shiftr hsLen 8)) in
  upd newPayload 8 (u8 hsLen).

Definition ApplyTLSMod (fakePayload originalPayload : bytes) (flags : TLSModFlags) (rnd : Z → Z)
    : go bytes :=
  if len fakePayload <? 5 then Ret fakePayload else
  let! b0 := idx fakePayload 0 in
  if negb (b0 =? 22) then Ret fakePayload else
  let! recLen := be16 fakePayload 3 in
  if len fakePayload <? 5 + recLen then Ret fakePayload else
  let hsStart := 5 in
  let! hs := slice_from fakePayload hsStart in
  if len hs <? 4 then Ret fakePayload else
  let! h0 := idx hs 0 in
  if negb (h0 =? 1) then Ret fakePayload else
  let! fakePayload :=
    (if Randomize flags && (38 <=? len hs)
     then copy_at fakePayload (hsStart + 6) (hsStart + 38) (random_bytes rnd 32)
     else Ret fakePayload) in
  if DupSessID flags && (0 <? len originalPayload)
  then
    let! origSID := ExtractSessionID originalPayload in
    if 0 <? len origSID then injectSessionID fakePayload origSID else Ret fakePayload
  else Ret fakePayload.

(** ** Facts *)

(** What is assumed of the configured bytes. *)
Definition faking_ok (faking : FakingConfig) : Prop :=
  bytes_ok (CustomPayload faking) ∧ bytes_ok (PayloadData faking).

Lemma random_bytes_ok rnd n : bytes_ok (random_bytes rnd n).
Proof. unfold random_bytes. apply Forall_map, Forall_true. intros. apply is_byte_u8. Qed.
#[export] Hint Resolve random_bytes_ok : b4.

Lemma GetPayload_ok faking rnd : faking_ok faking → bytes_ok (GetPayload faking rnd).
Proof.
  intros [H1 H2]. unfold GetPayload. repeat case_if; auto with b4; by apply bytes_okb_spec.
Qed.

(** The session id found is a part of the payload. *)
Lemma wp_ExtractSessionID d : bytes_ok d →
  wp (ExtractSessionID d) (λ sid, bytes_ok sid ∧ len sid <= 255).
Proof.
  intros Hok. unfold ExtractSessionID. cbv zeta.
  assert (bytes_ok [] ∧ len ([] : bytes) <= 255) as Hnil by (split; [apply bytes_ok_nil|done]).
  wp_step; [by apply wp_ret|]. do 2 wp_step. wp_step; [by apply wp_ret|]. do 2 wp_step. read_ranges Hok.
  wp_step; [by apply wp_ret|]. do 2 wp_step. set (hs := sub _ _ _).
  assert (bytes_ok hs) as Hhs by (unfold hs; auto with b4). clearbody hs.
  wp_step; [by apply wp_ret|]. do 2 wp_step. wp_step; [by apply wp_ret|].
  wp_step; [by apply wp_ret|]. do 2 wp_step. read_ranges Hhs. wp_step; [by apply wp_ret|].
  wp_step. split; [auto with b4|len_simp; zlia].
Qed.

(** What [injectSessionID] makes of a ClientHello with a session id of [n] bytes:
    [sid] in its place and the two lengths moved by the difference. *)
Definition with_sid (d sid : bytes) (n : Z) : bytes :=
  let diff := len sid - n in
  let hsLen := Z.lor (Z.lor (Z.shiftl (get d 6) 16) (Z.shiftl (get d 7) 8)) (get d 8) + diff in
  sub d 0 3 ++ bytes16 (u16 (get16 d 3 + diff)) ++ [get d 5]
  ++ [u8 (Z.shiftr hsLen 16); u8 (Z.shiftr hsLen 8); u8 hsLen] ++ sub d 9 43
  ++ [len sid] ++ sid ++ sub d (44 + n) (len d).

Lemma wp_injectSessionID d sid : bytes_ok d → bytes_ok sid → len sid <= 255 →
  wp (injectSessionID d sid) (λ q, (q = d ∧ ¬ (get d 0 = 22 ∧ get d 5 = 1 ∧ 44 + get d 43 <= len d))
    ∨ (44 + get d 43 <= len d ∧ q = with_sid d sid (get d 43))).
Proof.
  intros Hok Hsid Hls. unfold injectSessionID. cbv zeta.
  pose proof (bytes_ok_get d 43 Hok) as Hn. unfold is_byte in Hn.
  wp_step; [apply wp_ret; left; split; [done|zlia]|]. do 2 wp_step.
  wp_step; [apply wp_ret; left; split; [done|zlia]|].
  do 2 wp_step. set (hs := sub d 5 (len d)).
  assert (len hs = len d - 5) as Hhs by (unfold hs; len_lia).
  assert (get hs 38 = get d 43) as Hg.
  { unfold hs. rewrite get_sub by lia. case_if; [done|symmetry; apply get_out; zlia]. }
  assert (5 < len d → get hs 0 = get d 5) as Hg0 by (intros; unfold hs; rewrite get_sub by lia; zcases; done).
  clearbody hs. wp_step; [apply wp_ret; left; split; [done|zlia]|]. do 2 wp_step. rewrite Hg0 by zlia.
  wp_step; [apply wp_ret; left; split; [done|zlia]|]. wp_step; [zlia|]. do 2 wp_step. rewrite Hg.
  wp_step; [apply wp_ret; left; split; [done|zlia]|].
  set (n := get d 43) in *. do 14 wp_step.
  match goal with |- wp (go_bind (be16 ?l 3) _) _ => set (l0 := l) end.
  set (base := sub d 0 43 ++ [len sid] ++ sid ++ sub d (44 + n) (len d)).
  assert (l0 = base) as ->.
  { unfold l0, base. rewrite !take_ge_len, u8_small by (len_lia || (unfold is_byte; lia)).
    apply list_ext_get; [len_simp; lia|]. intros k Hk. revert Hk. len_simp; try lia. intros Hk.
    gets; try done; f_equal; lia. }
  assert (len base = len d + (len sid - n)) as Hlb by (unfold base; len_simp; lia).
  assert (∀ k, 0 <= k < 43 → get base k = get d k) as Hb.
  { intros k Hk. unfold base. gets. done. }
  assert (get16 base 3 = get16 d 3) as H16 by (apply get16_eq; apply Hb; lia).
  do 4 wp_step. rewrite H16. set (rl := bytes16 _). set (l1 := splice base 3 rl).
  assert (len l1 = len base) as Hl1 by (unfold l1, rl; len_simp; lia).
  assert (∀ k, 5 <= k → get l1 k = get base k) as Hb1 by (intros k Hk; unfold l1, rl; gets; done).
  do 6 wp_step. rewrite !Hb1, !Hb by lia. set (hl := Z.lor _ _ + _). do 5 wp_step.
  right. split; [zlia|]. unfold with_sid. fold n. fold hl. fold rl.
  apply list_ext_get; [unfold rl; len_simp; lia|]. intros k Hk. revert Hk. len_simp; try lia. intros Hk.
  unfold l1, base, rl. gets; try done; try (f_equal; lia).
Qed.

Lemma with_sid_ok d sid n : bytes_ok d → bytes_ok sid → len sid <= 255 → 0 <= n → 44 + n <= len d →
  bytes_ok (with_sid d sid n) ∧ len (with_sid d sid n) = len d + (len sid - n).
Proof.
  intros Hok Hsid Hl Hn Hd. pose proof (bytes_ok_get d 5 Hok).
  assert (is_byte (len sid)) by (unfold is_byte; lia). split; [|unfold with_sid; len_simp; lia].
  unfold with_sid. cbv zeta. repeat first [apply bytes_ok_app; split|apply bytes_ok_cons]; auto with b4.
Qed.

(** The payload with its random bytes redrawn, or not. *)
Definition randomized (d : bytes) (b : bool) (rnd : Z → Z) : bytes :=
  if b then splice d 11 (random_bytes rnd 32) else d.

Lemma len_random rnd n : len (random_bytes rnd n) = Z.of_nat n.
Proof. unfold random_bytes. by rewrite length_map, length_seq. Qed.

Lemma randomized_get d b rnd k : (b = true → 43 <= len d) → k < 11 ∨ 43 <= k →
  get (randomized d b rnd) k = get d k ∧ len (randomized d b rnd) = len d.
Proof.
  intros Hb Hk. unfold randomized. destruct b; [|done]. specialize (Hb eq_refl).
  pose proof (len_random rnd 32). split; [|len_simp; lia]. rewrite get_splice by lia. case_if; [zlia|done].
Qed.

(** [ApplyTLSMod] as the composition of the two modifications. *)
Definition modified (d o : bytes) (flags : TLSModFlags) (rnd : Z → Z) : go bytes :=
  let d := randomized d (Randomize flags && (43 <=? len d)) rnd in
  if DupSessID flags && (0 <? len o)
  then let! sid := ExtractSessionID o in if 0 <? len sid then injectSessionID d sid else Ret d
  else Ret d.

(** A ClientHello record whose session id is inside the record. *)
Definition hello_record (d : bytes) : Prop :=
  get d 0 = 22 ∧ get d 5 = 1 ∧ 39 + get d 43 <= get16 d 3 ∧ 5 + get16 d 3 <= len d.

Lemma ApplyTLSMod_eq d o flags rnd : bytes_ok d →
  (ApplyTLSMod d o flags rnd = Ret d ∧ ¬ hello_record d)
  ∨ (9 <= len d ∧ ApplyTLSMod d o flags rnd = modified d o flags rnd).
Proof.
  intros Hok. pose proof (bytes_ok_get d 43 Hok) as Hn. unfold is_byte in Hn.
  unfold ApplyTLSMod. cbv zeta. destruct (len d <? 5) eqn:E; [left; split; [done|intros (?&?&?&?); zlia]|].
  rewrite idx_ret by zlia. cbn [go_bind]. destruct (negb (get d 0 =? 22)) eqn:E0; [left; split; [done|intros (?&?&?&?); zlia]|].
  rewrite be16_ret by zlia. cbn [go_bind]. destruct (len d <? 5 + get16 d 3) eqn:E1; [left; split; [done|intros (?&?&?&?); zlia]|].
  unfold slice_from. rewrite slice_ret by zlia. cbn [go_bind].
  assert (len (sub d 5 (len d)) = len d - 5) as Hhs by (len_simp; zlia). rewrite Hhs.
  destruct (len d - 5 <? 4) eqn:E4; [left; split; [done|intros (?&?&?&?); zlia]|]. rewrite idx_ret by zlia. cbn [go_bind].
  assert (get (sub d 5 (len d)) 0 = get d 5) as -> by (rewrite get_sub by zlia; zcases; done).
  destruct (negb (get d 5 =? 1)) eqn:E5; [left; split; [done|intros (?&?&?&?); zlia]|]. right. split; [zlia|]. unfold modified, randomized. cbv zeta.
  replace (38 <=? len d - 5) with (43 <=? len d) by (destruct (43 <=? len d) eqn:?, (38 <=? len d - 5) eqn:?; zlia).
  destruct (Randomize flags && (43 <=? len d)) eqn:Er; cbn [go_bind]; [|done].
  unfold copy_at. case_if; [|zlia]. cbn [go_bind].
  rewrite take_ge_len by (rewrite len_random; lia). done.
Qed.

Lemma wp_ApplyTLSMod d o flags rnd : bytes_ok d → bytes_ok o →
  wp (ApplyTLSMod d o flags rnd) (λ q, bytes_ok q ∧ len q <= len d + 255).
Proof.
  intros Hok Ho. destruct (ApplyTLSMod_eq d o flags rnd Hok) as [[-> _]|[H9 ->]]; [apply wp_ret; split; [done|lia]|].
  unfold modified. cbv zeta. set (b := Randomize flags && (43 <=? len d)).
  assert (bytes_ok (randomized d b rnd)) as Hr by (unfold randomized; case_if; auto with b4).
  destruct (randomized_get d b rnd 0) as [_ Hlr]; [unfold b; intros; zlia|by left|].
  set (d' := randomized d b rnd) in *. clearbody d'.
  wp_step; [|apply wp_ret; split; [done|lia]]. wp_step.
  eapply wp_mono; [by apply wp_ExtractSessionID|]. intros sid [Hs1 Hs2].
  wp_step; [|apply wp_ret; split; [done|lia]].
  eapply wp_mono; [by apply wp_injectSessionID|]. pose proof (bytes_ok_get d' 43 Hr) as Hb. unfold is_byte in Hb.
  intros q [[-> _]|[Hq ->]]; [split; [done|lia]|].
  destruct (with_sid_ok d' sid (get d' 43)) as [Hw Hl]; [done..|lia|done|]. split; [done|lia].
Qed.

(** ** The session id of a fake *)

Lemma ExtractSessionID_at d n : bytes_ok d → hello_record d → get d 43 = n → 0 < n →
  ExtractSessionID d = Ret (sub d 44 (44 + n)).
Proof.
  intros Hok (H0 & H5 & Hr & Hl) Hn Hp. unfold ExtractSessionID. cbv zeta. apply wp_eq.
  pose proof (get16_range d 3 Hok). subst n.
  wp_step; [zlia|]. do 2 wp_step. rewrite H0. wp_step; [zlia|]. do 2 wp_step. wp_step; [zlia|].
  do 2 wp_step. set (hs := sub d 5 (len d)). assert (len hs = len d - 5) as Hhs by (unfold hs; len_lia).
  assert (∀ k, 0 <= k → get hs k = get d (5 + k)) as Hg.
  { intros k Hk. unfold hs. rewrite get_sub by lia. case_if; [done|]. symmetry. apply get_out. zlia. }
  wp_step; [zlia|]. do 2 wp_step. rewrite Hg by lia. change (get d (5 + 0)) with (get d 5). rewrite H5.
  wp_step; [zlia|]. wp_step; [zlia|]. do 2 wp_step. rewrite Hg by lia.
  change (get d (5 + (4 + 2 + 32))) with (get d 43). wp_step; [zlia|]. wp_step.
  apply list_ext_get; [len_simp; lia|]. intros k Hk. revert Hk. len_simp; try lia. intros Hk.
  rewrite !get_sub by lia. zcases. rewrite Hg by lia. f_equal. lia.
Qed.

(** With the "dupsid" modification a fake ClientHello leaves with the session id
    of the one it imitates, the rest of the message unchanged and the record length
    moved by the difference. *)
Theorem ApplyTLSMod_dupsid (d o sid : bytes) (flags : TLSModFlags) (rnd : Z → Z) :
  bytes_ok d → bytes_ok o → hello_record d → get16 d 3 + 255 < 65536 → DupSessID flags = true →
  ExtractSessionID o = Ret sid → 0 < len sid →
  wp (ApplyTLSMod d o flags rnd) (λ q, ExtractSessionID q = Ret sid
    ∧ get16 q 3 = get16 d 3 + len sid - get d 43
    ∧ sub q (44 + len sid) (len q) = sub d (44 + get d 43) (len d)).
Proof.
  intros Hok Ho (H0 & H5 & Hr & Hl) Hsz Hf Hsid Hpos.
  pose proof (bytes_ok_get d 43 Hok) as Hn. unfold is_byte in Hn.
  pose proof (wp_ExtractSessionID o Ho) as Hs. rewrite Hsid in Hs. destruct Hs as [Hs1 Hs2].
  assert (0 < len o) as Hlo.
  { destruct (decide (0 < len o)); [done|]. exfalso. revert Hsid. unfold ExtractSessionID.
    destruct (len o <? 5) eqn:E; [|zlia]. intros [= <-]. done. }
  destruct (ApplyTLSMod_eq d o flags rnd Hok) as [[_ Hno]|[_ ->]]; [by destruct Hno|].
  unfold modified. cbv zeta. set (b := Randomize flags && (43 <=? len d)).
  assert (bytes_ok (randomized d b rnd)) as Hokr by (unfold randomized; case_if; auto with b4).
  assert (b = true → 43 <= len d) as Hb by (unfold b; intros; zlia).
  pose proof (λ k, randomized_get d b rnd k Hb) as Hg. set (d' := randomized d b rnd) in *. clearbody d' b.
  destruct (Hg 0) as [Hg0 Hlr]; [by left|]. rewrite Hf. destruct (0 <? len o) eqn:E; [|zlia]. cbn [andb].
  rewrite Hsid. cbn [go_bind]. destruct (0 <? len sid) eqn:E2; [|zlia].
  assert (get16 d' 3 = get16 d 3) as H16 by (apply get16_eq; apply Hg; lia).
  assert (get d' 43 = get d 43) as H43 by (apply Hg; lia).
  assert (get d' 0 = 22 ∧ get d' 5 = 1) as [G0 G5].
  { destruct (Hg 5) as [-> _]; [lia|]. by rewrite Hg0. }
  eapply wp_mono; [by apply wp_injectSessionID|]. intros q [[_ Hq]|[Hlen ->]]; [destruct Hq; lia|].
  rewrite H43 in *. set (n := get d 43) in *.
  destruct (with_sid_ok d' sid n) as [Hwok Hwl]; [done..|lia|done|].
  set (w := with_sid d' sid n) in *.
  assert (get16 w 3 = get16 d 3 + len sid - n) as Hw16.
  { set (v := get16 d 3 + len sid - n). rewrite <- (at_pos_get16 (bytes16 v ++ []) 0 v []);
      [|unfold v; lia|apply at_pos_start].
    apply get16_eq; unfold w, with_sid; rewrite H16, u16_small by lia;
      replace (get16 d 3 + (len sid - n)) with v by (unfold v; lia); gets; done. }
  assert (get w 0 = 22 ∧ get w 5 = 1 ∧ get w 43 = len sid) as (W0 & W5 & W43).
  { unfold w, with_sid. split_and!; gets; done. }
  rewrite (ExtractSessionID_at w (len sid)); [|done| |done|done].
  2:{ unfold hello_record. rewrite W0, W5, W43, Hw16. lia. }
  split_and!; [|done|].
  - f_equal. apply list_ext_get; [len_simp; lia|]. intros k Hk. revert Hk. len_simp; try lia. intros Hk.
    rewrite get_sub by lia. zcases. unfold w, with_sid. gets; try done. f_equal; lia.
  - apply list_ext_get; [len_simp; lia|]. intros k Hk. revert Hk. len_simp; try lia. intros Hk.
    rewrite !get_sub by lia. zcases. destruct (Hg (44 + n + k)) as [<- _]; [lia|].
    unfold w, with_sid. gets; try done; f_equal; lia.
Qed.

(** ** Witness *)

Lemma ApplyTLSMod_dupsid_witness :
  wp (ApplyTLSMod FakeSNI1 FakeSNI2 (ParseTLSMod [" RND"; "DupSid "]) (λ i, i)) (λ q,
    ExtractSessionID q = Ret (sub FakeSNI2 44 76)).
Proof.
  eapply wp_mono; [apply (ApplyTLSMod_dupsid FakeSNI1 FakeSNI2 (sub FakeSNI2 44 76))|].
  - by apply bytes_okb_spec.
  - by apply bytes_okb_spec.
  - vmc.
  - vmc.
  - vmc.
  - vmc.
  - vmc.
  - intros q [H _]. exact H.
Defined.
