(* ===== verification/Split.v ===== *)
(** * Where a ClientHello is cut, and in which order the pieces go

    Of src/src/nfq/common.go and extsplit.go: [locateSNI] and
    [findPreSNIExtensionPoint] walk the ClientHello, [GetSNISplitPoints],
    [GetComboSplitPoints], [uniqueSorted] and [BuildValidSplits] choose the split
    points, [ShuffleSegments] reorders the pieces.  The scanners are shown to stay
    inside the payload, the split points to be increasing, and the reordering to be
    a permutation. *)

From Stdlib Require Import ZArith Lia Ascii Sorting.Sorted.
From stdpp Require Import base list numbers sets strings.
From S2P Require Import Prelude Config.

Local Open Scope Z_scope.

Definition TLSHandshakeType : Z := 22.
Definition TLSClientHello : Z := 1.

(** ** Locating the server name *)

Fixpoint sni_ext_loop (fuel : nat) (payload : bytes) (e ee : Z) : go (option (Z * Z)) :=
  match fuel with
  | O => Spin
  | S f =>
      if e + 4 <=? ee
      then
        let! extType := be16 payload e in
        let! extDataLen := be16 payload (e + 2) in
        let e := e + 4 in
        if ee <? e + extDataLen then Ret None else
        if (extType =? 0) && (5 <=? extDataLen)
        then
          let q := e in
          if e + extDataLen <? q + 2 then Ret None else
          let! listLen := be16 payload q in
          let q := q + 2 in
          if e + extDataLen <? q + listLen then Ret None else
          if e + extDataLen <? q + 3 then Ret None else
          let! nameType := idx payload q in
          let q := q + 1 in
          if negb (nameType =? 0) then Ret None else
          let! nameLen := be16 payload q in
          let q := q + 2 in
          if (nameLen =? 0) || (e + extDataLen <? q + nameLen) then Ret None else
          Ret (Some (q, q + nameLen))
        else sni_ext_loop f payload (e + extDataLen) ee
      else Ret None
  end.

(** [Some (start, end)], or [None] for the false result. *)
Definition locateSNI (payload : bytes) : go (option (Z * Z)) :=
  if len payload <? 5 then Ret None else
  let! t := idx payload 0 in
  if negb (t =? TLSHandshakeType) then Ret None else
  let p := 5 in
  if len payload <? p + 4 then Ret None else
  let! h := idx payload p in
  if negb (h =? TLSClientHello) then Ret None else
  let p := p + 4 in
  if len payload <? p + 2 + 32 then Ret None else
  let p := p + (2 + 32) in
  if len payload <=? p then Ret None else
  let! sidLen := idx payload p in
  let p := p + 1 in
  if len payload <? p + sidLen then Ret None else
  let p := p + sidLen in
  if len payload <? p + 2 then Ret None else
  let! csLen := be16 payload p in
  let p := p + 2 in
  if len payload <? p + csLen then Ret None else
  let p := p + csLen in
  if len payload <=? p then Ret None else
  let! cmLen := idx payload p in
  let p := p + 1 in
  if len payload <? p + cmLen then Ret None else
  let p := p + cmLen in
  if len payload <? p + 2 then Ret None else
  let! extLen := be16 payload p in
  let p := p + 2 in
  let extLen := if len payload <? p + extLen then len payload - p else extLen in
  let e := p in
  let ee := p + extLen in
  sni_ext_loop (S (length payload)) payload e ee.

Fixpoint pre_sni_loop (fuel : nat) (payload : bytes) (pos extEnd lastSafePos : Z) : go Z :=
  match fuel with
  | O => Spin
  | S f =>
      if pos + 4 <=? extEnd
      then
        let! extType := be16 payload pos in
        let! extDataLen := be16 payload (pos + 2) in
        if extType =? 0 then Ret lastSafePos else
        pre_sni_loop f payload (pos + (4 + extDataLen)) extEnd pos
      else Ret (-1)
  end.

Definition findPreSNIExtensionPoint (payload : bytes) : go Z :=
  if len payload <? 5 then Ret (-1) else
  let! t := idx payload 0 in
  if negb (t =? 22) then Ret (-1) else
  let pos := 5 in
  if len payload <? pos + 4 then Ret (-1) else
  let! h := idx payload pos in
  if negb (h =? 1) then Ret (-1) else
  let pos := pos + 4 in
  if len payload <? pos + 34 then Ret (-1) else
  let pos := pos + 34 in
  if len payload <=? pos then Ret (-1) else
  let! sidLen := idx payload pos in
  let pos := pos + 1 in
  let pos := pos + sidLen in
  if len payload <? pos + 2 then Ret (-1) else
  let! csLen := be16 payload pos in
  let pos := pos + (2 + csLen) in
  if len payload <=? pos then Ret (-1) else
  let! compLen := idx payload pos in
  let pos := pos + 1 in
  let pos := pos + compLen in
  if len payload <? pos + 2 then Ret (-1) else
  let! extLen := be16 payload pos in
  let pos := pos + 2 in
  let extStart := pos in
  let extEnd := pos + extLen in
  let extEnd := if len payload <? extEnd then len payload else extEnd in
  pre_sni_loop (S (length payload)) payload pos extEnd extStart.

(** ** Split points *)

Definition GetSNISplitPoints (payload : bytes) (payloadLen : Z) (middleSNI : bool)
    (sniPosition : Z) : go (list Z) :=
  let! splits :=
    (if middleSNI
     then
       let! r := locateSNI payload in
       Ret (match r with
            | Some (sniStart, sniEnd) =>
                if sniStart <? sniEnd
                then
                  let sniLen := sniEnd - sniStart in
                  [sniStart] ++ (if 6 <? sniLen then [sniStart + Z.quot sniLen 2] else []) ++ [sniEnd]
                else []
            | None => []
            end)
     else Ret []) in
  Ret (if bool_decide (splits = []) && (0 <? sniPosition) && (sniPosition <? payloadLen)
       then [sniPosition] else splits).

(** [sort.Ints] *)
Fixpoint insert_int (x : Z) (l : list Z) : list Z :=
  match l with
  | [] => [x]
  | y :: l' => if x <=? y then x :: l else y :: insert_int x l'
  end.
Definition sort_ints (l : list Z) : list Z := foldr insert_int [] l.

(** The loop of [uniqueSorted]; [seen] holds what [result] holds. *)
Fixpoint unique_loop (splits : list Z) (maxVal : Z) (result : list Z) : list Z :=
  match splits with
  | [] => result
  | s :: splits =>
      if (0 <? s) && (s <? maxVal) && negb (bool_decide (s ∈ result))
      then unique_loop splits maxVal (result ++ [s])
      else unique_loop splits maxVal result
  end.
Definition uniqueSorted (splits : list Z) (maxVal : Z) : list Z :=
  sort_ints (unique_loop splits maxVal []).

Definition BuildValidSplits (splits : list Z) (payloadLen : Z) : list Z :=
  [0] ++ List.filter (λ s, (0 <? s) && (s <? payloadLen)) splits ++ [payloadLen].

Definition GetComboSplitPoints (payload : bytes) (payloadLen : Z) (combo : ComboFragConfig)
    (middleSNI : bool) : go (list Z) :=
  let splits := if FirstByteSplit combo then [1] else [] in
  let! splits :=
    (if ExtensionSplit combo
     then
       let! extSplit := findPreSNIExtensionPoint payload in
       Ret (if (1 <? extSplit) && (extSplit <? payloadLen - 5) then splits ++ [extSplit] else splits)
     else Ret splits) in
  if middleSNI
  then
    let! r := locateSNI payload in
    Ret (match r with
         | Some (sniStart, sniEnd) =>
             if sniStart <? sniEnd
             then
               let sniLen := sniEnd - sniStart in
               splits ++ (if 2 <? sniStart then [sniStart - 1] else [])
               ++ [sniStart + Z.quot sniLen 2]
               ++ (if 15 <? sniLen then [sniStart + Z.quot (sniLen * 3) 4] else [])
             else splits
         | None => splits
         end)
  else Ret splits.

(** ** Reordering *)

(** [r.Intn(n)], for the draw [d]. *)
Definition intn (d n : Z) : go Z := if n <=? 0 then Panic else Ret (d mod n).

Section lists.
Context {A : Type}.

(** [l[i], l[j] = l[j], l[i]] *)
Definition swap (l : list A) (i j : Z) : go (list A) :=
  if (i <? 0) || (j <? 0) then Panic else
  match l !! Z.to_nat i, l !! Z.to_nat j with
  | Some x, Some y => Ret (<[Z.to_nat j := x]> (<[Z.to_nat i := y]> l))
  | _, _ => Panic
  end.

(** [for i := ..; i > 0; i-- { j := r.Intn(i+1); swap }] *)
Fixpoint shuffle_loop (fuel : nat) (rnd : Z → Z) (i : Z) (l : list A) : go (list A) :=
  match fuel with
  | O => Spin
  | S f =>
      if 0 <? i
      then
        let! j := intn (rnd i) (i + 1) in
        let! l := swap l i j in
        shuffle_loop f rnd (i - 1) l
      else Ret l
  end.

(** [for i, j := ..; i < j; i, j = i+1, j-1 { swap }] *)
Fixpoint reverse_loop (fuel : nat) (i j : Z) (l : list A) : go (list A) :=
  match fuel with
  | O => Spin
  | S f =>
      if i <? j
      then let! l := swap l i j in reverse_loop f (i + 1) (j - 1) l
      else Ret l
  end.

(** "middle" shuffles the sub-slice between the first and the last element. *)
Definition ShuffleSegments (segments : list A) (mode : string) (rnd : Z → Z) : go (list A) :=
  let n := Z.of_nat (length segments) in
  if bool_decide (mode = "full"%string)
  then shuffle_loop (S (length segments)) rnd (n - 1) segments
  else if bool_decide (mode = "reverse"%string)
  then reverse_loop (S (length segments)) 0 (n - 1) segments
  else if bool_decide (mode = "middle"%string)
  then
    if 3 <? n
    then
      let middle := take (length segments - 2) (drop 1 segments) in
      let! middle := shuffle_loop (S (length middle)) rnd (Z.of_nat (length middle) - 1) middle in
      Ret (take 1 segments ++ middle ++ drop (length segments - 1) segments)
    else if 1 <? n then reverse_loop (S (length segments)) 0 (n - 1) segments
    else Ret segments
  else Ret segments.
End lists.
(** ** Reordering keeps every segment *)

Section perm.
Context {A : Type}.

Lemma wp_swap (l : list A) (i j : Z) :
  0 <= i < Z.of_nat (length l) → 0 <= j < Z.of_nat (length l) →
  wp (swap l i j) (λ l', l' ≡ₚ l ∧ length l' = length l
    ∧ ∃ x y, l !! Z.to_nat i = Some x ∧ l !! Z.to_nat j = Some y
      ∧ l' = <[Z.to_nat j := x]> (<[Z.to_nat i := y]> l)).
Proof.
  intros Hi Hj. unfold swap. case_if; [zlia|].
  destruct (lookup_lt_is_Some_2 l (Z.to_nat i) ltac:(lia)) as [x Hx].
  destruct (lookup_lt_is_Some_2 l (Z.to_nat j) ltac:(lia)) as [y Hy].
  rewrite Hx, Hy. apply wp_ret. split_and!.
  - by apply Permutation_insert_swap.
  - by rewrite !length_insert.
  - eauto.
Qed.

Lemma wp_shuffle_loop (fuel : nat) (rnd : Z → Z) (i : Z) (l : list A) :
  i < Z.of_nat (length l) → i < Z.of_nat fuel → 0 < Z.of_nat fuel →
  wp (shuffle_loop fuel rnd i l) (λ l', l' ≡ₚ l).
Proof.
  revert i l. induction fuel as [|f IH]; intros i l Hi Hf Hp; [lia|]. cbn [shuffle_loop].
  destruct (0 <? i) eqn:E; [|by apply wp_ret].
  unfold intn. destruct (i + 1 <=? 0) eqn:E1; [zlia|]. cbn [go_bind].
  pose proof (Z.mod_pos_bound (rnd i) (i + 1) ltac:(zlia)).
  wp_step. eapply wp_mono; [apply wp_swap; zlia|]. intros l1 (Hp1 & Hl1 & _).
  eapply wp_mono; [apply IH; zlia|]. intros l' ->. done.
Qed.

Lemma wp_reverse_loop (fuel : nat) (i j n : Z) (l l0 : list A) :
  n = Z.of_nat (length l0) → 0 <= i → i <= n → i + j = n - 1 → length l = length l0 →
  n - i < Z.of_nat fuel →
  (∀ k, 0 <= k < n → l !! Z.to_nat k =
     if (k <? i) || (j <? k) then l0 !! Z.to_nat (n - 1 - k) else l0 !! Z.to_nat k) →
  wp (reverse_loop fuel i j l) (λ l', l' = reverse l0).
Proof.
  intros Hn. revert i j l. induction fuel as [|f IH]; intros i j l Hi Hin Hij Hl Hf Hg; [lia|].
  cbn [reverse_loop]. destruct (i <? j) eqn:E.
  - wp_step. eapply wp_mono; [apply wp_swap; zlia|]. intros l1 (_ & Hl1 & x & y & Hx & Hy & ->).
    apply IH; [lia|zlia|lia|lia|lia|]. intros k Hk. rewrite Hg in Hx, Hy by zlia.
    assert ((i <? i) || (j <? i) = false) as E1 by (apply orb_false_iff; zlia).
    assert ((j <? i) || (j <? j) = false) as E2 by (apply orb_false_iff; zlia).
    rewrite E1 in Hx. rewrite E2 in Hy. destruct (decide (k = j)) as [->|Hkj].
    { rewrite list_lookup_insert_eq by (rewrite length_insert; zlia). case_if; [|zlia].
      rewrite <- Hx. f_equal. lia. }
    rewrite list_lookup_insert_ne by lia. destruct (decide (k = i)) as [->|Hki].
    { rewrite list_lookup_insert_eq by zlia. case_if; [|zlia]. rewrite <- Hy. f_equal. lia. }
    rewrite list_lookup_insert_ne by lia. rewrite Hg by lia. zcases; done.
  - apply wp_ret. apply list_eq. intros k. destruct (decide (k < length l0)%nat) as [Hk|Hk].
    + rewrite reverse_lookup by done. specialize (Hg (Z.of_nat k) ltac:(lia)).
      rewrite Nat2Z.id in Hg. rewrite Hg. case_if; [f_equal; lia|].
      assert (Z.of_nat k = i ∧ i = j) as [Hki ->] by zlia. f_equal. lia.
    + rewrite !lookup_ge_None_2 by (rewrite ?length_reverse; lia). done.
Qed.

Lemma wp_reverse_all (l : list A) :
  wp (reverse_loop (S (length l)) 0 (Z.of_nat (length l) - 1) l) (λ l', l' = reverse l).
Proof.
  apply (wp_reverse_loop _ _ _ (Z.of_nat (length l))); try lia. intros k Hk. case_if; [zlia|done].
Qed.

Lemma wp_shuffle_all (l : list A) (rnd : Z → Z) :
  wp (shuffle_loop (S (length l)) rnd (Z.of_nat (length l) - 1) l) (λ l', l' ≡ₚ l).
Proof. apply wp_shuffle_loop; lia. Qed.

Lemma wp_ShuffleSegments (l : list A) (mode : string) (rnd : Z → Z) :
  wp (ShuffleSegments l mode rnd) (λ l', l' ≡ₚ l
    ∧ (mode = "reverse"%string → l' = reverse l)
    ∧ (mode = "middle"%string → (3 < length l)%nat →
         head l' = head l ∧ last l' = last l)
    ∧ (mode ∉ ["full"; "reverse"; "middle"]%string → l' = l)).
Proof.
  unfold ShuffleSegments. cbv zeta. repeat case_bool_decide; subst.
  - eapply wp_mono; [apply wp_shuffle_all|]. intros l' Hl. split_and!; [done|done|done|set_solver].
  - eapply wp_mono; [apply wp_reverse_all|]. intros l' ->.
    split_and!; [apply reverse_Permutation|done|done|set_solver].
  - case_if.
    + destruct l as [|x l]; [cbn in *; zlia|]. cbn [drop take length].
      assert (length l ≠ 0)%nat by (cbn in *; zlia).
      destruct l as [|z l] using rev_ind; [done|]. clear IHl. rewrite length_app in *. cbn [length] in *.
      replace (S (length l + 1) - 2)%nat with (length l) by lia.
      replace (S (length l + 1) - 1)%nat with (S (length l)) by lia. cbn [drop].
      change (drop 0 (l ++ [z])) with (l ++ [z]). rewrite take_app_length, drop_app_length.
      rewrite take_0. cbn [app]. wp_step. eapply wp_mono; [apply wp_shuffle_all|].
      intros m Hm. apply wp_ret. split_and!.
      * by apply Permutation_cons; [|apply Permutation_app_tail].
      * done.
      * intros _ _. cbn [head]. split; [done|]. by rewrite !app_comm_cons, !last_snoc.
      * set_solver.
    + case_if.
      * eapply wp_mono; [apply wp_reverse_all|]. intros l' ->.
        split_and!; [apply reverse_Permutation|done|zlia|set_solver].
      * apply wp_ret. split_and!; [done|done|zlia|set_solver].
  - apply wp_ret. split_and!; done.
Qed.
End perm.
(** ** Finding the name *)

Abbreviation enough fuel l i := (Z.max 0 (len l - i) < Z.of_nat fuel).

Definition in_range (l : bytes) (r : option (Z * Z)) : Prop :=
  match r with Some (s, e) => 0 < s ∧ s < e ∧ e <= len l | None => True end.

Lemma wp_sni_ext_loop fuel l e ee :
  bytes_ok l → 0 <= e → ee <= len l → enough fuel l e → wp (sni_ext_loop fuel l e ee) (in_range l).
Proof.
  intros Hok. revert e. induction fuel as [|f IH]; intros e He Hee Hf; [lia|]. cbn [sni_ext_loop].
  destruct (e + 4 <=? ee) eqn:E; [|by apply wp_ret]. do 4 wp_step. read_ranges Hok. cbv zeta.
  wp_step; [by apply wp_ret|]. destruct ((_ =? 0) && _) eqn:E1; [|apply IH; zlia].
  wp_step; [zlia|]. do 2 wp_step. read_ranges Hok. wp_step; [by apply wp_ret|].
  wp_step; [by apply wp_ret|]. do 2 wp_step. wp_step; [by apply wp_ret|]. do 2 wp_step.
  read_ranges Hok. wp_step; [by apply wp_ret|]. apply wp_ret. cbn. zlia.
Qed.

Lemma wp_locateSNI l : bytes_ok l → wp (locateSNI l) (in_range l).
Proof.
  intros Hok. unfold locateSNI. cbv zeta.
  repeat (wp_step; [by apply wp_ret|]; repeat (wp_step; []; read_ranges Hok)).
  apply wp_sni_ext_loop; [done|zlia| |zlia]. case_if; zlia.
Qed.

Lemma wp_pre_sni_loop fuel l pos ee last :
  bytes_ok l → 0 <= pos → ee <= len l → enough fuel l pos → 0 <= last → last <= pos →
  wp (pre_sni_loop fuel l pos ee last) (λ r, r = -1 ∨ 0 <= last ∧ last <= r ∧ r + 4 <= len l).
Proof.
  intros Hok. revert pos last. induction fuel as [|f IH]; intros pos last Hp Hee Hf Hl Hlp; [lia|].
  cbn [pre_sni_loop]. destruct (pos + 4 <=? ee) eqn:E; [|by apply wp_ret; left]. do 4 wp_step.
  read_ranges Hok. wp_step; [apply wp_ret; right; zlia|].
  eapply wp_mono; [apply IH; zlia|]. intros r [->|Hr]; [by left|right; zlia].
Qed.

Lemma wp_findPreSNIExtensionPoint l :
  bytes_ok l → wp (findPreSNIExtensionPoint l) (λ r, r = -1 ∨ 46 <= r ∧ r + 4 <= len l).
Proof.
  intros Hok. unfold findPreSNIExtensionPoint. cbv zeta.
  repeat (wp_step; [by apply wp_ret; left|]; repeat (wp_step; []; read_ranges Hok)).
  eapply wp_mono; [apply wp_pre_sni_loop; [done|zlia|case_if; zlia|zlia|zlia|zlia]|].
  intros r [->|Hr]; [by left|]. right. zlia.
Qed.

(** ** The split points are increasing *)

Lemma filter_sorted (f : Z → bool) (l : list Z) :
  StronglySorted Z.le l → StronglySorted Z.le (List.filter f l).
Proof.
  induction 1 as [|x l Hl IH Hx]; cbn; [constructor|]. destruct (f x); [|done].
  constructor; [done|]. rewrite Forall_forall in *. intros y Hy. apply Hx.
  apply list_elem_of_In in Hy. apply list_elem_of_In. apply filter_In in Hy. apply Hy.
Qed.

Lemma BuildValidSplits_sorted (l : list Z) (n : Z) : 0 <= n → StronglySorted Z.le l →
  ∃ l', BuildValidSplits l n = 0 :: l' ∧ StronglySorted Z.le (0 :: l') ∧ List.last l' 0 = n ∧ l' ≠ [].
Proof.
  intros Hn Hs. unfold BuildValidSplits. set (f := λ s, (0 <? s) && (s <? n)). eexists. split; [reflexivity|].
  assert (∀ y, y ∈ List.filter f l → 0 < y < n) as Hf.
  { intros y Hy%list_elem_of_In%filter_In. unfold f in Hy. zlia. }
  assert (StronglySorted Z.le (List.filter f l ++ [n])) as Hsn.
  { assert (StronglySorted Z.le (List.filter f l)) as Hs' by by apply filter_sorted.
    induction Hs' as [|x m Hm IH Hx]; cbn; [repeat constructor|]. constructor.
    - apply IH. intros y Hy. apply Hf. by right.
    - apply Forall_app. split; [done|]. constructor; [|done]. specialize (Hf x ltac:(by left)). lia. }
  split_and!.
  - constructor; [done|]. apply Forall_app. split; [|by constructor].
    rewrite Forall_forall. intros y Hy. specialize (Hf y Hy). lia.
  - apply List.last_last.
  - intros H%app_eq_nil. by destruct H.
Qed.

Lemma wp_GetSNISplitPoints l n m pos : bytes_ok l →
  wp (GetSNISplitPoints l n m pos) (StronglySorted Z.le).
Proof.
  intros Hok. unfold GetSNISplitPoints. wp_step. apply (wp_mono _ (StronglySorted Z.le)).
  - destruct m; [|apply wp_ret; constructor]. wp_step. eapply wp_mono; [by apply wp_locateSNI|].
    intros [[s e]|] Hr; apply wp_ret; [|constructor]. cbn in Hr.
    destruct (s <? e) eqn:E; [|constructor]. destruct (6 <? e - s); cbn;
      repeat constructor; rewrite ?Z.quot_div_nonneg by lia; Z.div_mod_to_equations; lia.
  - intros sp Hsp. apply wp_ret. case_if; [repeat constructor|done].
Qed.

Lemma unique_loop_spec (l : list Z) (n : Z) (res : list Z) :
  Forall (λ s, 0 < s < n) res → NoDup res →
  Forall (λ s, 0 < s < n) (unique_loop l n res) ∧ NoDup (unique_loop l n res)
  ∧ (∀ s, s ∈ unique_loop l n res ↔ s ∈ res ∨ s ∈ l ∧ 0 < s < n).
Proof.
  revert res. induction l as [|s l IH]; intros res Hr Hd; cbn [unique_loop].
  { split_and!; [done|done|]. intros s. rewrite elem_of_nil. tauto. }
  destruct (_ && _) eqn:E.
  - apply andb_true_iff in E as [E E3]. bprop. apply bool_decide_eq_false in E3.
    destruct (IH (res ++ [s])) as (H1 & H2 & H3).
    { apply Forall_app. split; [done|]. by repeat constructor. }
    { apply NoDup_app. split_and!; [done| |apply NoDup_singleton].
      intros x Hx ->%list_elem_of_singleton. done. }
    split_and!; [done|done|]. intros x. rewrite H3, elem_of_app, list_elem_of_singleton, elem_of_cons.
    naive_solver lia.
  - destruct (IH res Hr Hd) as (H1 & H2 & H3). split_and!; [done|done|]. intros x. rewrite H3, elem_of_cons.
    split; [tauto|]. intros [?|[[->|?] Hx]]; [tauto| |tauto]. left.
    apply andb_false_iff in E as [E|E]; [zlia|]. by apply negb_false_iff, bool_decide_eq_true in E.
Qed.

Lemma insert_int_perm (x : Z) (l : list Z) : insert_int x l ≡ₚ x :: l.
Proof.
  induction l as [|y l IH]; cbn; [done|]. case_if; [done|]. rewrite IH. apply perm_swap.
Qed.

Lemma insert_int_sorted (x : Z) (l : list Z) : StronglySorted Z.le l → StronglySorted Z.le (insert_int x l).
Proof.
  induction 1 as [|y l Hl IH Hy]; cbn; [repeat constructor|]. destruct (x <=? y) eqn:E.
  - constructor; [by constructor|]. constructor; [zlia|]. eapply Forall_impl; [exact Hy|]. zlia.
  - constructor; [done|]. rewrite insert_int_perm. constructor; [zlia|done].
Qed.

Lemma sort_ints_spec (l : list Z) : sort_ints l ≡ₚ l ∧ StronglySorted Z.le (sort_ints l).
Proof.
  induction l as [|x l [IH1 IH2]]; cbn; [by repeat constructor|].
  split; [by rewrite insert_int_perm, IH1|by apply insert_int_sorted].
Qed.

Lemma uniqueSorted_sorted (l : list Z) (n : Z) :
  StronglySorted Z.lt (uniqueSorted l n) ∧ ∀ s, s ∈ uniqueSorted l n ↔ s ∈ l ∧ 0 < s < n.
Proof.
  unfold uniqueSorted. destruct (unique_loop_spec l n []) as (H1 & H2 & H3); [constructor..|].
  destruct (sort_ints_spec (unique_loop l n [])) as [Hp Hs]. split.
  - assert (NoDup (sort_ints (unique_loop l n []))) as Hd by by rewrite Hp.
    revert Hd Hs. generalize (sort_ints (unique_loop l n [])). clear.
    induction l as [|x l IH]; intros Hd Hs; constructor.
    + apply NoDup_cons in Hd as [_ Hd]. apply StronglySorted_inv in Hs as [Hs _]. auto.
    + apply NoDup_cons in Hd as [Hx _]. apply StronglySorted_inv in Hs as [_ Hs].
      rewrite Forall_forall in *. intros y Hy. specialize (Hs y Hy).
      assert (x ≠ y) by congruence. lia.
  - intros s. rewrite Hp, H3, elem_of_nil. tauto.
Qed.

(** [uniqueSorted] returns exactly the split points inside the payload, each
    once, in increasing order. *)
Theorem uniqueSorted_spec (l : list Z) (n : Z) :
  StronglySorted Z.lt (uniqueSorted l n) ∧ ∀ s, s ∈ uniqueSorted l n ↔ s ∈ l ∧ 0 < s < n.
Proof. apply uniqueSorted_sorted. Qed.

Lemma wp_GetComboSplitPoints l n combo m : bytes_ok l →
  wp (GetComboSplitPoints l n combo m) (λ _, True).
Proof.
  intros Hok. unfold GetComboSplitPoints. cbv zeta. wp_step. apply (wp_mono (A:=list Z) _ (λ _, True)).
  - destruct (ExtensionSplit combo); [|done]. wp_step.
    eapply wp_mono; [by apply wp_findPreSNIExtensionPoint|]. done.
  - intros sp _. destruct m; [|done]. wp_step. eapply wp_mono; [by apply wp_locateSNI|]. done.
Qed.
