(* ===== verification/Segment.v ===== *)
(** * TCP segments of package [nfq], for IPv4 and IPv6

    src/src/nfq/common.go, common_ipv6.go and the TTL and checksum helpers of
    desync.go: building the segments that carry a piece of the payload, decoys for
    them, and moving the PSH flag.  The code has every routine twice, for IPv4 and
    for IPv6; the two differ in the operations of [Family], by which the routines
    are written once here and instantiated in Families.v.

    The reference is a receiver ([Receiver]) that reads a segment's sequence number
    and data ([view]) and checks its checksums ([valid]); what the senders promise
    is that valid segments [carries] the payload.  The laws of [Receiver] are all
    that the proofs about the senders use. *)

From Stdlib Require Import ZArith Lia Ascii.
From stdpp Require Import base list numbers sets strings.
From S2P Require Import Prelude Checksum Fragment Split.

Local Open Scope Z_scope.

Record PacketInfo := {
  IPHdrLen : Z; TCPHdrLen : Z; PayloadStart : Z; PayloadLen : Z; Payload : bytes;
  Seq0 : Z; ID0 : Z; IsIPv6 : bool }.

Record Segment := { Data : bytes; Seq : Z }.

(** ** What differs between IPv4 and IPv6

    [len_at]: offset of the length field, which does not count the first
    [len_base] bytes; [ttl_at]: offset of the TTL or hop limit; [set_id]: the write
    of the IPv4 id; [fix_segment]: every checksum of a packet, given its IP header's
    length; [fix_tcp]: the TCP checksum alone; [headers]: the lengths of the IP and
    of the TCP header as the senders that do not call [ExtractPacketInfo] read
    them. *)
Class Family := {
  is_v6 : bool;
  len_at : Z;
  len_base : Z;
  ttl_at : Z;
  set_id : bytes → Z → go bytes;
  fix_segment : bytes → Z → go bytes;
  fix_tcp : bytes → go bytes;
  headers : bytes → go (Z * Z);
  ExtractPacketInfo : bytes → go (option PacketInfo) }.

(** [seg[len_at:] = uint16(n)], the length that [n] bytes declare. *)
Definition set_len `{Family} (seg : bytes) (n : Z) : go bytes := put16 seg len_at (n - len_base).

(** ** Building segments *)

(** The copy of header and data that the builders start with. *)
Definition new_segment (packet : bytes) (payloadStart : Z) (data : bytes) : go bytes :=
  let! seg := make (payloadStart + len data) in
  let! hdr := slice packet 0 payloadStart in
  let! seg := copy_at seg 0 payloadStart hdr in
  copy_from seg payloadStart data.

Definition BuildSegment `{Family} (packet : bytes) (pi : PacketInfo) (payloadSlice : bytes)
    (seqOffset idOffset : Z) : go bytes :=
  let segLen := PayloadStart pi + len payloadSlice in
  let! seg := new_segment packet (PayloadStart pi) payloadSlice in
  let! seg := put32 seg (IPHdrLen pi + 4) (u32 (Seq0 pi + seqOffset)) in
  let! seg := set_id seg (u16 (ID0 pi + idOffset)) in
  let! seg := set_len seg segLen in
  fix_segment seg (IPHdrLen pi).

(** [for i := 0; i < n; i++ { d[at+i] = pattern[i%len(pattern)] }] *)
Fixpoint fill_pattern (fuel : nat) (d pattern : bytes) (at_ n i : Z) : go bytes :=
  match fuel with
  | O => Spin
  | S f =>
      if i <? n
      then
        let! x := idx pattern (i mod len pattern) in
        let! d := upd d (at_ + i) x in
        fill_pattern f d pattern at_ n (i + 1)
      else Ret d
  end.

Definition overlap_payload (origPayload : bytes) (seqovlLen : Z) (pattern : bytes) : go bytes :=
  let! ext := make (seqovlLen + len origPayload) in
  let! ext := fill_pattern (S (Z.to_nat seqovlLen)) ext pattern 0 seqovlLen 0 in
  copy_from ext seqovlLen origPayload.

Definition BuildSeqOverlapSegment `{Family} (packet : bytes) (pi : PacketInfo) (origPayload : bytes)
    (origStartOffset seqovlLen : Z) (pattern : bytes) (idOffset : Z) : go bytes :=
  if (seqovlLen <=? 0) || (len pattern =? 0)
  then BuildSegment packet pi origPayload (u32 origStartOffset) idOffset
  else
    let! ext := overlap_payload origPayload seqovlLen pattern in
    let seqOffset := u32 (u32 origStartOffset - u32 seqovlLen) in
    BuildSegment packet pi ext seqOffset idOffset.

(** ** Flags, TTL and checksum of a packet *)

Definition SetPSH (seg : bytes) (ipHdrLen : Z) : go bytes :=
  let! x := idx seg (ipHdrLen + 13) in upd seg (ipHdrLen + 13) (Z.lor x 8).
Definition ClearPSH (seg : bytes) (ipHdrLen : Z) : go bytes :=
  let! x := idx seg (ipHdrLen + 13) in upd seg (ipHdrLen + 13) (andnot x 8).

Definition dynamicTTL (packet : bytes) (isIPv6 : bool) (configTTL : Z) : go Z :=
  let! realTTL := (if isIPv6 then idx packet 7 else idx packet 8) in
  let ttl := configTTL in
  let ttl := if ttl =? 0 then 5 else ttl in
  let ttl := if (realTTL <=? ttl) && (1 <? realTTL) then u8 (realTTL - 1) else ttl in
  Ret (if ttl <? 1 then 1 else ttl).

Definition corruptTCPChecksum (pkt : bytes) (ipHdrLen : Z) : go bytes :=
  let! x := idx pkt (ipHdrLen + 16) in
  let! pkt := upd pkt (ipHdrLen + 16) (Z.lxor x 255) in
  let! y := idx pkt (ipHdrLen + 17) in
  upd pkt (ipHdrLen + 17) (Z.lxor y 255).

(** [seg[start+i] = byte((i * 7) & 0xFF)] *)
Fixpoint fill_seven (fuel : nat) (d : bytes) (at_ n i : Z) : go bytes :=
  match fuel with
  | O => Spin
  | S f =>
      if i <? n
      then let! d := upd d (at_ + i) (u8 (Z.land (i * 7) 255)) in fill_seven f d at_ n (i + 1)
      else Ret d
  end.

(** The fake's payload; [None] is the nil of an empty segment. *)
Definition fake_payload (seg : bytes) (start payloadLen : Z) (fakePattern : bytes) : go bytes :=
  if len fakePattern =? 0
  then fill_seven (S (Z.to_nat payloadLen)) seg start payloadLen 0
  else fill_pattern (S (Z.to_nat payloadLen)) seg fakePattern start payloadLen 0.

Definition BuildFakeOverlapSegment `{Family} (packet : bytes) (pi : PacketInfo)
    (payloadLen seqOffset idOffset : Z) (fakePattern : bytes) (fakeTTL : Z) : go (option bytes) :=
  if payloadLen <=? 0 then Ret None else
  let segLen := PayloadStart pi + payloadLen in
  let! seg := make segLen in
  let! hdr := slice packet 0 (PayloadStart pi) in
  let! seg := copy_at seg 0 (PayloadStart pi) hdr in
  let! seg := fake_payload seg (PayloadStart pi) payloadLen fakePattern in
  let! seg := put32 seg (IPHdrLen pi + 4) (u32 (Seq0 pi + seqOffset)) in
  let! seg := set_id seg (u16 (ID0 pi + idOffset)) in
  let! seg := set_len seg segLen in
  let! ttl := dynamicTTL packet is_v6 fakeTTL in
  let! seg := upd seg ttl_at ttl in
  let! seg := ClearPSH seg (IPHdrLen pi) in
  let! seg := fix_segment seg (IPHdrLen pi) in
  let! seg := corruptTCPChecksum seg (IPHdrLen pi) in
  Ret (Some seg).

(** The loop of [SetMaxSeqPSH]: PSH is cleared everywhere; the index of the
    largest sequence number is tracked. *)
Fixpoint clear_loop (segments : list Segment) (ipHdrLen : Z) (fixChecksum : bytes → go bytes)
    (i maxSeqIdx : nat) (maxSeq : Z) (done : list Segment) : go (list Segment * nat) :=
  match segments with
  | [] => Ret (done, maxSeqIdx)
  | s :: segments =>
      let! d := ClearPSH (Data s) ipHdrLen in
      let! d := fixChecksum d in
      let s := {| Data := d; Seq := Seq s |} in
      if maxSeq <? Seq s
      then clear_loop segments ipHdrLen fixChecksum (S i) i (Seq s) (done ++ [s])
      else clear_loop segments ipHdrLen fixChecksum (S i) maxSeqIdx maxSeq (done ++ [s])
  end.

Definition SetMaxSeqPSH (segments : list Segment) (ipHdrLen : Z) (fixChecksum : bytes → go bytes)
    : go (list Segment) :=
  match segments with
  | [] => Panic
  | s0 :: _ =>
      let! (segments, maxSeqIdx) := clear_loop segments ipHdrLen fixChecksum 0 0 (Seq s0) [] in
      match segments !! maxSeqIdx with
      | None => Panic
      | Some s =>
          let! d := SetPSH (Data s) ipHdrLen in
          let! d := fixChecksum d in
          Ret (<[maxSeqIdx := {| Data := d; Seq := Seq s |}]> segments)
      end
  end.

(** ** The receiver

    [hdr]: the length of the IP header; [hdr_ok]: it is one the code handles;
    [sums_ok]: a receiver's checksums verify; [ip_fields]: the bytes of the IP header
    that a segment does not take over unchanged. *)
Class Receiver {F : Family} := {
  hdr : bytes → Z;
  hdr_ok : bytes → Prop;
  sums_ok : bytes → Prop;
  ip_fields : list Z;

  len_in : len_at ∈ ip_fields ∧ len_at + 1 ∈ ip_fields;
  id_in : 4 ∈ ip_fields ∧ 5 ∈ ip_fields;
  fields_low k : k ∈ ip_fields → 0 < k < 12;
  ttl_out : ttl_at ∉ ip_fields ∧ ttl_at = (if is_v6 then 7 else 8);
  hdr_range p : bytes_ok p → hdr_ok p → 20 <= hdr p <= 60 ∧ 0 <= len_base <= hdr p;
  hdr_stable p q : hdr_ok p →
    (∀ k, 0 <= k < 20 → k ∉ ip_fields → k ≠ ttl_at → get q k = get p k) →
    hdr q = hdr p ∧ hdr_ok q;
  wp_set_id l v : bytes_ok l → 6 <= len l → wp (set_id l v) (λ r,
    len r = len l ∧ bytes_ok r ∧ (∀ k, k ≠ 4 → k ≠ 5 → get r k = get l k)
    ∧ get16 r len_at = get16 l len_at);
  (** Completing the checksums of a packet of right length; a packet with another
      TCP flag byte than a valid one only needs the TCP checksum. *)
  fix_segment_law l : bytes_ok l → hdr_ok l → hdr l + 20 <= len l →
    get16 l len_at + len_base = len l →
    wp (fix_segment l (hdr l)) (λ r, len r = len l ∧ bytes_ok r
      ∧ get16 r len_at = get16 l len_at
      ∧ (∀ k, k ∉ ip_fields → k ≠ hdr l + 16 → k ≠ hdr l + 17 → get r k = get l k)
      ∧ sums_ok r);
  fix_tcp_law f l : bytes_ok f → bytes_ok l → hdr_ok f → hdr f + 20 <= len f →
    get16 f len_at + len_base = len f → sums_ok f → len l = len f →
    (∀ k, k ≠ hdr f + 13 → get l k = get f k) →
    wp (fix_tcp l) (λ r, len r = len l ∧ bytes_ok r
      ∧ (∀ k, k ≠ hdr f + 16 → k ≠ hdr f + 17 → get r k = get l k)
      ∧ sums_ok r) }.

Section receiver.
Context {F : Family} {R : Receiver}.

(** Where the TCP data starts; the sequence number and the data of a segment. *)
Definition off (p : bytes) : Z := hdr p + Z.shiftr (get p (hdr p + 12)) 4 * 4.
Definition seq_no (p : bytes) : Z := get32 p (hdr p + 4).
Definition total (p : bytes) : Z := get16 p len_at + len_base.
Definition view (p : bytes) : Z * bytes := (seq_no p, sub p (off p) (total p)).
Definition payload_of (p : bytes) : bytes := sub p (off p) (len p).

Definition valid (p : bytes) : Prop := bytes_ok p ∧ total p = len p ∧ sums_ok p.

(** The packets the rewriting applies to. *)
Definition captured (p : bytes) : Prop :=
  bytes_ok p ∧ hdr_ok p ∧ 20 <= off p - hdr p ∧ off p <= len p ∧ len p <= 65535 + len_base.

(** The header bytes a segment does not take over: those of the IP header, the
    sequence number, the flags (only PSH changes) and the TCP checksum. *)
Definition rewritten (h : Z) : list Z :=
  ip_fields ++ [h + 4; h + 5; h + 6; h + 7; h + 13; h + 16; h + 17].
Definition no_psh (x : Z) : Z := andnot x 8.

(** [f] is a valid segment of [p]'s connection with sequence number [sq] and
    data [d]. *)
Definition seg_of (p : bytes) (sq : Z) (d f : bytes) : Prop :=
  valid f ∧ view f = (sq, d) ∧ len f = off p + len d ∧ hdr f = hdr p ∧ hdr_ok f
  ∧ same_header (rewritten (hdr p)) p f (off p)
  ∧ no_psh (get f (hdr p + 13)) = no_psh (get p (hdr p + 13)).
Definition is_seg (p f : bytes) : Prop := seg_of p (view f).1 (view f).2 f.

(** A decoy packet: a segment that would be valid but for its inverted TCP
    checksum, with a lower TTL. *)
Definition is_fake (p f : bytes) : Prop := ∃ ttl sq d g,
  1 <= ttl < 256 ∧ (1 < get p ttl_at → ttl < get p ttl_at)
  ∧ seg_of (<[Z.to_nat ttl_at := ttl]> p) sq d g
  ∧ f = splice g (hdr p + 16) (bytes16 (65535 - get16 g (hdr p + 16))).

(** Segments that follow one another from sequence number [sq] on. *)
Fixpoint in_order (sq : Z) (vs : list (Z * bytes)) : Prop :=
  match vs with
  | [] => True
  | v :: vs => v.1 = u32 sq ∧ in_order (sq + len v.2) vs
  end.

(** Put in the right order, the segments [vs] carry [P] from [sq] on, each byte
    once. *)
Definition carries_views (sq : Z) (P : bytes) (vs : list (Z * bytes)) : Prop :=
  ∃ ws, ws ≡ₚ vs ∧ in_order sq ws ∧ concat (map snd ws) = P.

(** The packets [fs] carry the payload of [p] at its place in the stream, and each
    is [p] or a valid segment of its connection. *)
Definition carries (p : bytes) (fs : list bytes) : Prop :=
  carries_views (seq_no p) (payload_of p) (map view fs) ∧ Forall (λ f, f = p ∨ is_seg p f) fs.

(** [fs] carry the bytes [a] to [c] of the payload, in order. *)
Inductive cut (p : bytes) : Z → Z → list bytes → Prop :=
  | cut_nil a : cut p a a []
  | cut_cons a b c f fs :
      a <= b → seg_of p (u32 (seq_no p + a)) (sub (payload_of p) a b) f → cut p b c fs →
      cut p a c (f :: fs).

(** The same segment up to PSH. *)
Definition same_seg (p : bytes) (s s' : Segment) : Prop :=
  is_seg p (Data s') ∧ view (Data s') = view (Data s) ∧ Seq s' = Seq s.

(** What [ExtractPacketInfo] returns. *)
Definition info (p : bytes) : PacketInfo :=
  {| IPHdrLen := hdr p; TCPHdrLen := off p - hdr p; PayloadStart := off p;
     PayloadLen := len p - off p; Payload := payload_of p;
     Seq0 := seq_no p; ID0 := if is_v6 then 0 else get16 p 4; IsIPv6 := is_v6 |}.

(** A segment under construction, all but its length field and checksums. *)
Definition draft (p : bytes) (sq : Z) (d l : bytes) : Prop :=
  bytes_ok l ∧ len l = off p + len d ∧ 0 <= sq < 4294967296
  ∧ (∀ k, 0 <= k < 4 → get l (hdr p + 4 + k) = get (bytes32 sq) k)
  ∧ (∀ k, 0 <= k < off p → k ∉ rewritten (hdr p) → get l k = get p k)
  ∧ no_psh (get l (hdr p + 13)) = no_psh (get p (hdr p + 13))
  ∧ (∀ k, 0 <= k < len d → get l (off p + k) = get d k).
Definition ready (p : bytes) (sq : Z) (d l : bytes) : Prop := draft p sq d l ∧ total l = len l.
End receiver.

(** The laws of reading a packet's headers, for the senders. *)
Class Reader {F : Family} {R : Receiver} := {
  headers_law p : captured p → headers p = Ret (hdr p, off p - hdr p);
  extract_law p : captured p → ExtractPacketInfo p = Ret (Some (info p)) }.

(** ** Reading and writing headers *)

Lemma nibble_range (b : Z) : is_byte b → 0 <= Z.shiftr b 4 <= 15.
Proof.
  unfold is_byte. intros Hb. rewrite Z.shiftr_div_pow2 by lia. change (2 ^ 4) with 16.
  Z.div_mod_to_equations. lia.
Qed.
Lemma get32_eq (p q : bytes) (i j : Z) :
  (∀ k, 0 <= k < 4 → get p (i + k) = get q (j + k)) → get32 p i = get32 q j.
Proof.
  intros H. unfold get32. rewrite <- (Z.add_0_r i), <- (Z.add_0_r j). rewrite H by lia.
  rewrite <- !Z.add_assoc. rewrite !Z.add_0_l. rewrite !H by lia. done.
Qed.

Lemma get32_of_bytes32 (l : bytes) (i v : Z) :
  0 <= v < 4294967296 → (∀ k, 0 <= k < 4 → get l (i + k) = get (bytes32 v) k) → get32 l i = v.
Proof.
  intros Hv H. transitivity (get32 (bytes32 v) 0).
  { apply get32_eq. intros k Hk. by rewrite H, Z.add_0_l. }
  rewrite get32_val by apply bytes_ok_bytes32. by apply bytes32_val.
Qed.
Lemma no_psh_or (x : Z) : no_psh (Z.lor x 8) = no_psh x.
Proof.
  unfold no_psh. apply Z.bits_inj'. intros n Hn. rewrite !Z.ldiff_spec, Z.lor_spec.
  destruct (Z.testbit x n), (Z.testbit 8 n); done.
Qed.

Lemma no_psh_idem (x : Z) : no_psh (andnot x 8) = no_psh x.
Proof.
  unfold no_psh. apply Z.bits_inj'. intros n Hn. rewrite !Z.ldiff_spec.
  destruct (Z.testbit x n), (Z.testbit 8 n); done.
Qed.

Lemma is_byte_andnot (x y : Z) : is_byte x → is_byte (andnot x y).
Proof.
  unfold is_byte. intros Hx.
  assert (Z.ldiff x y = Z.land (Z.ldiff x y) (Z.ones 8)) as ->.
  { rewrite <- (Z.mod_small x 256) at 1 by lia. change 256 with (2 ^ 8).
    rewrite <- Z.land_ones by lia. apply Z.bits_inj'. intros n Hn.
    rewrite Z.land_spec, !Z.ldiff_spec, Z.land_spec.
    rewrite <- (Z.mod_small x 256) at 2 by lia. change 256 with (2 ^ 8).
    rewrite <- Z.land_ones, Z.land_spec by lia.
    by destruct (Z.testbit x n), (Z.testbit y n), (Z.testbit (Z.ones 8) n). }
  rewrite Z.land_ones by lia. apply Z.mod_pos_bound. lia.
Qed.

Lemma bytes32_get32 (p : bytes) (i k : Z) :
  bytes_ok p → 0 <= k < 4 → get (bytes32 (get32 p i)) k = get p (i + k).
Proof.
  intros Hok Hk. rewrite get32_val by done. pose proof (bytes_ok_get p i Hok).
  pose proof (bytes_ok_get p (i + 1) Hok). pose proof (bytes_ok_get p (i + 2) Hok).
  pose proof (bytes_ok_get p (i + 3) Hok). unfold is_byte in *.
  set (v := get p i * 16777216 + _ + _ + _).
  assert (k = 0 ∨ k = 1 ∨ k = 2 ∨ k = 3) as Hc by lia.
  assert (∀ n, 0 <= n → Z.shiftr v n = v / 2 ^ n) as Hsh by (intros; apply Z.shiftr_div_pow2; lia).
  destruct Hc as [->|[->|[->| ->]]].
  - change (get (bytes32 v) 0) with (Z.shiftr v 24 mod 256). rewrite Hsh, Z.add_0_r by lia.
    change (2 ^ 24) with 16777216. unfold v. Z.div_mod_to_equations. lia.
  - change (get (bytes32 v) 1) with (Z.shiftr v 16 mod 256). rewrite Hsh by lia.
    change (2 ^ 16) with 65536. unfold v. Z.div_mod_to_equations. lia.
  - change (get (bytes32 v) 2) with (Z.shiftr v 8 mod 256). rewrite Hsh by lia.
    change (2 ^ 8) with 256. unfold v. Z.div_mod_to_equations. lia.
  - change (get (bytes32 v) 3) with (v mod 256). unfold v. Z.div_mod_to_equations. lia.
Qed.

Lemma u32_add_l (x y : Z) : u32 (x + u32 y) = u32 (x + y).
Proof. unfold u32. apply Zplus_mod_idemp_r. Qed.

Section laws.
Context {F : Family} {R : Receiver}.
Implicit Types (p l f d : bytes) (sq : Z).

Lemma captured_range p : captured p →
  20 <= hdr p <= 60 ∧ hdr p + 20 <= off p <= hdr p + 60 ∧ 0 <= len_base <= hdr p.
Proof.
  intros (Hok & Hh & Ho & _). pose proof (hdr_range p Hok Hh).
  pose proof (nibble_range _ (bytes_ok_get p (hdr p + 12) Hok)). unfold off in *. lia.
Qed.

Lemma seq_no_range p : bytes_ok p → 0 <= seq_no p < 4294967296.
Proof. intros H. unfold seq_no. exact (get32_range p _ H). Qed.

Lemma u32_seq_no p : bytes_ok p → u32 (seq_no p) = seq_no p.
Proof. intros H. apply u32_small. exact (seq_no_range p H). Qed.

Lemma not_rewritten h k : k ∉ rewritten h ↔
  k ∉ ip_fields ∧ k ≠ h + 4 ∧ k ≠ h + 5 ∧ k ≠ h + 6 ∧ k ≠ h + 7 ∧ k ≠ h + 13 ∧ k ≠ h + 16 ∧ k ≠ h + 17.
Proof.
  unfold rewritten. rewrite not_elem_of_app, !not_elem_of_cons. split; [tauto|].
  intros H. split_and!; try apply H. apply not_elem_of_nil.
Qed.

Lemma fields_high k : 12 <= k → k ∉ ip_fields.
Proof. intros Hk H%fields_low. lia. Qed.

Lemma not_len k : k ∉ ip_fields → k ≠ len_at ∧ k ≠ len_at + 1 ∧ k ≠ 4 ∧ k ≠ 5.
Proof. intros Hk. destruct len_in, id_in. split_and!; congruence. Qed.

Lemma len_at_range : 0 < len_at < 11.
Proof using R. destruct len_in as [H1%fields_low H2%fields_low]. lia. Qed.

Lemma ttl_range : ttl_at = 7 ∨ ttl_at = 8.
Proof using R. destruct ttl_out as [_ ->]. destruct is_v6; auto. Qed.

Lemma ttl_not_len : ttl_at ≠ len_at ∧ ttl_at ≠ len_at + 1.
Proof using R. destruct ttl_out as [Hn _], len_in. split; congruence. Qed.

(** A buffer with [p]'s headers up to the rewritten bytes (and the TTL). *)
Lemma header_stable p l : captured p →
  (∀ k, 0 <= k < off p → k ∉ rewritten (hdr p) → k ≠ ttl_at → get l k = get p k) →
  hdr l = hdr p ∧ hdr_ok l ∧ off l = off p.
Proof.
  intros Hc Hg. pose proof (captured_range p Hc) as (H1 & H2 & _). destruct Hc as (Hok & Hh & _).
  destruct (hdr_stable p l Hh) as [Hl Hlok].
  { intros k Hk Hn Ht. apply Hg; [lia| |done]. apply not_rewritten. split_and!; [done|lia..]. }
  split_and!; [done|done|]. unfold off. rewrite Hl, Hg; [done|lia| |].
  - apply not_rewritten. split_and!; [apply fields_high|..]; lia.
  - destruct ttl_range; lia.
Qed.

Lemma payload_len p : captured p → len (payload_of p) = len p - off p.
Proof.
  intros Hc. pose proof (captured_range p Hc). destruct Hc as (_ & _ & _ & Hl & _).
  unfold payload_of. by rewrite len_sub by lia.
Qed.

Lemma payload_ok p : bytes_ok p → bytes_ok (payload_of p).
Proof. intros. unfold payload_of. auto with b4. Qed.

(** A piece of the payload, as a range of the packet. *)
Lemma payload_sub p a b : captured p → 0 <= a → a <= b → b <= len (payload_of p) →
  sub (payload_of p) a b = sub p (off p + a) (off p + b).
Proof.
  intros Hc Ha Hab Hb. pose proof (captured_range p Hc). rewrite payload_len in Hb by done.
  destruct Hc as (_ & _ & _ & Hl & _). unfold payload_of.
  apply list_ext_get; [len_simp; lia|]. intros k Hk. revert Hk. len_simp; try lia. intros Hk.
  rewrite !get_sub by (len_simp; lia). zcases. f_equal. lia.
Qed.

Lemma captured_small p a b : captured p → 0 <= a → a <= b → b <= len (payload_of p) →
  off p + len (sub (payload_of p) a b) <= 65535 + len_base.
Proof.
  intros Hc Ha Hab Hb. rewrite len_sub by lia. rewrite payload_len in Hb by done.
  destruct Hc as (_ & _ & _ & Hl & Hs). lia.
Qed.

(** ** Drafts: the steps of a builder *)

Ltac bytes_lia := solve [auto 16 with b4].

Lemma draft_init p d l : captured p → bytes_ok l → len l = off p + len d →
  (∀ k, 0 <= k < off p → get l k = get p k) → (∀ k, 0 <= k < len d → get l (off p + k) = get d k) →
  draft p (seq_no p) d l.
Proof.
  intros Hc Hl Hlen Hh Hd. pose proof (captured_range p Hc). destruct Hc as (Hok & _).
  split_and!; [done|done|exact (proj1 (seq_no_range p Hok))|exact (proj2 (seq_no_range p Hok))|..];
    try done.
  - intros k Hk. unfold seq_no. rewrite bytes32_get32 by done. apply Hh. lia.
  - intros k Hk _. by apply Hh.
  - by rewrite Hh by lia.
Qed.

Lemma wp_new_segment p d : captured p → bytes_ok d →
  wp (new_segment p (off p) d) (draft p (seq_no p) d).
Proof.
  intros Hc Hd. pose proof (captured_range p Hc). pose proof Hc as (Hok & _ & _ & Hl & _).
  unfold new_segment. do 7 wp_step. rewrite !take_ge_len by len_lia.
  apply draft_init; [done|bytes_lia|len_lia|..]; intros k Hk; gets; f_equal; lia.
Qed.

Lemma draft_put p sq d l i s : captured p → draft p sq d l → bytes_ok s →
  (∀ k, i <= k < i + len s → k ∈ ip_fields ∨ hdr p + 16 <= k < hdr p + 18) → 0 < len s →
  draft p sq d (splice l i s).
Proof.
  intros Hc (Hl & Hlen & Hsq & H1 & H2 & H3 & H4) Hs Hi Hp. pose proof (captured_range p Hc).
  assert (∀ k, i <= k < i + len s → 0 < k < 12 ∨ hdr p + 16 <= k < hdr p + 18) as Hr.
  { intros k Hk. destruct (Hi k Hk) as [Hf%fields_low|?]; lia. }
  assert (0 < i ∧ i + len s <= len l) as [Hi0 Hi1].
  { pose proof (Hr i ltac:(lia)). pose proof (Hr (i + len s - 1) ltac:(lia)). lia. }
  assert (∀ k, ¬ (0 < k < 12 ∨ hdr p + 16 <= k < hdr p + 18) → get (splice l i s) k = get l k) as Hg.
  { intros k Hk. rewrite get_splice by lia. destruct ((i <=? k) && (k <? i + len s)) eqn:E; [|done].
    destruct Hk. apply Hr. zlia. }
  split_and!; [bytes_lia|len_lia|lia|lia|..].
  - intros k Hk. rewrite Hg by lia. auto.
  - intros k Hk Hn. rewrite <- H2 by done. rewrite get_splice by lia.
    destruct ((i <=? k) && (k <? i + len s)) eqn:E; [|done]. exfalso. apply not_rewritten in Hn.
    destruct (Hi k ltac:(zlia)); [tauto|lia].
  - by rewrite Hg by lia.
  - intros k Hk. rewrite Hg by lia. auto.
Qed.

Lemma wp_draft_seq p s d l sq : captured p → draft p s d l → 0 <= sq < 4294967296 →
  wp (put32 l (hdr p + 4) sq) (draft p sq d).
Proof.
  intros Hc (Hl & Hlen & _ & H1 & H2 & H3 & H4) Hsq. pose proof (captured_range p Hc).
  wp_step. rewrite u32_small by done.
  split_and!; [bytes_lia|len_lia|lia|lia|..].
  - intros k Hk. gets. f_equal. lia.
  - intros k Hk Hn. rewrite <- H2 by done. apply not_rewritten in Hn. gets. done.
  - gets. done.
  - intros k Hk. gets. auto.
Qed.

Lemma draft_seq p sq d l : draft p sq d l → get32 l (hdr p + 4) = sq.
Proof. intros (_ & _ & Hsq & Hs & _). by apply get32_of_bytes32. Qed.

Lemma wp_draft_id p sq d l v : captured p → draft p sq d l →
  wp (set_id l v) (draft p sq d).
Proof.
  intros Hc (Hl & Hlen & Hsq & H1 & H2 & H3 & H4). pose proof (captured_range p Hc).
  eapply wp_mono; [apply wp_set_id; [done|lia]|]. intros r (Hr1 & Hr2 & Hr3 & _).
  split_and!; [done|lia|lia|lia|..].
  - intros k Hk. rewrite Hr3 by lia. auto.
  - intros k Hk Hn. rewrite <- H2 by done. apply not_rewritten in Hn as [Hn%not_len _].
    apply Hr3; apply Hn.
  - rewrite Hr3 by lia. done.
  - intros k Hk. rewrite Hr3 by lia. auto.
Qed.

Lemma wp_draft_len p sq d l n : captured p → draft p sq d l →
  n = len l → n <= 65535 + len_base → wp (set_len l n) (ready p sq d).
Proof.
  intros Hc Hd -> Hn. pose proof (captured_range p Hc). pose proof len_at_range.
  pose proof Hd as (Hl & Hlen & _). unfold set_len. wp_step. split.
  - apply draft_put; [done|done|bytes_lia| |by rewrite len_bytes16].
    intros k Hk. rewrite len_bytes16 in Hk. left. destruct len_in as [Hn1 Hn2].
    destruct (decide (k = len_at)) as [->|]; [done|]. by replace k with (len_at + 1) by lia.
  - unfold total. rewrite u16_small by lia. rewrite get16_splice by (done || lia). len_lia.
Qed.

Lemma wp_ready_seq p s d l sq : captured p → ready p s d l → 0 <= sq < 4294967296 →
  wp (put32 l (hdr p + 4) sq) (ready p sq d).
Proof.
  intros Hc [Hd Ht] Hsq. pose proof (captured_range p Hc). pose proof len_at_range.
  pose proof Hd as (Hl & Hlen & _). unfold ready. apply wp_and; [by eapply wp_draft_seq|].
  wp_step. rewrite u32_small by done.
  rewrite len_splice by (rewrite ?len_bytes32; lia). rewrite <- Ht. unfold total. f_equal.
  apply get16_eq; gets; done.
Qed.

Lemma wp_ready_id p sq d l v : captured p → ready p sq d l → wp (set_id l v) (ready p sq d).
Proof.
  intros Hc [Hd Ht]. pose proof (captured_range p Hc). pose proof Hd as (Hl & Hlen & _).
  unfold ready. apply wp_and; [by apply wp_draft_id|].
  eapply wp_mono; [apply wp_set_id; [done|lia]|]. intros r (Hr1 & _ & _ & Hr3).
  unfold total in *. lia.
Qed.

(** A finished segment can be changed again. *)
Lemma seg_ready p sq d f : captured p → seg_of p sq d f → 0 <= sq < 4294967296 → ready p sq d f.
Proof.
  intros Hc ((Hok & Ht & _) & Hv & Hl & Hh & _ & Hsame & Hp) Hsq. pose proof (captured_range p Hc).
  destruct (header_stable p f Hc) as (_ & _ & Ho); [intros; by apply Hsame|].
  unfold view in Hv. rewrite Ht, Ho in Hv. injection Hv as Hs Hd.
  split; [|done]. split_and!; try done; try lia.
  - intros k Hk. rewrite <- Hs. unfold seq_no. rewrite Hh, bytes32_get32 by done. done.
  - intros k Hk. rewrite <- Hd, get_sub by lia. case_if; [done|]. zlia.
Qed.

Lemma wp_ready_flags p sq d l x : captured p → ready p sq d l → is_byte x →
  no_psh x = no_psh (get l (hdr p + 13)) → wp (upd l (hdr p + 13) x) (ready p sq d).
Proof.
  intros Hc [(Hl & Hlen & Hsq & H1 & H2 & H3 & H4) Ht] Hx Hn. pose proof (captured_range p Hc).
  pose proof len_at_range. wp_step. split; [split_and!; [bytes_lia|len_lia|lia|lia|..]|].
  - intros k Hk. gets. auto.
  - intros k Hk Hk'. rewrite <- H2 by done. apply not_rewritten in Hk'. gets. done.
  - gets. by rewrite Hn.
  - intros k Hk. gets. auto.
  - rewrite len_insert, <- Ht. unfold total. f_equal. apply get16_eq; gets; done.
Qed.

Lemma wp_ready_ClearPSH p sq d l : captured p → ready p sq d l →
  wp (ClearPSH l (hdr p)) (ready p sq d).
Proof.
  intros Hc Hr. pose proof (captured_range p Hc). pose proof Hr as [(Hl & Hlen & _) _].
  unfold ClearPSH. do 2 wp_step. apply wp_ready_flags; [done..| |apply no_psh_idem].
  by apply is_byte_andnot, bytes_ok_get.
Qed.

Definition with_ttl p (ttl : Z) : bytes := <[Z.to_nat ttl_at := ttl]> p.

Lemma ttl_get p ttl k : captured p → get (with_ttl p ttl) k = if k =? ttl_at then ttl else get p k.
Proof.
  intros Hc. pose proof (captured_range p Hc). pose proof ttl_range.
  destruct Hc as (_ & _ & _ & Hl & _). apply get_insert. lia.
Qed.

Lemma captured_ttl p ttl : captured p → 1 <= ttl < 256 →
  captured (with_ttl p ttl) ∧ hdr (with_ttl p ttl) = hdr p
  ∧ off (with_ttl p ttl) = off p ∧ len (with_ttl p ttl) = len p.
Proof.
  intros Hc Ht. destruct (header_stable p (with_ttl p ttl) Hc) as (H1 & H2 & H3).
  { intros k _ _ Hk. rewrite ttl_get by done. case_if; [zlia|done]. }
  assert (len (with_ttl p ttl) = len p) as Hl by apply len_insert.
  split_and!; try done. unfold captured. rewrite H1, H3, Hl.
  destruct Hc as (Hok & _ & H4). split_and!; try apply H4; [|done].
  apply bytes_ok_insert; [done|unfold is_byte; lia].
Qed.

Lemma wp_ready_ttl p sq d l t : captured p → ready p sq d l → 1 <= t < 256 →
  wp (upd l ttl_at t) (ready (with_ttl p t) sq d).
Proof.
  intros Hc [(Hl & Hlen & Hsq & H1 & H2 & H3 & H4) Ht] Htr. pose proof (captured_range p Hc).
  pose proof len_at_range. pose proof ttl_range. pose proof ttl_not_len.
  destruct (captured_ttl p t Hc Htr) as (Hc' & Hh & Ho & Hpl).
  wp_step. split; [unfold draft; rewrite Hh, Ho; split_and!; [|len_lia|lia|lia|..]|].
  - apply bytes_ok_insert; [done|unfold is_byte; lia].
  - intros k Hk. gets. auto.
  - intros k Hk Hn. rewrite ttl_get by done. gets; auto.
  - rewrite ttl_get by done. gets. done.
  - intros k Hk. gets. auto.
  - rewrite len_insert, <- Ht. unfold total. f_equal. apply get16_eq; gets; done.
Qed.

(** ** Finished segments *)

Lemma header_off p l : captured p →
  (∀ k, 0 <= k < off p → k ∉ rewritten (hdr p) → get l k = get p k) →
  hdr l = hdr p ∧ hdr_ok l ∧ off l = off p.
Proof. intros Hc Hg. apply header_stable; auto. Qed.

Lemma wp_ready_fix p sq d l : captured p → ready p sq d l →
  wp (fix_segment l (hdr p)) (seg_of p sq d).
Proof.
  intros Hc [(Hl & Hlen & Hsq & H1 & H2 & H3 & H4) Ht]. pose proof (captured_range p Hc) as Hr.
  pose proof len_at_range. pose proof not_len.
  destruct (header_off p l Hc H2) as (Hh & Hhok & Ho).
  eapply wp_mono; [rewrite <- Hh; apply fix_segment_law; [done|done|lia|exact Ht]|].
  intros r (Hlr & Hokr & Htr & Hg & Hs). rewrite Hh in Hg.
  assert (∀ k, 12 <= k → k ≠ hdr p + 16 → k ≠ hdr p + 17 → get r k = get l k) as Hhi.
  { intros k Hk. apply Hg. by apply fields_high. }
  assert (∀ k, 0 <= k < off p → k ∉ rewritten (hdr p) → get r k = get p k) as Hhdr.
  { intros k Hk Hn. rewrite <- H2 by done. apply not_rewritten in Hn. apply Hg; apply Hn. }
  destruct (header_off p r Hc Hhdr) as (Hhr & Hhokr & Hor).
  assert (total r = len r) as Htot by (unfold total in *; rewrite Htr; lia).
  split_and!; try done.
  - unfold view, seq_no. rewrite Hhr, Hor, Htot. f_equal.
    + apply get32_of_bytes32; [done|]. intros k Hk. rewrite Hhi by lia. auto.
    + apply list_ext_get; [len_simp; lia|]. intros k Hk. rewrite len_sub in Hk by lia.
      rewrite get_sub by lia. zcases. rewrite Hhi by lia. apply H4. lia.
  - lia.
  - rewrite Hhi by lia. done.
Qed.

Lemma seg_of_len p sq d f : seg_of p sq d f → bytes_ok f ∧ len f = off p + len d ∧ total f = len f.
Proof. intros ((Hok & Ht & _) & _ & Hl & _). done. Qed.

Lemma seg_of_trans p q s1 d1 s2 d2 f : captured p → seg_of p s1 d1 q → seg_of q s2 d2 f →
  seg_of p s2 d2 f.
Proof.
  intros Hc (Hv1 & Hw1 & Hl1 & Hh1 & Ho1 & Hs1 & Hp1) (Hv2 & Hw2 & Hl2 & Hh2 & Ho2 & Hs2 & Hp2).
  destruct (header_off p q Hc Hs1) as (_ & _ & Hof). rewrite Hof, Hh1 in *.
  split_and!; try done; try congruence.
  intros k Hk Hn. rewrite Hs2 by done. by apply Hs1.
Qed.

(** Rewriting the flags up to PSH, and the checksum. *)
Lemma wp_flags p sq d f x : captured p → seg_of p sq d f → is_byte x →
  no_psh x = no_psh (get f (hdr p + 13)) →
  wp (upd f (hdr p + 13) x) (λ f, wp (fix_tcp f) (seg_of p sq d)).
Proof.
  intros Hc Hf Hx Hnx. pose proof (captured_range p Hc) as Hr. pose proof len_at_range.
  destruct Hf as ((Hok & Ht & Hs) & Hv & Hlen & Hh & Hhok & Hsame & Hp).
  destruct (header_off p f Hc Hsame) as (_ & _ & Hof).
  wp_step. set (l := <[_ := x]> f).
  assert (∀ k, k ≠ hdr p + 13 → get l k = get f k) as Hg.
  { intros k Hk. unfold l. rewrite get_insert by lia. zcases. done. }
  assert (get l (hdr p + 13) = x) as Hgx by (unfold l; rewrite get_insert by lia; zcases; done).
  assert (len l = len f) as Hll by apply len_insert.
  assert (bytes_ok l) as Hokl by (apply bytes_ok_insert; done). clearbody l.
  eapply wp_mono; [apply (fix_tcp_law f l); try done; try lia; by rewrite Hh|].
  intros r (Hlr & Hokr & Hgr & Hsr). rewrite Hh in Hgr.
  assert (∀ k, k ≠ hdr p + 13 → k ≠ hdr p + 16 → k ≠ hdr p + 17 → get r k = get f k) as Hgf.
  { intros k Hk1 Hk2 Hk3. rewrite Hgr by done. by apply Hg. }
  assert (∀ k, 0 <= k < off p → k ∉ rewritten (hdr p) → get r k = get p k) as Hhdr.
  { intros k Hk Hn. rewrite <- Hsame by done. apply not_rewritten in Hn. apply Hgf; apply Hn. }
  destruct (header_off p r Hc Hhdr) as (Hhr & Hhokr & Hor).
  assert (total r = len r) as Htot.
  { unfold total in *. rewrite Hlr, Hll, <- Ht. f_equal. apply get16_eq; apply Hgf; lia. }
  split_and!; try done.
  - rewrite <- Hv. unfold view, seq_no. rewrite Hhr, Hor, Hh, Hof, Htot, Ht. f_equal.
    + apply get32_eq. intros k Hk. apply Hgf; lia.
    + apply list_ext_get; [len_simp; lia|]. intros k Hk. rewrite len_sub in Hk by lia.
      rewrite !get_sub by lia. zcases. apply Hgf; lia.
  - lia.
  - rewrite Hgr, Hgx by lia. by rewrite Hnx.
Qed.

Lemma wp_flag_op p sq d f (op : bytes → Z → go bytes) :
  captured p → seg_of p sq d f → op = ClearPSH ∨ op = SetPSH →
  wp (let! f := op f (hdr p) in fix_tcp f) (seg_of p sq d).
Proof.
  intros Hc Hf Hop. pose proof (captured_range p Hc) as Hr. destruct (seg_of_len _ _ _ _ Hf) as (Hok & Hl & _).
  pose proof (bytes_ok_get f (hdr p + 13) Hok).
  destruct Hop as [-> | ->]; unfold ClearPSH, SetPSH; do 3 wp_step;
    (apply wp_flags; [done|done|..]).
  - by apply is_byte_andnot.
  - apply no_psh_idem.
  - by apply is_byte_lor.
  - apply no_psh_or.
Qed.

(** For the headers of [p], read from [p] or from another packet like it. *)
Definition fits (pi : PacketInfo) p : Prop :=
  PayloadStart pi = off p ∧ IPHdrLen pi = hdr p ∧ Seq0 pi = seq_no p.

Lemma wp_BuildSegment_fits p pi d so ido :
  captured p → fits pi p → bytes_ok d → off p + len d <= 65535 + len_base →
  wp (BuildSegment p pi d so ido) (seg_of p (u32 (seq_no p + so)) d).
Proof.
  intros Hc (E1 & E2 & E3) Hd Hsz. unfold BuildSegment. cbv zeta. rewrite E1, E2, E3.
  wp_step. eapply wp_mono; [by apply wp_new_segment|]. intros l1 H1.
  wp_step. eapply wp_mono; [by apply (wp_draft_seq _ _ _ _ _ Hc H1), u32_range|]. intros l2 H2.
  wp_step. eapply wp_mono; [by apply (wp_draft_id _ _ _ _ _ Hc H2)|]. intros l3 H3.
  wp_step. eapply wp_mono; [apply (wp_draft_len _ _ _ _ _ Hc H3); destruct H3 as (_ & Hl3 & _); lia|].
  intros l4 H4. by apply wp_ready_fix.
Qed.

Lemma wp_BuildSegment p d so ido :
  captured p → bytes_ok d → off p + len d <= 65535 + len_base →
  wp (BuildSegment p (info p) d so ido) (seg_of p (u32 (seq_no p + so)) d).
Proof. intros Hc. by apply wp_BuildSegment_fits. Qed.

(** ** Decoys *)

End laws.

Lemma lxor_255 (x : Z) : is_byte x → Z.lxor x 255 = 255 - x.
Proof.
  unfold is_byte. intros Hx. change 255 with (Z.ones 8) at 1.
  rewrite <- (Z.mod_small x 256) at 1 by lia. change 256 with (2 ^ 8).
  rewrite <- Z.land_ones by lia.
  assert (Z.lxor (Z.land x (Z.ones 8)) (Z.ones 8) = Z.land (Z.lnot x) (Z.ones 8)) as ->.
  { apply Z.bits_inj'. intros n Hn. rewrite Z.lxor_spec, !Z.land_spec, Z.lnot_spec by lia.
    by destruct (Z.testbit x n), (Z.testbit (Z.ones 8) n). }
  rewrite Z.land_ones by lia. unfold Z.lnot. symmetry. apply (Z.mod_unique _ _ (-1)); lia.
Qed.

Lemma corrupt_splice (g : bytes) (h : Z) :
  bytes_ok g → 0 <= h → h + 18 <= len g →
  wp (corruptTCPChecksum g h) (λ f, f = splice g (h + 16) (bytes16 (65535 - get16 g (h + 16)))).
Proof.
  intros Hok Hh Hl. unfold corruptTCPChecksum. do 6 wp_step. apply wp_upd; [len_lia|].
  rewrite get_insert by lia. zcases.
  pose proof (bytes_ok_get g (h + 16) Hok) as H1. pose proof (bytes_ok_get g (h + 17) Hok) as H2.
  rewrite !lxor_255 by done. replace (h + 17) with (h + 16 + 1) in * by lia.
  rewrite insert2_splice by lia. f_equal. rewrite get16_val by done. unfold is_byte in *.
  unfold bytes16, u8. rewrite Z.shiftr_div_pow2 by lia. change (2 ^ 8) with 256.
  f_equal; [|f_equal]; Z.div_mod_to_equations; lia.
Qed.

Lemma wp_dynamicTTL (p : bytes) (v6 : bool) (configTTL : Z) (i := if v6 then 7 else 8) :
  bytes_ok p → is_byte configTTL → 8 < len p →
  wp (dynamicTTL p v6 configTTL) (λ ttl,
    1 <= ttl < 256 ∧ (1 < get p i → ttl < get p i)
    ∧ (0 < configTTL < get p i → ttl = configTTL)
    ∧ (configTTL = 0 → 5 < get p i → ttl = 5)).
Proof.
  intros Hok Hc Hl. unfold dynamicTTL, is_byte in *. pose proof (bytes_ok_get p i Hok) as Hb.
  unfold is_byte in Hb. wp_step.
  assert (wp (if v6 then idx p 7 else idx p 8) (λ x, x = get p i)) as Hw.
  { unfold i. destruct v6; by wp_step. }
  eapply wp_mono; [exact Hw|]. intros x ->. apply wp_ret.
  assert (1 < get p i → u8 (get p i - 1) = get p i - 1) as Hu.
  { intros. apply u8_small. unfold is_byte. lia. }
  destruct (configTTL =? 0) eqn:E0;
    (match goal with |- context [(get p i <=? ?t) && _] => destruct ((get p i <=? t) && (1 <? get p i)) eqn:E1 end);
    bprop; rewrite ?Hu by lia; case_if; bprop; split_and!; try lia.
Qed.

Lemma wp_fill_pattern (fuel : nat) (d pattern : bytes) (at_ n i : Z) :
  bytes_ok d → bytes_ok pattern → 0 < len pattern → 0 <= at_ → 0 <= i → i <= n →
  at_ + n <= len d → n - i < Z.of_nat fuel →
  wp (fill_pattern fuel d pattern at_ n i) (λ d', len d' = len d ∧ bytes_ok d'
    ∧ ∀ k, get d' k = if (at_ + i <=? k) && (k <? at_ + n)
                      then get pattern ((k - at_) mod len pattern) else get d k).
Proof.
  revert d i. induction fuel as [|f IH]; intros d i Hd Hp Hlp Ha Hi Hin Hn Hf; [lia|].
  cbn [fill_pattern]. destruct (i <? n) eqn:E.
  - pose proof (Z.mod_pos_bound i (len pattern) Hlp). do 4 wp_step.
    eapply wp_mono; [apply IH; rewrite ?len_insert; try done; try zlia|].
    { apply bytes_ok_insert; [done|by apply bytes_ok_get]. }
    intros d' (Hl & Hok & Hg). rewrite len_insert in Hl. split_and!; [done|done|].
    intros k. rewrite Hg, get_insert by zlia. zcases; try done. f_equal.
    assert (k = at_ + i) as -> by zlia. f_equal. lia.
  - apply wp_ret. split_and!; [done|done|]. intros k. zcases. done.
Qed.

Lemma wp_fill_seven (fuel : nat) (d : bytes) (at_ n i : Z) :
  bytes_ok d → 0 <= at_ → 0 <= i → i <= n → at_ + n <= len d → n - i < Z.of_nat fuel →
  wp (fill_seven fuel d at_ n i) (λ d', len d' = len d ∧ bytes_ok d'
    ∧ ∀ k, k < at_ + i ∨ at_ + n <= k → get d' k = get d k).
Proof.
  revert d i. induction fuel as [|f IH]; intros d i Hd Ha Hi Hin Hn Hf; [lia|].
  cbn [fill_seven]. destruct (i <? n) eqn:E.
  - do 2 wp_step. eapply wp_mono; [apply IH; rewrite ?len_insert; try done; try zlia|].
    { apply bytes_ok_insert; [done|apply is_byte_u8]. }
    intros d' (Hl & Hok & Hg). rewrite len_insert in Hl. split_and!; [done|done|].
    intros k Hk. rewrite Hg, get_insert by zlia. zcases. done.
  - by apply wp_ret.
Qed.

Lemma wp_fake_payload d start n pattern :
  bytes_ok d → bytes_ok pattern → 0 <= start → 0 <= n → start + n <= len d →
  wp (fake_payload d start n pattern) (λ d', len d' = len d ∧ bytes_ok d'
    ∧ ∀ k, k < start → get d' k = get d k).
Proof.
  intros Hd Hp Hs Hn Hl. unfold fake_payload. destruct (len pattern =? 0) eqn:E.
  - eapply wp_mono; [apply wp_fill_seven; try done; lia|]. intros d' (H1 & H2 & H3).
    split_and!; try done. intros k Hk. apply H3. lia.
  - eapply wp_mono; [apply wp_fill_pattern; try done; zlia|]. intros d' (H1 & H2 & H3).
    split_and!; try done. intros k Hk. rewrite H3. zcases. done.
Qed.

Section fakes.
Context {F : Family} {R : Receiver}.
Implicit Types (p l f d : bytes) (sq : Z).

Lemma wp_BuildFakeOverlapSegment p n so ido pattern ttl :
  captured p → bytes_ok pattern → is_byte ttl → off p + n <= 65535 + len_base →
  wp (BuildFakeOverlapSegment p (info p) n so ido pattern ttl) (λ o,
    match o with Some f => is_fake p f | None => n <= 0 end).
Proof.
  intros Hc Hp Httl Hsz. pose proof (captured_range p Hc) as Hr. pose proof Hc as (Hok & _ & _ & Hl & _).
  unfold BuildFakeOverlapSegment. cbv zeta. cbn [PayloadStart IPHdrLen Seq0 ID0 info].
  wp_step; [apply wp_ret; zlia|]. do 6 wp_step. wp_step.
  eapply wp_mono; [apply wp_fake_payload; [auto 9 with b4|done|lia|zlia|len_lia]|].
  intros d (Hld & Hokd & Hgd). revert Hld. len_simp; [|zlia..]. intros Hld.
  assert (draft p (seq_no p) (sub d (off p) (len d)) d) as H0.
  { apply draft_init; [done|done|len_simp; zlia|..]; intros k Hk.
    - rewrite Hgd by lia. rewrite take_ge_len by len_lia. gets; first [f_equal; lia|idtac].
    - rewrite len_sub in Hk by zlia. gets. done. }
  clear Hgd.
  wp_step. eapply wp_mono; [by apply (wp_draft_seq _ _ _ _ _ Hc H0), u32_range|]. intros l2 H2.
  wp_step. eapply wp_mono; [by apply (wp_draft_id _ _ _ _ _ Hc H2)|]. intros l3 H3.
  wp_step. eapply wp_mono; [apply (wp_draft_len _ _ _ _ _ Hc H3); [|lia]|].
  { destruct H3 as (_ & -> & _). len_simp; zlia. }
  intros l4 H4. wp_step.
  eapply wp_mono; [apply (wp_dynamicTTL p is_v6 ttl); [done|done|lia]|].
  intros t (Ht1 & Ht2 & _). wp_step.
  eapply wp_mono; [by apply (wp_ready_ttl _ _ _ _ t Hc H4)|]. intros l5 H5.
  destruct (captured_ttl p t Hc Ht1) as (Hc' & Hh & Ho & Hpl).
  wp_step. rewrite <- Hh.
  eapply wp_mono; [by apply (wp_ready_ClearPSH _ _ _ _ Hc' H5)|]. intros l6 H6.
  wp_step. eapply wp_mono; [by apply (wp_ready_fix _ _ _ _ Hc' H6)|]. intros g Hg.
  destruct (seg_of_len _ _ _ _ Hg) as (Hokg & Hlg & _).
  wp_step. eapply wp_mono; [apply corrupt_splice; [done|lia|lia]|].
  intros f ->. apply wp_ret. rewrite Hh. eexists t, _, _, g. split_and!; try done; try lia.
  destruct ttl_out as [_ ->]. done.
Qed.
End fakes.

#[export] Hint Resolve payload_ok : b4.

(** ** Streams *)

Section streams.
Context {F : Family} {R : Receiver}.
Implicit Types (p l f d : bytes) (sq : Z).

Lemma seg_of_is_seg p sq d f : seg_of p sq d f → is_seg p f ∧ view f = (sq, d).
Proof. intros H. pose proof H as (_ & Hv & _). unfold is_seg. rewrite Hv. done. Qed.

Lemma carries_perm p fs gs : fs ≡ₚ gs → carries p fs → carries p gs.
Proof.
  intros Hp [(ws & Hw & Ho & Hc) Hf]. split; [|by rewrite <- Hp].
  exists ws. split; [|done]. rewrite Hw. by apply Permutation_map.
Qed.

Lemma carries_self p : bytes_ok p → total p = len p → carries p [p].
Proof.
  intros Hok Ht. split; [|constructor; [by left|constructor]]. exists [view p]. split; [done|].
  unfold view, payload_of. rewrite Ht. cbn. rewrite app_nil_r. split; [split; [|done]|done].
  symmetry. by apply u32_seq_no.
Qed.

Lemma cut_le p a c fs : cut p a c fs → a <= c.
Proof. induction 1; lia. Qed.

Lemma cut_views p a c fs :
  cut p a c fs → 0 <= a → c <= len (payload_of p) →
  in_order (seq_no p + a) (map view fs) ∧ concat (map snd (map view fs)) = sub (payload_of p) a c.
Proof.
  induction 1 as [a|a b c f fs Hab Hf Hcut IH]; intros Ha Hc.
  - cbn. by rewrite sub_nil.
  - pose proof (cut_le _ _ _ _ Hcut). destruct (seg_of_is_seg _ _ _ _ Hf) as [_ Hv].
    destruct IH as [IH1 IH2]; [lia|done|]. cbn [map in_order concat]. rewrite Hv. cbn [fst snd].
    rewrite IH2. split.
    + split; [done|]. rewrite len_sub by lia. by replace (seq_no p + a + (b - a)) with (seq_no p + b) by lia.
    + symmetry. apply sub_app; lia.
Qed.

Lemma cut_carries p fs gs :
  cut p 0 (len (payload_of p)) fs → fs ≡ₚ gs → carries p gs.
Proof.
  intros Hcut Hp. apply (carries_perm _ _ _ Hp). destruct (cut_views _ _ _ _ Hcut) as [H1 H2]; [lia|done|].
  rewrite Z.add_0_r in H1. rewrite sub_full in H2. split.
  - exists (map view fs). done.
  - clear -Hcut. induction Hcut; constructor; [|done]. right. by eapply seg_of_is_seg.
Qed.

(** The same segment up to PSH. *)
Lemma wp_flag_is_seg p f (op : bytes → Z → go bytes) :
  captured p → is_seg p f → op = ClearPSH ∨ op = SetPSH →
  wp (let! f := op f (hdr p) in fix_tcp f) (λ g, is_seg p g ∧ view g = view f).
Proof.
  intros Hc Hf Hop. pose proof (wp_flag_op _ _ _ _ op Hc Hf Hop) as Hw.
  eapply wp_mono; [exact Hw|]. intros g Hg. destruct (seg_of_is_seg _ _ _ _ Hg) as [H1 H2].
  split; [done|]. rewrite H2. by destruct (view f).
Qed.

Lemma wp_clear_loop p segs i m mx acc :
  captured p → Forall (λ s, is_seg p (Data s)) segs → length acc = i →
  (m < i + length segs ∨ (i = 0 ∧ m = 0))%nat →
  wp (clear_loop segs (hdr p) fix_tcp i m mx acc) (λ '(segs', m'),
    ∃ ss, segs' = acc ++ ss ∧ Forall2 (same_seg p) segs ss ∧ (m' = m ∨ m' < i + length segs)%nat).
Proof.
  intros Hc. revert i m mx acc. induction segs as [|s segs IH]; intros i m mx acc Hs Hi Hm; cbn [clear_loop].
  { apply wp_ret. exists []. rewrite app_nil_r. split_and!; [done|constructor|by left]. }
  apply Forall_cons_1 in Hs as [Hs Hss]. apply wp_bind2.
  eapply wp_mono; [apply (wp_flag_is_seg p (Data s) ClearPSH); auto|]. intros g [Hg Hv].
  cbn [length] in Hm. cbv zeta. case_if;
    (eapply wp_mono; [apply IH; [done|rewrite length_app; cbn; lia|cbn; lia]|]);
    intros [segs' m'] (ss & -> & HF & Hm'); exists ({| Data := g; Seq := Seq s |} :: ss);
    (split; [by rewrite <- app_assoc|]); (split; [constructor; [done|done]|]); cbn [length] in *; lia.
Qed.

Lemma wp_SetMaxSeqPSH p segs :
  captured p → Forall (λ s, is_seg p (Data s)) segs → segs ≠ [] →
  wp (SetMaxSeqPSH segs (hdr p) fix_tcp) (λ segs', Forall2 (same_seg p) segs segs').
Proof.
  intros Hc Hs Hne. unfold SetMaxSeqPSH. destruct segs as [|s0 segs]; [done|].
  wp_step. eapply wp_mono; [apply (wp_clear_loop p); [done|done|done|right; done]|].
  intros [segs' m] (ss & -> & HF & Hm). cbn [app].
  assert (m < length ss)%nat as Hlt.
  { apply Forall2_length in HF. cbn [length] in *. lia. }
  destruct (ss !! m) as [s|] eqn:Hsm; [|by apply lookup_ge_None in Hsm; lia].
  destruct (Forall2_lookup_r _ _ _ _ _ HF Hsm) as (s1 & Hs1 & Hg1 & Hv1 & Hq1).
  apply wp_bind2. eapply wp_mono; [apply (wp_flag_is_seg p (Data s) SetPSH); auto|]. intros g [Hg Hv].
  apply wp_ret. apply Forall2_same_length_lookup_2.
  - rewrite length_insert. by eapply Forall2_length.
  - intros k x y Hx Hy. apply list_lookup_insert_Some in Hy as [(-> & <- & _)|[_ Hy]].
    + rewrite Hs1 in Hx. injection Hx as <-. split_and!; cbn; [done|by rewrite Hv|done].
    + by apply (Forall2_lookup_lr _ _ _ _ _ _ HF Hx Hy).
Qed.

Lemma same_seg_views p ss ts : Forall2 (same_seg p) ss ts →
  map view (map Data ts) = map view (map Data ss) ∧ Forall (λ s, is_seg p (Data s)) ts.
Proof.
  induction 1 as [|s t ss ts (H1 & H2 & H3) HF [IH1 IH2]]; cbn; [done|].
  split; [by rewrite H2, IH1|by constructor].
Qed.

End streams.
