(* ===== verification/Families.v ===== *)
(** * IPv4 and IPv6 segments

    The two instances of Segment.v's [Family] and [Receiver]:
    src/src/nfq/common.go with the checksums of src/src/sock/fake_ipv4.go, and
    common_ipv6.go with those of fake_ipv6.go.  The IPv6 routines write the TCP
    checksum at byte 56, so the laws hold of packets whose TCP header directly
    follows the IPv6 header, although [ExtractPacketInfoV6] also accepts extension
    headers. *)

From Stdlib Require Import ZArith Lia Ascii.
From stdpp Require Import base list numbers sets strings.
From S2P Require Import Prelude Checksum Fragment Split Segment.

Local Open Scope Z_scope.

(** ** Reading the headers *)

Definition ExtractPacketInfoV4 (packet : bytes) : go (option PacketInfo) :=
  if len packet <? 40 then Ret None else
  let! b0 := idx packet 0 in
  let ipHdrLen := u8 (Z.land b0 15 * 4) in
  if len packet <? ipHdrLen + 20 then Ret None else
  let! off := idx packet (ipHdrLen + 12) in
  let tcpHdrLen := u8 (Z.shiftr off 4 * 4) in
  let payloadStart := ipHdrLen + tcpHdrLen in
  if len packet <? payloadStart then Ret None else
  let payloadLen := len packet - payloadStart in
  let! payload := slice_from packet payloadStart in
  let! seq0 := be32 packet (ipHdrLen + 4) in
  let! id0 := be16 packet 4 in
  Ret (Some {| IPHdrLen := ipHdrLen; TCPHdrLen := tcpHdrLen; PayloadStart := payloadStart;
               PayloadLen := payloadLen; Payload := payload; Seq0 := seq0; ID0 := id0;
               IsIPv6 := false |}).

(** The walk over the IPv6 extension headers; [None] when the packet is cut or
    not TCP, otherwise the offset of the TCP header. *)
Fixpoint next_header_loop (fuel : nat) (packet : bytes) (nextHeader offset : Z) : go (option Z) :=
  match fuel with
  | O => Spin
  | S f =>
      if (nextHeader =? 0) || (nextHeader =? 43) || (nextHeader =? 60)
      then
        if len packet <? offset + 2 then Ret None else
        let! nh := idx packet offset in
        let! hl := idx packet (offset + 1) in
        next_header_loop f packet nh (offset + (hl * 8 + 8))
      else if nextHeader =? 44
      then
        if len packet <? offset + 8 then Ret None else
        let! nh := idx packet offset in
        next_header_loop f packet nh (offset + 8)
      else if nextHeader =? 6 then Ret (Some offset)
      else Ret None
  end.

Definition ExtractPacketInfoV6 (packet : bytes) : go (option PacketInfo) :=
  if len packet <? 60 then Ret None else
  let! nextHeader := idx packet 6 in
  let! off := next_header_loop (S (length packet)) packet nextHeader 40 in
  match off with
  | None => Ret None
  | Some offset =>
      if len packet <? offset + 20 then Ret None else
      let! d := idx packet (offset + 12) in
      let tcpHdrLen := u8 (Z.shiftr d 4 * 4) in
      let payloadStart := offset + tcpHdrLen in
      if len packet <? payloadStart then Ret None else
      let payloadLen := len packet - payloadStart in
      let! payload := slice_from packet payloadStart in
      let! seq0 := be32 packet (offset + 4) in
      Ret (Some {| IPHdrLen := offset; TCPHdrLen := tcpHdrLen; PayloadStart := payloadStart;
                   PayloadLen := payloadLen; Payload := payload; Seq0 := seq0; ID0 := 0;
                   IsIPv6 := true |})
  end.

(** The headers as the senders read them that do not call [ExtractPacketInfo]. *)
Definition header_lengthsV4 (packet : bytes) : go (Z * Z) :=
  let! b0 := idx packet 0 in
  let ipHdrLen := u8 (Z.land b0 15 * 4) in
  let! off := idx packet (ipHdrLen + 12) in
  Ret (ipHdrLen, u8 (Z.shiftr off 4 * 4)).
Definition header_lengthsV6 (packet : bytes) : go (Z * Z) :=
  let! off := idx packet (40 + 12) in
  Ret (40, u8 (Z.shiftr off 4 * 4)).

(** The length of the IP header as the option routines of package [sock] read it. *)
Definition ip_header_len (packet : bytes) (isIPv6 : bool) : go Z :=
  if isIPv6 then Ret 40 else let! b0 := idx packet 0 in Ret (u8 (Z.land b0 15 * 4)).

(** ** The two families *)

Definition IPv4 : Family := {|
  is_v6 := false; len_at := 2; len_base := 0; ttl_at := 8;
  set_id seg v := put16 seg 4 v;
  fix_segment seg ipHdrLen :=
    let! seg := on_slice FixIPv4Checksum seg 0 ipHdrLen in FixTCPChecksum seg;
  fix_tcp := FixTCPChecksum;
  headers := header_lengthsV4;
  ExtractPacketInfo := ExtractPacketInfoV4 |}.

Definition IPv6 : Family := {|
  is_v6 := true; len_at := 4; len_base := 40; ttl_at := 7;
  set_id seg v := Ret seg;
  fix_segment seg ipHdrLen := FixTCPChecksumV6 seg;
  fix_tcp := FixTCPChecksumV6;
  headers := header_lengthsV6;
  ExtractPacketInfo := ExtractPacketInfoV6 |}.

Definition BuildSegmentV4 := @BuildSegment IPv4.
Definition BuildSegmentV6 (packet : bytes) (pi : PacketInfo) (payloadSlice : bytes)
  (seqOffset : Z) := @BuildSegment IPv6 packet pi payloadSlice seqOffset 0.
Definition BuildSeqOverlapSegmentV4 := @BuildSeqOverlapSegment IPv4.
Definition BuildSeqOverlapSegmentV6 (packet : bytes) (pi : PacketInfo) (origPayload : bytes)
  (origStartOffset seqovlLen : Z) (pattern : bytes) :=
  @BuildSeqOverlapSegment IPv6 packet pi origPayload origStartOffset seqovlLen pattern 0.
Definition BuildFakeOverlapSegmentV4 := @BuildFakeOverlapSegment IPv4.
Definition BuildFakeOverlapSegmentV6 (packet : bytes) (pi : PacketInfo)
  (payloadLen seqOffset : Z) (fakePattern : bytes) (fakeHopLimit : Z) :=
  @BuildFakeOverlapSegment IPv6 packet pi payloadLen seqOffset 0 fakePattern fakeHopLimit.

(** ** IPv4 *)

(** Both checksums verify. *)
Definition sums4 (p : bytes) : Prop :=
  sum_verifies (wsum (sub p 0 (ihl4 p)))
  ∧ sum_verifies (pseudo_sum4 p 6 (len p - ihl4 p) + wsum (sub p (ihl4 p) (len p))).

Lemma fix4_law l : bytes_ok l → 20 <= ihl4 l → ihl4 l + 20 <= len l → get16 l 2 = len l →
  wp (let! seg := on_slice FixIPv4Checksum l 0 (ihl4 l) in FixTCPChecksum seg) (λ r,
    len r = len l ∧ bytes_ok r ∧ get16 r 2 = get16 l 2
    ∧ (∀ k, k ∉ [2; 3; 4; 5; 10; 11] → k ≠ ihl4 l + 16 → k ≠ ihl4 l + 17 → get r k = get l k)
    ∧ sums4 r).
Proof.
  intros Hl Hh Hlen Htl. destruct (ihl4_range l Hl) as [Hr _]. pose proof (get16_range l 2 Hl).
  wp_step. apply wp_fix_header; [done|lia|lia|lia|]. intros r1 (Hl1 & Hok1 & Hg1) Hs1.
  assert (ihl4 r1 = ihl4 l) as Hih1 by (apply ihl4_eq, Hg1; lia).
  assert (get16 r1 2 = len l) as Ht1 by (rewrite <- Htl; apply get16_eq; apply Hg1; lia).
  eapply wp_mono; [apply FixTCPChecksum_spec; rewrite ?Hih1, ?Ht1; try done; lia|].
  intros r2 ((Hl2 & Hok2 & Hg2) & Hs2). rewrite Hih1, Ht1 in *.
  assert (∀ k, k ≠ 10 ∧ k ≠ 11 ∧ k ≠ ihl4 l + 16 ∧ k ≠ ihl4 l + 17 → get r2 k = get l k) as Hg.
  { intros k Hk. rewrite Hg2 by lia. apply Hg1. lia. }
  assert (ihl4 r2 = ihl4 l) as Hih2 by (apply ihl4_eq, Hg; lia).
  split_and!; [lia|done|apply get16_eq; apply Hg; lia| |].
  - intros k Hk Hk1 Hk2. apply Hg. rewrite !not_elem_of_cons in Hk. tauto.
  - unfold sums4. rewrite Hih2. split.
    + replace (sub r2 0 (ihl4 l)) with (sub r1 0 (ihl4 l)); [done|].
      apply list_ext_get; [len_simp; lia|]. intros k Hk. rewrite len_sub in Hk by lia.
      rewrite !get_sub by lia. zcases. symmetry. apply Hg2. lia.
    + rewrite Hl2, Hl1. replace (ihl4 l + (len l - ihl4 l)) with (len l) in Hs2 by lia. done.
Qed.

Lemma fix_tcp4_law f l : bytes_ok f → bytes_ok l → 20 <= ihl4 f → ihl4 f + 20 <= len f →
  get16 f 2 = len f → sums4 f → len l = len f →
  (∀ k, k ≠ ihl4 f + 13 → get l k = get f k) →
  wp (FixTCPChecksum l) (λ r, len r = len l ∧ bytes_ok r
    ∧ (∀ k, k ≠ ihl4 f + 16 → k ≠ ihl4 f + 17 → get r k = get l k) ∧ sums4 r).
Proof.
  intros Hf Hl Hh Hlen Htl [Hs1 Hs2] Hll Hg. destruct (ihl4_range f Hf) as [Hr _].
  pose proof (get16_range f 2 Hf).
  assert (ihl4 l = ihl4 f) as Hihl by (apply ihl4_eq, Hg; lia).
  assert (get16 l 2 = len f) as Htl2 by (rewrite <- Htl; apply get16_eq; apply Hg; lia).
  eapply wp_mono; [apply FixTCPChecksum_spec; rewrite ?Hihl, ?Htl2; try done; lia|].
  intros r ((Hlr & Hokr & Hgr) & Hsr). rewrite Hihl, Htl2 in *.
  assert (ihl4 r = ihl4 f) as Hihr by (rewrite <- Hihl; apply ihl4_eq, Hgr; lia).
  split_and!; [done|done|intros; apply Hgr; lia|]. unfold sums4. rewrite Hihr. split.
  - replace (sub r 0 (ihl4 f)) with (sub f 0 (ihl4 f)); [done|].
    apply list_ext_get; [len_simp; lia|]. intros k Hk. rewrite len_sub in Hk by lia.
    rewrite !get_sub by lia. zcases. rewrite Hgr by lia. symmetry. apply Hg. lia.
  - rewrite Hlr, Hll. replace (ihl4 f + (len f - ihl4 f)) with (len f) in Hsr by lia. done.
Qed.

#[export, refine] Instance Receiver4 : @Receiver IPv4 := {|
  hdr := ihl4; hdr_ok p := 20 <= ihl4 p; sums_ok := sums4; ip_fields := [2; 3; 4; 5; 10; 11] |}.
Proof.
  - cbn. split; set_solver.
  - split; set_solver.
  - intros k. rewrite !elem_of_cons, elem_of_nil. lia.
  - cbn. split; [set_solver|done].
  - intros p Hok Hh. destruct (ihl4_range p Hok). cbn. lia.
  - cbn. intros p q Hh Hg. assert (ihl4 q = ihl4 p) as ->; [|done]. apply ihl4_eq, Hg; [lia|set_solver|lia].
  - cbn. intros l v Hl Hlen. wp_step. split_and!; [len_lia|auto with b4| |].
    + intros k H1 H2. gets. done.
    + apply get16_eq; gets; done.
  - cbn. intros l Hl Hh Hlen Ht. apply fix4_law; [done..|lia].
  - cbn. intros f l Hf Hl Hh Hlen Ht. apply fix_tcp4_law; [done..|lia].
Defined.

Abbreviation captured4 := (@captured IPv4 Receiver4).
Abbreviation off4 := (@off IPv4 Receiver4).

Lemma u8_off4 p : captured4 p → u8 (Z.shiftr (get p (ihl4 p + 12)) 4 * 4) = off4 p - ihl4 p.
Proof.
  intros (Hok & _). pose proof (nibble_range _ (bytes_ok_get p (ihl4 p + 12) Hok)).
  unfold off. cbn. rewrite u8_small by (unfold is_byte; lia). lia.
Qed.

#[export] Instance Reader4 : @Reader IPv4 _.
Proof.
  split; intros p Hc; pose proof (captured_range p Hc) as Hr; pose proof (u8_off4 p Hc) as Ht;
    destruct Hc as (Hok & Hh & Ho & Hl & Hsz); cbn in *; apply wp_eq.
  - unfold header_lengthsV4. do 2 wp_step. rewrite u8_ihl4 by done. do 2 wp_step. apply wp_ret. by rewrite Ht.
  - unfold ExtractPacketInfoV4. wp_step; [zlia|]. do 2 wp_step. cbv zeta. rewrite u8_ihl4 by done. wp_step; [zlia|].
    do 2 wp_step. rewrite Ht. replace (ihl4 p + (off4 p - ihl4 p)) with (off4 p) by lia.
    wp_step; [zlia|]. do 6 wp_step. by apply wp_ret.
Qed.

(** ** IPv6 *)

(** The TCP checksum verifies (an IPv6 header has none). *)
Definition sums6 (p : bytes) : Prop :=
  sum_verifies (pseudo_sum6 p 6 (len p - 40) + wsum (sub p 40 (len p))).

Lemma fix6_law l : bytes_ok l → 60 <= len l → get16 l 4 + 40 = len l →
  wp (FixTCPChecksumV6 l) (λ r, len r = len l ∧ bytes_ok r
    ∧ (∀ k, k ≠ 56 → k ≠ 57 → get r k = get l k) ∧ sums6 r).
Proof.
  intros Hl Hlen Ht. eapply wp_mono; [apply FixTCPChecksumV6_spec; [done|lia|lia]|].
  intros r ((Hlr & Hokr & Hg) & Hs). split_and!; [done|done|intros; apply Hg; lia|].
  unfold sums6. rewrite Hlr. replace (40 + get16 l 4) with (len l) in Hs by lia.
  by replace (len l - 40) with (get16 l 4) by lia.
Qed.

#[export, refine] Instance Receiver6 : @Receiver IPv6 := {|
  hdr _ := 40; hdr_ok p := get p 6 = 6; sums_ok := sums6; ip_fields := [4; 5] |}.
Proof.
  - cbn. split; set_solver.
  - split; set_solver.
  - intros k. rewrite !elem_of_cons, elem_of_nil. lia.
  - cbn. split; [set_solver|done].
  - cbn. lia.
  - intros p q Hh Hg. split; [done|]. etransitivity; [apply (Hg 6); [lia|cbn; set_solver|cbn; lia]|exact Hh].
  - cbn. intros l v Hl Hlen. by apply wp_ret.
  - cbn. intros l Hl Hh Hlen Ht. eapply wp_mono; [apply fix6_law; [done|lia|lia]|].
    intros r (H1 & H2 & H3 & H4). split_and!; try done; [apply get16_eq; apply H3; lia|].
    intros k _. apply H3.
  - cbn. intros f l Hf Hl Hh Hlen Ht Hs Hll Hg.
    assert (get16 l 4 = get16 f 4) as He by (apply get16_eq; apply Hg; lia).
    apply fix6_law; [done|lia|lia].
Defined.

Abbreviation captured6 := (@captured IPv6 Receiver6).
Abbreviation off6 := (@off IPv6 Receiver6).

Lemma u8_off6 p : captured6 p → u8 (Z.shiftr (get p (40 + 12)) 4 * 4) = off6 p - 40.
Proof.
  intros (Hok & _). pose proof (nibble_range _ (bytes_ok_get p (40 + 12) Hok)).
  unfold off. cbn. rewrite u8_small by (unfold is_byte; lia). lia.
Qed.

#[export] Instance Reader6 : @Reader IPv6 _.
Proof.
  split; intros p Hc; pose proof (captured_range p Hc) as Hr; pose proof (u8_off6 p Hc) as Ht;
    destruct Hc as (Hok & Hh & Ho & Hl & Hsz); cbn in *; apply wp_eq.
  - unfold header_lengthsV6. do 2 wp_step. apply wp_ret. by rewrite Ht.
  - unfold ExtractPacketInfoV6. wp_step; [zlia|]. do 2 wp_step. cbv zeta. change (get p 6 = 6) in Hh. rewrite Hh.
    cbn [next_header_loop Z.eqb Pos.eqb orb]. wp_step. apply wp_ret. wp_step; [zlia|]. do 2 wp_step.
    rewrite Ht. replace (40 + (off6 p - 40)) with (off6 p) by lia.
    wp_step; [zlia|]. do 4 wp_step. by apply wp_ret.
Qed.

(** ** Decoys at the receiver *)

(** The TCP checksum of [f] verifies at a receiver. *)
Definition tcp_ok4 (f : bytes) : Prop :=
  sum_verifies (pseudo_sum4 f 6 (len f - ihl4 f) + wsum (sub f (ihl4 f) (len f))).

(** Another value in the checksum field verifies only if it is equal in one's
    complement. *)
Lemma tcp_ok4_put (g : bytes) (v : Z) (h := ihl4 g) (c := get16 g (h + 16)) :
  @valid IPv4 _ g → 20 <= h → h + 18 <= len g → 0 <= v < 65536 →
  (tcp_ok4 (splice g (h + 16) (bytes16 v)) ↔ (v - c) mod 65535 = 0).
Proof.
  intros (Hok & _ & _ & Hs) Hh Hl Hv. destruct (ihl4_range g Hok) as [Hr Hev].
  pose proof (get16_range g (h + 16) Hok) as Hc. fold c in Hc.
  assert (g = splice g (h + 16) (bytes16 c)) as Hg.
  { apply list_ext_get; [len_simp; lia|]. intros k Hk.
    pose proof (bytes16_get16 g (h + 16) Hok) as Hb. fold c in Hb. rewrite get_splice by (len_simp; lia).
    len_simp. case_if; [|done]. rewrite Hb.
    assert (k = h + 16 ∨ k = h + 17) as [->| ->] by zlia.
    - by rewrite Z.sub_diag.
    - replace (h + 17 - (h + 16)) with 1 by lia. cbn. f_equal. lia. }
  unfold tcp_ok4. set (f := splice g (h + 16) (bytes16 v)).
  assert (ihl4 f = h) as Hih.
  { apply ihl4_eq. unfold f. rewrite get_splice by (len_simp; lia). len_simp. zcases. done. }
  assert (len f = len g) as Hlf by (unfold f; len_simp; lia). rewrite Hih, Hlf.
  assert (pseudo_sum4 f 6 (len g - h) = pseudo_sum4 g 6 (len g - h)) as Hps.
  { unfold pseudo_sum4, f. do 2 f_equal. rewrite sub_splice_out; [done|len_simp; lia..]. }
  pose proof (wsum_field g (h + 16) v h (len g)) as Hwf. fold f in Hwf.
  pose proof (wsum_field g (h + 16) c h (len g)) as Hwg. rewrite <- Hg in Hwg.
  assert ((h + 16 - h) mod 2 = 0) as He by (replace (h + 16 - h) with 16 by lia; done).
  rewrite Hps, Hwf by (done || lia). fold h in Hs. rewrite Hwg in Hs by (done || lia).
  set (B := wsum (sub (splice g (h + 16) (bytes16 0)) h (len g))) in *.
  assert (0 <= B) as HB.
  { unfold B. apply wsum_bound. auto 6 with b4. }
  assert (0 < pseudo_sum4 g 6 (len g - h)) as HP.
  { unfold pseudo_sum4. pose proof (wsum_bound (sub g 12 20) ltac:(auto with b4)). lia. }
  unfold sum_verifies in *. destruct Hs as [_ Hs]. clearbody B c.
  revert HP Hs. generalize (pseudo_sum4 g 6 (len g - h)). intros P HP Hs. split.
  - intros [_ Hm]. Z.div_mod_to_equations. lia.
  - intros Hc0. split; Z.div_mod_to_equations; lia.
Qed.

(** C33: Inverting the TCP checksum of a valid packet makes it invalid, unless the
    stored checksum then is 0 or 0xffff: the two are equal in one's complement, so
    a fake whose correct checksum is either of them is accepted by the server. *)
Theorem corruptTCPChecksum_rejected (g : bytes) :
  @valid IPv4 _ g → 20 <= ihl4 g → ihl4 g + 18 <= len g →
  wp (corruptTCPChecksum g (ihl4 g)) (λ f,
    len f = len g
    ∧ (tcp_ok4 f ↔ get16 f (ihl4 g + 16) = 0 ∨ get16 f (ihl4 g + 16) = 65535)).
Proof.
  intros Hv Hh Hl. pose proof Hv as (Hok & _). destruct (ihl4_range g Hok) as [Hr Hev].
  eapply wp_mono; [apply corrupt_splice; [done|lia|lia]|]. intros f ->.
  pose proof (get16_range g (ihl4 g + 16) Hok) as Hc. split; [len_simp; lia|].
  rewrite get16_splice, tcp_ok4_put by (first [done | len_simp; lia]).
  Z.div_mod_to_equations. lia.
Qed.

(** The TTL of a fake is at least 1 and lower than the TTL of the packet it
    imitates (unless that is already 0 or 1); the configured value, 5 by default,
    is used when it is lower. *)
Theorem dynamicTTL_below (p : bytes) (v6 : bool) (configTTL : Z) (i := if v6 then 7 else 8) :
  bytes_ok p → is_byte configTTL → 8 < len p →
  wp (dynamicTTL p v6 configTTL) (λ ttl,
    1 <= ttl < 256 ∧ (1 < get p i → ttl < get p i)
    ∧ (0 < configTTL < get p i → ttl = configTTL)
    ∧ (configTTL = 0 → 5 < get p i → ttl = 5)).
Proof. apply wp_dynamicTTL. Qed.

(** ** Witnesses *)

(** A TLS record of 60 bytes in an IPv4 and in an IPv6 packet, and a segment built
    from the first. *)
Definition hello_demo : bytes := [22; 3; 1; 0; 55; 1; 0; 0; 51] ++ replicate 51 7.
Definition packet4_demo : bytes :=
  [69;0;0;100; 1;2;64;0; 64;6;0;0; 10;0;0;1; 93;184;216;34;
   200;1;1;187; 0;0;0;1; 0;0;0;2; 80;24;255;255; 9;9;0;0] ++ hello_demo.
Definition packet6_demo : bytes := ip6_demo 6 (sub packet4_demo 20 100).
Definition segment_demo : bytes :=
  match BuildSegmentV4 packet4_demo (@info IPv4 _ packet4_demo) [1; 2; 3] 5 0 with
  | Ret l => l
  | _ => []
  end.

Lemma captured4_demo : captured4 packet4_demo.
Proof. split; [by apply bytes_okb_spec|]. vmc. Qed.
Lemma captured6_demo : captured6 packet6_demo.
Proof. split; [by apply bytes_okb_spec|]. vmc. Qed.

Lemma corruptTCPChecksum_rejected_witness :
  wp (corruptTCPChecksum segment_demo 20) (λ f, len f = 43
    ∧ (tcp_ok4 f ↔ get16 f 36 = 0 ∨ get16 f 36 = 65535)).
Proof.
  eapply wp_mono; [apply (corruptTCPChecksum_rejected segment_demo)|].
  - split; [by apply bytes_okb_spec|]. vmc.
  - vmc.
  - vmc.
  - intros f H. exact H.
Defined.

Lemma dynamicTTL_below_witness : wp (dynamicTTL packet4_demo false 0) (λ ttl, ttl = 5).
Proof.
  eapply wp_mono; [apply (dynamicTTL_below packet4_demo false 0)|].
  - by apply bytes_okb_spec.
  - done.
  - vmc.
  - intros ttl (_ & _ & _ & H). apply H; vmc.
Defined.
