(* ===== verification/Tls.v ===== *)
(** * The ClientHello parser of package [sni]

    src/src/sni/tls.go.  A Go string is its bytes (the empty string is the empty
    list); [be16] models [int(b[i])<<8 | int(b[i+1])].  Every loop advances its
    cursor, so [S (length buffer)] rounds are enough; that is part of what
    [..._total] states.  The reference is an encoder: the parser gives back the
    fields of every encoded ClientHello. *)

From Stdlib Require Import ZArith Lia.
From stdpp Require Import base list numbers.
From S2P Require Import Prelude.

Local Open Scope Z_scope.

(** ** The code *)

Definition tlsHandshakeClientHello : Z := 1.

Definition isValidSNIChar (b : Z) : bool :=
  ((97 <=? b) && (b <=? 122)) || ((65 <=? b) && (b <=? 90)) || ((48 <=? b) && (b <=? 57))
  || (b =? 45) || (b =? 46) || (b =? 95) || (128 <=? b).

Definition contains (s : bytes) (c : Z) : bool := existsb (λ b, b =? c) s.

(** ["localhost"] *)
Definition localhost : bytes := [108; 111; 99; 97; 108; 104; 111; 115; 116].

Definition validateSNI (sni : bytes) : bool :=
  if len sni =? 0 then false
  else if negb (forallb isValidSNIChar sni) then false
  else if negb (bool_decide (sni = localhost)) && negb (contains sni 46) then false
  else true.

(** [for i := 1; i+1 < 1+listLen; i += 2] *)
Fixpoint maxver_loop (fuel : nat) (ed : bytes) (listLen i maxVer : Z) : go Z :=
  match fuel with
  | O => Spin
  | S f =>
      if i + 1 <? 1 + listLen
      then
        let! ver := be16 ed i in
        if Z.land ver 3855 =? 2570 then maxver_loop f ed listLen (i + 2) maxVer
        else maxver_loop f ed listLen (i + 2) (if maxVer <? ver then ver else maxVer)
      else Ret maxVer
  end.

Definition extractMaxSupportedVersion (ed : bytes) : go Z :=
  if len ed <? 1 then Ret 0 else
  let! listLen := idx ed 0 in
  if (listLen <? 2) || (len ed <? 1 + listLen) then Ret 0 else
  maxver_loop (S (length ed)) ed listLen 1 0.

(** The longest prefix of valid characters: [for i, b := range sniBytes]. *)
Fixpoint valid_prefix (l : bytes) : bytes :=
  match l with
  | [] => []
  | b :: r => if isValidSNIChar b then b :: valid_prefix r else []
  end.

Fixpoint sni_names (fuel : nat) (ed : bytes) (listEnd r : Z) : go bytes :=
  match fuel with
  | O => Spin
  | S f =>
      if r + 3 <=? listEnd
      then
        let! nameType := idx ed r in
        let r := r + 1 in
        if listEnd <? r + 2 then Ret [] else
        let! nameLen := be16 ed r in
        let r := r + 2 in
        if (nameLen <=? 0) || (listEnd <? r + nameLen) || (len ed <? r + nameLen) then Ret [] else
        if nameType =? 0
        then let! sniBytes := slice ed r (r + nameLen) in Ret (valid_prefix sniBytes)
        else sni_names f ed listEnd (r + nameLen)
      else Ret []
  end.

Definition extractSNIFromExtension (ed : bytes) : go bytes :=
  if len ed <? 2 then Ret [] else
  let! listLen := be16 ed 0 in
  if (listLen <=? 0) || (len ed <? 2 + listLen) then Ret [] else
  sni_names (S (length ed)) ed (2 + listLen) 2.

Fixpoint alpn_names (fuel : nat) (ed : bytes) (listEnd r : Z) (alpns : list bytes)
    : go (list bytes) :=
  match fuel with
  | O => Spin
  | S f =>
      if r <? listEnd
      then
        if len ed <=? r then Ret alpns else
        let! protoLen := idx ed r in
        let r := r + 1 in
        if (protoLen <=? 0) || (listEnd <? r + protoLen) || (len ed <? r + protoLen)
        then Ret alpns else
        let! proto := slice ed r (r + protoLen) in
        alpn_names f ed listEnd (r + protoLen) (alpns ++ [proto])
      else Ret alpns
  end.

Definition extractALPNFromExtension (ed : bytes) : go (list bytes) :=
  if len ed <? 2 then Ret [] else
  let! listLen := be16 ed 0 in
  if (listLen <=? 0) || (len ed <? 2 + listLen) then Ret [] else
  alpn_names (S (length ed)) ed (2 + listLen) 2 [].

(** The four variables of the extension loop. *)
Record meta := { m_sni : bytes; m_ech : bool; m_alpns : list bytes; m_maxver : Z }.

(** The [switch et] of one extension. *)
Definition handle_ext (et : Z) (ed : bytes) (m : meta) : go meta :=
  if et =? 0
  then
    let! sniStr := extractSNIFromExtension ed in
    Ret {| m_sni := if bool_decide (sniStr = []) then m_sni m else sniStr;
           m_ech := m_ech m; m_alpns := m_alpns m; m_maxver := m_maxver m |}
  else if et =? 16
  then
    let! a := extractALPNFromExtension ed in
    Ret {| m_sni := m_sni m; m_ech := m_ech m; m_alpns := a; m_maxver := m_maxver m |}
  else if et =? 43
  then
    let! v := extractMaxSupportedVersion ed in
    Ret {| m_sni := m_sni m; m_ech := m_ech m; m_alpns := m_alpns m; m_maxver := v |}
  else if (et =? 65037) || (et =? 65038) || (et =? 65039)
  then Ret {| m_sni := m_sni m; m_ech := true; m_alpns := m_alpns m; m_maxver := m_maxver m |}
  else Ret m.

Fixpoint ext_loop (fuel : nat) (exts : bytes) (q : Z) (m : meta) : go meta :=
  match fuel with
  | O => Spin
  | S f =>
      if q + 4 <=? len exts
      then
        let! et := be16 exts q in
        let! el := be16 exts (q + 2) in
        let q := q + 4 in
        if (el <? 0) || (len exts <? q + el) then Ret m else
        let! ed := slice exts q (q + el) in
        let! m := handle_ext et ed m in
        ext_loop f exts (q + el) m
      else Ret m
  end.

Definition no_meta : meta := {| m_sni := []; m_ech := false; m_alpns := []; m_maxver := 0 |}.

(** The result is [(sni, hasECH, alpns, maxTLSVersion)]. *)
Definition parseTLSClientHelloMeta (ch : bytes) : go meta :=
  let p := 0 in
  let chLen := len ch in
  if chLen <? p + 2 then Ret no_meta else
  let! legacyVersion := be16 ch p in
  let p := p + 2 in
  if chLen <? p + 32 then Ret no_meta else
  let p := p + 32 in
  if chLen <? p + 1 then Ret no_meta else
  let! sidLen := idx ch p in
  let p := p + 1 in
  if chLen <? p + sidLen then Ret no_meta else
  let p := p + sidLen in
  if chLen <? p + 2 then Ret no_meta else
  let! csLen := be16 ch p in
  let p := p + 2 in
  if chLen <? p + csLen then Ret no_meta else
  let p := p + csLen in
  if chLen <? p + 1 then Ret no_meta else
  let! cmLen := idx ch p in
  let p := p + 1 in
  if chLen <? p + cmLen then Ret no_meta else
  let p := p + cmLen in
  if chLen <? p + 2 then Ret no_meta else
  let! extLen := be16 ch p in
  let p := p + 2 in
  if extLen =? 0 then Ret no_meta else
  let truncated := chLen <? p + extLen in
  let extLen := if truncated then chLen - p else extLen in
  if truncated && (extLen <=? 0) then Ret no_meta else
  let! exts := slice ch p (p + extLen) in
  let! m := ext_loop (S (length exts)) exts 0 no_meta in
  Ret {| m_sni := m_sni m; m_ech := m_ech m; m_alpns := m_alpns m;
         m_maxver := if m_maxver m =? 0 then legacyVersion else m_maxver m |}.

Fixpoint record_loop (fuel : nat) (b : bytes) (i : Z) : go (bytes * Z * bool) :=
  match fuel with
  | O => Spin
  | S f =>
      if i + 5 <=? len b
      then
        let! b0 := idx b i in
        if negb (b0 =? 22) then record_loop f b (i + 1) else
        let! recLen := be16 b (i + 3) in
        if recLen <=? 0 then record_loop f b (i + 1) else
        let over := len b <? i + 5 + recLen in
        let recLen := if over then len b - i - 5 else recLen in
        if over && (recLen <=? 0) then record_loop f b (i + 1) else
        let! rec := slice b (i + 5) (i + 5 + recLen) in
        if len rec <? 4 then record_loop f b (i + 1) else
        let! r0 := idx rec 0 in
        if r0 =? tlsHandshakeClientHello
        then
          let! r1 := idx rec 1 in
          let! r2 := idx rec 2 in
          let! r3 := idx rec 3 in
          let hl := Z.lor (Z.lor (Z.shiftl r1 16) (Z.shiftl r2 8)) r3 in
          let short := len rec <? 4 + hl in
          let hl := if short then len rec - 4 else hl in
          if short && (hl <=? 0) then record_loop f b (i + 1) else
          let! ch := slice rec 4 (4 + hl) in
          let! m := parseTLSClientHelloMeta ch in
          if bool_decide (m_sni m = []) then record_loop f b (i + 1) else
          if negb (validateSNI (m_sni m)) then record_loop f b (i + 1) else
          Ret (m_sni m, m_maxver m, true)
        else record_loop f b (i + 5 + recLen)
      else Ret ([], 0, false)
  end.

Definition ParseTLSClientHelloSNI (b : bytes) : go (bytes * Z * bool) :=
  record_loop (S (length b)) b 0.

Definition ParseTLSClientHelloBodySNI (ch : bytes) : go (bytes * bool) :=
  let! m := parseTLSClientHelloMeta ch in
  if bool_decide (m_sni m = []) then Ret ([], false)
  else if negb (validateSNI (m_sni m)) then Ret ([], false)
  else Ret (m_sni m, true).

(** ** The encoder *)

Record hello := {
  h_version : Z; h_random : bytes; h_sid : bytes; h_ciphers : bytes; h_comp : bytes;
  h_exts : list (Z * bytes) }.

Definition enc_ext (e : Z * bytes) : bytes := bytes16 e.1 ++ bytes16 (len e.2) ++ e.2.
Definition enc_exts (es : list (Z * bytes)) : bytes := List.concat (map enc_ext es).
Definition enc_hello (h : hello) : bytes :=
  bytes16 (h_version h) ++ h_random h
  ++ ([len (h_sid h)] ++ h_sid h) ++ (bytes16 (len (h_ciphers h)) ++ h_ciphers h)
  ++ ([len (h_comp h)] ++ h_comp h) ++ (bytes16 (len (enc_exts (h_exts h))) ++ enc_exts (h_exts h)).
Definition enc_record (h : hello) : bytes :=
  let body := enc_hello h in
  [22; 3; 1] ++ bytes16 (4 + len body)
  ++ [1; u8 (Z.shiftr (len body) 16)] ++ bytes16 (len body) ++ body.

(** The server_name extension naming one host. *)
Definition enc_sni (host : bytes) : bytes :=
  bytes16 (3 + len host) ++ [0] ++ bytes16 (len host) ++ host.

(** A ClientHello whose fields fit their length fields. *)
Definition hello_ok (h : hello) : Prop :=
  0 <= h_version h < 65536 ∧ len (h_random h) = 32 ∧ len (h_sid h) < 256
  ∧ len (h_ciphers h) < 65536 ∧ len (h_comp h) < 256 ∧ len (enc_exts (h_exts h)) < 65536
  ∧ bytes_ok (enc_hello h) ∧ Forall (λ e, 0 <= e.1 < 65536 ∧ bytes_ok e.2) (h_exts h).

(** Handling the extensions one after the other. *)
Fixpoint handle_exts (es : list (Z * bytes)) (m : meta) : go meta :=
  match es with
  | [] => Ret m
  | (et, ed) :: es => let! m := handle_ext et ed m in handle_exts es m
  end.

Definition hello_meta (h : hello) : go meta :=
  if bool_decide (h_exts h = []) then Ret no_meta else
  let! m := handle_exts (h_exts h) no_meta in
  Ret {| m_sni := m_sni m; m_ech := m_ech m; m_alpns := m_alpns m;
         m_maxver := if m_maxver m =? 0 then h_version h else m_maxver m |}.

(** ** Totality *)

(** Each loop lemma asks for more rounds than there are bytes left. *)
Abbreviation enough fuel l i := (Z.max 0 (len l - i) < Z.of_nat fuel).

Lemma wp_maxver_loop fuel ed listLen i m :
  bytes_ok ed → 1 + listLen <= len ed → 0 <= i → enough fuel ed i → 0 <= m < 65536 →
  wp (maxver_loop fuel ed listLen i m) (λ v, 0 <= v < 65536).
Proof.
  intros Hok Hl. revert i m. induction fuel as [|f IH]; intros i m Hi Hf Hm; [lia|].
  cbn [maxver_loop]. wp_step; [|by apply wp_ret]. wp_step. wp_step.
  pose proof (get16_range ed i Hok). wp_step; apply IH; try zlia. case_if; zlia.
Qed.

Lemma wp_extractMaxSupportedVersion ed :
  bytes_ok ed → wp (extractMaxSupportedVersion ed) (λ v, 0 <= v < 65536).
Proof.
  intros Hok. unfold extractMaxSupportedVersion. wp_step; [apply wp_ret; lia|].
  do 2 wp_step. wp_step; [apply wp_ret; lia|]. apply wp_maxver_loop; auto; zlia.
Qed.

(** A name the extraction returns is made of valid characters and is a piece of
    the buffer. *)
Definition piece (s l : bytes) : Prop := ∃ i j, 0 <= i ∧ i <= j ∧ j <= len l ∧ s = sub l i j.
Definition good_name (s l : bytes) : Prop :=
  forallb isValidSNIChar s = true ∧ piece s l.

Lemma valid_prefix_ok (l : bytes) :
  forallb isValidSNIChar (valid_prefix l) = true ∧ ∃ n, valid_prefix l = take n l.
Proof.
  induction l as [|b l [Hv [n Hn]]]; cbn; [by split; [|exists 0%nat]|].
  destruct (isValidSNIChar b) eqn:E; cbn; [|by split; [|exists 0%nat]].
  rewrite E, Hv. split; [done|]. exists (S n). by rewrite Hn.
Qed.

Lemma piece_nil (l : bytes) : piece [] l.
Proof. exists 0, 0. split_and!; [lia..|]. by rewrite sub_nil. Qed.

Lemma piece_trans (s l1 l2 : bytes) : piece s l1 → piece l1 l2 → piece s l2.
Proof.
  intros (i & j & Hi & Hij & Hj & ->) (i' & j' & Hi' & Hij' & Hj' & ->).
  rewrite len_sub in Hj by lia. exists (i' + i), (i' + j). split_and!; [lia..|].
  apply list_ext_get; [len_lia|]. intros k Hk. gets; f_equal; lia.
Qed.

Lemma piece_sub (l : bytes) (i j : Z) : 0 <= i → i <= j → j <= len l → piece (sub l i j) l.
Proof. intros. by exists i, j. Qed.

Lemma piece_take (n : nat) (l : bytes) : piece (take n l) l.
Proof.
  exists 0, (Z.min (Z.of_nat n) (len l)). split_and!; [lia..|].
  rewrite <- take_sub. destruct (Nat.le_gt_cases n (length l)).
  - rewrite Z.min_l by lia. by rewrite Nat2Z.id.
  - by rewrite Z.min_r, Nat2Z.id, !take_ge by lia.
Qed.

Lemma good_name_nil (l : bytes) : good_name [] l.
Proof. split; [done|apply piece_nil]. Qed.

Lemma wp_sni_names fuel ed listEnd r :
  bytes_ok ed → listEnd <= len ed → 0 <= r → enough fuel ed r →
  wp (sni_names fuel ed listEnd r) (λ s, good_name s ed).
Proof.
  intros Hok Hl. revert r. induction fuel as [|f IH]; intros r Hr Hf; [lia|].
  cbn [sni_names]. wp_step; [|apply wp_ret, good_name_nil]. do 2 wp_step. cbv zeta.
  wp_step; [apply wp_ret, good_name_nil|]. do 2 wp_step. pose proof (get16_range ed (r + 1) Hok).
  cbv zeta. wp_step; [apply wp_ret, good_name_nil|]. wp_step; [|apply IH; zlia].
  do 2 wp_step. apply wp_ret. destruct (valid_prefix_ok (sub ed (r + 1 + 2)
    (r + 1 + 2 + get16 ed (r + 1)))) as [Hv [n Hn]].
  split; [done|]. rewrite Hn. eapply piece_trans; [apply piece_take|apply piece_sub]; zlia.
Qed.

Lemma wp_extractSNI ed :
  bytes_ok ed → wp (extractSNIFromExtension ed) (λ s, good_name s ed).
Proof.
  intros Hok. unfold extractSNIFromExtension. wp_step; [apply wp_ret, good_name_nil|].
  do 2 wp_step. wp_step; [apply wp_ret, good_name_nil|]. apply wp_sni_names; auto; zlia.
Qed.

Lemma wp_alpn_names fuel ed listEnd r a :
  bytes_ok ed → 0 <= r → enough fuel ed r → wp (alpn_names fuel ed listEnd r a) (λ _, True).
Proof.
  intros Hok. revert r a. induction fuel as [|f IH]; intros r a Hr Hf; [lia|].
  cbn [alpn_names]. wp_step; [|by apply wp_ret]. wp_step; [by apply wp_ret|]. do 2 wp_step.
  pose proof (bytes_ok_get ed r Hok) as Hb. unfold is_byte in Hb. cbv zeta.
  wp_step; [by apply wp_ret|]. do 2 wp_step. apply IH; zlia.
Qed.

Lemma wp_extractALPN ed : bytes_ok ed → wp (extractALPNFromExtension ed) (λ _, True).
Proof.
  intros Hok. unfold extractALPNFromExtension. wp_step; [by apply wp_ret|].
  do 2 wp_step. wp_step; [by apply wp_ret|]. apply wp_alpn_names; auto; zlia.
Qed.

Definition good_meta (l : bytes) (m : meta) : Prop :=
  good_name (m_sni m) l ∧ 0 <= m_maxver m < 65536.

Lemma good_meta_none (l : bytes) : good_meta l no_meta.
Proof. split; [apply good_name_nil|cbn; lia]. Qed.

Lemma wp_handle_ext et ed m l :
  bytes_ok ed → piece ed l → good_meta l m → wp (handle_ext et ed m) (good_meta l).
Proof.
  intros Hok Hp [Hn Hv]. unfold handle_ext. repeat (wp_step; [|]).
  - wp_step. eapply wp_mono; [by apply wp_extractSNI|]. intros s [Hs Hps]. apply wp_ret.
    split; cbn; [|done]. case_bool_decide; [done|]. split; [done|by eapply piece_trans].
  - wp_step. eapply wp_mono; [by apply wp_extractALPN|]. intros a _. by apply wp_ret.
  - wp_step. eapply wp_mono; [by apply wp_extractMaxSupportedVersion|]. intros v Hv'.
    by apply wp_ret.
  - by apply wp_ret.
  - by apply wp_ret.
Qed.

Lemma wp_ext_loop fuel exts q m :
  bytes_ok exts → 0 <= q → enough fuel exts q → good_meta exts m →
  wp (ext_loop fuel exts q m) (good_meta exts).
Proof.
  intros Hok. revert q m. induction fuel as [|f IH]; intros q m Hq Hf Hm; [lia|].
  cbn [ext_loop]. wp_step; [|by apply wp_ret]. do 4 wp_step. cbv zeta.
  pose proof (get16_range exts (q + 2) Hok). wp_step; [by apply wp_ret|]. do 2 wp_step.
  wp_step. eapply wp_mono; [apply wp_handle_ext; [auto with b4|apply piece_sub; zlia|exact Hm]|].
  intros m' Hm'. apply IH; auto; zlia.
Qed.

Lemma wp_parseTLSClientHelloMeta ch :
  bytes_ok ch → wp (parseTLSClientHelloMeta ch) (good_meta ch).
Proof.
  intros Hok. unfold parseTLSClientHelloMeta. pose proof (good_meta_none ch) as Hn.
  wp_step; [by apply wp_ret|]. do 2 wp_step. pose proof (get16_range ch 0 Hok).
  wp_step; [by apply wp_ret|]. wp_step; [by apply wp_ret|]. do 2 wp_step.
  pose proof (bytes_ok_get ch (0 + 2 + 32) Hok) as Hb. unfold is_byte in Hb.
  set (sid := get ch _) in *. cbv zeta.
  wp_step; [by apply wp_ret|]. wp_step; [by apply wp_ret|]. do 2 wp_step.
  match goal with |- context [get16 ch ?i] => pose proof (get16_range ch i Hok);
    set (cs := get16 ch i) in * end.
  cbv zeta. wp_step; [by apply wp_ret|]. wp_step; [by apply wp_ret|]. do 2 wp_step.
  match goal with |- context [get ch ?i] => pose proof (bytes_ok_get ch i Hok) as Hb2;
    set (cm := get ch i) in * end. unfold is_byte in Hb2.
  cbv zeta. wp_step; [by apply wp_ret|]. wp_step; [by apply wp_ret|]. do 2 wp_step.
  match goal with |- context [get16 ch ?i] => pose proof (get16_range ch i Hok);
    set (el := get16 ch i) in * end.
  cbv zeta. wp_step; [by apply wp_ret|].
  match goal with |- context [if ?b && _ then _ else _] => destruct b eqn:Htr end; cbn [andb].
  - wp_step; [by apply wp_ret|]. do 2 wp_step. wp_step.
    eapply wp_mono; [apply wp_ext_loop; [auto with b4|lia|lia|apply good_meta_none]|].
    intros m [[Hs Hp] Hv]. apply wp_ret. split; cbn; [|case_if; lia].
    split; [done|]. eapply piece_trans; [exact Hp|apply piece_sub; zlia].
  - do 2 wp_step. wp_step.
    eapply wp_mono; [apply wp_ext_loop; [auto with b4|lia|lia|apply good_meta_none]|].
    intros m [[Hs Hp] Hv]. apply wp_ret. split; cbn; [|case_if; lia].
    split; [done|]. eapply piece_trans; [exact Hp|apply piece_sub; zlia].
Qed.

(** What is known of a host name that the record scan returns. *)
Definition found_name (b : bytes) (r : bytes * Z * bool) : Prop :=
  if r.2 then
    let '(sni, ver, _) := r in
    piece sni b ∧ validateSNI sni = true ∧ 0 <= ver < 65536
  else r = ([], 0, false).

Lemma hl_range (a b c : Z) :
  0 <= a → 0 <= b → 0 <= c → 0 <= Z.lor (Z.lor (Z.shiftl a 16) (Z.shiftl b 8)) c.
Proof.
  intros. repeat (apply Z.lor_nonneg; split); try lia; by apply Z.shiftl_nonneg.
Qed.

Lemma wp_record_loop fuel b i :
  bytes_ok b → 0 <= i → enough fuel b i → wp (record_loop fuel b i) (found_name b).
Proof.
  intros Hok. revert i. induction fuel as [|f IH]; intros i Hi Hf; [lia|].
  cbn [record_loop]. wp_step; [|by apply wp_ret]. do 2 wp_step.
  wp_step; [apply IH; zlia|]. do 2 wp_step. pose proof (get16_range b (i + 3) Hok).
  wp_step; [apply IH; zlia|]. cbv zeta.
  set (recLen := if len b <? i + 5 + get16 b (i + 3) then len b - i - 5 else get16 b (i + 3)).
  assert (i + 5 + recLen <= len b) by (unfold recLen; case_if; zlia).
  assert (0 < recLen ∨ (len b <? i + 5 + get16 b (i + 3)) = true) as Hrl
    by (unfold recLen; case_if; [by right|left; zlia]).
  wp_step; [apply IH; zlia|]. assert (0 < recLen) by (destruct Hrl as [|Ho]; [done|rewrite Ho in *; zlia]).
  clearbody recLen. do 2 wp_step. set (rec := sub b (i + 5) (i + 5 + recLen)).
  assert (bytes_ok rec) as Hrok by (unfold rec; auto with b4).
  assert (len rec = recLen) as Hrlen by (unfold rec; len_lia).
  assert (piece rec b) as Hrp by (apply piece_sub; lia). clearbody rec.
  wp_step; [apply IH; zlia|]. do 2 wp_step. wp_step; [|apply IH; zlia].
  do 6 wp_step. cbv zeta.
  pose proof (hl_range (get rec 1) (get rec 2) (get rec 3)) as Hhl.
  pose proof (bytes_ok_get rec 1 Hrok). pose proof (bytes_ok_get rec 2 Hrok).
  pose proof (bytes_ok_get rec 3 Hrok). unfold is_byte in *. specialize (Hhl ltac:(lia) ltac:(lia) ltac:(lia)).
  set (hl := Z.lor _ _) in *. clearbody hl.
  set (hl' := if len rec <? 4 + hl then len rec - 4 else hl).
  assert (0 <= hl' /\ 4 + hl' <= len rec) by (unfold hl'; case_if; zlia). clearbody hl'.
  wp_step; [apply IH; zlia|]. do 3 wp_step.
  eapply wp_mono; [apply wp_parseTLSClientHelloMeta; auto with b4|].
  intros m [[Hs Hp] Hv]. wp_step; [apply IH; zlia|]. wp_step; [apply IH; zlia|].
  apply wp_ret. unfold found_name. cbn. split_and!; [|by apply negb_false_iff|lia..].
  eapply piece_trans; [exact Hp|]. eapply piece_trans; [|exact Hrp]. apply piece_sub; zlia.
Qed.

(** C30: The ClientHello scanner terminates without panicking on every input, and a
    host name it reports is a piece of the input, non-empty, made only of host
    name characters, and contains a dot unless it is "localhost"; the reported
    TLS version fits 16 bits. *)
Theorem ParseTLSClientHelloSNI_total (b : bytes) :
  bytes_ok b →
  wp (ParseTLSClientHelloSNI b) (λ '(sni, ver, ok),
    if ok : bool then
      piece sni b ∧ 0 < len sni ∧ Forall (λ c, isValidSNIChar c = true) sni
      ∧ (sni = localhost ∨ 46 ∈ sni) ∧ 0 <= ver < 65536
    else sni = [] ∧ ver = 0).
Proof.
  intros Hok. eapply wp_mono; [apply wp_record_loop; [done|lia|lia]|].
  intros [[sni ver] [|]] Hr; unfold found_name in Hr; cbn in Hr; [|by injection Hr].
  destruct Hr as (Hp & Hv & Hver1 & Hver2). unfold validateSNI in Hv.
  destruct (len sni =? 0) eqn:E0; [done|].
  destruct (forallb isValidSNIChar sni) eqn:E1; cbn in Hv; [|done].
  split_and!; try done; [zlia| |].
  - apply Forall_forall. intros c Hc. rewrite forallb_forall in E1. apply E1; first [exact Hc | by apply list_elem_of_In].
  - destruct (bool_decide (sni = localhost)) eqn:E2; [left; by apply bool_decide_eq_true in E2|].
    right. cbn in Hv. destruct (contains sni 46) eqn:E3; [|done].
    apply existsb_exists in E3 as (c & Hc & E). bprop. subst. by apply list_elem_of_In.
Qed.

(** ** Parsing what was encoded *)

Lemma enc_ext_len (e : Z * bytes) : len (enc_ext e) = 4 + len e.2.
Proof. unfold enc_ext. len_lia. Qed.

Lemma enc_exts_cons (e : Z * bytes) (es : list (Z * bytes)) :
  enc_exts (e :: es) = bytes16 e.1 ++ bytes16 (len e.2) ++ e.2 ++ enc_exts es.
Proof. unfold enc_exts. cbn [map List.concat]. unfold enc_ext. by rewrite <- !app_assoc. Qed.

Lemma ext_loop_enc (es : list (Z * bytes)) (fuel : nat) (l : bytes) (q : Z) (m : meta) :
  at_pos l q (enc_exts es) → enough fuel l q →
  Forall (λ e, 0 <= e.1 < 65536 ∧ len e.2 < 65536) es →
  ext_loop fuel l q m = handle_exts es m.
Proof.
  revert fuel q m. induction es as [|[et ed] es IH]; intros fuel q m Hat Hf Hok;
    (destruct fuel as [|f]; [lia|]); cbn [ext_loop handle_exts];
    destruct (at_pos_len _ _ _ Hat) as [Hl Hq].
  { cbn in Hl. destruct (q + 4 <=? len l) eqn:E; [zlia|done]. }
  rewrite enc_exts_cons in Hat, Hl. cbn [fst snd] in *.
  apply Forall_cons_1 in Hok as [[Het Hed] Hok]. cbn [fst snd] in *. revert Hl. len_simp. intros Hl.
  destruct (q + 4 <=? len l) eqn:E; [|zlia].
  rewrite (at_pos_be16 _ _ _ _ Hat Het). cbn [go_bind]. apply at_pos_app in Hat.
  change (q + len (bytes16 et)) with (q + 2) in Hat.
  rewrite (at_pos_be16 _ _ (len ed) _ Hat) by lia. cbn [go_bind]. apply at_pos_app in Hat.
  change (q + 2 + len (bytes16 (len ed))) with (q + 2 + 2) in Hat.
  replace (q + 2 + 2) with (q + 4) in Hat by lia.
  destruct ((len ed <? 0) || (len l <? q + 4 + len ed)) eqn:E1; [zlia|].
  rewrite (at_pos_slice _ _ _ _ _ Hat eq_refl). cbn [go_bind]. apply at_pos_app in Hat.
  destruct (handle_ext et ed m) as [m'| |]; cbn [go_bind]; [|done..].
  apply IH; [done|lia|done].
Qed.

Lemma exts_data_fit (es : list (Z * bytes)) :
  len (enc_exts es) < 65536 → Forall (λ e, 0 <= e.1 < 65536 ∧ bytes_ok e.2) es →
  Forall (λ e, 0 <= e.1 < 65536 ∧ len e.2 < 65536) es.
Proof.
  induction es as [|e es IH]; intros Hl Hok; constructor.
  - apply Forall_cons_1 in Hok as [[He _] _]. rewrite enc_exts_cons in Hl. revert Hl.
    len_simp. lia.
  - apply Forall_cons_1 in Hok as [_ Hok]. apply IH; [|done]. rewrite enc_exts_cons in Hl.
    revert Hl. len_simp. lia.
Qed.

Lemma parse_enc_hello (h : hello) :
  hello_ok h → parseTLSClientHelloMeta (enc_hello h) = hello_meta h.
Proof.
  intros (Hv & Hr & Hs & Hc & Hm & Hx & Hb & Hes). unfold parseTLSClientHelloMeta, hello_meta.
  set (l := enc_hello h). pose proof (at_pos_start l) as H. unfold l at 2 in H.
  unfold enc_hello in H. rewrite <- !app_assoc in H. cbn [app] in H.
  destruct (at_pos_len _ _ _ H) as [Hl _]. revert Hl. len_simp. intros Hl.
  skip_if. read16 H. skip_if. apply at_pos_app in H. rewrite Hr in H. znorm_in H.
  skip_if. read8 H. skip_if. apply at_pos_app in H.
  skip_if. read16 H. skip_if. apply at_pos_app in H.
  skip_if. read8 H. skip_if. apply at_pos_app in H.
  skip_if. read16 H.
  destruct (h_exts h) as [|e es] eqn:He.
  { cbn. done. }
  rewrite <- He in *. rewrite bool_decide_false by congruence.
  assert (4 <= len (enc_exts (h_exts h))) by (rewrite He, enc_exts_cons; len_lia).
  skip_if. match goal with |- context [if ?b && _ then _ else _] => destruct b eqn:? end; [zlia|].
  cbn [andb]. rewrite <- (app_nil_r (enc_exts (h_exts h))) in H.
  rewrite (at_pos_slice _ _ _ _ _ H eq_refl). cbn [go_bind].
  rewrite (ext_loop_enc (h_exts h)); [done|apply at_pos_start|lia|].
  by apply exts_data_fit.
Qed.

Lemma valid_prefix_all (l : bytes) : forallb isValidSNIChar l = true → valid_prefix l = l.
Proof.
  induction l as [|b l IH]; cbn; [done|]. intros [Hb Hl]%andb_true_iff. rewrite Hb, IH; done.
Qed.

Lemma extractSNI_enc (host : bytes) :
  forallb isValidSNIChar host = true → 0 < len host → len host < 65533 →
  extractSNIFromExtension (enc_sni host) = Ret host.
Proof.
  intros Hv Hpos Hlen. unfold extractSNIFromExtension. set (l := enc_sni host).
  pose proof (at_pos_start l) as H. unfold l at 2 in H. unfold enc_sni in H.
  cbn [app] in H. destruct (at_pos_len _ _ _ H) as [Hl _]. revert Hl. len_simp. intros Hl.
  skip_if. read16 H. skip_if. cbn [sni_names].
  destruct (2 + 3 <=? 2 + (3 + len host)) eqn:E; [|zlia].
  read8 H. skip_if. read16 H. skip_if. cbn [Z.eqb].
  rewrite <- (app_nil_r host) in H. rewrite (at_pos_slice _ _ _ _ _ H eq_refl). cbn [go_bind].
  by rewrite valid_prefix_all.
Qed.

(** Extensions other than server_name leave the name alone, and those other than
    supported_versions leave the version. *)
Lemma handle_ext_frame et ed m :
  bytes_ok ed → wp (handle_ext et ed m) (λ m',
    (et ≠ 0 → m_sni m' = m_sni m) ∧ (et ≠ 43 → m_maxver m' = m_maxver m)).
Proof.
  intros Hok. unfold handle_ext. repeat (wp_step; [|]).
  - wp_step. eapply wp_mono; [by apply wp_extractSNI|]. intros s _. apply wp_ret. split; [zlia|done].
  - wp_step. eapply wp_mono; [by apply wp_extractALPN|]. intros s _. by apply wp_ret.
  - wp_step. eapply wp_mono; [by apply wp_extractMaxSupportedVersion|]. intros s _.
    apply wp_ret. split; [done|zlia].
  - by apply wp_ret.
  - by apply wp_ret.
Qed.

Lemma handle_exts_frame es m :
  Forall (λ e, 0 <= e.1 < 65536 ∧ bytes_ok e.2) es → wp (handle_exts es m) (λ m',
    (Forall (λ e, e.1 ≠ 0) es → m_sni m' = m_sni m)
    ∧ (Forall (λ e, e.1 ≠ 43) es → m_maxver m' = m_maxver m)).
Proof.
  revert m. induction es as [|[et ed] es IH]; intros m Hok; cbn [handle_exts]; [by apply wp_ret|].
  apply Forall_cons_1 in Hok as [[_ Hed] Hok]. cbn in Hed.
  wp_step. eapply wp_mono; [by apply handle_ext_frame|]. intros m1 [H1 H2]. cbn in *.
  eapply wp_mono; [by apply IH|]. intros m2 [H3 H4].
  split; intros [Hx Hxs]%Forall_cons_1; cbn in Hx.
  - rewrite H3, H1; done.
  - rewrite H4, H2; done.
Qed.

Lemma handle_exts_app es1 es2 m :
  handle_exts (es1 ++ es2) m = (let! m := handle_exts es1 m in handle_exts es2 m).
Proof.
  revert m. induction es1 as [|[et ed] es1 IH]; intros m; cbn; [done|].
  destruct (handle_ext et ed m); cbn; [apply IH|done..].
Qed.

Lemma hello_meta_sni (h : hello) es1 es2 host :
  h_exts h = es1 ++ (0, enc_sni host) :: es2 →
  Forall (λ e, 0 <= e.1 < 65536 ∧ bytes_ok e.2) (h_exts h) →
  Forall (λ e, e.1 ≠ 0) es1 → Forall (λ e, e.1 ≠ 0) es2 →
  forallb isValidSNIChar host = true → 0 < len host → len host < 65533 →
  wp (hello_meta h) (λ m, m_sni m = host
    ∧ (Forall (λ e, e.1 ≠ 43) (h_exts h) → m_maxver m = h_version h)).
Proof.
  intros He Hok H1 H2 Hv Hp Hl. unfold hello_meta.
  rewrite bool_decide_false by (rewrite He; by destruct es1). rewrite He in *.
  apply Forall_app in Hok as [Hok1 Hok]. apply Forall_cons_1 in Hok as [_ Hok2].
  rewrite handle_exts_app. wp_step. wp_step.
  eapply wp_mono; [by apply handle_exts_frame|]. intros m1 [_ Hm1]. cbn [handle_exts].
  wp_step. unfold handle_ext. cbn [Z.eqb]. rewrite extractSNI_enc by done. cbn [go_bind].
  apply wp_ret. rewrite bool_decide_false by (by destruct host).
  eapply wp_mono; [by apply handle_exts_frame|]. intros m2 [Hs Hm2]. apply wp_ret. cbn in *.
  split; [by apply Hs|]. intros H. apply Forall_app in H as [Hx1 Hx].
  apply Forall_cons_1 in Hx as [_ Hx2]. rewrite Hm2, Hm1 by done. done.
Qed.

Lemma lor3 (n : Z) : 0 <= n < 65536 →
  Z.lor (Z.lor (Z.shiftl (u8 (Z.shiftr n 16)) 16) (Z.shiftl (u8 (Z.shiftr n 8)) 8)) (u8 n) = n.
Proof.
  intros Hn. rewrite (Z.shiftr_div_pow2 n 16) by lia. rewrite Z.div_small by (cbn; lia).
  cbn [u8]. change (Z.shiftl (u8 0) 16) with 0. rewrite Z.lor_0_l.
  pose proof (is_byte_u8 n) as Hb. unfold is_byte in Hb.
  rewrite lor_shiftl_add by lia. by apply bytes16_val.
Qed.

(** One record holding one ClientHello, at the start of the buffer. *)
Lemma record_loop_hello (f : nat) (l body : bytes) (m : meta) :
  at_pos l 0 ([22; 3; 1] ++ bytes16 (4 + len body)
    ++ (1 :: u8 (Z.shiftr (len body) 16) :: bytes16 (len body) ++ body)) →
  4 + len body < 65536 → parseTLSClientHelloMeta body = Ret m →
  m_sni m ≠ [] → validateSNI (m_sni m) = true →
  record_loop (S f) l 0 = Ret (m_sni m, m_maxver m, true).
Proof.
  intros H Hsz Hm Hne Hval. cbn [record_loop].
  destruct (at_pos_len _ _ _ H) as [Hl _]. revert Hl. len_simp. intros Hl.
  destruct (0 + 5 <=? len l) eqn:E; [|zlia]. cbn [app] in H. read8 H.
  change (negb (22 =? 22)) with false. cbn iota.
  do 2 apply at_pos_cons in H. znorm_in H. read16 H. skip_if.
  match goal with |- context [if ?b && _ then _ else _] => destruct b eqn:? end; [zlia|].
  cbn [andb]. remember (1 :: u8 _ :: _) as rec eqn:Hr.
  assert (len rec = 4 + len body) as Hrec by (rewrite Hr; len_lia).
  rewrite <- (app_nil_r rec) in H.
  rewrite (at_pos_slice _ _ (5 + (4 + len body)) _ _ H) by lia. cbn [go_bind].
  destruct (len rec <? 4) eqn:E1; [zlia|]. clear H.
  pose proof (at_pos_start rec) as H. rewrite Hr in H at 2. clear Hr.
  read8 H. change (1 =? tlsHandshakeClientHello) with true. cbn iota. read8 H.
  cbn [bytes16 app] in H. read8 H. read8 H.
  rewrite lor3 by lia. destruct (len rec <? 4 + len body) eqn:E2; [zlia|]. cbn [andb].
  rewrite <- (app_nil_r body) in H.
  rewrite (at_pos_slice _ _ (4 + len body) _ _ H) by lia. cbn [go_bind].
  rewrite Hm. cbn [go_bind]. rewrite bool_decide_false, Hval by done. done.
Qed.

(** C25: Every well-formed ClientHello record that names one host in its
    server_name extension, whatever its other fields and extensions, is parsed
    back to that host; the version reported is the legacy version unless
    supported_versions is present. *)
Theorem ParseTLSClientHelloSNI_roundtrip (h : hello) (es1 es2 : list (Z * bytes))
    (host : bytes) :
  hello_ok h → 4 + len (enc_hello h) < 65536 →
  h_exts h = es1 ++ (0, enc_sni host) :: es2 →
  Forall (λ e, e.1 ≠ 0) es1 → Forall (λ e, e.1 ≠ 0) es2 →
  validateSNI host = true → len host < 65533 →
  wp (ParseTLSClientHelloSNI (enc_record h)) (λ '(sni, ver, ok),
    sni = host ∧ ok = true ∧ (Forall (λ e, e.1 ≠ 43) (h_exts h) → ver = h_version h)).
Proof.
  intros Hok Hsz He H1 H2 Hval Hlen.
  assert (forallb isValidSNIChar host = true ∧ 0 < len host) as [Hv Hp].
  { unfold validateSNI in Hval. destruct (len host =? 0) eqn:E0; [done|].
    destruct (forallb _ host); [split; [done|zlia]|done]. }
  pose proof (hello_meta_sni h es1 es2 host He ltac:(apply Hok) H1 H2 Hv Hp Hlen) as Hmeta.
  apply wp_iff in Hmeta as (m & Hm & Hs & Hver). rewrite <- parse_enc_hello in Hm by done.
  assert (m_sni m ≠ []) by (rewrite Hs; by destruct host).
  unfold ParseTLSClientHelloSNI.
  rewrite (record_loop_hello _ _ (enc_hello h) m); [|apply at_pos_start|lia|done|done|by rewrite Hs].
  apply wp_ret. done.
Qed.

(** ** Witnesses *)

(** A ClientHello for "a.io" with a GREASE extension first. *)
Definition demo_hello : hello :=
  {| h_version := 771; h_random := replicate 32 7; h_sid := [1; 2; 3]; h_ciphers := [19; 1];
     h_comp := [0]; h_exts := [(2570, [0]); (0, enc_sni [97; 46; 105; 111]); (16, [0; 3; 2; 104; 50])] |}.

Lemma demo_hello_ok : hello_ok demo_hello.
Proof.
  unfold hello_ok. split_and!;
    lazymatch goal with
    | |- bytes_ok _ => by apply bytes_okb_spec
    | |- Forall _ _ =>
        repeat (apply Forall_cons_2; [split; [vmc|by apply bytes_okb_spec]|]); constructor
    | |- _ => vmc
    end.
Qed.

Lemma ParseTLSClientHelloSNI_total_witness :
  wp (ParseTLSClientHelloSNI (enc_record demo_hello)) (λ '(sni, ver, ok), ok = true → 0 < len sni).
Proof.
  eapply wp_mono; [apply ParseTLSClientHelloSNI_total; by apply bytes_okb_spec|].
  intros [[sni ver] [|]]; [|done]. intros (_ & Hl & _) _. exact Hl.
Defined.

Lemma ParseTLSClientHelloSNI_roundtrip_witness :
  wp (ParseTLSClientHelloSNI (enc_record demo_hello)) (λ '(sni, ver, ok),
    sni = [97; 46; 105; 111] ∧ ok = true ∧ ver = 771).
Proof.
  eapply wp_mono; [apply (ParseTLSClientHelloSNI_roundtrip demo_hello [(2570, [0])]
    [(16, [0; 3; 2; 104; 50])] [97; 46; 105; 111])|].
  - exact demo_hello_ok.
  - vmc.
  - reflexivity.
  - repeat constructor; discriminate.
  - repeat constructor; discriminate.
  - reflexivity.
  - vmc.
  - intros [[sni ver] ok] (Hs & Ho & Hv). split_and!; [exact Hs|exact Ho|].
    apply Hv. repeat constructor; discriminate.
Defined.
