(* ===== verification/Mutation.v ===== *)
(** * Rewriting the ClientHello before it is sent

    src/src/nfq/mutation.go and mutation_ipv6.go: the mutations insert TLS extensions
    into the ClientHello, or reorder them, and update every length and checksum of
    the packet.  The two files differ in how they read the headers, which is
    [Family]'s [headers].  The draws are arguments. *)

From Stdlib Require Import ZArith Lia Ascii.
From stdpp Require Import base list numbers sets strings.
From S2P Require Import Prelude Config Payloads Checksum Fragment Split Segment Families Tls.

Local Open Scope Z_scope.

Definition MaxTCPPacketSize : Z := 1460.
Definition MaxSNILength : Z := 255.
Definition greaseValues : list Z :=
  [0x0a0a; 0x1a1a; 0x2a2a; 0x3a3a; 0x4a4a; 0x5a5a; 0x6a6a; 0x7a7a;
   0x8a8a; 0x9a9a; 0xaaaa; 0xbaba; 0xcaca; 0xdada; 0xeaea; 0xfafa].
Definition extServerName : Z := 0.
Definition extALPN : Z := 16.
Definition extPadding : Z := 21.
Definition commonExtensions : list Z :=
  [0x0001; 0x0005; 0x000a; 0x000d; 0x000f; 0x0017; 0x0023; 0x002b; 0x0033].

(** The random choices: the byte that picks the [i]-th GREASE value, the bytes of
    the [i]-th extension, of the key, and the shuffle. *)
Record mutation_draws := {
  m_pick : Z → Z; m_data : Z → Z → Z; m_unknown : Z → Z → Z; m_key : Z → Z; m_shuffle : Z → Z }.

(** ** Lengths and checksums *)

Definition tls_lengths (packet : bytes) (payloadStart payloadLen : Z) : go bytes :=
  let! packet :=
    (if 5 <=? payloadLen
     then
       let! b := idx packet payloadStart in
       if b =? 22 then put16 packet (payloadStart + 3) (payloadLen - 5) else Ret packet
     else Ret packet) in
  if 9 <=? payloadLen
  then
    let! b := idx packet payloadStart in
    if negb (b =? 22) then Ret packet else
    let! h := idx packet (payloadStart + 5) in
    if negb (h =? 1) then Ret packet else
    let helloLen := payloadLen - 9 in
    let! packet := upd packet (payloadStart + 6) (u8 (Z.shiftr helloLen 16)) in
    let! packet := upd packet (payloadStart + 7) (u8 (Z.shiftr helloLen 8)) in
    upd packet (payloadStart + 8) (u8 helloLen)
  else Ret packet.

Definition updatePacketLengths (packet : bytes) : go bytes :=
  if len packet <? 1 then Ret packet else
  let! b0 := idx packet 0 in
  if Z.shiftr b0 4 =? 6
  then
    let ipv6HdrLen := 40 in
    if len packet <? ipv6HdrLen + 20 then Ret packet else
    let! d := idx packet (ipv6HdrLen + 12) in
    let payloadStart := ipv6HdrLen + u8 (Z.shiftr d 4 * 4) in
    let payloadLen := len packet - payloadStart in
    let! packet := put16 packet 4 (len packet - ipv6HdrLen) in
    let! packet := tls_lengths packet payloadStart payloadLen in
    FixTCPChecksumV6 packet
  else
    let ipHdrLen := u8 (Z.land b0 15 * 4) in
    if len packet <? ipHdrLen + 20 then Ret packet else
    let! d := idx packet (ipHdrLen + 12) in
    let payloadStart := ipHdrLen + u8 (Z.shiftr d 4 * 4) in
    let payloadLen := len packet - payloadStart in
    let! packet := put16 packet 2 (len packet) in
    let! packet := tls_lengths packet payloadStart payloadLen in
    let! packet := on_slice FixIPv4Checksum packet 0 ipHdrLen in
    FixTCPChecksum packet.

(** ** Finding and parsing the extensions *)

(** The offset of the extensions' length, or -1. *)
Definition findExtensionsOffset (payload : bytes) : go Z :=
  if len payload <? 43 then Ret (-1) else
  let pos := 43 in
  if len payload <=? pos then Ret (-1) else
  let! sidLen := idx payload pos in
  if len payload <? pos + 1 + sidLen then Ret (-1) else
  let pos := pos + (1 + sidLen) in
  if len payload <? pos + 2 then Ret (-1) else
  let! csLen := be16 payload pos in
  if len payload <? pos + 2 + csLen then Ret (-1) else
  let pos := pos + (2 + csLen) in
  if len payload <=? pos then Ret (-1) else
  let! compLen := idx payload pos in
  if len payload <? pos + 1 + compLen then Ret (-1) else
  let pos := pos + (1 + compLen) in
  if len payload <? pos + 2 then Ret (-1) else
  Ret pos.

Fixpoint parse_ext_loop (fuel : nat) (data : bytes) (extLen pos : Z) (extensions : list bytes)
    : go (list bytes) :=
  match fuel with
  | O => Spin
  | S f =>
      if (pos <? 2 + extLen) && (pos + 4 <=? len data)
      then
        if 2 + extLen <? pos + 4 then Ret extensions else
        let! el := be16 data (pos + 2) in
        if (2 + extLen <? pos + 4 + el) || (len data <? pos + 4 + el) then Ret extensions else
        let! ext := slice data pos (pos + 4 + el) in
        parse_ext_loop f data extLen (pos + (4 + el)) (extensions ++ [ext])
      else Ret extensions
  end.

Definition parseExtensions (data : bytes) : go (list bytes) :=
  if len data <? 2 then Ret [] else
  let! extLen := be16 data 0 in
  if len data <? 2 + extLen then Ret [] else
  parse_ext_loop (S (length data)) data extLen 2 [].

(** ** Inserting and replacing extensions *)

Definition too_short `{Family} (packet : bytes) : bool := is_v6 && (len packet <? 40 + 20).

(** Where the extensions are, for a packet that has room for them: the position of
    their length field and its value. *)
Definition ext_position `{Family} (packet : bytes) : go (option (Z * Z)) :=
  if too_short packet then Ret None else
  let! (ipHdrLen, tcpHdrLen) := headers packet in
  let payloadStart := ipHdrLen + tcpHdrLen in
  let! payload := slice_from packet payloadStart in
  let! extOffset := findExtensionsOffset payload in
  if extOffset <? 0 then Ret None else
  let extPos := payloadStart + extOffset in
  if len packet <? extPos + 2 then Ret None else
  let! currentExtLen := be16 packet extPos in
  if len packet <? extPos + 2 + currentExtLen then Ret None else
  Ret (Some (extPos, currentExtLen)).

Definition insertExtensions `{Family} (packet newExts : bytes) : go bytes :=
  let! pos := ext_position packet in
  match pos with
  | None => Ret packet
  | Some (extPos, currentExtLen) =>
      let over := MaxTCPPacketSize <? len packet + len newExts in
      let maxNewExts := MaxTCPPacketSize - len packet in
      if over && (maxNewExts <=? 0) then Ret packet else
      let! newExts := (if over then slice newExts 0 maxNewExts else Ret newExts) in
      let! newPacket := make (len packet + len newExts) in
      let! s := slice packet 0 extPos in
      let! newPacket := copy_from newPacket 0 s in
      let newExtLen := currentExtLen + len newExts in
      let! newPacket := put16 newPacket extPos newExtLen in
      let! s := slice packet (extPos + 2) (extPos + 2 + currentExtLen) in
      let! newPacket := copy_from newPacket (extPos + 2) s in
      let! newPacket := copy_from newPacket (extPos + 2 + currentExtLen) newExts in
      let! newPacket :=
        (if extPos + 2 + currentExtLen <? len packet
         then
           let! s := slice_from packet (extPos + 2 + currentExtLen) in
           copy_from newPacket (extPos + 2 + currentExtLen + len newExts) s
         else Ret newPacket) in
      updatePacketLengths newPacket
  end.

Definition replaceExtensions `{Family} (packet newExts : bytes) : go bytes :=
  let! pos := ext_position packet in
  match pos with
  | None => Ret packet
  | Some (extPos, currentExtLen) =>
      let sizeDiff := len newExts - currentExtLen in
      let newPacketLen := len packet + sizeDiff in
      if MaxTCPPacketSize <? newPacketLen then Ret packet else
      let! newPacket := make newPacketLen in
      let! s := slice packet 0 extPos in
      let! newPacket := copy_from newPacket 0 s in
      let! newPacket := put16 newPacket extPos (len newExts) in
      let! newPacket := copy_from newPacket (extPos + 2) newExts in
      let! newPacket :=
        (if extPos + 2 + currentExtLen <? len packet
         then
           let! s := slice_from packet (extPos + 2 + currentExtLen) in
           copy_from newPacket (extPos + 2 + len newExts) s
         else Ret newPacket) in
      updatePacketLengths newPacket
  end.

(** ** The mutations *)

(** [4 + n] bytes: type, length and data of an extension. *)
Definition extension (typ : Z) (data : bytes) : bytes := bytes16 typ ++ bytes16 (len data) ++ data.

Definition sni_extension (sni : bytes) : bytes :=
  extension extServerName (bytes16 (3 + len sni) ++ [0] ++ bytes16 (len sni) ++ sni).

Definition has_extensions `{Family} (packet : bytes) : go (option bytes) :=
  let! (ipHdrLen, tcpHdrLen) := headers packet in
  let payloadStart := ipHdrLen + tcpHdrLen in
  let! payload := slice_from packet payloadStart in
  let! extOffset := findExtensionsOffset payload in
  if extOffset <? 0 then Ret None else
  let! rest := slice_from packet (payloadStart + extOffset) in
  Ret (Some rest).

Definition duplicateSNI `{Family} (packet : bytes) (cfg : SNIMutationConfig) : go bytes :=
  let! e := has_extensions packet in
  match e with
  | None => Ret packet
  | Some _ =>
      let usable := List.filter (λ sni, negb (len sni =? 0) && (len sni <=? MaxSNILength)) (FakeSNIs cfg) in
      insertExtensions packet (concat (map sni_extension usable))
  end.

(** [for i := 0; i < count; i++]; the slice made for them panics on a negative
    capacity. *)
Definition counted (count : Z) (f : Z → bytes) : go bytes :=
  if count <? 0 then Panic else Ret (concat (map (λ i, f (Z.of_nat i)) (seq 0 (Z.to_nat count)))).

Definition addGREASE `{Family} (r : mutation_draws) (packet : bytes) (cfg : SNIMutationConfig) : go bytes :=
  let! grease := counted (GreaseCount cfg) (λ i,
    extension (nth (Z.to_nat (u8 (m_pick r i) mod 16)) greaseValues 0) (random_bytes (m_data r i) 4)) in
  insertExtensions packet grease.

Definition addPadding `{Family} (packet : bytes) (cfg : SNIMutationConfig) : go bytes :=
  let paddingSize := PaddingSize cfg in
  let paddingSize := if paddingSize <? 16 then 16 else paddingSize in
  let paddingSize := if 4096 <? paddingSize then 4096 else paddingSize in
  let over := MaxTCPPacketSize <? len packet + paddingSize + 4 in
  let paddingSize := if over then MaxTCPPacketSize - len packet - 4 else paddingSize in
  if over && (paddingSize <=? 0) then Ret packet else
  insertExtensions packet (extension extPadding (replicate (Z.to_nat paddingSize) 0)).

(** [len(ext) >= 2 && type == extServerName] *)
Definition is_sni (ext : bytes) : bool := (2 <=? len ext) && (get16 ext 0 =? extServerName).

(** The loop keeps the last server name it sees. *)
Fixpoint split_sni (extensions : list bytes) (sniExt : option bytes) (otherExts : list bytes)
    : option bytes * list bytes :=
  match extensions with
  | [] => (sniExt, otherExts)
  | ext :: extensions =>
      if is_sni ext then split_sni extensions (Some ext) otherExts
      else split_sni extensions sniExt (otherExts ++ [ext])
  end.

Definition reorderExtensions `{Family} (r : mutation_draws) (packet : bytes) : go bytes :=
  let! e := has_extensions packet in
  match e with
  | None => Ret packet
  | Some data =>
      let! extensions := parseExtensions data in
      if (length extensions <? 2)%nat then Ret packet else
      let '(sniExt, otherExts) := split_sni extensions None [] in
      let! otherExts := shuffle_loop (S (length otherExts)) (m_shuffle r)
                          (Z.of_nat (length otherExts) - 1) otherExts in
      let newExts := (match sniExt with Some e => e | None => [] end) ++ concat otherExts in
      replaceExtensions packet newExts
  end.

(** The protocols of [addFakeALPN] take 82 bytes with their lengths, below the limit
    of 255 that the loop tests. *)
Definition alpn_protocols : list string :=
  ["http/1.0"; "http/1.1"; "h2"; "h3"; "spdy/3"; "spdy/3.1"; "quic"; "hq"; "doq";
   "xmpp"; "mqtt"; "amqp"; "grpc"; "websocket"]%string.
Fixpoint alpn_loop (protocols : list string) (alpnData : bytes) : bytes :=
  match protocols with
  | [] => alpnData
  | proto :: protocols =>
      if 255 <? len alpnData + 1 + len (string_bytes proto) then alpnData
      else alpn_loop protocols (alpnData ++ [u8 (len (string_bytes proto))] ++ string_bytes proto)
  end.
Definition addFakeALPN `{Family} (packet : bytes) : go bytes :=
  let alpnData := alpn_loop alpn_protocols [] in
  insertExtensions packet (extension extALPN (bytes16 (len alpnData) ++ alpnData)).

Definition reservedTypes : list Z := [0x00ff; 0x1234; 0x5678; 0x9abc; 0xfe00; 0xffff].
Definition unknown_type (i : Z) : Z :=
  if i <? 9 then nth (Z.to_nat i) commonExtensions 0 else nth (Z.to_nat (i mod 6)) reservedTypes 0.
Definition addUnknownExtensions `{Family} (r : mutation_draws) (packet : bytes) (count : Z) : go bytes :=
  let! unknown := counted count (λ i, extension (unknown_type i) (random_bytes (m_unknown r i) 4)) in
  insertExtensions packet unknown.

Definition addCommonExtensions `{Family} (packet : bytes) : go bytes :=
  let groups := [0x00;0x0a; 0x00;0x08; 0x00;0x06; 0x00;0x1d; 0x00;0x17; 0x00;0x18] in
  let sigAlgs := [0x00;0x0d; 0x00;0x0e; 0x00;0x0c; 0x04;0x03; 0x05;0x03; 0x06;0x03; 0x04;0x01; 0x05;0x01; 0x06;0x01] in
  let versions := [0x00;0x2b; 0x00;0x05; 0x04; 0x03;0x04; 0x03;0x03] in
  let ticket := [0x00;0x23; 0x00;0x00] in
  insertExtensions packet (groups ++ sigAlgs ++ versions ++ ticket).

Definition insert_if_room `{Family} (packet ext : bytes) : go bytes :=
  if len packet + len ext <=? MaxTCPPacketSize then insertExtensions packet ext else Ret packet.

Definition addAdvancedMutations `{Family} (r : mutation_draws) (packet : bytes) : go bytes :=
  let pskModes := [0x00;0x2d; 0x00;0x02; 0x01; 0x01] in
  let keyShare := [0x00;0x33; 0x00;0x26; 0x00;0x24; 0x00;0x1d; 0x00;0x20] ++ random_bytes (m_key r) 32 in
  let statusReq := [0x00;0x05; 0x00;0x05; 0x01; 0x00;0x00; 0x00;0x00] in
  let! mutated := insert_if_room packet pskModes in
  let! mutated := insert_if_room mutated keyShare in
  insert_if_room mutated statusReq.

Definition fullMutation `{Family} (r : mutation_draws) (packet : bytes) (cfg : SNIMutationConfig) : go bytes :=
  let! mutated := duplicateSNI packet cfg in
  if MaxTCPPacketSize <? len mutated then Ret packet else
  let! mutated := addCommonExtensions mutated in
  if MaxTCPPacketSize <? len mutated then duplicateSNI packet cfg else
  let! mutated := addAdvancedMutations r mutated in
  let! mutated :=
    (if MaxTCPPacketSize <? len mutated
     then let! m := duplicateSNI packet cfg in addCommonExtensions m
     else Ret mutated) in
  let! mutated := addGREASE r mutated cfg in
  let! mutated := addFakeALPN mutated in
  let! mutated := addUnknownExtensions r mutated (FakeExtCount cfg) in
  let! mutated := reorderExtensions r mutated in
  addPadding mutated cfg.

(** A nil configuration is the mode "off". *)
Definition MutateClientHello `{Family} (cfg : SNIMutationConfig) (r : mutation_draws) (packet : bytes)
    : go bytes :=
  if bool_decide (Mode cfg = "off"%string) then Ret packet else
  if too_short packet then Ret packet else
  let! (ipHdrLen, tcpHdrLen) := headers packet in
  let payloadStart := ipHdrLen + tcpHdrLen in
  if len packet <=? payloadStart + 5 then Ret packet else
  let! payload := slice_from packet payloadStart in
  let! b0 := idx payload 0 in
  let! b1 := idx payload 1 in
  if negb (b0 =? 22) || negb (b1 =? 3) then Ret packet else
  let! recordLen := be16 payload 3 in
  if len payload <? 5 + recordLen then Ret packet else
  let! b5 := (if len payload <? 6 then Ret 0 else idx payload 5) in
  if (len payload <? 6) || negb (b5 =? 1) then Ret packet else
  if bool_decide (Mode cfg = "duplicate"%string) then duplicateSNI packet cfg
  else if bool_decide (Mode cfg = "grease"%string) then addGREASE r packet cfg
  else if bool_decide (Mode cfg = "padding"%string) then addPadding packet cfg
  else if bool_decide (Mode cfg = "reorder"%string) then reorderExtensions r packet
  else if bool_decide (Mode cfg = "full"%string) then fullMutation r packet cfg
  else if bool_decide (Mode cfg = "advanced"%string) then addAdvancedMutations r packet
  else Ret packet.

Definition MutateClientHelloV4 := @MutateClientHello IPv4.
Definition MutateClientHelloV6 := @MutateClientHello IPv6.
Definition insertExtensionsv6 := @insertExtensions IPv6.
Definition replaceExtensionsv6 := @replaceExtensions IPv6.
Definition reorderExtensionsv6 := @reorderExtensions IPv6.
Definition duplicateSNIv6 := @duplicateSNI IPv6.
Definition addGREASEv6 := @addGREASE IPv6.
Definition addPaddingv6 := @addPadding IPv6.
Definition fullMutationv6 := @fullMutation IPv6.
Definition addFakeALPNv6 := @addFakeALPN IPv6.
Definition addUnknownExtensionsv6 := @addUnknownExtensions IPv6.
Definition addCommonExtensionsv6 := @addCommonExtensions IPv6.
Definition addAdvancedMutationsv6 := @addAdvancedMutations IPv6.

(** ** Reference: a payload with other extensions *)

(** The record and the handshake length of a ClientHello that takes all of [d]. *)
Definition hello_lengths (d : bytes) : bytes :=
  let d := if (5 <=? len d) && (get d 0 =? 22) then splice d 3 (bytes16 (u16 (len d - 5))) else d in
  if (9 <=? len d) && (get d 0 =? 22) && (get d 5 =? 1)
  then splice d 6 [u8 (Z.shiftr (len d - 9) 16); u8 (Z.shiftr (len d - 9) 8); u8 (len d - 9)] else d.

(** [d] with [x] in place of the [n] bytes of extensions whose length is at [k]. *)
Definition replaced (d : bytes) (k n : Z) (x : bytes) : bytes :=
  sub d 0 k ++ bytes16 (len x) ++ x ++ sub d (k + 2 + n) (len d).

(** Where the extensions of [d] are. *)
Definition ext_at (d : bytes) (k : Z) : Prop :=
  let a := 44 + get d 43 in
  let b := a + 2 + get16 d a in
  k = b + 1 + get d b ∧ k + 2 <= len d.

Lemma wp_findExtensionsOffset d : bytes_ok d →
  wp (findExtensionsOffset d) (λ k, k = -1 ∨ 46 <= k ∧ ext_at d k).
Proof.
  intros Hok. unfold findExtensionsOffset, ext_at. cbv zeta.
  repeat (wp_step; [by apply wp_ret; left|]; repeat (wp_step; []; read_ranges Hok)).
  apply wp_ret. right. znorm. 
  replace (43 + (1 + get d 43)) with (44 + get d 43) in * by lia.
  replace (44 + get d 43 + (2 + get16 d (44 + get d 43))) with (44 + get d 43 + 2 + get16 d (44 + get d 43)) in * by lia.
  zlia.
Qed.

Lemma ext_at_inj d k k' : ext_at d k → ext_at d k' → k = k'.
Proof. intros [-> _] [-> _]. done. Qed.

Lemma ext_at_ge d k : bytes_ok d → ext_at d k → 47 <= k.
Proof.
  intros Hok [-> _]. pose proof (get16_range d (44 + get d 43) Hok).
  pose proof (bytes_ok_get d 43 Hok) as H1. unfold is_byte in H1.
  pose proof (bytes_ok_get d (44 + get d 43 + 2 + get16 d (44 + get d 43)) Hok) as H2. unfold is_byte in H2. lia.
Qed.

(** The offset is where [ext_at] says, when there is one. *)
Lemma findExtensionsOffset_at d k : bytes_ok d → ext_at d k → findExtensionsOffset d = Ret k.
Proof.
  intros Hok [Hk Hl]. unfold findExtensionsOffset. cbv zeta. znorm. apply wp_eq.
  pose proof (bytes_ok_get d 43 Hok). set (s := get d 43) in *.
  pose proof (get16_range d (44 + s) Hok). set (c := get16 d (44 + s)) in *.
  pose proof (bytes_ok_get d (44 + s + 2 + c) Hok). set (m := get d (44 + s + 2 + c)) in *.
  unfold is_byte in *. wp_step; [zlia|]. wp_step; [zlia|]. do 2 wp_step. fold s.
  wp_step; [zlia|]. replace (43 + (1 + s)) with (44 + s) by lia. wp_step; [zlia|]. do 2 wp_step. fold c.
  wp_step; [zlia|]. replace (44 + s + (2 + c)) with (44 + s + 2 + c) by lia. wp_step; [zlia|].
  do 2 wp_step. fold m. wp_step; [zlia|]. wp_step; [zlia|]. apply wp_ret. lia.
Qed.

Section rewriting.
Context {F : Family} {R : Receiver}.
Implicit Types (p q l d x : bytes) (sq : Z).

Lemma wp_ready_upd p sq d l i v : captured p → ready p sq d l → 0 <= i → i < len d → is_byte v →
  wp (upd l (off p + i) v) (ready p sq (<[Z.to_nat i := v]> d)).
Proof.
  intros Hc [(Hl & Hlen & Hsq & H1 & H2 & H3 & H4) Ht] Hi Hid Hv. pose proof (captured_range p Hc).
  pose proof len_at_range. wp_step.
  split; [split_and!; [auto with b4|len_lia|lia|lia|..]|].
  - intros k Hk. gets. auto.
  - intros k Hk Hn. gets. auto.
  - gets. done.
  - intros k Hk. rewrite len_insert in Hk. gets; auto.
  - rewrite len_insert, <- Ht. unfold total. f_equal. apply get16_eq; gets; done.
Qed.

Lemma ready_splice p sq d l i s : captured p → ready p sq d l → 0 <= i → i + len s <= len d → bytes_ok s →
  ready p sq (splice d i s) (splice l (off p + i) s).
Proof.
  intros Hc [(Hl & Hlen & Hsq & H1 & H2 & H3 & H4) Ht] Hi Hid Hv. pose proof (captured_range p Hc).
  pose proof len_at_range.
  split; [split_and!; [auto with b4|len_lia|lia|lia|..]|].
  - intros k Hk. gets. auto.
  - intros k Hk Hn. gets. auto.
  - gets. done.
  - intros k Hk. revert Hk. len_simp. intros Hk. gets; auto. f_equal. lia.
  - rewrite len_splice, <- Ht by lia. unfold total. f_equal. apply get16_eq; gets; done.
Qed.

Lemma ready_get p sq d l k : ready p sq d l → 0 <= k < len d → get l (off p + k) = get d k.
Proof. intros [(_ & _ & _ & _ & _ & _ & H) _]. apply H. Qed.

Lemma ready_len p sq d l : ready p sq d l → bytes_ok l ∧ len l = off p + len d.
Proof. intros [(H1 & H2 & _) _]. done. Qed.

Lemma wp_tls_lengths p sq d l : captured p → ready p sq d l →
  wp (tls_lengths l (off p) (len d)) (ready p sq (hello_lengths d)).
Proof.
  intros Hc Hr. pose proof (captured_range p Hc). pose proof (ready_len _ _ _ _ Hr) as [Hok Hl].
  unfold tls_lengths, hello_lengths. wp_step.
  set (d1 := if (5 <=? len d) && _ then _ else d).
  assert (len d1 = len d) as Hd1 by (unfold d1; case_if; [len_simp; zlia|done]).
  apply (wp_mono _ (ready p sq d1)).
  { unfold d1. destruct (5 <=? len d) eqn:E; cbn [andb]; [|by apply wp_ret]. do 2 wp_step.
    rewrite <- (Z.add_0_r (off p)), (ready_get p sq d l 0 Hr) by zlia.
    wp_step; [|by apply wp_ret]. wp_step. rewrite Z.add_0_r. apply ready_splice; [done|done|lia|len_simp; zlia|auto with b4]. }
  clear l Hr Hok Hl. intros l Hr. pose proof (ready_len _ _ _ _ Hr) as [Hok Hl]. rewrite Hd1 in *.
  destruct (9 <=? len d) eqn:E; cbn [andb]; [|by apply wp_ret]. do 2 wp_step.
  rewrite <- (Z.add_0_r (off p)) at 1. rewrite (ready_get p sq d1 l 0 Hr) by zlia.
  destruct (get d1 0 =? 22) eqn:E0; cbn [negb andb]; [|by apply wp_ret]. do 2 wp_step.
  rewrite (ready_get p sq d1 l 5 Hr) by zlia.
  destruct (get d1 5 =? 1) eqn:E5; cbn [negb]; [|by apply wp_ret]. cbv zeta.
  wp_step. eapply wp_mono; [apply (wp_ready_upd _ _ _ _ 6 _ Hc Hr); [lia|zlia|apply is_byte_u8]|]. intros l1 H1.
  wp_step. eapply wp_mono; [apply (wp_ready_upd _ _ _ _ 7 _ Hc H1); [lia|len_simp; zlia|apply is_byte_u8]|]. intros l2 H2.
  eapply wp_mono; [apply (wp_ready_upd _ _ _ _ 8 _ Hc H2); [lia|len_simp; zlia|apply is_byte_u8]|]. intros l3 H3.
  match goal with H : ready p sq ?a l3 |- ready p sq ?b l3 => replace b with a; [done|] end.
  apply list_ext_get; [len_simp; zlia|]. intros k Hk. revert Hk. len_simp. intros Hk.
  gets; try done; rewrite ?get_cons, ?get_nil; zcases; done.
Qed.
End rewriting.

(** The version nibble, by which [updatePacketLengths] picks the family. *)
Class Rewriter {F : Family} {R : Receiver} := {
  version_ok : bytes → Prop;
  long_enough p : captured p → too_short p = false;
  version_stable p q : version_ok p → get q 0 = get p 0 → version_ok q;
  version_of p : Z.shiftr (get p 0) 4 = (if is_v6 then 6 else 4) → version_ok p;
  ip_len p : captured p → ip_header_len p is_v6 = Ret (hdr p);
  update_law p l : captured p → version_ok p → bytes_ok l → off p <= len l →
    hdr l = hdr p → off l = off p → get l 0 = get p 0 →
    updatePacketLengths l =
      (let! l' := set_len l (len l) in
       let! l' := tls_lengths l' (off p) (len l - off p) in
       fix_segment l' (hdr p)) }.

#[export, refine] Instance Rewriter4 : @Rewriter IPv4 _ := {| version_ok p := Z.shiftr (get p 0) 4 ≠ 6 |}.
Proof.
  - done.
  - intros p q Hp ->. done.
  - cbn. by intros p ->.
  - intros p Hc. pose proof (captured_range p Hc) as (Hr1 & Hr2 & _). pose proof Hc as (Hok & _ & _ & Hl & _).
    unfold ip_header_len. cbn [is_v6 IPv4]. cbn in *. rewrite idx_ret by lia. cbn [go_bind]. by rewrite u8_ihl4.
  - intros p l Hc Hv Hok Hlen Hh Ho H0. pose proof (captured_range p Hc) as (Hr1 & Hr2 & _).
    cbn [hdr Receiver4] in *. destruct (ihl4_range l Hok) as [Hr3 _].
    pose proof (nibble_range _ (bytes_ok_get l (ihl4 l + 12) Hok)) as Hn.
    unfold updatePacketLengths. destruct (len l <? 1) eqn:E1; [zlia|].
    assert (idx l 0 = Ret (get l 0)) as -> by (unfold idx; zcases; done). cbn [go_bind].
    rewrite H0. destruct (Z.shiftr (get p 0) 4 =? 6) eqn:E2; [zlia|]. rewrite <- H0, u8_ihl4 by done. cbv zeta.
    destruct (len l <? ihl4 l + 20) eqn:E3; [zlia|].
    assert (idx l (ihl4 l + 12) = Ret (get l (ihl4 l + 12))) as -> by (unfold idx; zcases; done). cbn [go_bind].
    rewrite u8_small by (unfold is_byte; lia).
    replace (ihl4 l + Z.shiftr (get l (ihl4 l + 12)) 4 * 4) with (off4 p) by (rewrite <- Ho; done).
    unfold set_len. cbn [len_at len_base IPv4 fix_segment]. rewrite Z.sub_0_r, Hh. done.
Defined.

#[export, refine] Instance Rewriter6 : @Rewriter IPv6 _ := {| version_ok p := Z.shiftr (get p 0) 4 = 6 |}.
Proof.
  - intros p Hc. pose proof (captured_range p Hc) as (_ & H1 & _). destruct Hc as (_ & _ & _ & Hl & _).
    cbn in H1. unfold too_short. cbn [is_v6 IPv6 andb]. zlia.
  - intros p q Hp ->. done.
  - cbn. by intros p ->.
  - done.
  - intros p l Hc Hv Hok Hlen Hh Ho H0. pose proof (captured_range p Hc) as (Hr1 & Hr2 & _).
    cbn [hdr Receiver6] in *.
    pose proof (nibble_range _ (bytes_ok_get l (40 + 12) Hok)) as Hn.
    unfold updatePacketLengths. destruct (len l <? 1) eqn:E1; [zlia|].
    assert (idx l 0 = Ret (get l 0)) as -> by (unfold idx; zcases; done). cbn [go_bind].
    rewrite H0, Hv. cbn [Z.eqb Pos.eqb]. cbv zeta.
    destruct (len l <? 40 + 20) eqn:E3; [zlia|].
    assert (idx l (40 + 12) = Ret (get l (40 + 12))) as -> by (unfold idx; zcases; done). cbn [go_bind].
    rewrite u8_small by (unfold is_byte; lia).
    replace (40 + Z.shiftr (get l (40 + 12)) 4 * 4) with (off6 p) by (rewrite <- Ho; done).
    unfold set_len. cbn [len_at len_base IPv6 fix_segment]. done.
Defined.

Section mutation.
Context {F : Family} {R : Receiver} {Rd : Reader} {Rw : Rewriter}.
Implicit Types (p q l d x : bytes) (sq : Z).

Lemma wp_update p sq d l : captured p → version_ok p → draft p sq d l → len l <= 65535 + len_base →
  wp (updatePacketLengths l) (seg_of p sq (hello_lengths d)).
Proof.
  intros Hc Hv Hd Hsz. pose proof Hd as (Hok & Hlen & _ & _ & Hhdr & _). pose proof (captured_range p Hc).
  destruct (header_off p l Hc Hhdr) as (Hh & _ & Ho).
  rewrite (update_law p l Hc Hv Hok); [|lia|done|done|].
  2:{ apply Hhdr; [lia|]. apply not_rewritten. split_and!; [intros Hin%fields_low; lia|lia..]. }
  replace (len l - off p) with (len d) by lia.
  wp_step. eapply wp_mono; [by apply (wp_draft_len _ _ _ _ _ Hc Hd)|]. intros l1 H1.
  wp_step. eapply wp_mono; [by apply (wp_tls_lengths _ _ _ _ Hc H1)|]. intros l2 H2.
  by apply wp_ready_fix.
Qed.

Lemma payload_get p k : captured p → 0 <= k → get (payload_of p) k = get p (off p + k).
Proof.
  intros Hc Hk. pose proof (captured_range p Hc). destruct Hc as (_ & _ & _ & Hl & _).
  unfold payload_of. rewrite get_sub by lia. case_if; [done|]. symmetry. apply get_over. zlia.
Qed.

(** What [ext_position] finds: the extensions of the payload, if they are all there. *)
Definition exts_of p (o : option (Z * Z)) : Prop :=
  match o with
  | None => ∀ k, ext_at (payload_of p) k → len (payload_of p) < k + 2 + get16 (payload_of p) k
  | Some (pos, n) => ∃ k, pos = off p + k ∧ 46 <= k ∧ ext_at (payload_of p) k
      ∧ n = get16 (payload_of p) k ∧ k + 2 + n <= len (payload_of p)
  end.

Lemma wp_ext_position p : captured p → wp (ext_position p) (exts_of p).
Proof using Rd Rw.
  intros Hc. pose proof (captured_range p Hc) as Hr. pose proof (payload_len p Hc) as Hpl.
  pose proof Hc as (Hok & _ & _ & Hl & _).
  assert (bytes_ok (payload_of p)) as Hokp by auto with b4.
  unfold ext_position. rewrite long_enough, headers_law by done. cbn [go_bind]. cbv zeta.
  rewrite Zplus_minus. do 2 wp_step. fold (payload_of p). wp_step.
  eapply wp_mono; [by apply wp_self, wp_findExtensionsOffset|]. intros k [Hk Hrun].
  destruct (k <? 0) eqn:E.
  { apply wp_ret. intros k' Hk'. rewrite (findExtensionsOffset_at _ k') in Hrun by done.
    injection Hrun as ->. destruct Hk' as [-> _].
    pose proof (get16_range (payload_of p) (44 + get (payload_of p) 43) Hokp).
    read_ranges Hokp. zlia. }
  destruct Hk as [->|[Hk Hat]]; [done|]. pose proof Hat as [_ Hkl].
  wp_step; [zlia|]. do 2 wp_step.
  assert (get16 p (off p + k) = get16 (payload_of p) k) as ->.
  { apply get16_eq; rewrite payload_get by (done || lia); f_equal; lia. }
  wp_step; apply wp_ret.
  - intros k' Hk'. destruct Hat as [-> _], Hk' as [-> _]. zlia.
  - exists k. split_and!; try done. zlia.
Qed.

(** A packet as the rewriting leaves it: the payload [d] for [p]'s. *)
Lemma wp_rewritten p l d : captured p → version_ok p → bytes_ok l → bytes_ok d →
  len l = off p + len d → len l <= 65535 + len_base →
  (∀ k, 0 <= k < off p → get l k = get p k) → (∀ k, 0 <= k < len d → get l (off p + k) = get d k) →
  wp (updatePacketLengths l) (seg_of p (seq_no p) (hello_lengths d)).
Proof using Rw.
  intros Hc Hv Hl Hd Hlen Hsz Hh Hdata. by apply wp_update; [done|done|apply draft_init|].
Qed.

Lemma len_replaced d k n x : 0 <= k → 0 <= n → k + 2 + n <= len d →
  len (replaced d k n x) = len d - n + len x.
Proof. intros. unfold replaced. len_simp; lia. Qed.

Lemma bytes_ok_replaced d k n x : bytes_ok d → bytes_ok x → bytes_ok (replaced d k n x).
Proof. intros. unfold replaced. auto 10 with b4. Qed.

(** The bytes inserted, cut to the packet's maximal size. *)
Definition fitting p x : bytes :=
  if MaxTCPPacketSize <? len p + len x then sub x 0 (MaxTCPPacketSize - len p) else x.

Lemma wp_insertExtensions p x : captured p → version_ok p → bytes_ok x → len p <= 65535 →
  wp (insertExtensions p x) (λ q,
    (q = p ∧ (MaxTCPPacketSize <= len p ∧ MaxTCPPacketSize < len p + len x
      ∨ ∀ k, ext_at (payload_of p) k → len (payload_of p) < k + 2 + get16 (payload_of p) k))
    ∨ ∃ k, ext_at (payload_of p) k ∧ let n := get16 (payload_of p) k in
      k + 2 + n <= len (payload_of p)
      ∧ len p + len (fitting p x) <= Z.max (len p) MaxTCPPacketSize
      ∧ seg_of p (seq_no p) (hello_lengths (replaced (payload_of p) k n
          (sub (payload_of p) (k + 2) (k + 2 + n) ++ fitting p x))) q).
Proof using Rd Rw.
  intros Hc Hv Hx Hsz. pose proof (captured_range p Hc) as Hr. pose proof (payload_len p Hc) as Hpl.
  pose proof Hc as (Hok & _ & _ & Hl & _). assert (bytes_ok (payload_of p)) as Hokp by auto with b4.
  unfold insertExtensions. wp_step. eapply wp_mono; [by apply wp_ext_position|].
  intros [[pos n]|] Hpos; [|apply wp_ret; left; auto].
  destruct Hpos as (k & -> & Hk & Hat & -> & Hn). pose proof (get16_range (payload_of p) k Hokp) as Hn0.
  set (n := get16 (payload_of p) k) in *. cbv zeta. unfold MaxTCPPacketSize in *.
  wp_step; [apply wp_ret; left; split; [done|left; zlia]|].
  assert (len p + len (fitting p x) <= Z.max (len p) 1460 ∧ bytes_ok (fitting p x)) as [Hfit Hokf].
  { unfold fitting, MaxTCPPacketSize. case_if; [|split; [zlia|done]]. split; [len_simp; zlia|auto with b4]. }
  wp_step. apply (wp_mono _ (λ y, y = fitting p x)).
  { unfold fitting, MaxTCPPacketSize. destruct (1460 <? len p + len x) eqn:E; [|by apply wp_ret].
    wp_step. done. }
  intros y ->. set (y := fitting p x) in *. clearbody y.
  do 14 wp_step. rewrite !take_ge_len by len_lia. rewrite (u16_small (n + len y)) by len_lia.
  match goal with |- wp (go_bind (if _ then _ else Ret ?l) _) _ => set (l0 := l) end.
  set (tail := sub (payload_of p) (k + 2 + n) (len (payload_of p))).
  assert (len l0 = len p + len y) as Hl0 by (unfold l0; len_simp; lia).
  apply wp_bind, (wp_mono _ (λ l, l = splice l0 (off p + k + 2 + n + len y) tail)).
  { destruct (off p + k + 2 + n <? len p) eqn:E.
    - do 3 wp_step. rewrite take_ge_len by len_lia. f_equal. unfold tail.
      rewrite payload_sub by (done || lia). f_equal; lia.
    - apply wp_ret. unfold tail. replace (k + 2 + n) with (len (payload_of p)) by zlia. rewrite sub_nil.
      unfold splice. cbn. rewrite Nat.add_0_r. by rewrite take_drop. }
  intros l ->. assert (len tail = len p - (off p + k + 2 + n)) as Hlt by (unfold tail; len_simp; lia).
  assert (bytes_ok tail) as Hokt by (unfold tail; auto with b4).
  eapply wp_mono; [apply (wp_rewritten p _ (replaced (payload_of p) k n
    (sub (payload_of p) (k + 2) (k + 2 + n) ++ y))); [done|done|..]|].
  - unfold l0. auto 14 with b4.
  - apply bytes_ok_replaced; auto with b4.
  - rewrite len_replaced by lia. rewrite len_splice by lia. len_simp; lia.
  - rewrite len_splice by lia. lia.
  - intros i Hi. unfold l0. gets. f_equal; lia.
  - intros i Hi. rewrite len_replaced in Hi by lia. revert Hi. len_simp; [|lia..]. intros Hi.
    unfold replaced, l0, tail. rewrite !payload_sub by (done || lia).
    gets; try done; f_equal; try lia; f_equal; lia.
  - intros q Hq. right. exists k. split; [done|]. cbv zeta. split_and!; done.
Qed.

Lemma wp_replaceExtensions p x : captured p → version_ok p → bytes_ok x →
  wp (replaceExtensions p x) (λ q,
    (q = p ∧ ∀ k, ext_at (payload_of p) k → let n := get16 (payload_of p) k in
      len (payload_of p) < k + 2 + n ∨ MaxTCPPacketSize < len p - n + len x)
    ∨ ∃ k, ext_at (payload_of p) k ∧ let n := get16 (payload_of p) k in
      k + 2 + n <= len (payload_of p) ∧ len p - n + len x <= MaxTCPPacketSize
      ∧ seg_of p (seq_no p) (hello_lengths (replaced (payload_of p) k n x)) q).
Proof using Rd Rw.
  intros Hc Hv Hx. pose proof (captured_range p Hc) as Hr. pose proof (payload_len p Hc) as Hpl.
  pose proof Hc as (Hok & _ & _ & Hl & _). assert (bytes_ok (payload_of p)) as Hokp by auto with b4.
  unfold replaceExtensions. wp_step. eapply wp_mono; [by apply wp_ext_position|].
  intros [[pos n]|] Hpos; [|apply wp_ret; left; split; [done|intros k Hk; left; by apply Hpos]].
  destruct Hpos as (k & -> & Hk & Hat & -> & Hn). pose proof (get16_range (payload_of p) k Hokp) as Hn0.
  set (n := get16 (payload_of p) k) in *. cbv zeta. unfold MaxTCPPacketSize in *.
  wp_step; [apply wp_ret; left; split; [done|intros k' Hk'; rewrite <- (ext_at_inj _ _ _ Hat Hk'); right; zlia]|].
  do 10 wp_step. rewrite !take_ge_len by len_lia. rewrite (u16_small (len x)) by zlia.
  match goal with |- wp (go_bind (if _ then _ else Ret ?l) _) _ => set (l0 := l) end.
  set (tail := sub (payload_of p) (k + 2 + n) (len (payload_of p))).
  assert (len l0 = len p - n + len x) as Hl0 by (unfold l0; len_simp; lia).
  apply wp_bind, (wp_mono _ (λ l, l = splice l0 (off p + k + 2 + len x) tail)).
  { destruct (off p + k + 2 + n <? len p) eqn:E.
    - do 3 wp_step. rewrite take_ge_len by len_lia. f_equal. unfold tail.
      rewrite payload_sub by (done || lia). f_equal; lia.
    - apply wp_ret. unfold tail. replace (k + 2 + n) with (len (payload_of p)) by zlia. rewrite sub_nil.
      unfold splice. cbn. rewrite Nat.add_0_r. by rewrite take_drop. }
  intros l ->. assert (len tail = len p - (off p + k + 2 + n)) as Hlt by (unfold tail; len_simp; lia).
  assert (bytes_ok tail) as Hokt by (unfold tail; auto with b4).
  eapply wp_mono; [apply (wp_rewritten p _ (replaced (payload_of p) k n x)); [done|done|..]|].
  - unfold l0. auto 14 with b4.
  - by apply bytes_ok_replaced.
  - rewrite len_replaced by lia. rewrite len_splice by lia. len_simp; lia.
  - rewrite len_splice by lia. zlia.
  - intros i Hi. unfold l0. gets. f_equal; lia.
  - intros i Hi. rewrite len_replaced in Hi by lia.
    unfold replaced, l0, tail. rewrite !payload_sub by (done || lia).
    gets; try done; f_equal; lia.
  - intros q Hq. right. exists k. split; [done|]. cbv zeta. split_and!; [done|zlia|done].
Qed.

(** ** What a mutation leaves of the packet *)

(** [q] is [p] or a valid segment of its connection at the same place of the
    stream, that has [p]'s headers, more than a record header of data, and does not
    exceed the maximal size. *)
Definition mutated p q : Prop :=
  (q = p ∨ seg_of p (seq_no p) (payload_of q) q ∧ 5 < len (payload_of q)) ∧ len q <= Z.max (len p) MaxTCPPacketSize.

Lemma seg_of_payload p d q : captured p → seg_of p (seq_no p) d q →
  len q <= 65535 + len_base → captured q ∧ payload_of q = d ∧ seq_no q = seq_no p ∧ off q = off p.
Proof.
  intros Hc ((Hok & Ht & Hs) & Hv & Hl & Hh & Hhok & Hsame & _) Hsz.
  pose proof (captured_range p Hc). destruct (header_off p q Hc Hsame) as (_ & _ & Ho).
  unfold view in Hv. rewrite Ht in Hv. injection Hv as Hq Hd.
  split_and!; [|done..]. unfold captured. split_and!; [done|done|lia..].
Qed.

Lemma mutated_refl p : mutated p p.
Proof. split; [by left|lia]. Qed.

Lemma mutated_seg p d q : captured p → len p <= 65535 → seg_of p (seq_no p) d q →
  5 < len d → len q <= Z.max (len p) MaxTCPPacketSize → mutated p q ∧ payload_of q = d.
Proof.
  intros Hc Hsz Hq Hd Hl. pose proof (captured_range p Hc). unfold MaxTCPPacketSize in *.
  destruct (seg_of_payload p d q Hc Hq) as (_ & Hp & _); [lia|].
  split; [|done]. split; [right; by rewrite Hp|done].
Qed.

(** A mutated packet can be mutated again. *)
Lemma mutated_next p q : captured p → version_ok p → len p <= 65535 → mutated p q →
  captured q ∧ version_ok q ∧ len q <= 65535 ∧ seq_no q = seq_no p ∧ off q = off p.
Proof.
  intros Hc Hv Hsz [[->|[Hq _]] Hl]; [done|]. pose proof (captured_range p Hc). unfold MaxTCPPacketSize in *.
  destruct (seg_of_payload p _ q Hc Hq) as (H1 & _ & H2 & H3); [lia|]. split_and!; [done| |lia|done|done].
  apply (version_stable p); [done|]. destruct Hq as (_ & _ & _ & _ & _ & Hsame & _). apply Hsame; [lia|].
  apply not_rewritten. split_and!; [intros Hin%fields_low; lia|lia..].
Qed.

Lemma mutated_trans p q f : captured p → version_ok p → len p <= 65535 →
  mutated p q → mutated q f → mutated p f.
Proof.
  intros Hc Hv Hsz Hpq [Hqf Hl]. pose proof (mutated_next p q Hc Hv Hsz Hpq) as (_ & _ & _ & Hs & _).
  destruct Hpq as [Hpq Hlq]. split; [|lia]. destruct Hqf as [->|[Hqf Hlf]]; [done|]. right.
  rewrite Hs in Hqf. split; [|done]. destruct Hpq as [->|[Hpq _]]; [done|]. by eapply seg_of_trans.
Qed.

(** Running a mutation on a mutated packet. *)
Lemma wp_then p (m : go bytes) (f : bytes → go bytes) :
  captured p → version_ok p → len p <= 65535 → wp m (mutated p) →
  (∀ q, captured q → version_ok q → len q <= 65535 → wp (f q) (mutated q)) →
  wp (go_bind m f) (mutated p).
Proof.
  intros Hc Hv Hsz Hm Hf. apply wp_bind. eapply wp_mono; [exact Hm|]. intros q Hq.
  destruct (mutated_next p q Hc Hv Hsz Hq) as (H1 & H2 & H3 & _).
  eapply wp_mono; [by apply Hf|]. intros f' Hf'. by eapply mutated_trans.
Qed.

Lemma len_hello_lengths d : len (hello_lengths d) = len d.
Proof.
  unfold hello_lengths. set (d1 := if (5 <=? len d) && _ then _ else d).
  assert (len d1 = len d) as Hd by (unfold d1; case_if; [len_simp; zlia|done]).
  rewrite Hd. case_if; [|done]. len_simp; zlia.
Qed.

Lemma wp_insert p x : captured p → version_ok p → len p <= 65535 → bytes_ok x →
  wp (insertExtensions p x) (mutated p).
Proof using Rd Rw.
  intros Hc Hv Hsz Hx. eapply wp_mono; [by apply wp_insertExtensions|].
  pose proof (payload_len p Hc) as Hpl. pose proof Hc as (Hok & _).
  pose proof (captured_range p Hc).
  intros q [[-> _]|(k & [Hk Hkl] & Hn & Hfit & Hq)]; [apply mutated_refl|].
  assert (bytes_ok (payload_of p)) as Hokp by auto with b4.
  pose proof (ext_at_ge _ k Hokp (conj Hk Hkl)). pose proof (get16_range (payload_of p) k Hokp).
  destruct (seg_of_len _ _ _ _ Hq) as (_ & Hlq & _).
  eapply mutated_seg; [done|done|exact Hq|..]; rewrite ?Hlq, len_hello_lengths, len_replaced by lia; len_simp; lia.
Qed.

Lemma wp_replace p x : captured p → version_ok p → len p <= 65535 → bytes_ok x →
  wp (replaceExtensions p x) (mutated p).
Proof using Rd Rw.
  intros Hc Hv Hsz Hx. eapply wp_mono; [by apply wp_replaceExtensions|].
  pose proof (payload_len p Hc) as Hpl. pose proof Hc as (Hok & _).
  pose proof (captured_range p Hc).
  intros q [[-> _]|(k & [Hk Hkl] & Hn & Hfit & Hq)]; [apply mutated_refl|].
  assert (bytes_ok (payload_of p)) as Hokp by auto with b4.
  pose proof (ext_at_ge _ k Hokp (conj Hk Hkl)). pose proof (get16_range (payload_of p) k Hokp).
  destruct (seg_of_len _ _ _ _ Hq) as (_ & Hlq & _).
  eapply mutated_seg; [done|done|exact Hq|..]; rewrite ?Hlq, len_hello_lengths, len_replaced by lia; len_simp; lia.
Qed.
End mutation.

(** ** Parsing extensions *)

(** An extension as the parser delimits it. *)
Definition ext_ok (e : bytes) : Prop := bytes_ok e ∧ 4 <= len e ∧ get16 e 2 = len e - 4.

Lemma wp_parse_ext_loop fuel data n pos acc :
  bytes_ok data → 0 <= pos → Forall bytes_ok acc → Z.max 0 (len data - pos) < Z.of_nat fuel →
  wp (parse_ext_loop fuel data n pos acc) (Forall bytes_ok).
Proof.
  intros Hok. revert pos acc. induction fuel as [|f IH]; intros pos acc Hp Ha Hf; [lia|].
  cbn [parse_ext_loop]. destruct ((pos <? 2 + n) && (pos + 4 <=? len data)) eqn:E; [|by apply wp_ret].
  wp_step; [by apply wp_ret|]. do 2 wp_step. read_ranges Hok. wp_step; [by apply wp_ret|].
  do 2 wp_step. apply IH; [zlia| |zlia]. apply Forall_app. split; [done|]. repeat constructor. auto with b4.
Qed.

Lemma wp_parseExtensions data : bytes_ok data → wp (parseExtensions data) (Forall bytes_ok).
Proof.
  intros Hok. unfold parseExtensions. wp_step; [apply wp_ret; constructor|]. do 2 wp_step.
  wp_step; [apply wp_ret; constructor|]. apply wp_parse_ext_loop; [done|lia|constructor|lia].
Qed.

Lemma parse_ext_loop_enc fuel es data n pos acc t :
  Forall ext_ok es → at_pos data pos (concat es ++ t) → 2 + n = pos + len (concat es) →
  (length es < fuel)%nat → parse_ext_loop fuel data n pos acc = Ret (acc ++ es).
Proof.
  revert pos acc fuel. induction es as [|e es IH]; intros pos acc fuel He Hat Hn Hf.
  - destruct fuel; [lia|]. cbn [parse_ext_loop concat] in *. cbn in Hn.
    destruct ((pos <? 2 + n) && _) eqn:E; [zlia|]. by rewrite app_nil_r.
  - apply Forall_cons_1 in He as [(Hok & H4 & H2) He]. destruct fuel; [cbn in Hf; lia|]. cbn [parse_ext_loop concat] in *.
    rewrite <- app_assoc in Hat. destruct (at_pos_len _ _ _ Hat) as [Hl Hp]. revert Hl Hn. rewrite !len_app. intros Hl Hn.
    destruct ((pos <? 2 + n) && _) eqn:E; [|zlia].
    destruct (2 + n <? pos + 4) eqn:E1; [zlia|].
    assert (be16 data (pos + 2) = Ret (len e - 4)) as ->.
    { unfold be16. case_if; [|zlia]. rewrite <- H2. f_equal. apply get16_eq;
        rewrite <- ?Z.add_assoc, (at_pos_get _ _ _ _ Hat), get_app by lia; (case_if; [done|zlia]). }
    cbn [go_bind]. case_if; [zlia|].
    rewrite (at_pos_slice _ _ _ _ _ Hat) by lia. cbn [go_bind].
    replace (pos + (4 + (len e - 4))) with (pos + len e) by lia.
    rewrite (IH (pos + len e)); [by rewrite <- app_assoc|done|by apply at_pos_app in Hat|lia|cbn in Hf; lia].
Qed.

(** Parsing inverts concatenation, whatever follows the list. *)
Lemma parseExtensions_enc es t : Forall ext_ok es → len (concat es) < 65536 →
  parseExtensions (bytes16 (len (concat es)) ++ concat es ++ t) = Ret es.
Proof.
  intros He Hl. unfold parseExtensions. set (data := _ ++ _).
  assert (len data = 2 + len (concat es) + len t) as Hd by (unfold data; len_simp; lia).
  pose proof (at_pos_start data) as Hat.
  destruct (len data <? 2) eqn:E; [zlia|]. unfold data in Hat at 2.
  rewrite (at_pos_be16 _ _ _ _ Hat) by lia. cbn [go_bind].
  destruct (len data <? 2 + len (concat es)) eqn:E1; [zlia|].
  apply at_pos_app in Hat. rewrite len_bytes16 in Hat.
  rewrite (parse_ext_loop_enc _ es _ _ _ [] t); [done|done|done|lia|].
  assert (length es <= length (concat es))%nat; [|lia].
  clear -He. induction He as [|e es (_ & H4 & _) He IH]; [done|]. cbn. rewrite length_app. lia.
Qed.

Lemma split_sni_ok es o acc : Forall bytes_ok es → Forall bytes_ok acc → from_option bytes_ok True o →
  let '(s, others) := split_sni es o acc in Forall bytes_ok others ∧ from_option bytes_ok True s.
Proof.
  intros He. revert o acc. induction He as [|e es Hok He IH]; intros o acc Ha Ho; cbn [split_sni]; [done|].
  destruct (is_sni e); [by apply IH|]. apply IH; [|done]. apply Forall_app. by repeat constructor.
Qed.

(** The server name kept is the last one; the others keep their order. *)
Lemma split_sni_spec es o acc : split_sni es o acc =
  (match last (filter (λ e, is_sni e = true) es) with Some s => Some s | None => o end,
   acc ++ filter (λ e, is_sni e = false) es).
Proof.
  revert o acc. induction es as [|e es IH]; intros o acc; cbn [split_sni].
  { by rewrite app_nil_r. }
  rewrite !filter_cons. destruct (is_sni e) eqn:E; rewrite IH.
  - rewrite decide_True, decide_False by congruence. f_equal.
    rewrite last_cons. by destruct (last _).
  - rewrite decide_False, decide_True by congruence. by rewrite <- app_assoc.
Qed.

(** ** Every mutation *)

Lemma bytes_ok_extension t d : bytes_ok d → bytes_ok (extension t d).
Proof. intros. unfold extension. auto with b4. Qed.

Lemma bytes_ok_concat (ls : list bytes) : Forall bytes_ok ls → bytes_ok (concat ls).
Proof. induction 1; cbn; [constructor|]. by apply bytes_ok_app. Qed.
#[local] Hint Resolve bytes_ok_extension bytes_ok_concat : b4.

Lemma wp_counted count f : 0 <= count → (∀ i, bytes_ok (f i)) → wp (counted count f) bytes_ok.
Proof.
  intros Hc Hf. unfold counted. wp_step; [zlia|]. apply wp_ret, bytes_ok_concat, Forall_map, Forall_true. auto.
Qed.

(** What the rewriting assumes of the configuration. *)
Definition mutation_ok (cfg : SNIMutationConfig) : Prop :=
  Forall bytes_ok (FakeSNIs cfg) ∧ 0 <= GreaseCount cfg ∧ 0 <= FakeExtCount cfg.

Section modes.
Context {F : Family} {R : Receiver} {Rd : Reader} {Rw : Rewriter}.
Implicit Types (p q l d x : bytes) (cfg : SNIMutationConfig) (r : mutation_draws).

Lemma wp_has_extensions p : captured p → wp (has_extensions p) (λ o, match o with
  | None => ∀ k, ¬ ext_at (payload_of p) k
  | Some rest => ∃ k, ext_at (payload_of p) k ∧ rest = sub (payload_of p) k (len (payload_of p))
  end).
Proof using Rd.
  intros Hc. pose proof (captured_range p Hc) as Hr. pose proof (payload_len p Hc) as Hpl.
  pose proof Hc as (Hok & _ & _ & Hl & _).
  assert (bytes_ok (payload_of p)) as Hokp by auto with b4.
  unfold has_extensions. rewrite headers_law by done. cbn [go_bind]. cbv zeta.
  rewrite Zplus_minus. do 2 wp_step. fold (payload_of p). wp_step.
  eapply wp_mono; [by apply wp_self, wp_findExtensionsOffset|]. intros k [Hk Hrun].
  destruct (k <? 0) eqn:E.
  { apply wp_ret. intros k' Hk'. rewrite (findExtensionsOffset_at _ k') in Hrun by done.
    injection Hrun as ->. apply ext_at_ge in Hk'; [zlia|done]. }
  destruct Hk as [->|[Hk Hat]]; [done|]. pose proof Hat as [_ Hkl].
  do 2 wp_step. apply wp_ret. exists k. split; [done|]. rewrite payload_sub by (done || lia). f_equal; lia.
Qed.

Lemma wp_duplicateSNI p cfg : captured p → version_ok p → len p <= 65535 → mutation_ok cfg →
  wp (duplicateSNI p cfg) (mutated p).
Proof using Rd Rw.
  intros Hc Hv Hsz (Hs & _). unfold duplicateSNI. wp_step.
  eapply wp_mono; [by apply wp_has_extensions|]. intros [rest|] _; [|apply wp_ret, mutated_refl].
  apply wp_insert; [done..|]. apply bytes_ok_concat, Forall_map. rewrite Forall_forall in Hs |- *.
  intros s Hin%list_elem_of_In%filter_In.
  assert (bytes_ok s) by (apply Hs, list_elem_of_In; apply Hin).
  apply bytes_ok_extension. rewrite !bytes_ok_app. split_and!; auto with b4.
Qed.

Lemma wp_addGREASE r p cfg : captured p → version_ok p → len p <= 65535 → mutation_ok cfg →
  wp (addGREASE r p cfg) (mutated p).
Proof using Rd Rw.
  intros Hc Hv Hsz (_ & Hg & _). unfold addGREASE. wp_step.
  eapply wp_mono; [apply wp_counted; [done|intros; auto with b4]|]. intros x Hx. by apply wp_insert.
Qed.

Lemma wp_addPadding p cfg : captured p → version_ok p → len p <= 65535 → wp (addPadding p cfg) (mutated p).
Proof using Rd Rw.
  intros Hc Hv Hsz. unfold addPadding. cbv zeta. wp_step; [apply wp_ret, mutated_refl|].
  apply wp_insert; auto with b4.
Qed.

Lemma wp_addFakeALPN p : captured p → version_ok p → len p <= 65535 → wp (addFakeALPN p) (mutated p).
Proof using Rd Rw.
  intros Hc Hv Hsz. apply wp_insert; [done..|]. apply bytes_okb_spec. vm_compute. done.
Qed.

Lemma wp_addUnknown r p n : captured p → version_ok p → len p <= 65535 → 0 <= n →
  wp (addUnknownExtensions r p n) (mutated p).
Proof using Rd Rw.
  intros Hc Hv Hsz Hn. unfold addUnknownExtensions. wp_step.
  eapply wp_mono; [apply wp_counted; [done|intros; auto with b4]|]. intros x Hx. by apply wp_insert.
Qed.

Lemma wp_addCommon p : captured p → version_ok p → len p <= 65535 → wp (addCommonExtensions p) (mutated p).
Proof using Rd Rw. intros Hc Hv Hsz. apply wp_insert; [done..|]. by apply bytes_okb_spec. Qed.

Lemma wp_insert_if_room p x : captured p → version_ok p → len p <= 65535 → bytes_ok x →
  wp (insert_if_room p x) (mutated p).
Proof using Rd Rw.
  intros. unfold insert_if_room. wp_step; [by apply wp_insert|apply wp_ret, mutated_refl].
Qed.

Lemma wp_addAdvanced r p : captured p → version_ok p → len p <= 65535 →
  wp (addAdvancedMutations r p) (mutated p).
Proof using Rd Rw.
  intros Hc Hv Hsz. unfold addAdvancedMutations. cbv zeta.
  apply wp_then; [done..|apply wp_insert_if_room; [done..|by apply bytes_okb_spec]|]. clear p Hc Hv Hsz. intros p Hc Hv Hsz.
  apply wp_then; [done..| |]; [apply wp_insert_if_room; [done..|]|].
  { apply bytes_ok_app. split; [by apply bytes_okb_spec|auto with b4]. }
  intros q Hq1 Hq2 Hq3. apply wp_insert_if_room; [done..|by apply bytes_okb_spec].
Qed.

Lemma wp_reorder r p : captured p → version_ok p → len p <= 65535 → wp (reorderExtensions r p) (mutated p).
Proof using Rd Rw.
  intros Hc Hv Hsz. pose proof Hc as (Hok & _). unfold reorderExtensions. wp_step.
  eapply wp_mono; [by apply wp_has_extensions|]. intros [rest|] Hrest; [|apply wp_ret, mutated_refl].
  destruct Hrest as (k & Hat & ->). wp_step. eapply wp_mono; [apply wp_parseExtensions; auto with b4|].
  intros es Hes. wp_step; [apply wp_ret, mutated_refl|].
  pose proof (split_sni_ok es None [] Hes ltac:(constructor) I) as Hsp.
  destruct (split_sni es None []) as [s others]. destruct Hsp as [Ho Hs].
  wp_step. eapply wp_mono; [apply wp_shuffle_all|]. intros others' Hp. cbv zeta.
  apply wp_replace; [done..|]. apply bytes_ok_app. split; [by destruct s; [|constructor]|].
  apply bytes_ok_concat. by rewrite Hp.
Qed.

Lemma wp_fullMutation r p cfg : captured p → version_ok p → len p <= 65535 → mutation_ok cfg →
  wp (fullMutation r p cfg) (mutated p).
Proof using Rd Rw.
  intros Hc Hv Hsz Hcfg. pose proof Hcfg as (_ & Hg & Hf). unfold fullMutation.
  wp_step. eapply wp_mono; [apply wp_self; by apply wp_duplicateSNI|]. intros q0 [Hq0 Hrun].
  wp_step; [apply wp_ret, mutated_refl|].
  destruct (mutated_next p q0 Hc Hv Hsz Hq0) as (Hc0 & Hv0 & Hsz0 & _).
  wp_step. eapply wp_mono; [by apply wp_addCommon|]. intros q1 Hq1.
  wp_step; [by apply wp_duplicateSNI|].
  assert (mutated p q1) as H1 by by eapply mutated_trans.
  destruct (mutated_next p q1 Hc Hv Hsz H1) as (Hc1 & Hv1 & Hsz1 & _).
  wp_step. eapply wp_mono; [by apply wp_addAdvanced|]. intros q2 Hq2.
  assert (mutated p q2) as H2 by by eapply mutated_trans.
  apply wp_then; [done..| |].
  { wp_step; [|by apply wp_ret]. apply wp_then; [done..|by apply wp_duplicateSNI|]. intros. by apply wp_addCommon. }
  clear -Hg Hf Hcfg Rd Rw. intros p Hc Hv Hsz.
  apply wp_then; [done..|by apply wp_addGREASE|]. clear p Hc Hv Hsz. intros p Hc Hv Hsz.
  apply wp_then; [done..|by apply wp_addFakeALPN|]. clear p Hc Hv Hsz. intros p Hc Hv Hsz.
  apply wp_then; [done..|by apply wp_addUnknown|]. clear p Hc Hv Hsz. intros p Hc Hv Hsz.
  apply wp_then; [done..|by apply wp_reorder|]. clear p Hc Hv Hsz. intros p Hc Hv Hsz. by apply wp_addPadding.
Qed.

Lemma wp_Mutate cfg r p : captured p → version_ok p → len p <= 65535 → mutation_ok cfg →
  wp (MutateClientHello cfg r p) (mutated p).
Proof using Rd Rw.
  intros Hc Hv Hsz Hcfg. pose proof (captured_range p Hc). pose proof (payload_len p Hc) as Hpl.
  pose proof Hc as (_ & _ & _ & Hl & _).
  assert (∀ b, wp (Ret p) (λ q, mutated p q) ∨ b = true) as Hsame by (intros; left; apply mutated_refl).
  unfold MutateClientHello. wp_step; [apply wp_ret, mutated_refl|].
  rewrite long_enough, headers_law by done. cbn [go_bind]. cbv zeta. rewrite Zplus_minus.
  wp_step; [apply wp_ret, mutated_refl|]. do 2 wp_step. fold (payload_of p). do 4 wp_step.
  wp_step; [apply wp_ret, mutated_refl|]. do 2 wp_step. wp_step; [apply wp_ret, mutated_refl|].
  wp_step. apply (wp_mono (A:=Z) _ (λ _, True)); [wp_step; [done|by wp_step]|]. intros b5 _.
  wp_step; [apply wp_ret, mutated_refl|].
  repeat wp_step; first [by apply wp_duplicateSNI|by apply wp_addGREASE|by apply wp_addPadding
    |by apply wp_reorder|by apply wp_fullMutation|by apply wp_addAdvanced|apply mutated_refl].
Qed.
End modes.

(** ** The extension list before and after *)

(** The payload of [p] is a ClientHello with the extensions [es]. *)
Definition has_exts `{Receiver} (p : bytes) (es : list bytes) : Prop :=
  ∃ k, ext_at (payload_of p) k ∧ Forall ext_ok es
    ∧ k + 2 + len (concat es) <= len (payload_of p) ∧ len (concat es) < 65536
    ∧ sub (payload_of p) k (k + 2 + len (concat es)) = bytes16 (len (concat es)) ++ concat es.

Lemma get_hello_lengths d i : 9 <= i → get (hello_lengths d) i = get d i.
Proof.
  intros Hi. unfold hello_lengths. set (d1 := if (5 <=? len d) && _ then _ else d).
  assert (get d1 i = get d i) as <- by (unfold d1; case_if; [gets|done]; done).
  assert (len d1 = len d) as Hd by (unfold d1; case_if; [len_simp; zlia|done]).
  clearbody d1. case_if; [|done]. rewrite get_splice by len_lia. change (len [_; _; _]) with 3. zcases. done.
Qed.

Lemma sub_hello_lengths d i j : 9 <= i → sub (hello_lengths d) i j = sub d i j.
Proof.
  intros Hi. unfold sub. f_equal. apply list_ext_get.
  - pose proof (len_hello_lengths d). rewrite !length_drop. lia.
  - intros k Hk. rewrite !get_drop by lia. apply get_hello_lengths. lia.
Qed.

Lemma ext_at_agree d d' k : bytes_ok d → ext_at d k → k + 2 <= len d' →
  (∀ i, 43 <= i < k → get d' i = get d i) → ext_at d' k.
Proof.
  intros Hok Hat Hl Hg. pose proof (ext_at_ge d k Hok Hat). destruct Hat as [Hk Hkl].
  pose proof (bytes_ok_get d 43 Hok). set (s := get d 43) in *.
  pose proof (get16_range d (44 + s) Hok). set (c := get16 d (44 + s)) in *.
  pose proof (bytes_ok_get d (44 + s + 2 + c) Hok). unfold is_byte in *.
  unfold ext_at. rewrite (Hg 43) by lia. fold s.
  assert (get16 d' (44 + s) = c) as -> by (apply get16_eq; apply Hg; lia).
  rewrite (Hg (44 + s + 2 + c)) by lia. done.
Qed.

Section lists.
Context {F : Family} {R : Receiver} {Rd : Reader} {Rw : Rewriter}.
Implicit Types (p q d x : bytes) (es xs : list bytes) (r : mutation_draws).

(** The list's length field. *)
Lemma has_exts_len p k es : ext_at (payload_of p) k → len (concat es) < 65536 →
  k + 2 + len (concat es) <= len (payload_of p) → 0 <= k →
  sub (payload_of p) k (k + 2 + len (concat es)) = bytes16 (len (concat es)) ++ concat es →
  get16 (payload_of p) k = len (concat es) ∧
  sub (payload_of p) (k + 2) (k + 2 + len (concat es)) = concat es.
Proof.
  intros Hat Hl Hk Hk0 Hs. split.
  - rewrite <- (at_pos_get16 (sub (payload_of p) k (k + 2 + len (concat es))) 0 (len (concat es)) (concat es));
      [|lia|rewrite Hs; apply at_pos_start].
    apply get16_eq; rewrite get_sub by lia; zcases; f_equal; lia.
  - rewrite (sub_app _ k (k + 2)) in Hs by lia.
    apply app_inj_1 in Hs as [_ Hs]; [exact Hs|]. 
    apply Nat2Z.inj. change (len (sub (payload_of p) k (k + 2)) = len (bytes16 (len (concat es)))). len_simp; lia.
Qed.

(** A segment whose payload is [p]'s with the list [xs]. *)
Lemma seg_has_exts p q k n xs : captured p → version_ok p → len p <= 65535 → ext_at (payload_of p) k →
  0 <= n → k + 2 + n <= len (payload_of p) → Forall ext_ok xs → len q <= Z.max (len p) MaxTCPPacketSize →
  len (concat xs) < 65536 →
  seg_of p (seq_no p) (hello_lengths (replaced (payload_of p) k n (concat xs))) q → has_exts q xs.
Proof.
  intros Hc Hv Hsz Hat Hn Hk Hxs Hlq Hlx Hq. pose proof (captured_range p Hc). unfold MaxTCPPacketSize in *.
  destruct (seg_of_payload p _ q Hc Hq) as (_ & Hp & _); [lia|].
  pose proof Hc as (Hok & _). assert (bytes_ok (payload_of p)) as Hokp by auto with b4.
  pose proof (ext_at_ge _ k Hokp Hat).
  set (d := replaced (payload_of p) k n (concat xs)) in *.
  assert (len d = len (payload_of p) - n + len (concat xs)) as Hd by (apply len_replaced; lia).
  exists k. rewrite Hp, len_hello_lengths. split_and!; [|done|lia|done|].
  - apply (ext_at_agree (payload_of p)); [done|done|rewrite len_hello_lengths; lia|].
    intros i Hi. rewrite get_hello_lengths by lia. unfold d, replaced. gets. done.
  - rewrite sub_hello_lengths by lia. unfold d, replaced.
    apply list_ext_get; [len_simp; lia|]. intros i Hi. revert Hi. len_simp; [|lia..]. intros Hi.
    gets; try done; f_equal; lia.
Qed.

(** Inserting extensions into a ClientHello appends them to its list: the result
    is a valid segment of the same connection at the same place of the stream, whose
    ClientHello has the old extensions, unchanged and in order, and then the new ones. *)
Theorem insertExtensions_appends p es xs :
  captured p → version_ok p → len p <= 65535 → has_exts p es → Forall ext_ok xs →
  len (concat es) + len (concat xs) < 65536 → len p + len (concat xs) <= MaxTCPPacketSize →
  wp (insertExtensions p (concat xs)) (λ q,
    seg_of p (seq_no p) (payload_of q) q ∧ has_exts q (es ++ xs)).
Proof using Rd Rw.
  intros Hc Hv Hsz (k & Hat & Hes & Hk & Hle & Hsub) Hxs Hlx Hfit. unfold MaxTCPPacketSize in *.
  pose proof (captured_range p Hc). pose proof Hc as (Hok & _).
  assert (bytes_ok (payload_of p)) as Hokp by auto with b4. pose proof (ext_at_ge _ k Hokp Hat).
  destruct (has_exts_len p k es) as [Hn Hsl]; [done|lia|done|lia|done|].
  eapply wp_mono; [apply wp_insertExtensions; try done; apply bytes_ok_concat|].
  { eapply Forall_impl; [exact Hxs|]. by intros e [H1 _]. }
  intros q [[-> [H1|H1]]|(k' & Hat' & Hk' & Hl & Hq)]; [unfold MaxTCPPacketSize in *; lia|specialize (H1 k Hat); lia|].
  rewrite <- (ext_at_inj _ _ _ Hat Hat') in *. cbv zeta in *. rewrite Hn, Hsl in Hq.
  assert (fitting p (concat xs) = concat xs) as Hf.
  { unfold fitting, MaxTCPPacketSize. case_if; [zlia|done]. }
  rewrite Hf in *. rewrite <- concat_app in Hq.
  destruct (seg_of_len _ _ _ _ Hq) as (_ & Hlq & _). pose proof (payload_len p Hc).
  rewrite len_hello_lengths, len_replaced, concat_app, len_app in Hlq by lia.
  destruct (seg_of_payload p _ q Hc Hq) as (_ & Hp & _); [lia|]. rewrite Hp. split; [done|].
  eapply seg_has_exts; [..|exact Hq]; try done; try lia.
  - by apply Forall_app.
  - rewrite concat_app, len_app. lia.
Qed.

(** The list as [has_extensions] and [parseExtensions] read it. *)
Lemma wp_parsed p es : captured p → has_exts p es →
  wp (has_extensions p) (λ o, ∃ rest, o = Some rest ∧ parseExtensions rest = Ret es).
Proof using Rd.
  intros Hc (k & Hat & Hes & Hk & Hl & Hsub). pose proof Hc as (Hok & _).
  assert (bytes_ok (payload_of p)) as Hokp by auto with b4. pose proof (ext_at_ge _ k Hokp Hat).
  eapply wp_mono; [by apply wp_has_extensions|]. intros [rest|] Ho; [|by destruct (Ho k)].
  destruct Ho as (k' & Hat' & ->). rewrite <- (ext_at_inj _ _ _ Hat Hat').
  eexists. split; [done|].
  rewrite (sub_app _ k (k + 2 + len (concat es))) by lia. rewrite Hsub, <- app_assoc.
  by apply parseExtensions_enc.
Qed.

Definition server_names (es : list bytes) : list bytes := List.filter is_sni es.
Definition other_exts (es : list bytes) : list bytes := List.filter (λ e, negb (is_sni e)) es.

Lemma split_sni_names es : split_sni es None [] = (last (server_names es), other_exts es).
Proof.
  rewrite split_sni_spec. cbn [app]. unfold server_names, other_exts. f_equal.
  - assert (filter (λ e, is_sni e = true) es = List.filter is_sni es) as ->; [|by destruct (last _)].
    induction es as [|e es IH]; [done|]. rewrite filter_cons. cbn [List.filter].
    destruct (is_sni e); [rewrite decide_True by done|rewrite decide_False by done]; by rewrite IH.
  - induction es as [|e es IH]; [done|]. rewrite filter_cons. cbn [List.filter].
    destruct (is_sni e); [rewrite decide_False by done|rewrite decide_True by done]; cbn; by rewrite IH.
Qed.

Lemma len_concat_names es : len (concat (option_list (last (server_names es)))) + len (concat (other_exts es))
  <= len (concat es).
Proof.
  induction es as [|e es IH]; [done|]. unfold server_names, other_exts in *. cbn [List.filter].
  destruct (is_sni e); cbn [negb concat]; rewrite ?len_app; [|lia]. rewrite last_cons.
  destruct (last (List.filter is_sni es)); simpl concat in *;
    rewrite ?app_nil_r in *; change (len []) with 0 in *; lia.
Qed.

(** Reordering the extensions of a ClientHello leaves a valid segment at the same
    place of the stream that is no longer than the packet and has the same
    extensions in some order, the server name first - except that of several server
    names only the last one is kept. *)
Theorem reorderExtensions_permutes r p es :
  captured p → version_ok p → len p <= MaxTCPPacketSize → has_exts p es → (2 <= length es)%nat →
  wp (reorderExtensions r p) (λ q, seg_of p (seq_no p) (payload_of q) q ∧ len q <= len p
    ∧ ∃ others, others ≡ₚ other_exts es
        ∧ has_exts q (option_list (last (server_names es)) ++ others)).
Proof using Rd Rw.
  intros Hc Hv Hsz Hex Hn. pose proof Hex as (k & Hat & Hes & Hk & Hle & Hsub).
  pose proof (captured_range p Hc). pose proof Hc as (Hok & _).
  assert (bytes_ok (payload_of p)) as Hokp by auto with b4. pose proof (ext_at_ge _ k Hokp Hat).
  destruct (has_exts_len p k es) as [Hget Hsl]; [done|lia|done|lia|done|].
  unfold reorderExtensions. wp_step. eapply wp_mono; [by apply wp_parsed|]. intros o (rest & -> & Hpe).
  rewrite Hpe. cbn [go_bind]. wp_step; [zlia|]. rewrite split_sni_names.
  wp_step. eapply wp_mono; [apply wp_shuffle_all|]. intros others Hp. cbv zeta.
  set (xs := option_list (last (server_names es)) ++ others).
  assert ((match last (server_names es) with Some e => e | None => [] end) ++ concat others = concat xs) as ->.
  { unfold xs. rewrite concat_app. destruct (last _); cbn; by rewrite ?app_nil_r. }
  assert (Forall ext_ok xs) as Hxs.
  { apply Forall_app. split.
    - destruct (last (server_names es)) as [s|] eqn:E; [|constructor]. constructor; [|constructor].
      apply last_Some_elem_of, list_elem_of_In, filter_In in E as [E _].
      rewrite Forall_forall in Hes. by apply Hes, list_elem_of_In.
    - rewrite Hp. rewrite Forall_forall in Hes |- *. intros e He%list_elem_of_In.
      apply filter_In in He as [He _]. by apply Hes, list_elem_of_In. }
  assert (len (concat xs) <= len (concat es)) as Hxl.
  { unfold xs. rewrite concat_app, len_app. pose proof (len_concat_names es).
    assert (len (concat others) = len (concat (other_exts es))) as ->; [|lia].
    clear -Hp. induction Hp; cbn [concat]; rewrite ?len_app in *; lia. }
  assert (bytes_ok (concat xs)) as Hxok.
  { apply bytes_ok_concat. eapply Forall_impl; [exact Hxs|]. by intros e [H1 _]. }
  unfold MaxTCPPacketSize in *. pose proof (payload_len p Hc).
  eapply wp_mono; [by apply wp_replaceExtensions|]. cbv zeta.
  intros q [[-> Hno]|(k' & Hat' & Hk' & Hl & Hq)].
  { specialize (Hno k Hat). unfold MaxTCPPacketSize in Hno. rewrite Hget in Hno. lia. }
  rewrite <- (ext_at_inj _ _ _ Hat Hat') in *. rewrite Hget in *.
  destruct (seg_of_len _ _ _ _ Hq) as (_ & Hlq & _).
  rewrite len_hello_lengths, len_replaced in Hlq by lia.
  destruct (seg_of_payload p _ q Hc Hq) as (_ & Hpq & _); [lia|]. rewrite Hpq.
  split_and!; [done|lia|]. exists others. split; [done|]. fold xs. clearbody xs.
  eapply (seg_has_exts p q k); [..|exact Hq]; try done; lia.
Qed.
End lists.

(** C14: Every mutation mode rewrites a captured packet into one that the server
    accepts in its place: the packet itself, or a valid segment of its connection
    at the same place of the stream with its headers; it is never longer than the
    packet or 1460 bytes, and no mode panics when the counts are not negative. *)
Theorem MutateClientHello_valid {F : Family} {R : Receiver} {Rd : Reader} {Rw : Rewriter} cfg r p :
  captured p → version_ok p → len p <= 65535 → mutation_ok cfg →
  wp (MutateClientHello cfg r p) (λ q,
    (q = p ∨ seg_of p (seq_no p) (payload_of q) q) ∧ len q <= Z.max (len p) MaxTCPPacketSize).
Proof.
  intros. eapply wp_mono; [by apply wp_Mutate|]. intros q [[?|[? _]] ?]; auto.
Qed.

(** ** Demonstration packets *)

(** A ClientHello for "a.io" in an IPv4 and in an IPv6 packet. *)
Definition ch_exts : list bytes :=
  [extension 2570 [0]; sni_extension (string_bytes "a.io"); extension 16 [0; 3; 2; 104; 50]].
Definition ch_demo : bytes :=
  let body := bytes16 771 ++ replicate 32 7 ++ [3; 1; 2; 3] ++ bytes16 2 ++ [19; 1] ++ [1; 0]
    ++ bytes16 (len (concat ch_exts)) ++ concat ch_exts in
  [22; 3; 1] ++ bytes16 (4 + len body) ++ [1; 0] ++ bytes16 (len body) ++ body.
Definition ch4_demo : bytes :=
  [69;0] ++ bytes16 (40 + len ch_demo) ++ [1;2;64;0; 64;6;0;0; 10;0;0;1; 93;184;216;34;
   200;1;1;187; 0;0;0;1; 0;0;0;2; 80;24;255;255; 9;9;0;0] ++ ch_demo.
Definition ch6_demo : bytes := ip6_demo 6 (sub ch4_demo 20 (len ch4_demo)).

Definition mut_cfg (mode : string) : SNIMutationConfig :=
  {| Mode := mode; GreaseCount := 2; PaddingSize := 100; FakeExtCount := 3;
     FakeSNIs := [string_bytes "ya.ru"] |}.
Definition mut_draws : mutation_draws :=
  {| m_pick := λ i, 3 * i; m_data := λ i j, i + j; m_unknown := λ i j, i * j; m_key := λ j, 7 * j;
     m_shuffle := λ i, i |}.

Lemma captured_ch4 : captured4 ch4_demo.
Proof. split; [by apply bytes_okb_spec|]. vmc. Qed.
Lemma captured_ch6 : captured6 ch6_demo.
Proof. split; [by apply bytes_okb_spec|]. vmc. Qed.

Lemma ext_ok_demo es : forallb (λ e, bytes_okb e && (4 <=? len e) && (get16 e 2 =? len e - 4)) es = true →
  Forall ext_ok es.
Proof.
  rewrite forallb_forall. intros H. apply Forall_forall. intros e He%list_elem_of_In%H.
  unfold ext_ok. apply andb_true_iff in He as [[H1 H2]%andb_true_iff H3].
  apply bytes_okb_spec in H1. split_and!; [done|zlia|zlia].
Qed.

Lemma has_exts_ch4 : @has_exts IPv4 _ ch4_demo ch_exts.
Proof. exists 53. split_and!; [vmc|by apply ext_ok_demo|vmc..]. Qed.
Lemma has_exts_ch6 : @has_exts IPv6 _ ch6_demo ch_exts.
Proof. exists 53. split_and!; [vmc|by apply ext_ok_demo|vmc..]. Qed.

(** The extensions a later reader finds in a packet. *)
Definition read_exts `{F : Family} (m : go bytes) : go (option (list bytes)) :=
  let! q := m in
  let! o := has_extensions q in
  match o with
  | None => Ret None
  | Some rest => let! es := parseExtensions rest in Ret (Some es)
  end.

(** The "full" mode duplicates the server name and then reorders the extensions,
    which keeps only the last server name: the ClientHello for "a.io" that leaves it
    with the fake name "ya.ru" configured names "ya.ru" only. *)
Theorem fullMutation_loses_name :
  wp (read_exts (F:=IPv4) (MutateClientHelloV4 (mut_cfg "full") mut_draws ch4_demo)) (λ o : option (list bytes),
    from_option server_names [] o = [sni_extension (string_bytes "ya.ru")])
  ∧ wp (read_exts (F:=IPv4) (Ret ch4_demo)) (λ o : option (list bytes),
    from_option server_names [] o = [sni_extension (string_bytes "a.io")]).
Proof. split; vm_compute; reflexivity. Qed.

(** The counts of GREASE values and of unknown extensions come from the
    configuration unchecked; a negative one panics in the packet handler. *)
Lemma negative_count_panics `{Family} (r : mutation_draws) (p : bytes) (cfg : SNIMutationConfig) (n : Z) :
  (n < 0 → addUnknownExtensions r p n = Panic) ∧ (GreaseCount cfg < 0 → addGREASE r p cfg = Panic).
Proof.
  unfold addUnknownExtensions, addGREASE, counted. split; intros; case_if; done || zlia.
Qed.

Lemma MutateClientHello_valid_witness :
  wp (MutateClientHelloV6 (mut_cfg "full") mut_draws ch6_demo) (λ q, len q <= 1460).
Proof.
  eapply wp_mono; [apply (MutateClientHello_valid (mut_cfg "full") mut_draws ch6_demo captured_ch6)|].
  - vmc.
  - vmc.
  - split_and!; [constructor; [by apply bytes_okb_spec|constructor]|vmc|vmc].
  - intros q [_ H]. exact H.
Defined.

Lemma insertExtensions_appends_witness :
  wp (@insertExtensions IPv4 ch4_demo (concat [extension 51 [0]])) (λ q,
    @has_exts IPv4 _ q (ch_exts ++ [extension 51 [0]])).
Proof.
  eapply wp_mono; [apply (insertExtensions_appends ch4_demo ch_exts [extension 51 [0]] captured_ch4)|].
  - vmc.
  - vmc.
  - exact has_exts_ch4.
  - by apply ext_ok_demo.
  - vmc.
  - vmc.
  - intros q [_ H]. exact H.
Defined.

Lemma reorderExtensions_permutes_witness :
  wp (@reorderExtensions IPv6 mut_draws ch6_demo) (λ q, len q <= len ch6_demo
    ∧ ∃ others, others ≡ₚ [extension 2570 [0]; extension 16 [0; 3; 2; 104; 50]]
      ∧ @has_exts IPv6 _ q (sni_extension (string_bytes "a.io") :: others)).
Proof.
  eapply wp_mono; [apply (reorderExtensions_permutes mut_draws ch6_demo ch_exts captured_ch6)|].
  - vmc.
  - vmc.
  - exact has_exts_ch6.
  - vmc. lia.
  - intros q (_ & Hl & others & Hp & Hq). split; [exact Hl|]. exists others. split; [exact Hp|exact Hq].
Defined.
