(* ===== verification/Strategies.v ===== *)
(** * Sending a ClientHello in two or three pieces

    The "tls", "tcp" and "ip" strategies of src/src/nfq/tls.go, nfq.go and
    nfq_ipv6.go, for both IP versions.  A sender returns the list of what it does in order: a raw packet handed to
    [SendIPv4] (always with the destination the sender was given), or a sleep.  A
    random draw is an integer argument, reduced as [rand.Intn] reduces it, so the
    theorems hold for every draw. *)

From Stdlib Require Import ZArith Lia Ascii.
From stdpp Require Import base list numbers sets strings.
From S2P Require Import Prelude Config Checksum Fragment Fragment6 Split Segment Families.

Local Open Scope Z_scope.

Inductive action := Send (p : bytes) | Sleep (ns : Z).

Definition microsecond : Z := 1000.
Definition millisecond : Z := 1000000.

(** [time.Sleep], which the code calls only for a positive delay. *)
Definition sleep_if (delay : Z) : list action :=
  if 0 <? delay then [Sleep (delay * millisecond)] else [].

(** ** Draws and delays *)

(** The draws of one sender: the delay, a position, the shuffle and the jitters (by
    index), the first delay, the number of decoys, an IPv6 fragment id, the bytes of
    a random payload and of a TLS random, and the sequence numbers of fakes. *)
Record draws := { r_delay : Z; r_pos : Z; r_shuffle : Z → Z; r_jitter : Z → Z;
                  r_first : Z; r_count : Z; r_id : Z;
                  r_payload : Z → Z; r_tls : Z → Z; r_seq : Z → Z }.

Definition seg2delay (cfg : SetConfig) (r : draws) : Z :=
  ResolveSeg2Delay (r_delay r) (Seg2Delay (TCP cfg)) (Seg2DelayMax (TCP cfg)).

(** ** Sending *)

Definition SendTwoSegments (seg1 seg2 : bytes) (delay : Z) (reverse : bool) : list action :=
  if reverse then [Send seg2] ++ sleep_if delay ++ [Send seg1]
  else [Send seg1] ++ sleep_if delay ++ [Send seg2].

(** The loop of [SendSegments] in either direction: a delay between packets. *)
Fixpoint send_spaced (delay : Z) (segs : list bytes) : list action :=
  match segs with
  | [] => []
  | [seg] => [Send seg]
  | seg :: segs => Send seg :: sleep_if delay ++ send_spaced delay segs
  end.
Definition SendSegments (segs : list bytes) (cfg : SetConfig) (r : draws) : list action :=
  let delay := seg2delay cfg r in
  if ReverseOrder (Fragmentation cfg) then send_spaced delay (rev segs)
  else send_spaced delay segs.

(** The two segments before and after [splitPos], as [sendTLSFragments] and
    [sendTCPFragments] build them. *)
Definition split_two `{Family} (packet : bytes) (ipHdrLen payloadStart payloadLen splitPos : Z)
    : go (bytes * bytes) :=
  let seg1Len := payloadStart + splitPos in
  let! seg1 := make seg1Len in
  let! s := slice packet 0 seg1Len in
  let! seg1 := copy_from seg1 0 s in
  let seg2Len := payloadStart + (payloadLen - splitPos) in
  let! seg2 := make seg2Len in
  let! hdr := slice packet 0 payloadStart in
  let! seg2 := copy_at seg2 0 payloadStart hdr in
  let! rest := slice_from packet (payloadStart + splitPos) in
  let! seg2 := copy_from seg2 payloadStart rest in
  let! seg1 := set_len seg1 seg1Len in
  let! seg1 := fix_segment seg1 ipHdrLen in
  let! seq := be32 seg2 (ipHdrLen + 4) in
  let! seg2 := put32 seg2 (ipHdrLen + 4) (u32 (seq + u32 splitPos)) in
  let! id := be16 seg1 4 in
  let! seg2 := set_id seg2 (u16 (id + 1)) in
  let! seg2 := set_len seg2 seg2Len in
  let! seg2 := fix_segment seg2 ipHdrLen in
  Ret (seg1, seg2).

Definition sendTLSFragments `{Family} (cfg : SetConfig) (r : draws) (packet : bytes) : go (list action) :=
  let! (ipHdrLen, tcpHdrLen) := headers packet in
  let payloadStart := ipHdrLen + tcpHdrLen in
  let! payload := slice_from packet payloadStart in
  let payloadLen := len payload in
  if payloadLen <? 5 then Ret [Send packet] else
  let! b0 := idx payload 0 in
  if negb (b0 =? 22) then Ret [Send packet] else
  let fr := Fragmentation cfg in
  let splitPos := ResolveRange (r_pos r) (TLSRecordPosition fr) (TLSRecordPositionMax fr) in
  let splitPos := if splitPos <=? 0 then 1 else splitPos in
  let absoluteSplit := 5 + splitPos in
  let absoluteSplit := if payloadLen <=? absoluteSplit then Z.quot payloadLen 2 else absoluteSplit in
  let absoluteSplit := if absoluteSplit <? 6 then 6 else absoluteSplit in
  let! (seg1, seg2) := split_two packet ipHdrLen payloadStart payloadLen absoluteSplit in
  Ret (SendTwoSegments seg1 seg2 (seg2delay cfg r) (ReverseOrder fr)).

(** A segment with the headers of [packet] and the given data, and its checksums;
    [seq] is absent for the first segment, which keeps its own and its id. *)
Definition split_piece `{Family} (packet : bytes) (ipHdrLen payloadStart : Z) (data : bytes)
    (seq_id : option (Z * Z)) : go bytes :=
  let segLen := payloadStart + len data in
  let! seg := new_segment packet payloadStart data in
  let! seg := match seq_id with
              | None => Ret seg
              | Some (seq, id) => let! seg := put32 seg (ipHdrLen + 4) seq in set_id seg id
              end in
  let! seg := set_len seg segLen in
  fix_segment seg ipHdrLen.

(** The position inside the host name, for a name of at least four bytes. *)
Definition middle_sni (payload : bytes) : go (option Z) :=
  let! r := locateSNI payload in
  Ret (match r with
       | Some (s, e) =>
           if 4 <=? e - s
           then let sniLen := e - s in
                Some (if 30 <? sniLen then e - 12 else s + Z.quot sniLen 2)
           else None
       | None => None
       end).

(** The two split positions: which are valid, in order. *)
Definition tcp_positions (payloadLen p1 p2 : Z) : bool * bool * Z * Z :=
  let validP1 := (0 <? p1) && (p1 <? payloadLen) in
  let p2 := if payloadLen <=? p2 then payloadLen - 1 else p2 in
  let validP2 := (0 <? p2) && (p2 <? payloadLen) && (negb validP1 || negb (p2 =? p1)) in
  let neither := negb validP1 && negb validP2 in
  let p1 := if neither then 1 else p1 in
  let validP1 := if neither then 1 <? payloadLen else validP1 in
  if validP1 && validP2 && (p2 <? p1) then (validP1, validP2, p2, p1) else (validP1, validP2, p1, p2).

Definition sendTCPFragments `{Family} (cfg : SetConfig) (r : draws) (packet : bytes) : go (list action) :=
  let seg2d := seg2delay cfg r in
  let! (ipHdrLen, tcpHdrLen) := headers packet in
  let totalLen := len packet in
  let payloadStart := ipHdrLen + tcpHdrLen in
  let payloadLen := totalLen - payloadStart in
  if payloadLen <=? 0 then Ret [Send packet] else
  let! payload := slice_from packet payloadStart in
  let fr := Fragmentation cfg in
  let p1 := ResolveRange (r_pos r) (SNIPosition fr) (SNIPositionMax fr) in
  let! p2 := (if MiddleSNI fr then let! m := middle_sni payload in Ret (default (-1) m) else Ret (-1)) in
  let '(validP1, validP2, p1, p2) := tcp_positions payloadLen p1 p2 in
  if validP1 && validP2
  then
    let! d1 := slice payload 0 p1 in
    let! d2 := slice payload p1 p2 in
    let! d3 := slice_from payload p2 in
    let! seq0 := be32 packet (ipHdrLen + 4) in
    let! id0 := be16 packet 4 in
    let! seg1 := split_piece packet ipHdrLen payloadStart d1 None in
    let! seg2 := split_piece packet ipHdrLen payloadStart d2
                   (Some (u32 (seq0 + u32 p1), u16 (id0 + 1))) in
    let! seg3 := split_piece packet ipHdrLen payloadStart d3
                   (Some (u32 (seq0 + u32 p2), u16 (id0 + 2))) in
    Ret (if ReverseOrder fr
         then [Send seg2] ++ sleep_if seg2d ++ [Send seg1] ++ sleep_if seg2d ++ [Send seg3]
         else [Send seg1] ++ sleep_if seg2d ++ [Send seg2] ++ sleep_if seg2d ++ [Send seg3])
  else
    let splitPos := if validP1 then p1 else p2 in
    let! (seg1, seg2) := split_two packet ipHdrLen payloadStart payloadLen splitPos in
    Ret (SendTwoSegments seg1 seg2 seg2d (ReverseOrder fr)).

Definition sendIPFragmentsV4 (cfg : SetConfig) (r : draws) (packet : bytes) : go (list action) :=
  let seg2d := seg2delay cfg r in
  let! (ipHdrLen, tcpHdrLen) := header_lengthsV4 packet in
  let payloadStart := ipHdrLen + tcpHdrLen in
  let payloadLen := len packet - payloadStart in
  if payloadLen <=? 0 then Ret [Send packet] else
  let! payload := slice_from packet payloadStart in
  let fr := Fragmentation cfg in
  let splitPos := ResolveRange (r_pos r) (SNIPosition fr) (SNIPositionMax fr) in
  let! splitPos := (if MiddleSNI fr
                    then let! m := middle_sni payload in Ret (default splitPos m)
                    else Ret splitPos) in
  if (splitPos <=? 0) || (payloadLen <=? splitPos) then Ret [Send packet] else
  let adjustedSplit := tcpHdrLen + splitPos in
  let! fragments := IPv4FragmentPacket packet adjustedSplit in
  match fragments with
  | Some (f0 :: f1 :: _) => Ret (SendTwoSegments f0 f1 seg2d (ReverseOrder fr))
  | Some _ => Panic
  | None => Ret [Send packet]
  end.

Definition sendIPFragmentsV6 (cfg : SetConfig) (r : draws) (packet : bytes) : go (list action) :=
  let seg2d := seg2delay cfg r in
  if len packet <? 40 + 20 then Ret [Send packet] else
  let! (ipHdrLen, tcpHdrLen) := header_lengthsV6 packet in
  let payloadStart := ipHdrLen + tcpHdrLen in
  let payloadLen := len packet - payloadStart in
  if payloadLen <=? 0 then Ret [Send packet] else
  let! payload := slice_from packet payloadStart in
  let fr := Fragmentation cfg in
  let splitPos := ResolveRange (r_pos r) (SNIPosition fr) (SNIPositionMax fr) in
  let! splitPos := (if MiddleSNI fr
                    then let! m := middle_sni payload in Ret (default splitPos m)
                    else Ret splitPos) in
  if (splitPos <=? 0) || (payloadLen <=? splitPos) then Ret [Send packet] else
  let adjustedSplit := tcpHdrLen + splitPos in
  let adjustedSplit := andnot (adjustedSplit + 7) 7 in
  let adjustedSplit :=
    if adjustedSplit <? tcpHdrLen then andnot (tcpHdrLen + 7) 7 else adjustedSplit in
  let ipPayloadLen := len packet - ipHdrLen in
  let last := andnot (ipPayloadLen - 8) 7 in
  if (ipPayloadLen <=? adjustedSplit) && (last <? 8) then Ret [Send packet] else
  let adjustedSplit := if ipPayloadLen <=? adjustedSplit then last else adjustedSplit in
  let! fragments := IPv6FragmentPacket (r_id r) packet adjustedSplit in
  match fragments with
  | Some (f0 :: f1 :: _) => Ret (SendTwoSegments f0 f1 seg2d (ReverseOrder fr))
  | Some _ => Panic
  | None => Ret [Send packet]
  end.

Definition SendTwoSegmentsV6 := SendTwoSegments.
Definition SendSegmentsV6 := SendSegments.
Definition sendTLSFragmentsV4 := @sendTLSFragments IPv4.
Definition sendTLSFragmentsV6 := @sendTLSFragments IPv6.
Definition sendTCPFragmentsV4 := @sendTCPFragments IPv4.
Definition sendTCPSegmentsv6 := @sendTCPFragments IPv6.

Definition sent (acts : list action) : list bytes :=
  omap (λ a, match a with Send p => Some p | Sleep _ => None end) acts.

(** ** What the senders share *)

Section senders.
Context {F : Family} {R : Receiver} {Rd : Reader}.
Implicit Types (p : bytes) (cfg : SetConfig) (r : draws).

Lemma wp_split_two p s :
  captured p → 0 <= s → s <= len (payload_of p) →
  wp (split_two p (hdr p) (off p) (len (payload_of p)) s) (λ '(f1, f2),
    seg_of p (u32 (seq_no p + 0)) (sub (payload_of p) 0 s) f1
    ∧ seg_of p (u32 (seq_no p + s)) (sub (payload_of p) s (len (payload_of p))) f2).
Proof.
  intros Hc Hs Hsl. pose proof (captured_range p Hc) as Hr. pose proof Hc as (Hok & _ & _ & Hl & Hsz).
  rewrite !payload_sub by (done || lia). rewrite payload_len in * by done.
  rewrite !Z.add_0_r, (Zplus_minus (off p) (len p)).
  rewrite u32_seq_no by exact Hok.
  unfold split_two. cbv zeta. do 16 wp_step. rewrite !take_ge_len by len_lia.
  match goal with |- wp (go_bind (set_len ?l _) _) _ => assert (draft p (seq_no p) (sub p (off p) (off p + s)) l) as H1 end.
  { apply draft_init; [done|auto 16 with b4|len_simp; lia|..]; intros k Hk; [|rewrite len_sub in Hk by lia];
      gets; f_equal; lia. }
  wp_step. eapply wp_mono; [apply (wp_draft_len _ _ _ _ _ Hc H1); len_simp; lia|]. intros l1 Hl1.
  wp_step. eapply wp_mono; [by apply (wp_ready_fix _ _ _ _ Hc Hl1)|]. intros f1 Hf1.
  destruct (seg_of_len _ _ _ _ Hf1) as (Hokf & Hlf & _). rewrite len_sub in Hlf by lia.
  match goal with |- wp (go_bind (be32 ?l _) _) _ => assert (draft p (seq_no p) (sub p (off p + s) (len p)) l) as H2 end.
  { apply draft_init; [done|auto 16 with b4|len_simp; lia|..]; intros k Hk; [|rewrite len_sub in Hk by lia];
      gets; f_equal; lia. }
  do 2 wp_step. rewrite (draft_seq _ _ _ _ H2), u32_add_l.
  wp_step. eapply wp_mono; [by apply (wp_draft_seq _ _ _ _ _ Hc H2), u32_range|]. intros l2 Hl2. clear H2.
  do 3 wp_step. eapply wp_mono; [by apply (wp_draft_id _ _ _ _ _ Hc Hl2)|]. intros l3 Hl3.
  wp_step. eapply wp_mono; [apply (wp_draft_len _ _ _ _ _ Hc Hl3); destruct Hl3 as (_ & Hn & _);
    rewrite ?Hn; len_simp; lia|]. intros l4 Hl4.
  wp_step. eapply wp_mono; [by apply (wp_ready_fix _ _ _ _ Hc Hl4)|]. intros f2 Hf2. by apply wp_ret.
Qed.

Lemma wp_split_piece p d sq_id :
  captured p → bytes_ok d → off p + len d <= 65535 + len_base →
  match sq_id with Some (sq, _) => 0 <= sq < 4294967296 | None => True end →
  wp (split_piece p (hdr p) (off p) d sq_id)
    (seg_of p (match sq_id with Some (sq, _) => sq | None => seq_no p end) d).
Proof.
  intros Hc Hd Hsz Hsq. unfold split_piece. cbv zeta.
  wp_step. eapply wp_mono; [by apply wp_new_segment|]. intros l1 H1.
  apply wp_bind, (wp_mono _ (draft p (match sq_id with Some (sq, _) => sq | None => seq_no p end) d)).
  { destruct sq_id as [[sq id]|]; [|by apply wp_ret].
    wp_step. eapply wp_mono; [by apply (wp_draft_seq _ _ _ _ _ Hc H1)|]. intros l2 H2.
    by apply (wp_draft_id _ _ _ _ _ Hc H2). }
  intros l2 H2. wp_step.
  eapply wp_mono; [apply (wp_draft_len _ _ _ _ _ Hc H2); destruct H2 as (_ & Hl2 & _); lia|].
  intros l3 H3. by apply wp_ready_fix.
Qed.

Lemma cut_two p s f1 f2 : 0 <= s → s <= len (payload_of p) →
  seg_of p (u32 (seq_no p + 0)) (sub (payload_of p) 0 s) f1 →
  seg_of p (u32 (seq_no p + s)) (sub (payload_of p) s (len (payload_of p))) f2 →
  cut p 0 (len (payload_of p)) [f1; f2].
Proof. intros. do 2 (eapply cut_cons; [|done|]; [lia|]). constructor. Qed.

Lemma sent_app a b : sent (a ++ b) = sent a ++ sent b.
Proof. apply omap_app. Qed.

Lemma sent_sleep d : sent (sleep_if d) = [].
Proof. unfold sleep_if. by case_if. Qed.

Lemma sent_two f1 f2 d rev : sent (SendTwoSegments f1 f2 d rev) ≡ₚ [f1; f2].
Proof.
  unfold SendTwoSegments. destruct rev; rewrite !sent_app, sent_sleep; [|done]. apply perm_swap.
Qed.

Lemma carries_two p s f1 f2 d rev : 0 <= s → s <= len (payload_of p) →
  seg_of p (u32 (seq_no p + 0)) (sub (payload_of p) 0 s) f1 →
  seg_of p (u32 (seq_no p + s)) (sub (payload_of p) s (len (payload_of p))) f2 →
  carries p (sent (SendTwoSegments f1 f2 d rev)).
Proof.
  intros. eapply cut_carries; [by eapply (cut_two p s)|]. symmetry. apply sent_two.
Qed.

Definition in_name (l : bytes) (m : option Z) : Prop :=
  match m with Some x => 0 < x ∧ x < len l | None => True end.

Lemma wp_middle_sni l : bytes_ok l → wp (middle_sni l) (in_name l).
Proof.
  intros Hok. unfold middle_sni. wp_step. eapply wp_mono; [by apply wp_locateSNI|].
  intros [[s e]|] Hr; apply wp_ret; cbn in *; [|done]. case_if; [|done]. cbn.
  rewrite Z.quot_div_nonneg by zlia. case_if; Z.div_mod_to_equations; zlia.
Qed.

(** What every sender assumes of the packet it is given. *)
Definition sendable (p : bytes) : Prop := captured p ∧ total p = len p.

Lemma carries_whole p : sendable p → carries p (sent [Send p]).
Proof. intros [(Hok & _) Ht]. by apply carries_self. Qed.

Lemma wp_sendTLSFragments cfg r p :
  sendable p → len (payload_of p) ≠ 5 →
  wp (sendTLSFragments cfg r p) (λ acts, carries p (sent acts)).
Proof using Rd.
  intros Hp Hne. pose proof Hp as [Hc Ht]. pose proof (captured_range p Hc) as Hr.
  pose proof (payload_len p Hc) as Hpl. pose proof Hc as (Hok & _ & _ & Hl & _).
  unfold sendTLSFragments. rewrite headers_law by done. cbn [go_bind].
  rewrite Zplus_minus. do 2 wp_step. fold (payload_of p).
  wp_step; [apply wp_ret; by apply carries_whole|]. do 2 wp_step.
  wp_step; [apply wp_ret; by apply carries_whole|]. cbv zeta. wp_step.
  match goal with |- wp (split_two _ _ _ _ ?x) _ => set (s := x) end.
  assert (0 <= s ∧ s <= len (payload_of p)) as [Hs0 Hs1].
  { unfold s. rewrite Z.quot_div_nonneg by zlia. repeat case_if; Z.div_mod_to_equations; zlia. }
  eapply wp_mono; [by apply wp_split_two|]. intros [f1 f2] [H1 H2]. apply wp_ret.
  by apply (carries_two p s).
Qed.

Lemma payload_slice p : captured p → slice_from p (off p) = Ret (payload_of p).
Proof.
  intros Hc. pose proof (captured_range p Hc). destruct Hc as (Hok & _ & _ & Hl & _).
  apply wp_eq. by wp_step.
Qed.

Lemma tcp_positions_spec (n q1 q2 : Z) : 2 <= n →
  let '(v1, v2, a, b) := tcp_positions n q1 q2 in
  if v1 && v2 then 0 < a ∧ a < b ∧ b < n
  else let s := if v1 : bool then a else b in 0 < s ∧ s < n.
Proof.
  intros Hn. unfold tcp_positions. cbv zeta. destruct (n <=? q2) eqn:E2;
  destruct (0 <? q1) eqn:?, (q1 <? n) eqn:?; cbn;
  repeat first [match goal with |- context [?a =? ?b] => destruct (a =? b) eqn:? end
               |match goal with |- context [?a <? ?b] => destruct (a <? b) eqn:? end]; cbn; zlia.
Qed.

Lemma wp_sendTCPFragments cfg r p :
  sendable p → len (payload_of p) ≠ 1 →
  wp (sendTCPFragments cfg r p) (λ acts, carries p (sent acts)).
Proof using Rd.
  intros Hp Hne. pose proof Hp as [Hc Ht]. pose proof (captured_range p Hc) as Hr.
  pose proof (payload_len p Hc) as Hpl. pose proof Hc as (Hok & _ & _ & Hl & _).
  unfold sendTCPFragments. cbv zeta. rewrite headers_law by done. cbn [go_bind].
  rewrite Zplus_minus, <- Hpl, payload_slice by done. cbn [go_bind].
  wp_step; [apply wp_ret; by apply carries_whole|].
  wp_step. apply (wp_mono _ (λ _, True)).
  { wp_step; [|done]. wp_step. eapply wp_mono; [apply wp_middle_sni; auto with b4|]. done. }
  intros q2 _. set (q1 := ResolveRange _ _ _). set (n := len (payload_of p)) in *.
  pose proof (tcp_positions_spec n q1 q2 ltac:(zlia)) as Hpos.
  destruct (tcp_positions n q1 q2) as [[[v1 v2] a] b].
  destruct (v1 && v2).
  - destruct Hpos as (H1 & H2 & H3). unfold n in *. do 10 wp_step.
    fold (seq_no p). wp_step.
    eapply wp_mono; [apply (wp_split_piece p _ None); auto with b4; by apply captured_small; [|lia..]|].
    intros f1 Hf1. wp_step.
    eapply wp_mono; [apply (wp_split_piece p _ (Some _)); auto with b4;
      [apply captured_small; [done|lia..]|apply u32_range]|].
    intros f2 Hf2. wp_step.
    eapply wp_mono; [apply (wp_split_piece p _ (Some _)); auto with b4;
      [apply captured_small; [done|lia..]|apply u32_range]|].
    intros f3 Hf3. apply wp_ret.
    assert (∀ x, u32 (seq_no p + u32 x) = u32 (seq_no p + x)) as Hmod
      by (intros; unfold u32; apply Zplus_mod_idemp_r).
    rewrite Hmod in Hf2, Hf3. rewrite <- (u32_seq_no p Hok), <- (Z.add_0_r (seq_no p)) in Hf1.
    apply (cut_carries p [f1; f2; f3]).
    + do 3 (eapply cut_cons; [|done|]; [lia|]). constructor.
    + case_if; rewrite !sent_app, !sent_sleep; [apply perm_swap|done].
  - cbv zeta in Hpos. wp_step. unfold n. eapply wp_mono; [apply wp_split_two; [done|lia..]|].
    intros [f1 f2] [H1 H2]. apply wp_ret. eapply carries_two; [| |done..]; lia.
Qed.
End senders.

(** ** IP fragmentation *)

Lemma sent_two_cases f1 f2 d rev :
  sent (SendTwoSegments f1 f2 d rev) = if rev then [f2; f1] else [f1; f2].
Proof. unfold SendTwoSegments. destruct rev; by rewrite !sent_app, sent_sleep. Qed.

Lemma wp_split_choice (m : bool) (d : Z) l : bytes_ok l →
  wp (if m then let! o := middle_sni l in Ret (default d o) else Ret d) (λ _, True).
Proof.
  intros Hok. destruct m; [|done]. wp_step. eapply wp_mono; [by apply wp_middle_sni|]. done.
Qed.

Lemma wp_sendIPFragmentsV4 cfg r p : captured4 p →
  wp (sendIPFragmentsV4 cfg r p) (λ acts, sent acts = [p] ∨
    Forall (λ f, good_frag4 p f (ihl4 p)) (sent acts)
    ∧ length (sent acts) = 2%nat
    ∧ reassemble 2 (map frag4 (sent acts)) 0 = Some (sub p (ihl4 p) (len p))).
Proof.
  intros Hc. pose proof (captured_range p Hc) as Hr. pose proof Hc as (Hok & Hh & _ & Hl & Hsz). cbn in Hr, Hh, Hsz.
  unfold sendIPFragmentsV4. cbv zeta. rewrite (headers_law (F:=IPv4) p Hc : header_lengthsV4 p = _).
  cbn [go_bind]. rewrite Zplus_minus, payload_slice by done. cbn [go_bind].
  wp_step; [by left|].
  wp_step. eapply wp_mono; [apply wp_split_choice; auto with b4|]. intros s _.
  wp_step; [by left|]. wp_step.
  eapply wp_mono; [apply wp_IPv4FragmentPacket; [done|done|lia]|].
  intros [fs|] H; [|by left]. destruct H as (f1 & f2 & -> & H1 & H2 & H3 & H4).
  apply wp_ret. right. rewrite sent_two_cases. case_if; split_and!; auto.
Qed.

(** The "ip" strategy over IPv4 sends the packet itself or two fragments that
    the receiver's IP layer reassembles, in the order they are sent, to the whole
    TCP segment. *)
Theorem sendIPFragmentsV4_reassembles cfg r p : captured4 p →
  wp (sendIPFragmentsV4 cfg r p) (λ acts, sent acts = [p] ∨
    Forall (λ f, good_frag4 p f (ihl4 p)) (sent acts)
    ∧ length (sent acts) = 2%nat
    ∧ reassemble 2 (map frag4 (sent acts)) 0 = Some (sub p (ihl4 p) (len p))).
Proof. apply wp_sendIPFragmentsV4. Qed.

Lemma wp_sendIPFragmentsV6 cfg r p :
  captured6 p → plain6 p → len p = 40 + get16 p 4 → len p <= 65568 → 0 <= r_id r < 4294967296 →
  wp (sendIPFragmentsV6 cfg r p) (λ acts, sent acts = [p] ∨
    Forall (λ f, good_frag6 p f 6 (r_id r)) (sent acts)
    ∧ length (sent acts) = 2%nat
    ∧ reassemble 2 (map frag6 (sent acts)) 0 = Some (sub p 40 (len p))).
Proof.
  intros Hc Hpl Ht Hsz Hid. pose proof (captured_range p Hc) as Hr. pose proof Hc as (Hok & Hh & _ & Hl & _).
  change (get p 6 = 6) in Hh. cbn in Hr.
  unfold sendIPFragmentsV6. cbv zeta. wp_step; [by left|].
  rewrite (headers_law (F:=IPv6) p Hc : header_lengthsV6 p = _).
  cbn [go_bind]. rewrite Zplus_minus, payload_slice by done. cbn [go_bind].
  wp_step; [by left|].
  wp_step. eapply wp_mono; [apply wp_split_choice; auto with b4|]. intros s _.
  wp_step; [by left|]. wp_step; [by left|]. wp_step.
  match goal with |- wp (IPv6FragmentPacket _ _ ?x) _ => set (a := x) end.
  assert (a mod 8 = 0 ∧ 1 <= a ∧ a < get16 p 4) as (Ha1 & Ha2 & Ha3).
  { unfold a. rewrite !andnot7 in *. bprop. change (@hdr IPv6 Receiver6 p) with 40 in *.
    repeat case_if; bprop; Z.div_mod_to_equations; lia. }
  eapply wp_mono; [apply wp_IPv6FragmentPacket_plain; [done|done|lia|lia|left]|].
  { rewrite andnot7. Z.div_mod_to_equations. lia. }
  intros [fs|] H; [|by left]. destruct H as (f1 & f2 & -> & H1 & H2 & H3 & H4).
  apply wp_ret. right. rewrite sent_two_cases, Ht. rewrite Hh in H1, H2. case_if; split_and!; auto.
Qed.

(** The "ip" strategy over IPv6 likewise, for the Fragment header: the position
    is rounded and limited so that the fragments are always aligned. *)
Theorem sendIPFragmentsV6_reassembles cfg r p :
  captured6 p → plain6 p → len p = 40 + get16 p 4 → len p <= 65568 → 0 <= r_id r < 4294967296 →
  wp (sendIPFragmentsV6 cfg r p) (λ acts, sent acts = [p] ∨
    Forall (λ f, good_frag6 p f 6 (r_id r)) (sent acts)
    ∧ length (sent acts) = 2%nat
    ∧ reassemble 2 (map frag6 (sent acts)) 0 = Some (sub p 40 (len p))).
Proof. apply wp_sendIPFragmentsV6. Qed.

(** ** The two- and three-piece senders together *)

(** C13: The "tls" and "tcp" strategies, for IPv4 and for IPv6, on every captured
    packet, configuration and draw (but a payload of 5 bytes for the one and of 1
    byte for the other): every packet sent is the original or a valid segment of its
    connection, and the receiver gets exactly the ClientHello, each byte once. *)
Theorem sendTLSFragments_sendTCPFragments_carry {F : Family} {R : Receiver} {Rd : Reader} p cfg r :
  sendable p →
  (len (payload_of p) ≠ 5 → wp (sendTLSFragments cfg r p) (λ acts, carries p (sent acts)))
  ∧ (len (payload_of p) ≠ 1 → wp (sendTCPFragments cfg r p) (λ acts, carries p (sent acts))).
Proof. split; intros; [by apply wp_sendTLSFragments|by apply wp_sendTCPFragments]. Qed.

(** On a payload of exactly 5 bytes that starts like a handshake record the "tls"
    sender panics: the split position is forced to 6, past the end. *)
Theorem sendTLSFragments_five_bytes_panics {F : Family} {R : Receiver} {Rd : Reader} p cfg r :
  captured p → len (payload_of p) = 5 → get (payload_of p) 0 = 22 →
  sendTLSFragments cfg r p = Panic.
Proof.
  intros Hc H5 H22. pose proof (payload_len p Hc) as Hpl. pose proof (captured_range p Hc).
  unfold sendTLSFragments. rewrite headers_law by done. cbn [go_bind]. cbv zeta.
  rewrite Zplus_minus, payload_slice by done. cbn [go_bind]. rewrite H5. cbn [Z.ltb Z.compare Pos.compare Pos.compare_cont].
  assert (idx (payload_of p) 0 = Ret 22) as -> by (unfold idx; rewrite H5, H22; done). cbn [go_bind negb Z.eqb Pos.eqb].
  match goal with |- context [split_two _ _ _ _ ?x] => set (s := x) end.
  assert (s = 6) as ->.
  { unfold s. set (t := if _ <=? 0 then 1 else _). assert (1 <= t) by (unfold t; case_if; zlia).
    destruct (5 <=? 5 + t) eqn:E; [done|zlia]. }
  unfold split_two. cbv zeta. unfold make at 1. destruct (0 <=? off p + 6) eqn:E; [|zlia]. cbn [go_bind].
  unfold slice at 1. assert ((0 <=? 0) && (0 <=? off p + 6) && (off p + 6 <=? len p) = false) as -> by lia.
  done.
Qed.

(** ** Witnesses *)

Definition combo_demo : ComboFragConfig := {|
  FirstByteSplit := true; ExtensionSplit := true; c_ShuffleMode := "full"; DecoyEnabled := true;
  FirstDelayMs := 0; FirstDelayMsMax := 0; JitterMaxUs := 0; JitterMaxUsMax := 0;
  c_FakePerSegment := true; c_FakePerSegCount := 2; c_FakePerSegCountMax := 4 |}.
Definition disorder_demo : DisorderFragConfig := {|
  d_ShuffleMode := "reverse"; MinJitterUs := 0; MaxJitterUs := 0; d_FakePerSegment := true;
  d_FakePerSegCount := 1; d_FakePerSegCountMax := 0 |}.
Definition faking_demo : FakingConfig := {|
  SNI := true; FakingTTL := 5; f_Strategy := "pastseq"; SeqOffset := 10000; SNISeqLength := 2;
  SNIType := FakePayloadCustom; CustomPayload := [1; 2; 3; 4; 5]; PayloadFile := ""; PayloadDomain := ""; PayloadData := []; TLSMod := ["dupsid"];
  TimestampDecrease := 0; TCPMD5 := false;
  SNIMutation := {| Mode := "off"; GreaseCount := 0; PaddingSize := 0; FakeExtCount := 0; FakeSNIs := [] |} |}.
Definition frag_demo : FragmentationConfig := {|
  Strategy := "combo"; ReverseOrder := true; StrategyPool := []; TLSRecordPosition := 1;
  TLSRecordPositionMax := 0; MiddleSNI := true; SNIPosition := 20; SNIPositionMax := 30;
  OOBPosition := 0; OOBPositionMax := 0; OOBChar := 0;
  SeqOverlapPattern := []; SeqOverlapBytes := [170; 187]; SeqOverlapLength := 2; Combo := combo_demo; Disorder := disorder_demo |}.
Definition tcp_demo : TCPConfig := {|
  t_ConnBytesLimit := 19; Seg2Delay := 5; Seg2DelayMax := 0; SynFake := false; SynFakeLen := 0; SynTTL := 0;
  DropSACK := false; t_DPortFilter := ""; Incoming := Incoming (TCP DefaultSetConfig);
  Duplicate := Duplicate (TCP DefaultSetConfig); IPBlockDetect := IPBlockDetect (TCP DefaultSetConfig);
  RSTProtection := RSTProtection (TCP DefaultSetConfig);
  Desync := {| ds_Mode := "full"; ds_TTL := 4; ds_Count := 3; PostDesync := true |};
  Win := {| w_Mode := "oscillate"; w_Values := [] |} |}.
Definition udp_demo : UDPConfig := {|
  u_Mode := "fake"; u_FakeSeqLength := 2; u_FakeLen := 64; u_FakingStrategy := "checksum";
  u_FakePayloadFile := ""; u_FakePayloadData := []; u_DPortFilter := ""; u_FilterQUIC := "disabled";
  u_FilterSTUN := true; u_ConnBytesLimit := 8; u_Seg2Delay := 0; u_Seg2DelayMax := 0 |}.
Definition set_demo (tcp : TCPConfig) (udp : UDPConfig) (frag : FragmentationConfig) (faking : FakingConfig) :
    SetConfig := {|
  Id := "1"; Name := "demo"; TCP := tcp; UDP := udp; Fragmentation := frag; Faking := faking;
  Targets := Targets DefaultSetConfig; Enabled := true; DNS := DNS DefaultSetConfig; TCPPortRanges := [];
  UDPPortRanges := []; Routing := Routing DefaultSetConfig; Escalate := Escalate DefaultSetConfig;
  MSSClamp := MSSClamp DefaultSetConfig |}.
Definition cfg_demo : SetConfig := set_demo tcp_demo udp_demo frag_demo faking_demo.
Definition draws_demo : draws := {|
  r_delay := 1; r_pos := 3; r_shuffle := λ i, i; r_jitter := λ i, i; r_first := 0; r_count := 1; r_id := 9;
  r_payload := λ i, i; r_tls := λ i, 3 * i; r_seq := λ i, 5 * i |}.

Lemma sendable4_demo : @sendable IPv4 _ packet4_demo.
Proof. split; [exact captured4_demo|]. vmc. Qed.
Lemma sendable6_demo : @sendable IPv6 _ packet6_demo.
Proof. split; [exact captured6_demo|]. vmc. Qed.

Lemma sendTLSFragments_sendTCPFragments_carry_witness :
  wp (sendTLSFragmentsV4 cfg_demo draws_demo packet4_demo) (λ acts, @carries IPv4 _ packet4_demo (sent acts))
  ∧ wp (sendTCPSegmentsv6 cfg_demo draws_demo packet6_demo) (λ acts, @carries IPv6 _ packet6_demo (sent acts)).
Proof.
  split.
  - refine (proj1 (sendTLSFragments_sendTCPFragments_carry _ _ _ sendable4_demo) _). vmc.
  - refine (proj2 (sendTLSFragments_sendTCPFragments_carry _ _ _ sendable6_demo) _). vmc.
Defined.

Lemma sendTLSFragments_five_bytes_panics_witness :
  let p := sub packet4_demo 0 45 in sendTLSFragmentsV4 cfg_demo draws_demo p = Panic.
Proof.
  apply (sendTLSFragments_five_bytes_panics (F:=IPv4)).
  - split; [by apply bytes_okb_spec|]. vmc.
  - vmc.
  - vmc.
Defined.

Lemma sendIPFragmentsV4_reassembles_witness :
  wp (sendIPFragmentsV4 cfg_demo draws_demo packet4_demo) (λ acts, sent acts = [packet4_demo]
    ∨ reassemble 2 (map frag4 (sent acts)) 0 = Some (sub packet4_demo 20 100)).
Proof.
  eapply wp_mono; [apply (sendIPFragmentsV4_reassembles cfg_demo draws_demo packet4_demo captured4_demo)|].
  intros acts [H|(_ & _ & H)]; [by left|right]. exact H.
Defined.

Lemma sendIPFragmentsV6_reassembles_witness :
  wp (sendIPFragmentsV6 cfg_demo draws_demo packet6_demo) (λ acts, sent acts = [packet6_demo]
    ∨ reassemble 2 (map frag6 (sent acts)) 0 = Some (sub packet6_demo 40 120)).
Proof.
  eapply wp_mono; [apply (sendIPFragmentsV6_reassembles cfg_demo draws_demo packet6_demo captured6_demo)|].
  - vm_compute. repeat split; try discriminate. by left.
  - vmc.
  - vmc.
  - vmc.
  - intros acts [H|(_ & _ & H)]; [by left|right]. exact H.
Defined.
