(* ===== verification/FakeSni.v ===== *)
(** * Fake ClientHellos

    src/src/sock/fake_ipv4.go and fake_ipv6.go (the builders of fake packets),
    tcp_timestamp.go, and the loops of src/src/nfq/nfq.go and nfq_ipv6.go that send
    them before the real packet.  A fake is meant for the middlebox; what keeps the
    server from accepting it depends on the strategy, and the theorems say which
    strategies do. *)

From Stdlib Require Import ZArith Lia Ascii.
From stdpp Require Import base list numbers sets strings.
From S2P Require Import Prelude Config Payloads Checksum Fragment Segment Families Mutation Strategies.

Local Open Scope Z_scope.

(** ** The timestamp option *)

Definition TCPOptionNOP : Z := 1.
Definition TCPOptionTimestamp : Z := 8.
Definition TCPTimestampLength : Z := 10.

(** The walk over the options; the packet with its timestamp decreased. *)
Fixpoint timestamp_loop (fuel : nat) (packet : bytes) (decrease i optionsEnd : Z) : go (bytes * bool) :=
  match fuel with
  | O => Spin
  | S f =>
      if i <? optionsEnd
      then
        let! kind := idx packet i in
        if kind =? 0 then Ret (packet, false) else
        if kind =? TCPOptionNOP then timestamp_loop f packet decrease (i + 1) optionsEnd else
        if optionsEnd <=? i + 1 then Ret (packet, false) else
        let! length := idx packet (i + 1) in
        if (length <? 2) || (optionsEnd <? i + length) then Ret (packet, false) else
        if (kind =? TCPOptionTimestamp) && (length =? TCPTimestampLength) && (i + 10 <=? optionsEnd)
        then
          let tsvalOffset := i + 2 in
          let! tsval := be32 packet tsvalOffset in
          let newTSval := u32 (tsval - decrease) in
          let! packet := put32 packet tsvalOffset newTSval in
          Ret (packet, true)
        else timestamp_loop f packet decrease (i + length) optionsEnd
      else Ret (packet, false)
  end.

Definition DecreaseTCPTimestamp (packet : bytes) (decrease : Z) (isIPv6 : bool) : go (bytes * bool) :=
  let! ipHdrLen := ip_header_len packet isIPv6 in
  if len packet <? ipHdrLen + 20 then Ret (packet, false) else
  let! d := idx packet (ipHdrLen + 12) in
  let tcpHdrLen := u8 (Z.shiftr d 4 * 4) in
  if (tcpHdrLen <? 20) || (len packet <? ipHdrLen + tcpHdrLen) then Ret (packet, false) else
  timestamp_loop (S (length packet)) packet decrease (ipHdrLen + 20) (ipHdrLen + tcpHdrLen).

(** ** Building a fake *)

(** The payload of a fake. *)
Definition fake_hello (cfg : SetConfig) (r : draws) (originalTLS : bytes) : go bytes :=
  let fakePayload :=
    if (SNIType (Faking cfg) =? FakePayloadInverted) && (0 <? len originalTLS)
    then map (λ b, u8 (Z.lnot b)) originalTLS
    else GetPayload (Faking cfg) (r_payload r) in
  if bool_decide (TLSMod (Faking cfg) = []) then Ret fakePayload
  else ApplyTLSMod fakePayload originalTLS (ParseTLSMod (TLSMod (Faking cfg))) (r_tls r).

(** What the strategy changes before the checksums are completed. *)
Definition disguise `{Family} (cfg : SetConfig) (r : draws) (original fake : bytes)
    (ipHdrLen tcpHdrLen : Z) : go bytes :=
  let strategy := f_Strategy (Faking cfg) in
  if bool_decide (strategy = "ttl"%string)
  then
    let ttl := FakingTTL (Faking cfg) in
    let ttl := if ttl =? 0 then 5 else ttl in
    let! origTTL := idx original ttl_at in
    let ttl := if (origTTL <=? ttl) && (1 <? origTTL) then u8 (origTTL - 1) else ttl in
    upd fake ttl_at (if ttl <? 1 then 1 else ttl)
  else if bool_decide (strategy = "pastseq"%string)
  then
    let off := u32 (SeqOffset (Faking cfg)) in
    let off := if off =? 0 then 8192 else off in
    let! seq := be32 fake (ipHdrLen + 4) in
    put32 fake (ipHdrLen + 4) (u32 (seq - off))
  else if bool_decide (strategy = "randseq"%string)
  then
    let dlen := len original - ipHdrLen - tcpHdrLen in
    if SeqOffset (Faking cfg) =? 0
    then put32 fake (ipHdrLen + 4) (u32 (r_seq r 0))
    else
      let! seq := be32 fake (ipHdrLen + 4) in
      let off := u32 (u32 (SeqOffset (Faking cfg)) + u32 dlen) in
      put32 fake (ipHdrLen + 4) (u32 (seq - off))
  else if bool_decide (strategy = "timestamp"%string)
  then
    let decrease := TimestampDecrease (Faking cfg) in
    let decrease := if decrease =? 0 then 600000 else decrease in
    let! (fake, _) := DecreaseTCPTimestamp fake decrease is_v6 in
    Ret fake
  else Ret fake.

(** [None] is the nil of a packet that is not of the family. *)
Definition BuildFakeSNIPacket `{Family} (cfg : SetConfig) (r : draws) (original : bytes)
    : go (option bytes) :=
  if len original <? (if is_v6 then 60 else 40) then Ret None else
  let! b0 := idx original 0 in
  if negb (Z.shiftr b0 4 =? (if is_v6 then 6 else 4)) then Ret None else
  let! (ipHdrLen, tcpHdrLen) := headers original in
  let payloadStart := ipHdrLen + tcpHdrLen in
  let! originalTLS := (if payloadStart <? len original then slice_from original payloadStart else Ret []) in
  let! fakePayload := fake_hello cfg r originalTLS in
  let fakeLen := payloadStart + len fakePayload in
  let! fake := new_segment original payloadStart fakePayload in
  let! fake := set_len fake fakeLen in
  let! fake := disguise cfg r original fake ipHdrLen tcpHdrLen in
  let! fake := fix_segment fake ipHdrLen in
  if bool_decide (f_Strategy (Faking cfg) = "tcp_check"%string)
  then
    let! x := idx fake (ipHdrLen + 16) in
    let! fake := upd fake (ipHdrLen + 16) (Z.lxor x 255) in
    Ret (Some fake)
  else Ret (Some fake).

(** ** Sending the fakes *)

(** The fake after the [n]-th round: a new id and, unless the strategy chose the
    sequence number, the place after its data. *)
Definition next_fake `{Family} (cfg : SetConfig) (fake : bytes) (ipHdrLen tcpHdrLen : Z) : go bytes :=
  let! id := be16 fake 4 in
  let! fake := set_id fake (u16 (id + 1)) in
  let strategy := f_Strategy (Faking cfg) in
  if bool_decide (strategy = "pastseq"%string) || bool_decide (strategy = "randseq"%string)
  then Ret fake
  else
    let payloadLen := len fake - (ipHdrLen + tcpHdrLen) in
    let! seq := be32 fake (ipHdrLen + 4) in
    let! fake := put32 fake (ipHdrLen + 4) (u32 (seq + u32 payloadLen)) in
    fix_segment fake ipHdrLen.

Fixpoint fake_rounds `{Family} (n : nat) (cfg : SetConfig) (fake : bytes) (ipHdrLen tcpHdrLen : Z)
    : go (list action) :=
  match n with
  | O => Ret []
  | S n =>
      let! next := (match n with O => Ret fake | S _ => next_fake cfg fake ipHdrLen tcpHdrLen end) in
      let! rest := fake_rounds n cfg next ipHdrLen tcpHdrLen in
      Ret (Send fake :: rest)
  end.

(** Over IPv4 a nil fake is indexed, over IPv6 it is skipped. *)
Definition sendFakeSNISequence `{Family} (cfg : SetConfig) (r : draws) (original : bytes)
    : go (list action) :=
  let fk := Faking cfg in
  if negb (SNI fk) || (SNISeqLength fk <=? 0) then Ret [] else
  let! fake := BuildFakeSNIPacket cfg r original in
  match fake with
  | None => if is_v6 then Ret [] else Panic
  | Some fake =>
      let! (ipHdrLen, tcpHdrLen) := headers fake in
      fake_rounds (Z.to_nat (SNISeqLength fk)) cfg fake ipHdrLen tcpHdrLen
  end.

Definition BuildFakeSNIPacketV4 := @BuildFakeSNIPacket IPv4.
Definition BuildFakeSNIPacketV6 := @BuildFakeSNIPacket IPv6.
Definition sendFakeSNISequenceV4 := @sendFakeSNISequence IPv4.
Definition sendFakeSNISequencev6 := @sendFakeSNISequence IPv6.

(** ** The fakes as segments *)

Section fakes.
Context {F : Family} {R : Receiver} {Rd : Reader} {Rw : Rewriter}.
Implicit Types (p q l d f : bytes) (cfg : SetConfig) (r : draws).

(** A packet with [p]'s headers but for its TTL and its TCP options. *)
Definition sibling p p' : Prop :=
  captured p' ∧ hdr p' = hdr p ∧ off p' = off p ∧ seq_no p' = seq_no p
  ∧ ∀ k, 0 <= k < hdr p + 20 → k ≠ ttl_at → get p' k = get p k.

Lemma sibling_refl p : captured p → sibling p p.
Proof. intros. by split_and!. Qed.

Lemma sibling_ttl p t : captured p → 1 <= t < 256 → sibling p (with_ttl p t).
Proof.
  intros Hc Ht. pose proof (captured_range p Hc). pose proof ttl_range.
  destruct (captured_ttl p t Hc Ht) as (Hc' & Hh & Ho & _). split_and!; try done.
  - unfold seq_no. rewrite Hh. apply get32_eq. intros k Hk. rewrite ttl_get by done. case_if; [zlia|done].
  - intros k Hk Hn. rewrite ttl_get by done. case_if; [zlia|done].
Qed.

Lemma sibling_splice p i s : captured p → bytes_ok s → hdr p + 20 <= i → i + len s <= off p →
  sibling p (splice p i s).
Proof.
  intros Hc Hs Hi Hl. pose proof (captured_range p Hc) as Hr. pose proof Hc as (Hok & Hh & Ho & Hlen & Hsz).
  assert (∀ k, k < i → get (splice p i s) k = get p k) as Hg.
  { intros k Hk. rewrite get_splice by lia. case_if; [zlia|done]. }
  destruct (hdr_stable p (splice p i s) Hh) as [Hh' Hhok]; [intros; apply Hg; lia|].
  assert (off (splice p i s) = off p) as Hoff by (unfold off; rewrite Hh', Hg by lia; done).
  split_and!; try done.
  - unfold captured. rewrite Hh', Hoff, len_splice by lia. split_and!; [auto with b4|done|lia..].
  - unfold seq_no. rewrite Hh'. apply get32_eq. intros k Hk. apply Hg. lia.
  - intros k Hk _. apply Hg. lia.
Qed.

Lemma ready_options p sq d l i s : captured p → bytes_ok s → hdr p + 20 <= i → i + len s <= off p →
  ready p sq d l → ready (splice p i s) sq d (splice l i s).
Proof.
  intros Hc Hs Hi Hls [(Hl & Hlen & Hsq & H1 & H2 & H3 & H4) Ht]. pose proof (captured_range p Hc).
  pose proof len_at_range. pose proof Hc as (_ & _ & _ & Hlp & _).
  destruct (sibling_splice p i s Hc Hs Hi Hls) as (Hc' & Hh & Ho & _).
  split; [unfold draft; rewrite Hh, Ho; split_and!; [auto with b4|len_lia|lia|lia|..]|].
  - intros k Hk. gets. auto.
  - intros k Hk Hn. rewrite !get_splice by lia. case_if; [done|auto].
  - gets. done.
  - intros k Hk. gets. auto.
  - rewrite len_splice, <- Ht by lia. unfold total. f_equal. apply get16_eq; gets; done.
Qed.

Lemma ready_captured p sq d l : captured p → ready p sq d l →
  captured l ∧ hdr l = hdr p ∧ off l = off p.
Proof.
  intros Hc [(Hl & Hlen & Hsq & H1 & H2 & H3 & H4) Ht]. pose proof (captured_range p Hc).
  destruct (header_off p l Hc H2) as (Hh & Hhok & Ho). split_and!; [|done|done].
  pose proof (get16_range l len_at Hl). unfold captured, total in *. rewrite Hh, Ho.
  split_and!; [done|done|lia..].
Qed.

(** A fake on the way: of [p]'s connection, with [p]'s TTL. *)
Definition aged p sq d l : Prop := ∃ p', sibling p p' ∧ get p' ttl_at = get p ttl_at ∧ ready p' sq d l.

Lemma wp_timestamp_loop p sq d fuel l dec i : captured p → ready p sq d l → hdr p + 20 <= i →
  Z.max 0 (off p - i) < Z.of_nat fuel →
  wp (timestamp_loop fuel l dec i (off p)) (λ '(l', _), aged p sq d l').
Proof.
  intros Hc Hr. pose proof (captured_range p Hc). pose proof ttl_range.
  assert (aged p sq d l) as Hsame by (exists p; split_and!; [by apply sibling_refl|done|done]).
  pose proof Hr as [(Hl & Hlen & _) _].
  revert i. induction fuel as [|f IH]; intros i Hi Hf; [lia|]. cbn [timestamp_loop].
  destruct (i <? off p) eqn:E; [|by apply wp_ret]. do 2 wp_step. wp_step; [by apply wp_ret|].
  wp_step; [apply IH; zlia|]. wp_step; [by apply wp_ret|]. do 2 wp_step. read_ranges Hl.
  wp_step; [by apply wp_ret|]. wp_step; [|apply IH; zlia].
  do 2 wp_step. do 2 wp_step. rewrite u32_small by apply u32_range. apply wp_ret.
  set (s := bytes32 _). assert (len s = 4) as Hs4 by apply len_bytes32.
  assert (bytes_ok s) as Hs by apply bytes_ok_bytes32. exists (splice p (i + 2) s). split_and!.
  - apply sibling_splice; [done|done|lia|zlia].
  - pose proof Hc as (_ & _ & _ & Hlp & _). rewrite get_splice by zlia. case_if; [zlia|done].
  - apply ready_options; [done|done|lia|zlia|done].
Qed.

Lemma wp_Decrease p sq d l dec : captured p → ready p sq d l →
  wp (DecreaseTCPTimestamp l dec is_v6) (λ '(l', _), aged p sq d l').
Proof using Rw.
  intros Hc Hr. destruct (ready_captured p sq d l Hc Hr) as (Hcl & Hh & Ho).
  pose proof (captured_range p Hc). pose proof Hr as [(Hl & Hlen & _) _].
  assert (aged p sq d l) as Hsame by (exists p; split_and!; [by apply sibling_refl|done|done]).
  unfold DecreaseTCPTimestamp. rewrite ip_len by done. cbn [go_bind]. rewrite Hh.
  wp_step; [by apply wp_ret|]. do 2 wp_step.
  pose proof (nibble_range _ (bytes_ok_get l (hdr p + 12) Hl)).
  assert (u8 (Z.shiftr (get l (hdr p + 12)) 4 * 4) = off p - hdr p) as ->.
  { rewrite u8_small by (unfold is_byte; lia). rewrite <- Ho. unfold off. rewrite Hh. lia. }
  wp_step; [by apply wp_ret|]. rewrite Zplus_minus.
  apply wp_timestamp_loop; [done|done|lia|]. lia.
Qed.

(** What is assumed of the configured fakes and of the packet they imitate. *)
Definition fakes_ok cfg p : Prop :=
  faking_ok (Faking cfg) ∧ len (PayloadData (Faking cfg)) <= 65000
  ∧ len (CustomPayload (Faking cfg)) <= 65000 ∧ is_byte (FakingTTL (Faking cfg)) ∧ len p <= 65000.

(** What the strategy leaves different from [p]. *)
Definition disguised cfg p p' sq : Prop :=
  let strategy := f_Strategy (Faking cfg) in
  let past := u32 (SeqOffset (Faking cfg)) in
  (if decide (strategy = "ttl"%string)
   then ∃ t, p' = with_ttl p t ∧ 1 <= t < 256 ∧ (1 < get p ttl_at → t < get p ttl_at)
   else get p' ttl_at = get p ttl_at)
  ∧ (strategy = "pastseq"%string → sq = u32 (seq_no p - (if past =? 0 then 8192 else past)))
  ∧ (strategy ∉ ["pastseq"; "randseq"]%string → sq = seq_no p)
  ∧ (strategy ∉ ["ttl"; "timestamp"]%string → p' = p).

Lemma wp_fake_hello cfg r p o : fakes_ok cfg p → bytes_ok o → len o <= 65000 →
  wp (fake_hello cfg r o) (λ d, bytes_ok d ∧ len d <= 65255).
Proof.
  intros (Hf & H1 & H2 & _) Ho Hlo. unfold fake_hello. cbv zeta.
  match goal with |- context [if bool_decide _ then Ret ?x else _] => set (d0 := x) end.
  assert (bytes_ok d0 ∧ len d0 <= 65000) as [Hd Hl].
  { unfold d0. case_if.
    - split; [|by rewrite length_map]. apply Forall_map, Forall_true. intros. apply is_byte_u8.
    - split; [by apply GetPayload_ok|]. unfold GetPayload.
      repeat case_if; done || by rewrite len_random. }
  clearbody d0. wp_step; [apply wp_ret; split; [done|lia]|].
  eapply wp_mono; [by apply wp_ApplyTLSMod|]. intros q [Hq1 Hq2]. split; [done|lia].
Qed.

Lemma wp_disguise cfg r p d l : captured p → is_byte (FakingTTL (Faking cfg)) → ready p (seq_no p) d l →
  wp (disguise cfg r p l (hdr p) (off p - hdr p)) (λ l', ∃ p' sq,
    sibling p p' ∧ ready p' sq d l' ∧ disguised cfg p p' sq).
Proof using Rd Rw.
  intros Hc Httl Hr. pose proof (captured_range p Hc). pose proof ttl_range. pose proof Hc as (Hok & _ & _ & Hl & _).
  pose proof Hr as [Hd _]. pose proof Hd as (Hokl & Hll & _). pose proof (draft_seq _ _ _ _ Hd) as Hseq.
  unfold disguise, disguised. cbv zeta. set (st := f_Strategy (Faking cfg)).
  case_bool_decide as S1; [|case_bool_decide as S2; [|case_bool_decide as S3; [|case_bool_decide as S4]]].
  - do 2 wp_step. pose proof (bytes_ok_get p ttl_at Hok). unfold is_byte in *.
    assert (1 < get p ttl_at → u8 (get p ttl_at - 1) = get p ttl_at - 1) as Hu8 by (intros; apply u8_small; unfold is_byte; lia).
    match goal with |- wp (upd _ _ ?x) _ => set (t := x) end.
    assert (1 <= t < 256 ∧ (1 < get p ttl_at → t < get p ttl_at)) as [Ht1 Ht2].
    { unfold t. repeat case_if; try rewrite Hu8 in * by zlia; zlia. }
    clearbody t. eapply wp_mono; [by apply (wp_ready_ttl _ _ _ _ t Hc Hr)|]. intros l' Hl'.
    exists (with_ttl p t), (seq_no p). rewrite S1, decide_True by done.
    split_and!; [by apply sibling_ttl|done|by exists t|done|done|set_solver].
  - do 2 wp_step. rewrite Hseq. eapply wp_mono; [apply (wp_ready_seq _ _ _ _ _ Hc Hr), u32_range|].
    intros l' Hl'. eexists p, _. split_and!; [by apply sibling_refl|exact Hl'|..].
    + rewrite decide_False by done. done.
    + done.
    + set_solver.
    + done.
  - assert (∀ v, wp (put32 l (hdr p + 4) (u32 v)) (λ l', ∃ p' sq, sibling p p' ∧ ready p' sq d l' ∧ disguised cfg p p' sq)) as Hw.
    { intros v. eapply wp_mono; [apply (wp_ready_seq _ _ _ _ _ Hc Hr), u32_range|].
      intros l' Hl'. eexists p, _. unfold disguised. cbv zeta. fold st.
      split_and!; [by apply sibling_refl|exact Hl'|..].
      + rewrite decide_False by done. done.
      + congruence.
      + set_solver.
      + done. }
    wp_step; [apply Hw|]. do 2 wp_step. apply Hw.
  - wp_step. eapply wp_mono; [by apply (wp_Decrease p (seq_no p) d)|]. intros [l' b] (p' & Hs & Ht & Hr').
    apply wp_ret. exists p', (seq_no p). split_and!; [done|done|by rewrite decide_False|done|done|set_solver].
  - exists p, (seq_no p). split_and!; [by apply sibling_refl|done|by rewrite decide_False|done|done|done].
Qed.

(** A fake as it leaves the builder: a valid segment [g], or one with half of its
    checksum inverted. *)
Definition built cfg p d f : Prop := ∃ p' sq g,
  sibling p p' ∧ disguised cfg p p' sq ∧ 0 <= sq < 4294967296 ∧ seg_of p' sq d g
  ∧ f = if bool_decide (f_Strategy (Faking cfg) = "tcp_check"%string)
        then <[Z.to_nat (hdr p + 16) := Z.lxor (get g (hdr p + 16)) 255]> g else g.

Lemma wp_BuildFakeSNI cfg r p : captured p → fakes_ok cfg p →
  Z.shiftr (get p 0) 4 = (if is_v6 then 6 else 4) →
  wp (BuildFakeSNIPacket cfg r p) (λ o, ∃ f d, o = Some f
    ∧ fake_hello cfg r (payload_of p) = Ret d ∧ bytes_ok d ∧ built cfg p d f).
Proof using Rd Rw.
  intros Hc Hcfg Hv. pose proof (captured_range p Hc). pose proof Hc as (Hok & _ & _ & Hl & _).
  pose proof (payload_len p Hc) as Hpl. pose proof Hcfg as (_ & _ & _ & Httl & Hlp).
  unfold BuildFakeSNIPacket. wp_step.
  { exfalso. pose proof (long_enough p Hc) as Hlong. unfold too_short in Hlong. destruct is_v6; cbn in Hlong; zlia. }
  do 2 wp_step. rewrite Hv, Z.eqb_refl. cbn [negb]. rewrite headers_law by done. cbn [go_bind]. cbv zeta.
  rewrite Zplus_minus. wp_step. apply (wp_mono _ (λ o, o = payload_of p)).
  { wp_step; [by wp_step|]. apply wp_ret. unfold payload_of. replace (len p) with (off p) by zlia.
    by rewrite sub_nil. }
  intros o ->. assert (bytes_ok (payload_of p)) as Hokp by auto with b4.
  wp_step. eapply wp_mono; [apply wp_self, (wp_fake_hello cfg r p); [done|done|lia]|]. intros d [[Hd Hld] Hrun].
  wp_step. eapply wp_mono; [by apply wp_new_segment|]. intros l1 H1. pose proof H1 as (_ & Hl1 & _).
  wp_step. eapply wp_mono; [apply (wp_draft_len _ _ _ _ _ Hc H1); lia|]. intros l2 H2.
  wp_step. eapply wp_mono; [by apply wp_disguise|]. intros l3 (p' & sq & Hs & Hr' & Hdis).
  pose proof Hs as (Hc' & Hh' & Ho' & _). pose proof Hr' as [(_ & _ & Hsq & _) _].
  wp_step. rewrite <- Hh'. eapply wp_mono; [by apply (wp_ready_fix _ _ _ _ Hc' Hr')|]. intros g Hg.
  destruct (seg_of_len _ _ _ _ Hg) as (Hokg & Hlg & _).
  case_bool_decide as Htc.
  - do 2 wp_step. do 2 wp_step. exists (<[Z.to_nat (hdr p' + 16) := Z.lxor (get g (hdr p' + 16)) 255]> g), d.
    split_and!; [done|done|done|]. exists p', sq, g. split_and!; try done; try lia.
    rewrite bool_decide_true by done. by rewrite Hh'.
  - apply wp_ret. exists g, d. split_and!; [done|done|done|]. exists p', sq, g. split_and!; try done; try lia.
    by rewrite bool_decide_false.
Qed.

(** ** The sequence *)

(** Segments of [p]'s connection that repeat [d], one after the other, from [sq] on. *)
Fixpoint run p sq d (fs : list bytes) : Prop :=
  match fs with
  | [] => True
  | f :: fs => seg_of p (u32 sq) d f ∧ run p (sq + len d) d fs
  end.

Definition chooses_seq cfg : bool :=
  bool_decide (f_Strategy (Faking cfg) = "pastseq"%string)
  || bool_decide (f_Strategy (Faking cfg) = "randseq"%string).

Lemma wp_next_fake cfg p sq d f : captured p → ready p sq d f →
  wp (next_fake cfg f (hdr p) (off p - hdr p)) (λ g,
    if chooses_seq cfg then ready p sq d g else seg_of p (u32 (sq + len d)) d g).
Proof.
  intros Hc Hr. pose proof (captured_range p Hc). pose proof Hr as [(Hok & Hl & _) _].
  unfold next_fake, chooses_seq. cbv zeta. do 2 wp_step.
  wp_step. eapply wp_mono; [by apply wp_ready_id|]. intros g Hg. pose proof Hg as [Hd _].
  pose proof Hd as (Hokg & Hlg & _).
  destruct (bool_decide _ || bool_decide _); [by apply wp_ret|].
  replace (len g - (hdr p + (off p - hdr p))) with (len d) by lia.
  do 2 wp_step. rewrite (draft_seq _ _ _ _ Hd), u32_add_l. wp_step.
  eapply wp_mono; [apply (wp_ready_seq _ _ _ _ _ Hc Hg), u32_range|]. intros h Hh. by apply wp_ready_fix.
Qed.

Lemma wp_fake_rounds cfg p d n : captured p → ∀ sq f, ready p (u32 sq) d f →
  wp (fake_rounds (S n) cfg f (hdr p) (off p - hdr p)) (λ acts, ∃ fs,
    sent acts = f :: fs ∧ length fs = n
    ∧ (if chooses_seq cfg then Forall (ready p (u32 sq) d) fs else run p (sq + len d) d fs)).
Proof.
  intros Hc. induction n as [|n IH]; intros sq f Hr; cbn [fake_rounds].
  { do 2 wp_step. apply wp_ret. exists []. cbn. split_and!; [done|done|]. by destruct (chooses_seq cfg). }
  wp_step. eapply wp_mono; [by apply wp_next_fake|]. intros g Hg.
  set (next := fake_rounds (S n) cfg g (hdr p) (off p - hdr p)).
  destruct (chooses_seq cfg) eqn:E.
  - wp_step. eapply wp_mono; [by apply IH|]. intros acts (fs & H1 & H2 & H3). apply wp_ret.
    exists (g :: fs). change (sent (Send f :: acts)) with (f :: sent acts). rewrite H1. cbn [length]. rewrite H2.
    split_and!; [done|done|by constructor].
  - assert (u32 (u32 sq + len d) = u32 (sq + len d)) as Hu by (unfold u32; apply Zplus_mod_idemp_l).
    rewrite Hu in Hg. wp_step.
    eapply wp_mono; [apply IH, seg_ready; [done|exact Hg|apply u32_range]|].
    intros acts (fs & H1 & H2 & H3). apply wp_ret.
    exists (g :: fs). change (sent (Send f :: acts)) with (f :: sent acts). rewrite H1. cbn [length]. by rewrite H2.
Qed.

Lemma ready_checksum p sq d l v : captured p → ready p sq d l → is_byte v →
  ready p sq d (<[Z.to_nat (hdr p + 16) := v]> l).
Proof.
  intros Hc [Hd Ht] Hv. pose proof (captured_range p Hc). pose proof len_at_range.
  pose proof Hd as (Hok & Hl & _).
  assert (<[Z.to_nat (hdr p + 16) := v]> l = splice l (hdr p + 16) [v]) as ->.
  { apply list_ext_get; [len_simp; lia|]. intros k Hk. gets; done. }
  split.
  - apply draft_put; [done|done|auto with b4|intros k Hk; right; len_simp; cbn in Hk; lia|done].
  - rewrite len_splice by (cbn; lia). rewrite <- Ht. unfold total. f_equal. apply get16_eq; gets; done.
Qed.

(** Everything about the fakes that are sent: how the first is built and how the
    others follow from it. *)
Definition imitates cfg p d fs : Prop := ∃ p' sq f gs,
  fs = f :: gs ∧ sibling p p' ∧ disguised cfg p p' sq ∧ built cfg p d f
  ∧ ready p' sq d f ∧ 0 <= sq < 4294967296
  ∧ (if chooses_seq cfg then Forall (ready p' sq d) gs else run p' (sq + len d) d gs).

Lemma wp_sendFakes cfg r p : captured p → fakes_ok cfg p →
  Z.shiftr (get p 0) 4 = (if is_v6 then 6 else 4) →
  wp (sendFakeSNISequence cfg r p) (λ acts,
    if SNI (Faking cfg) && (0 <? SNISeqLength (Faking cfg))
    then len (sent acts) = SNISeqLength (Faking cfg)
      ∧ ∃ d, fake_hello cfg r (payload_of p) = Ret d ∧ imitates cfg p d (sent acts)
    else acts = []).
Proof using Rd Rw.
  intros Hc Hcfg Hv. unfold sendFakeSNISequence. cbv zeta.
  destruct (SNI (Faking cfg)); cbn [negb orb andb]; [|by apply wp_ret].
  destruct (0 <? SNISeqLength (Faking cfg)) eqn:En; wp_step; try zlia; [|by apply wp_ret].
  wp_step. eapply wp_mono; [by apply wp_BuildFakeSNI|]. intros o (f & d & -> & Hd & Hokd & Hb).
  pose proof Hb as (p' & sq & g & Hs & Hdis & Hsq & Hg & Hf).
  pose proof Hs as (Hc' & Hh' & Ho' & _).
  assert (ready p' sq d f) as Hr.
  { subst f. pose proof (seg_ready _ _ _ _ Hc' Hg Hsq) as Hr. case_bool_decide; [|done].
    rewrite <- Hh'. apply ready_checksum; [done|done|]. apply is_byte_lxor; [|done].
    apply bytes_ok_get. by destruct Hr as [[Hx _] _]. }
  destruct (ready_captured p' sq d f Hc' Hr) as (Hcf & Hhf & Hof).
  rewrite headers_law by done. cbn [go_bind]. rewrite Hhf, Hof.
  destruct (Z.to_nat (SNISeqLength (Faking cfg))) as [|n] eqn:Hn; [zlia|].
  rewrite <- (u32_small sq) in Hr by done.
  eapply wp_mono; [by apply wp_fake_rounds|]. intros acts (fs & H1 & H2 & H3).
  rewrite H1. cbn [length]. split; [zlia|]. exists d. split; [done|].
  rewrite u32_small in * by done. exists p', sq, f, fs. split_and!; try done; lia.
Qed.

Lemma ready_header p sq d l k : ready p sq d l → 0 <= k < off p → k ∉ rewritten (hdr p) → get l k = get p k.
Proof. intros [(_ & _ & _ & _ & H & _) _]. apply H. Qed.

Lemma ready_seq_no p sq d l : captured p → ready p sq d l → seq_no l = sq.
Proof.
  intros Hc Hr. destruct (ready_captured p sq d l Hc Hr) as (_ & Hh & _).
  unfold seq_no. rewrite Hh. destruct Hr as [Hd _]. by eapply draft_seq.
Qed.

Lemma run_ready p sq d fs : captured p → run p sq d fs → Forall (λ f, ∃ s, ready p s d f) fs.
Proof.
  intros Hc. revert sq. induction fs as [|f fs IH]; intros sq; [constructor|]. intros [Hf Hfs].
  constructor; [|by eapply IH]. eexists. apply seg_ready; [done|exact Hf|apply u32_range].
Qed.

(** [f] has [p]'s addresses, ports, acknowledgement number and data offset: all of the
    headers up to the flags but the TTL, the sequence number and the length, id and checksum
    of the IP header. *)
Definition same_flow p f : Prop := ∀ k, 0 <= k < hdr p + 13 → k ∉ ip_fields → k ≠ ttl_at →
  ¬ (hdr p + 4 <= k < hdr p + 8) → get f k = get p k.

(** A fake for [p]'s connection, with the mark of its strategy: a TTL below [p]'s, or a
    sequence number of the past. *)
Definition hidden cfg p f : Prop :=
  captured f ∧ hdr f = hdr p ∧ off f = off p ∧ same_flow p f
  ∧ (f_Strategy (Faking cfg) = "ttl"%string → 1 < get p ttl_at → 1 <= get f ttl_at < get p ttl_at)
  ∧ (f_Strategy (Faking cfg) = "pastseq"%string →
       let past := u32 (SeqOffset (Faking cfg)) in
       seq_no f = u32 (seq_no p - (if past =? 0 then 8192 else past))).

Lemma ready_payload p sq d f : captured p → ready p sq d f → payload_of f = d.
Proof.
  intros Hc Hr. destruct (ready_captured p sq d f Hc Hr) as (Hcf & _ & Hof).
  destruct Hr as [(_ & Hl & _ & _ & _ & _ & Hd) _]. pose proof (captured_range p Hc).
  unfold payload_of. rewrite Hof, Hl. apply list_ext_get; [rewrite len_sub; lia|]. intros k Hk.
  rewrite len_sub in Hk by lia. rewrite get_sub by lia. zcases. apply Hd. lia.
Qed.

Lemma ready_hidden cfg p p' sq sq' d f : sibling p p' → disguised cfg p p' sq →
  (chooses_seq cfg = true → sq' = sq) → ready p' sq' d f → hidden cfg p f.
Proof.
  intros (Hc & Hh & Ho & _ & Hget) (H1 & H2 & _) Hsq Hr.
  destruct (ready_captured p' sq' d f Hc Hr) as (Hcf & Hhf & Hof).
  split_and!; [done|congruence|congruence|..].
  - intros k Hk H1' H2' H3'. rewrite (ready_header _ _ _ _ k Hr).
    + apply Hget; [lia|done].
    + pose proof (captured_range _ Hc). lia.
    + rewrite Hh. apply not_rewritten. split_and!; [done|lia..].
  - intros Hst Hp. rewrite decide_True in H1 by done. destruct H1 as (t & -> & Ht & Hlt).
    pose proof ttl_range as Htr. pose proof (captured_range _ Hc). destruct ttl_out as [Hout _].
    rewrite (ready_header _ _ _ _ ttl_at Hr); [|lia|].
    + pose proof (Hlt Hp). assert (get (with_ttl p t) ttl_at = t) as ->; [|lia].
      unfold with_ttl. pose proof Hc as (_ & _ & _ & Hl & _). unfold with_ttl in *.
      rewrite len_insert in *. rewrite get_insert by lia. case_if; [done|zlia].
    + apply not_rewritten. split_and!; [done|lia..].
  - intros Hst. cbv zeta. rewrite (ready_seq_no _ _ _ _ Hc Hr), Hsq; [by apply H2|].
    unfold chooses_seq. by rewrite Hst.
Qed.
End fakes.

Lemma wp_sendFakes_hidden {F : Family} {R : Receiver} {Rd : Reader} {Rw : Rewriter}
    (cfg : SetConfig) (r : draws) (p : bytes) :
  captured p → fakes_ok cfg p → Z.shiftr (get p 0) 4 = (if is_v6 then 6 else 4) →
  SNI (Faking cfg) = true → 0 < SNISeqLength (Faking cfg) →
  wp (sendFakeSNISequence cfg r p) (λ acts,
    len (sent acts) = SNISeqLength (Faking cfg) ∧ Forall (hidden cfg p) (sent acts)
    ∧ ∃ d, fake_hello cfg r (payload_of p) = Ret d ∧ Forall (λ f, payload_of f = d) (sent acts)).
Proof.
  intros Hc Hcfg Hv Hs Hn. eapply wp_mono; [by apply wp_sendFakes|]. intros acts H.
  rewrite Hs in H. destruct (0 <? SNISeqLength (Faking cfg)) eqn:E; [|zlia]. cbn [andb] in H.
  destruct H as (Hl & d & Hfake & p' & sq & f & gs & Ha & Hsib & Hdis & _ & Hr & Hsq & Hgs).
  rewrite Ha in Hl |- *. split; [done|]. pose proof Hsib as (Hc' & _).
  assert (Forall (λ g, hidden cfg p g ∧ payload_of g = d) (f :: gs)) as Hall.
  { constructor; [split; [by eapply ready_hidden|by eapply ready_payload]|].
    destruct (chooses_seq cfg) eqn:Ec.
    - eapply Forall_impl; [exact Hgs|]. intros g Hg. split; [by eapply ready_hidden|by eapply ready_payload].
    - apply run_ready in Hgs; [|done]. eapply Forall_impl; [exact Hgs|]. intros g [s Hg].
      split; [|by eapply ready_payload]. eapply (ready_hidden cfg p p' sq s); [done|done|congruence|exact Hg]. }
  apply Forall_and in Hall as [Hhid Hpay]. split; [exact Hhid|]. by exists d.
Qed.

(** C16: Every fake of the sequence is a packet of the connection it imitates - its
    addresses, ports, acknowledgement number and data offset - with the configured fake
    ClientHello for its data, and there are as many as configured.  With the strategy "ttl"
    each has a TTL below the packet's, when that is above 1; with "pastseq" each has the
    sequence number that lies the configured offset before the packet's, 8192 when none is
    configured.  This holds for a configured payload and a packet of at most 65000 bytes. *)
Theorem sendFakeSNISequence_hidden {F : Family} {R : Receiver} {Rd : Reader} {Rw : Rewriter}
    (cfg : SetConfig) (r : draws) (p : bytes) :
  captured p → fakes_ok cfg p → Z.shiftr (get p 0) 4 = (if is_v6 then 6 else 4) →
  SNI (Faking cfg) = true → 0 < SNISeqLength (Faking cfg) →
  wp (sendFakeSNISequence cfg r p) (λ acts,
    len (sent acts) = SNISeqLength (Faking cfg) ∧ Forall (hidden cfg p) (sent acts)
    ∧ ∃ d, fake_hello cfg r (payload_of p) = Ret d ∧ Forall (λ f, payload_of f = d) (sent acts)).
Proof. apply wp_sendFakes_hidden. Qed.

(** A strategy the builder does not know - "md5sum", which the user interface
    offers, is one - protects nothing: the fakes are valid segments with the
    packet's own TTL that continue the stream from the packet's sequence number, so
    the server reads the fake ClientHello, [SNISeqLength] times, as the client's. *)
Theorem sendFakeSNISequence_accepted {F : Family} {R : Receiver} {Rd : Reader} {Rw : Rewriter}
    (cfg : SetConfig) (r : draws) (p : bytes) :
  captured p → fakes_ok cfg p → Z.shiftr (get p 0) 4 = (if is_v6 then 6 else 4) →
  SNI (Faking cfg) = true → 0 < SNISeqLength (Faking cfg) →
  f_Strategy (Faking cfg) ∉ ["ttl"; "pastseq"; "randseq"; "timestamp"; "tcp_check"]%string →
  wp (sendFakeSNISequence cfg r p) (λ acts, len (sent acts) = SNISeqLength (Faking cfg)
    ∧ ∃ d, fake_hello cfg r (payload_of p) = Ret d ∧ run p (seq_no p) d (sent acts)).
Proof.
  intros Hc Hcfg Hv Hs Hn Hst. eapply wp_mono; [by apply wp_sendFakes|]. intros acts H.
  rewrite Hs in H. destruct (0 <? SNISeqLength (Faking cfg)) eqn:E; [|zlia]. cbn [andb] in H.
  destruct H as (Hl & d & Hd & p1 & sq1 & f & gs & Ha & _ & (_ & _ & Q1 & P1) & Hb & _ & Hsq & Hgs).
  rewrite Ha in Hl |- *. split; [done|]. exists d. split; [done|].
  assert (p1 = p ∧ sq1 = seq_no p) as [-> ->] by (split; [apply P1|apply Q1]; set_solver).
  destruct Hb as (p2 & sq2 & g & _ & (_ & _ & Q2 & P2) & _ & Hg & ->).
  assert (p2 = p ∧ sq2 = seq_no p) as [-> ->] by (split; [apply P2|apply Q2]; set_solver).
  rewrite bool_decide_false by set_solver. unfold chooses_seq in Hgs. rewrite !bool_decide_false in Hgs by set_solver.
  split; [by rewrite u32_small|done].
Qed.

(** The strategy "tcp_check" corrupts only the first fake, whose checksum never
    verifies; the following ones get their checksum completed again and are valid
    segments at the following places of the stream. *)
Theorem sendFakeSNISequenceV4_tcp_check (cfg : SetConfig) (r : draws) (p : bytes) :
  captured4 p → @fakes_ok cfg p → Z.shiftr (get p 0) 4 = 4 →
  SNI (Faking cfg) = true → 0 < SNISeqLength (Faking cfg) →
  f_Strategy (Faking cfg) = "tcp_check"%string →
  wp (sendFakeSNISequenceV4 cfg r p) (λ acts, ∃ d f gs, sent acts = f :: gs ∧ ¬ tcp_ok4 f
    ∧ len (sent acts) = SNISeqLength (Faking cfg)
    ∧ @run IPv4 _ p (@seq_no IPv4 _ p + len d) d gs).
Proof.
  intros Hc Hcfg Hv Hs Hn Hst. eapply wp_mono; [by apply wp_sendFakes|]. intros acts H.
  rewrite Hs in H. destruct (0 <? SNISeqLength (Faking cfg)) eqn:E; [|zlia]. cbn [andb] in H.
  destruct H as (Hl & d & Hd & p1 & sq1 & f & gs & Ha & _ & (_ & _ & Q1 & P1) & Hb & _ & Hsq & Hgs).
  rewrite Hst in Q1, P1.
  assert (p1 = p ∧ sq1 = @seq_no IPv4 _ p) as [-> ->] by (split; [apply P1|apply Q1]; by apply (bool_decide_unpack _)).
  unfold chooses_seq in Hgs. rewrite Hst in Hgs. cbn [orb bool_decide decide_rel] in Hgs.
  exists d, f, gs. split_and!; [done| |done|done].
  destruct Hb as (p2 & sq2 & g & _ & (_ & _ & Q2 & P2) & _ & Hg & ->). rewrite Hst in Q2, P2.
  assert (p2 = p ∧ sq2 = @seq_no IPv4 _ p) as [-> ->] by (split; [apply P2|apply Q2]; by apply (bool_decide_unpack _)).
  rewrite Hst, bool_decide_true by done. pose proof (captured_range p Hc) as (H1 & H2 & _).
  pose proof Hg as (Hvg & _ & Hlg & Hhg & _). cbn [hdr Receiver4] in *. pose proof Hvg as (Hokg & _).
  rewrite <- Hhg in *. set (h := ihl4 g) in *. set (hi := get g (h + 16)). set (lo := get g (h + 17)).
  pose proof (bytes_ok_get g (h + 16) Hokg) as Hhi. pose proof (bytes_ok_get g (h + 17) Hokg) as Hlo.
  fold hi in Hhi. fold lo in Hlo. unfold is_byte in *. set (v := (255 - hi) * 256 + lo).
  assert (<[Z.to_nat (h + 16) := Z.lxor hi 255]> g = splice g (h + 16) (bytes16 v)) as ->.
  { rewrite lxor_255 by done. apply list_ext_get; [len_simp; lia|]. intros k Hk.
    assert (get (bytes16 v) 0 = 255 - hi) as V0.
    { change (get (bytes16 v) 0) with (u8 (Z.shiftr v 8)). rewrite Z.shiftr_div_pow2 by lia. unfold u8, v.
      change (2 ^ 8) with 256. Z.div_mod_to_equations. lia. }
    assert (get (bytes16 v) 1 = lo) as V1.
    { change (get (bytes16 v) 1) with (u8 v). unfold u8, v. Z.div_mod_to_equations. lia. }
    rewrite get_insert, get_splice by (len_simp; lia). len_simp. zcases; try done.
    - replace (k - (h + 16)) with 0 by zlia. by rewrite V0.
    - assert (k = h + 17) as -> by zlia. by replace (h + 17 - (h + 16)) with 1 by lia. }
  unfold h in *. rewrite tcp_ok4_put by (done || lia || (unfold v; lia)). fold h. rewrite get16_val by done.
  replace (h + 16 + 1) with (h + 17) by lia.
  change (get g (h + 16)) with hi. change (get g (h + 17)) with lo. unfold v. clear -Hhi Hlo.
  clearbody hi lo. Z.div_mod_to_equations. lia.
Qed.

(** ** Witnesses *)

Definition sni_cfg (strategy : string) : SetConfig :=
  set_demo tcp_demo udp_demo frag_demo
     {| SNI := true; FakingTTL := 5; f_Strategy := strategy; SeqOffset := 10000; SNISeqLength := 3;
       SNIType := FakePayloadDefault1; CustomPayload := []; PayloadFile := ""; PayloadDomain := ""; PayloadData := []; TLSMod := ["rnd"; "dupsid"];
       TimestampDecrease := 0; TCPMD5 := false;
       SNIMutation := {| Mode := "off"; GreaseCount := 0; PaddingSize := 0; FakeExtCount := 0; FakeSNIs := [] |} |}.

Lemma fakes_ok_demo strategy p : (len p <=? 65000) = true → fakes_ok (sni_cfg strategy) p.
Proof.
  intros Hp. split_and!; [split; constructor|vmc|vmc|vmc|zlia].
Qed.

Lemma sendFakeSNISequence_hidden_witness :
  wp (sendFakeSNISequencev6 (sni_cfg "ttl") draws_demo ch6_demo) (λ acts,
    len (sent acts) = 3 ∧ Forall (λ f, get f 7 < 64) (sent acts)).
Proof.
  eapply wp_mono; [apply (sendFakeSNISequence_hidden (sni_cfg "ttl") draws_demo ch6_demo captured_ch6)|].
  - by apply fakes_ok_demo.
  - vmc.
  - reflexivity.
  - reflexivity.
  - intros acts (Hl & Hf & _). split; [exact Hl|]. eapply Forall_impl; [exact Hf|].
    intros f (_ & _ & _ & _ & Ht & _). apply Ht; [reflexivity|vmc].
Defined.

Lemma sendFakeSNISequence_accepted_witness :
  wp (sendFakeSNISequenceV4 (sni_cfg "md5sum") draws_demo ch4_demo) (λ acts, len (sent acts) = 3
    ∧ ∃ d, @run IPv4 _ ch4_demo 1 d (sent acts)).
Proof.
  eapply wp_mono; [apply (sendFakeSNISequence_accepted (sni_cfg "md5sum") draws_demo ch4_demo captured_ch4)|].
  - by apply fakes_ok_demo.
  - vmc.
  - reflexivity.
  - reflexivity.
  - by apply (bool_decide_unpack _).
  - intros acts (Hl & d & _ & Hr). split; [exact Hl|]. exists d. exact Hr.
Defined.

Lemma sendFakeSNISequenceV4_tcp_check_witness :
  wp (sendFakeSNISequenceV4 (sni_cfg "tcp_check") draws_demo ch4_demo) (λ acts,
    ∃ d f gs, sent acts = f :: gs ∧ ¬ tcp_ok4 f ∧ @run IPv4 _ ch4_demo (1 + len d) d gs).
Proof.
  eapply wp_mono; [apply (sendFakeSNISequenceV4_tcp_check (sni_cfg "tcp_check") draws_demo ch4_demo captured_ch4)|].
  - by apply fakes_ok_demo.
  - vmc.
  - reflexivity.
  - reflexivity.
  - reflexivity.
  - intros acts (d & f & gs & H1 & H2 & _ & H3). exists d, f, gs. split_and!; [exact H1|exact H2|exact H3].
Defined.
