(* ===== verification/Decoys.v ===== *)
(** * Decoys sent around the ClientHello

    src/src/nfq/desync.go, post_desync.go, win.go and rst_client.go: bursts of fake
    RST, FIN, ACK and SYN packets, packets with another window, and the reset sent to
    the client.  Most routines exist for IPv4 and for IPv6 and are written once over
    [Family]. *)

From Stdlib Require Import ZArith Lia Ascii.
From stdpp Require Import base list numbers sets strings.
From S2P Require Import Prelude Config Checksum Fragment Split Segment Families Mutation Strategies.

Local Open Scope Z_scope.

Record DesyncAttacker := { mode : string; ttl : Z; count : Z }.
Definition NewDesyncAttacker (cfg : TCPConfig) : DesyncAttacker :=
  {| mode := ds_Mode (Desync cfg); ttl := ds_TTL (Desync cfg); count := ds_Count (Desync cfg) |}.

(** [for i := 0; i < n; i++] around the building and sending of a fake. *)
Fixpoint each_fake (n : nat) (i : Z) (build : Z → go bytes) (pause : Z → Z) : go (list action) :=
  match n with
  | O => Ret []
  | S n =>
      let! fake := build i in
      let! rest := each_fake n (i + 1) build pause in
      Ret (Send fake :: Sleep (pause i) :: rest)
  end.

(** The lengths of the headers, for a packet that has both. *)
Definition fake_header `{Family} (packet : bytes) : go (option (Z * Z)) :=
  let! ipHdrLen := ip_header_len packet is_v6 in
  if len packet <? ipHdrLen + 20 then Ret None else
  let! d := idx packet (ipHdrLen + 12) in
  let tcpHdrLen := u8 (Z.shiftr d 4 * 4) in
  if (tcpHdrLen <? 20) || (len packet <? ipHdrLen + tcpHdrLen) then Ret None
  else Ret (Some (ipHdrLen, tcpHdrLen)).

(** The copy of the first [n] bytes. *)
Definition header_copy (packet : bytes) (n : Z) : go bytes :=
  let! fake := make n in
  let! s := slice packet 0 n in
  copy_from fake 0 s.

(** A fake without payload: the headers with other flags and TTL, the change [edit],
    and an inverted checksum. *)
Definition header_fake `{Family} (packet : bytes) (ipHdrLen tcpHdrLen flags : Z)
    (edit : bytes → go bytes) (ttl : Z) : go bytes :=
  let! fake := header_copy packet (ipHdrLen + tcpHdrLen) in
  let! fake := upd fake (ipHdrLen + 13) flags in
  let! fake := edit fake in
  let! fake := upd fake ttl_at ttl in
  let! fake := set_len fake (ipHdrLen + tcpHdrLen) in
  let! fake := fix_segment fake ipHdrLen in
  corruptTCPChecksum fake ipHdrLen.

Definition rst_offset (i : Z) : Z :=
  if i =? 0 then -10000 else if i =? 1 then 0 else if i =? 2 then 10000 else i * 5000.

Definition sendDesyncRST `{Family} (da : DesyncAttacker) (packet : bytes) : go (list action) :=
  let! h := fake_header packet in
  match h with
  | None => Ret []
  | Some (ipHdrLen, tcpHdrLen) =>
      let! origSeq := be32 packet (ipHdrLen + 4) in
      each_fake (Z.to_nat (count da)) 0
        (λ i,
          let flags := if i mod 2 =? 0 then 0x04 else 0x14 in
          let! ttl := dynamicTTL packet is_v6 (ttl da) in
          header_fake packet ipHdrLen tcpHdrLen flags
            (λ fake,
              let! fake := put32 fake (ipHdrLen + 4) (u32 (origSeq + rst_offset i)) in
              if flags =? 0x04 then put32 fake (ipHdrLen + 8) 0 else Ret fake) ttl)
        (λ _, 100 * microsecond)
  end.

Definition fin_seq (origSeq i : Z) : Z :=
  let seqOffset := u32 (50000 + i * 10000) in
  if seqOffset <? origSeq then u32 (origSeq - seqOffset) else 1.

Definition sendDesyncFIN `{Family} (da : DesyncAttacker) (packet : bytes) : go (list action) :=
  let! h := fake_header packet in
  match h with
  | None => Ret []
  | Some (ipHdrLen, tcpHdrLen) =>
      let! origSeq := be32 packet (ipHdrLen + 4) in
      let! origAck := be32 packet (ipHdrLen + 8) in
      each_fake (Z.to_nat (count da)) 0
        (λ i,
          let! ttl := dynamicTTL packet is_v6 (ttl da) in
          header_fake packet ipHdrLen tcpHdrLen 0x11
            (λ fake,
              let! fake := put32 fake (ipHdrLen + 4) (fin_seq origSeq i) in
              put32 fake (ipHdrLen + 8) origAck) ttl)
        (λ _, 200 * microsecond)
  end.

(** The TTL of the [i]-th ACK: one hop less each. *)
Definition ack_ttl (baseTTL i : Z) : Z :=
  let ttl := if baseTTL <=? u8 i then 1 else u8 (baseTTL - u8 i) in
  if ttl <? 1 then 1 else ttl.

Definition sendDesyncACK `{Family} (da : DesyncAttacker) (r : draws) (packet : bytes) : go (list action) :=
  let! h := fake_header packet in
  match h with
  | None => Ret []
  | Some (ipHdrLen, tcpHdrLen) =>
      let! origSeq := be32 packet (ipHdrLen + 4) in
      let! origAck := be32 packet (ipHdrLen + 8) in
      let! baseTTL := dynamicTTL packet is_v6 (ttl da) in
      each_fake (Z.to_nat (count da)) 0
        (λ i,
          header_fake packet ipHdrLen tcpHdrLen 0x10
            (λ fake,
              let! fake := put32 fake (ipHdrLen + 4) (u32 (origSeq + u32 (r_seq r i))) in
              put32 fake (ipHdrLen + 8) (u32 (origAck + u32 (100000 * (i + 1))))) (ack_ttl baseTTL i))
        (λ _, 50 * microsecond)
  end.

Definition sendDesyncCombo `{Family} (da : DesyncAttacker) (r : draws) (packet : bytes) : go (list action) :=
  let! a1 := sendDesyncRST {| mode := ""; ttl := ttl da; count := 1 |} packet in
  let! a2 := sendDesyncFIN {| mode := ""; ttl := ttl da; count := 1 |} packet in
  let! a3 := sendDesyncACK {| mode := ""; ttl := ttl da; count := 2 |} r packet in
  Ret (a1 ++ [Sleep (500 * microsecond)] ++ a2 ++ [Sleep (500 * microsecond)] ++ a3).

(** SYN, three RST and, over IPv4 only, PSH+ACK and all flags with an urgent
    pointer. *)
Definition sendDesyncFull `{Family} (da : DesyncAttacker) (packet : bytes) : go (list action) :=
  let! h := fake_header packet in
  match h with
  | None => Ret []
  | Some (ipHdrLen, tcpHdrLen) =>
      let! origSeq := be32 packet (ipHdrLen + 4) in
      let! ttl := dynamicTTL packet is_v6 (ttl da) in
      let! synFake := header_fake packet ipHdrLen tcpHdrLen 0x02
        (λ fake, put32 fake (ipHdrLen + 4) (u32 (origSeq - 100000))) ttl in
      let! rstFakes := each_fake 3 0
        (λ i, header_fake packet ipHdrLen tcpHdrLen 0x04
          (λ fake, put32 fake (ipHdrLen + 4) (u32 (origSeq + u32 (i * 100)))) ttl)
        (λ _, 50 * microsecond) in
      let start := Send synFake :: Sleep (100 * microsecond) :: rstFakes in
      if is_v6 then Ret start else
      let! pushFake := header_fake packet ipHdrLen tcpHdrLen 0x18 Ret ttl in
      let! urgFake := header_fake packet ipHdrLen tcpHdrLen 0x39
        (λ fake, put16 fake (ipHdrLen + 18) 0xffff) ttl in
      Ret (start ++ [Send pushFake; Sleep (100 * microsecond); Send urgFake])
  end.

Definition ExecuteDesync `{Family} (cfg : SetConfig) (r : draws) (packet : bytes) : go (list action) :=
  if bool_decide (ds_Mode (Desync (TCP cfg)) = ConfigOff) then Ret [] else
  let da := NewDesyncAttacker (TCP cfg) in
  if bool_decide (mode da = "rst"%string) then sendDesyncRST da packet
  else if bool_decide (mode da = "fin"%string) then sendDesyncFIN da packet
  else if bool_decide (mode da = "ack"%string) then sendDesyncACK da r packet
  else if bool_decide (mode da = "combo"%string) then sendDesyncCombo da r packet
  else if bool_decide (mode da = "full"%string) then sendDesyncFull da packet
  else sendDesyncCombo da r packet.

(** ** After the real packet *)

(** Flags and sequence offset of the five fakes. *)
Definition fakeTypes (payloadLen : Z) : list (Z * Z) :=
  [(0x04, 0); (0x14, payloadLen); (0x11, payloadLen + 1); (0x04, -10000); (0x14, 100000)].
Definition post_seq (seq seqOff : Z) : Z := let newSeq := seq + seqOff in u32 (if newSeq <? 0 then 0 else newSeq).

Fixpoint post_fakes `{Family} (raw : bytes) (ipHdrLen tcpHdrLen seq ttl : Z) (types : list (Z * Z))
    : go (list action) :=
  match types with
  | [] => Ret []
  | (flags, seqOff) :: types =>
      let! rst := header_fake raw ipHdrLen tcpHdrLen flags
        (λ rst, put32 rst (ipHdrLen + 4) (post_seq seq seqOff)) ttl in
      let! rest := post_fakes raw ipHdrLen tcpHdrLen seq ttl types in
      Ret (Send rst :: Sleep (100 * microsecond) :: rest)
  end.

(** [ipHdrLen] is the caller's. *)
Definition post_header (raw : bytes) (ipHdrLen : Z) : go (option Z) :=
  if len raw <? ipHdrLen + 20 then Ret None else
  let! d := idx raw (ipHdrLen + 12) in
  let tcpHdrLen := u8 (Z.shiftr d 4 * 4) in
  if (tcpHdrLen <? 20) || (len raw <? ipHdrLen + tcpHdrLen) then Ret None else Ret (Some tcpHdrLen).

Definition sendPostDesyncRSTV4 (cfg : SetConfig) (raw : bytes) (ipHdrLen : Z) : go (list action) :=
  let! h := post_header raw ipHdrLen in
  match h with
  | None => Ret []
  | Some tcpHdrLen =>
      let payloadLen := len raw - ipHdrLen - tcpHdrLen in
      let! seq := be32 raw (ipHdrLen + 4) in
      let! ttl := dynamicTTL raw false (FakingTTL (Faking cfg)) in
      @post_fakes IPv4 raw ipHdrLen tcpHdrLen seq ttl (fakeTypes payloadLen)
  end.

Definition sendPostDesyncRSTv6 (cfg : SetConfig) (raw : bytes) : go (list action) :=
  let! h := post_header raw 40 in
  match h with
  | None => Ret []
  | Some tcpHdrLen =>
      let payloadLen := len raw - 40 - tcpHdrLen in
      let! seq := be32 raw (40 + 4) in
      let! ttl := dynamicTTL raw true (FakingTTL (Faking cfg)) in
      let! rst := @header_fake IPv6 raw 40 tcpHdrLen 0x14
        (λ rst, put32 rst (40 + 4) (u32 (seq + u32 payloadLen))) ttl in
      Ret [Send rst]
  end.

Definition ExecuteDesyncIPv4 := @ExecuteDesync IPv4.
Definition ExecuteDesyncIPv6 := @ExecuteDesync IPv6.
Definition sendDesyncRSTV4 := @sendDesyncRST IPv4.
Definition sendDesyncRSTv6 := @sendDesyncRST IPv6.
Definition sendDesyncFINV4 := @sendDesyncFIN IPv4.
Definition sendDesyncFINv6 := @sendDesyncFIN IPv6.
Definition sendDesyncACKV4 := @sendDesyncACK IPv4.
Definition sendDesyncACKv6 := @sendDesyncACK IPv6.
Definition sendDesyncComboV4 := @sendDesyncCombo IPv4.
Definition sendDesyncCombov6 := @sendDesyncCombo IPv6.
Definition sendDesyncFullV4 := @sendDesyncFull IPv4.
Definition sendDesyncFullv6 := @sendDesyncFull IPv6.

(** ** Windows *)

Record WindowManipulator := { wm_mode : string; values : list Z }.
Definition NewWindowManipulator (cfg : TCPConfig) : WindowManipulator :=
  {| wm_mode := w_Mode (Win cfg);
     values := if bool_decide (w_Values (Win cfg) = []) then [0; 1460; 8192; 65535] else w_Values (Win cfg) |}.

(** [uint8(n)], but at least 1. *)
Definition probe_ttl (n : Z) : Z := if u8 n <? 1 then 1 else u8 n.

(** Twenty bytes of TCP header with another window and TTL; [ack] sets the flags to
    ACK alone. *)
Definition window_fake `{Family} (packet : bytes) (ipHdrLen winSize ttl : Z) (ack : bool) : go bytes :=
  let! fake := header_copy packet (ipHdrLen + 20) in
  let! fake := put16 fake (ipHdrLen + 14) winSize in
  let! fake := upd fake ttl_at ttl in
  let! fake := set_len fake (ipHdrLen + 20) in
  let! fake := (if ack then upd fake (ipHdrLen + 13) 0x10 else Ret fake) in
  fix_segment fake ipHdrLen.

Fixpoint window_fakes `{Family} (packet : bytes) (ipHdrLen : Z) (wins : list Z) (base i : Z) (ack : bool)
    (pause : Z → Z) : go (list action) :=
  match wins with
  | [] => Ret []
  | win :: wins =>
      let! fake := window_fake packet ipHdrLen win (probe_ttl (base - i)) ack in
      let! rest := window_fakes packet ipHdrLen wins base (i + 1) ack pause in
      Ret (Send fake :: Sleep (pause i) :: rest)
  end.

Definition sendOscillatingWindows `{Family} (packet : bytes) (ipHdrLen : Z) (wm : WindowManipulator) :=
  window_fakes packet ipHdrLen (values wm) 10 0 true (λ _, 100 * microsecond).

(** The whole packet with another window and TTL. *)
Definition whole_fake `{Family} (packet : bytes) (ipHdrLen winSize ttl : Z) : go bytes :=
  let! fake := header_copy packet (len packet) in
  let! fake := put16 fake (ipHdrLen + 14) winSize in
  let! fake := upd fake ttl_at ttl in
  fix_segment fake ipHdrLen.

Definition sendZeroWindow `{Family} (packet : bytes) (ipHdrLen : Z) : go (list action) :=
  let! fake := whole_fake packet ipHdrLen 0 3 in
  let! fake2 := whole_fake packet ipHdrLen 65535 2 in
  Ret [Send fake; Sleep (500 * microsecond); Send fake2].

(** The [i]-th of the three to five windows drawn. *)
Definition random_window (wm : WindowManipulator) (r : draws) (i : Z) : Z :=
  nth (Z.to_nat (r_seq r i mod Z.of_nat (length (values wm)))) (values wm) 0.

Definition sendRandomWindows `{Family} (packet : bytes) (ipHdrLen : Z) (wm : WindowManipulator) (r : draws) :=
  let numFakes := 3 + r_count r mod 3 in
  window_fakes packet ipHdrLen (map (λ n, random_window wm r (Z.of_nat n)) (seq 0 (Z.to_nat numFakes))) 8 0
    false (λ i, r_jitter r i mod 500 * microsecond).

Definition sendEscalatingWindows `{Family} (packet : bytes) (ipHdrLen : Z) :=
  window_fakes packet ipHdrLen [0; 100; 500; 1460; 8192; 32768; 65535] 10 0 false
    (λ i, Z.shiftl 1 i * 10 * microsecond).

Definition ManipulateWindow `{Family} (cfg : SetConfig) (r : draws) (packet : bytes) : go (list action) :=
  if bool_decide (w_Mode (Win (TCP cfg)) = ConfigOff) then Ret [] else
  let! ipHdrLen := ip_header_len packet is_v6 in
  if len packet <? ipHdrLen + 20 then Ret [] else
  let! d := idx packet (ipHdrLen + 12) in
  if negb is_v6 && (len packet <? ipHdrLen + u8 (Z.shiftr d 4 * 4)) then Ret [] else
  let wm := NewWindowManipulator (TCP cfg) in
  if bool_decide (wm_mode wm = "oscillate"%string) then sendOscillatingWindows packet ipHdrLen wm
  else if bool_decide (wm_mode wm = "zero"%string) then sendZeroWindow packet ipHdrLen
  else if bool_decide (wm_mode wm = "random"%string) then sendRandomWindows packet ipHdrLen wm r
  else if bool_decide (wm_mode wm = "escalate"%string) then sendEscalatingWindows packet ipHdrLen
  else sendOscillatingWindows packet ipHdrLen wm.

Definition ManipulateWindowIPv4 := @ManipulateWindow IPv4.
Definition ManipulateWindowIPv6 := @ManipulateWindow IPv6.
Definition sendOscillatingWindowsV6 := @sendOscillatingWindows IPv6.
Definition sendZeroWindowV6 := @sendZeroWindow IPv6.
Definition sendRandomWindowsV6 := @sendRandomWindows IPv6.
Definition sendEscalatingWindowsV6 := @sendEscalatingWindows IPv6.

(** ** The reset sent to the client *)

(** [srcIP] and [dstIP] are the addresses of the client's packet, [now] is the clock
    that the id is taken from. *)
Definition sendRSTToClientV4 (raw : bytes) (ihl : Z) (srcIP dstIP : bytes) (now : Z) : go (list action) :=
  let! tcp := slice_from raw ihl in
  if len tcp <? 20 then Ret [] else
  let! clientPort := be16 tcp 0 in
  let! serverPort := be16 tcp 2 in
  let! clientAck := be32 tcp 8 in
  let! rst := make 40 in
  let! rst := upd rst 0 0x45 in
  let! rst := put16 rst 2 40 in
  let! rst := put16 rst 4 (u16 (Z.land now 65535)) in
  let! rst := upd rst 8 64 in
  let! rst := upd rst 9 6 in
  let! rst := copy_at rst 12 16 dstIP in
  let! rst := copy_at rst 16 20 srcIP in
  let! rst := put16 rst 20 serverPort in
  let! rst := put16 rst 22 clientPort in
  let! rst := put32 rst 24 clientAck in
  let! rst := upd rst 32 0x50 in
  let! rst := upd rst 33 0x04 in
  let! rst := on_slice FixIPv4Checksum rst 0 20 in
  let! rst := FixTCPChecksum rst in
  Ret [Send rst].

Definition sendRSTToClientV6 (raw srcIP dstIP : bytes) : go (list action) :=
  let! tcp := slice_from raw 40 in
  if len tcp <? 20 then Ret [] else
  let! clientPort := be16 tcp 0 in
  let! serverPort := be16 tcp 2 in
  let! clientAck := be32 tcp 8 in
  let! rst := make 60 in
  let! rst := upd rst 0 0x60 in
  let! rst := put16 rst 4 20 in
  let! rst := upd rst 6 6 in
  let! rst := upd rst 7 64 in
  let! rst := copy_at rst 8 24 dstIP in
  let! rst := copy_at rst 24 40 srcIP in
  let! rst := put16 rst 40 serverPort in
  let! rst := put16 rst 42 clientPort in
  let! rst := put32 rst 44 clientAck in
  let! rst := upd rst 52 0x50 in
  let! rst := upd rst 53 0x04 in
  let! rst := FixTCPChecksumV6 rst in
  Ret [Send rst].

(** ** The plan of a burst *)

(** Flags and sequence number of each packet that [ExecuteDesync] means to send. *)
Section plan.
Context {F : Family} {R : Receiver}.
Implicit Types (p q l f g : bytes).

Definition rst_plan p (n : Z) : list (Z * Z) :=
  map (λ i, (if i mod 2 =? 0 then 0x04 else 0x14, u32 (seq_no p + rst_offset i))) (seqZ 0 n).
Definition fin_plan p (n : Z) : list (Z * Z) := map (λ i, (0x11, fin_seq (seq_no p) i)) (seqZ 0 n).
Definition ack_plan (r : draws) p (n : Z) : list (Z * Z) :=
  map (λ i, (0x10, u32 (seq_no p + u32 (r_seq r i)))) (seqZ 0 n).
Definition combo_plan (r : draws) p : list (Z * Z) := rst_plan p 1 ++ fin_plan p 1 ++ ack_plan r p 2.
Definition full_plan p : list (Z * Z) :=
  (0x02, u32 (seq_no p - 100000)) :: map (λ i, (0x04, u32 (seq_no p + u32 (i * 100)))) [0; 1; 2]
  ++ if is_v6 then [] else [(0x18, seq_no p); (0x39, seq_no p)].

Definition desync_plan (cfg : SetConfig) (r : draws) p : list (Z * Z) :=
  let n := ds_Count (Desync (TCP cfg)) in
  let mode := ds_Mode (Desync (TCP cfg)) in
  if decide (mode = ConfigOff) then []
  else if decide (mode = "rst"%string) then rst_plan p n
  else if decide (mode = "fin"%string) then fin_plan p n
  else if decide (mode = "ack"%string) then ack_plan r p n
  else if decide (mode = "full"%string) then full_plan p
  else combo_plan r p.

(** What a decoy may change in [p]'s headers: TTL, sequence and acknowledgement
    numbers, flags and urgent pointer (the length and the checksums follow). *)
Definition edit_fields (h : Z) : list Z :=
  [h + 4; h + 5; h + 6; h + 7; h + 8; h + 9; h + 10; h + 11; h + 18; h + 19].
Definition decoy_fields (h : Z) : list Z := ttl_at :: h + 13 :: edit_fields h.

(** [f] is a packet of [p]'s connection without data, with these flags and this
    sequence number, that would be valid but for its inverted checksum and that has
    a lower TTL than [p]. *)
Definition is_decoy p (flags sq : Z) f : Prop := ∃ q g,
  captured q ∧ hdr q = hdr p ∧ off q = off p ∧ len q = off p
  ∧ same_header (decoy_fields (hdr p)) p q (off p)
  ∧ 1 <= get q ttl_at < 256 ∧ (1 < get p ttl_at → get q ttl_at < get p ttl_at)
  ∧ seg_of q sq [] g ∧ get g (hdr p + 13) = flags
  ∧ f = splice g (hdr p + 16) (bytes16 (65535 - get16 g (hdr p + 16))).
End plan.

(** ** Building decoys *)

Section decoys.
Context {F : Family} {R : Receiver} {Rd : Reader} {Rw : Rewriter}.
Implicit Types (p q l f g : bytes).

(** [edit] sets the sequence number [sq] and touches only [edit_fields]. *)
Definition edit_ok p (edit : bytes → go bytes) (sq : Z) : Prop :=
  ∀ l, bytes_ok l → len l = off p → seq_no p = get32 l (hdr p + 4) →
  wp (edit l) (λ l', bytes_ok l' ∧ len l' = off p ∧ get32 l' (hdr p + 4) = sq
    ∧ ∀ k, k ∉ edit_fields (hdr p) → get l' k = get l k).

Lemma fake_header_law p : captured p → fake_header p = Ret (Some (hdr p, off p - hdr p)).
Proof using Rw.
  intros Hc. pose proof (captured_range p Hc). pose proof Hc as (Hok & _ & _ & Hl & _).
  unfold fake_header. rewrite ip_len by done. cbn [go_bind].
  destruct (len p <? hdr p + 20) eqn:E; [zlia|]. rewrite idx_ret by lia. cbn [go_bind].
  pose proof (nibble_range _ (bytes_ok_get p (hdr p + 12) Hok)).
  assert (u8 (Z.shiftr (get p (hdr p + 12)) 4 * 4) = off p - hdr p) as ->.
  { rewrite u8_small by (unfold is_byte; lia). unfold off. lia. }
  destruct ((off p - hdr p <? 20) || (len p <? hdr p + (off p - hdr p))) eqn:E2; [zlia|done].
Qed.

Lemma wp_header_copy p n : bytes_ok p → 0 <= n <= len p →
  wp (header_copy p n) (λ l, l = sub p 0 n).
Proof.
  intros Hok Hn. unfold header_copy. do 5 wp_step. rewrite take_ge_len by len_lia.
  apply list_ext_get; [len_simp; lia|]. intros k Hk. gets; f_equal; lia.
Qed.

Lemma wp_ready_fix_flags p sq d l : captured p → ready p sq d l →
  wp (fix_segment l (hdr p)) (λ g, seg_of p sq d g ∧ get g (hdr p + 13) = get l (hdr p + 13)).
Proof.
  intros Hc Hr. apply wp_and; [by apply wp_ready_fix|]. pose proof (captured_range p Hc).
  pose proof Hr as [(Hl & Hlen & _ & _ & H2 & _) Ht].
  destruct (header_off p l Hc H2) as (Hh & Hhok & Ho).
  eapply wp_mono; [rewrite <- Hh; apply fix_segment_law; [done|done|lia|exact Ht]|].
  intros g (_ & _ & _ & Hg & _). apply Hg; [apply fields_high; lia|lia|lia].
Qed.

Lemma not_edited h k : k ∉ edit_fields h ↔ k < h + 4 ∨ h + 12 <= k < h + 18 ∨ h + 20 <= k.
Proof.
  unfold edit_fields. rewrite !not_elem_of_cons. split; [lia|]. intros. split_and!; try lia.
  apply not_elem_of_nil.
Qed.

Lemma decoy_base p q : captured p → bytes_ok q → off p <= len q <= 65535 + len_base →
  same_header (decoy_fields (hdr p)) p q (off p) →
  captured q ∧ hdr q = hdr p ∧ off q = off p.
Proof.
  intros Hc Hokq Hlq Hs. pose proof (captured_range p Hc). pose proof Hc as (_ & Hh & _ & _ & Hsz).
  assert (∀ k, 0 <= k < off p → k ≠ ttl_at → k < hdr p + 4 ∨ k = hdr p + 12 → get q k = get p k) as Hg.
  { intros k Hk Ht Hk'. apply Hs; [done|]. unfold decoy_fields. rewrite !not_elem_of_cons, not_edited. lia. }
  destruct (hdr_stable p q Hh) as [Hhq Hhok]; [intros k Hk _ Ht; apply Hg; lia|].
  pose proof ttl_range. assert (off q = off p) as Ho by (unfold off; rewrite Hhq, Hg by lia; done).
  split_and!; try done. unfold captured. rewrite Hhq, Ho. split_and!; try done; lia.
Qed.

Lemma wp_header_fake p flags edit t sq : captured p → is_byte flags → edit_ok p edit sq →
  1 <= t < 256 → (1 < get p ttl_at → t < get p ttl_at) →
  wp (header_fake p (hdr p) (off p - hdr p) flags edit t) (is_decoy p flags sq).
Proof.
  intros Hc Hfl He Ht Htp. pose proof (captured_range p Hc). pose proof ttl_range. pose proof len_at_range.
  pose proof Hc as (Hok & _ & _ & Hl & Hsz).
  unfold header_fake. rewrite Zplus_minus. wp_step. eapply wp_mono; [apply wp_header_copy; [done|lia]|].
  intros l ->. do 2 wp_step. wp_step. set (l1 := <[_ := _]> _).
  assert (bytes_ok l1) as Hok1 by (unfold l1; auto with b4).
  assert (len l1 = off p) as Hl1 by (unfold l1; len_lia).
  assert (∀ k, 0 <= k < off p → get l1 k = if k =? hdr p + 13 then flags else get p k) as G1.
  { intros k Hk. unfold l1. gets; try done; try (f_equal; lia). }
  eapply wp_mono; [apply He; [done|done|]|].
  { unfold seq_no. apply get32_eq. intros k Hk. rewrite G1 by lia. zcases; done. }
  intros l2 (Hok2 & Hl2 & Hs2 & G2). do 2 wp_step. set (q := <[_ := _]> l2).
  assert (bytes_ok q) as Hokq by (unfold q; auto with b4).
  assert (len q = off p) as Hlq by (unfold q; len_lia).
  assert (get q ttl_at = t) as Gt by (unfold q; gets; done).
  assert (∀ k, 0 <= k < off p → k ≠ ttl_at → get q k = get l2 k) as Gq.
  { intros k Hk Hn. unfold q. gets. done. }
  assert (same_header (decoy_fields (hdr p)) p q (off p)) as Hsame.
  { intros k Hk [Hn1 [Hn2 Hn3]%not_elem_of_cons]%not_elem_of_cons. rewrite Gq, G2, G1 by done. zcases. done. }
  destruct (decoy_base p q Hc Hokq ltac:(lia) Hsame) as (Hcq & Hhq & Hoq).
  assert (seq_no q = sq) as Hsq.
  { rewrite <- Hs2. unfold seq_no. rewrite Hhq. apply get32_eq. intros k Hk. apply Gq; lia. }
  assert (get q (hdr p + 13) = flags) as Gf.
  { rewrite Gq, G2, G1 by (lia || apply not_edited; lia). zcases. done. }
  clearbody q. clear l1 l2 Hok1 Hl1 G1 Hok2 Hl2 Hs2 G2 Gq He.
  assert (draft q sq [] q) as Hd.
  { rewrite <- Hsq. apply draft_init; [done|done|cbn; lia|done|cbn; lia]. }
  wp_step. eapply wp_mono; [apply wp_and; [apply (wp_draft_len q sq [] q (off p)); [done|done|lia|lia]|]|].
  { instantiate (1 := λ l, get l (hdr p + 13) = flags). unfold set_len. wp_step. gets. done. }
  intros l4 [H4 Hf4]. wp_step. rewrite <- Hhq. eapply wp_mono; [by apply (wp_ready_fix_flags q sq [])|].
  intros g [Hg Hgf]. destruct (seg_of_len _ _ _ _ Hg) as (Hokg & Hlg & _).
  eapply wp_mono; [apply corrupt_splice; [done|lia|cbn in Hlg; lia]|].
  intros f ->. exists q, g. rewrite Gt. split_and!; try done; congruence || lia.
Qed.

(** The edits: a sequence number, with or without an acknowledgement number, or
    neither. *)
Lemma edit_seq p v : captured p → 0 <= v < 4294967296 → edit_ok p (λ l, put32 l (hdr p + 4) v) v.
Proof.
  intros Hc Hv l Hok Hl Hs. pose proof (captured_range p Hc). wp_step. rewrite u32_small by done.
  split_and!; [auto with b4|len_lia|..].
  - apply get32_of_bytes32; [done|]. intros k Hk. gets. f_equal. lia.
  - intros k Hk%not_edited. gets; done.
Qed.

Lemma edit_seq_ack p v (edit : bytes → go bytes) : captured p → 0 <= v < 4294967296 →
  (∀ l, edit l = Ret l ∨ ∃ w, edit l = put32 l (hdr p + 8) w) →
  edit_ok p (λ l, let! l := put32 l (hdr p + 4) v in edit l) v.
Proof.
  intros Hc Hv He l Hok Hl Hs. pose proof (captured_range p Hc). wp_step.
  eapply wp_mono; [by apply (edit_seq p v Hc Hv)|]. intros l1 (Hok1 & Hl1 & Hs1 & Hg1).
  destruct (He l1) as [-> | [w ->]]; wp_step; [done|].
  split_and!; [auto with b4|len_lia|..].
  - rewrite <- Hs1. apply get32_eq. intros k Hk. gets. done.
  - intros k Hk. rewrite <- Hg1 by done. apply not_edited in Hk. gets; done.
Qed.

Lemma edit_none p : edit_ok p Ret (seq_no p).
Proof. intros l Hok Hl Hs. by apply wp_ret. Qed.

Lemma edit_urgent p v : captured p → edit_ok p (λ l, put16 l (hdr p + 18) v) (seq_no p).
Proof.
  intros Hc l Hok Hl Hs. pose proof (captured_range p Hc). wp_step. split_and!; [auto with b4|len_lia|..].
  - rewrite Hs. apply get32_eq. intros k Hk. gets. done.
  - intros k Hk%not_edited. gets; done.
Qed.

Definition decoys p (plan : list (Z * Z)) (acts : list action) : Prop :=
  Forall2 (λ '(flags, sq) f, is_decoy p flags sq f) plan (sent acts).

Lemma wp_each_fake p (plan : Z → Z * Z) n i build pause :
  (∀ j, i <= j < i + Z.of_nat n → wp (build j) (is_decoy p (plan j).1 (plan j).2)) →
  wp (each_fake n i build pause) (decoys p (map plan (seqZ i (Z.of_nat n)))).
Proof.
  revert i. induction n as [|n IH]; intros i H; cbn [each_fake]; [apply wp_ret; constructor|].
  rewrite (seqZ_cons i) by lia. wp_step. eapply wp_mono; [apply H; lia|]. intros f Hf.
  wp_step. replace (Z.pred (Z.of_nat (S n))) with (Z.of_nat n) by lia. change (Z.succ i) with (i + 1).
  eapply wp_mono; [apply IH; intros; apply H; lia|]. intros acts Ha. apply wp_ret.
  constructor; [by destruct (plan i)|exact Ha].
Qed.

Lemma wp_fakes p (plan : Z → Z * Z) n build pause :
  (∀ j, 0 <= j → wp (build j) (is_decoy p (plan j).1 (plan j).2)) →
  wp (each_fake (Z.to_nat n) 0 build pause) (decoys p (map plan (seqZ 0 n))).
Proof.
  intros H. assert (seqZ 0 n = seqZ 0 (Z.of_nat (Z.to_nat n))) as ->.
  { unfold seqZ. by rewrite Nat2Z.id. }
  apply wp_each_fake. intros j Hj. apply H. lia.
Qed.

Lemma wp_ttl p t : captured p → is_byte t →
  wp (dynamicTTL p is_v6 t) (λ t, 1 <= t < 256 ∧ (1 < get p ttl_at → t < get p ttl_at)).
Proof using Rd.
  intros Hc Ht. pose proof (captured_range p Hc). pose proof Hc as (Hok & _ & _ & Hl & _).
  destruct ttl_out as [_ ->]. eapply wp_mono; [apply wp_dynamicTTL; [done|done|lia]|]. tauto.
Qed.

(** The start of every routine: the headers and the numbers read in front of the
    loop. *)
Ltac routine Hc :=
  rewrite (fake_header_law _ Hc); cbn [go_bind]; pose proof (captured_range _ Hc);
  pose proof Hc as (_ & _ & _ & ? & _); repeat (wp_step; wp_step).

Lemma wp_sendDesyncRST p da : captured p → is_byte (ttl da) →
  wp (sendDesyncRST da p) (decoys p (rst_plan p (count da))).
Proof using Rd Rw.
  intros Hc Ht. unfold sendDesyncRST, rst_plan. routine Hc.
  apply wp_fakes. intros j Hj. cbv zeta. wp_step.
  eapply wp_mono; [by apply wp_ttl|]. intros t [Ht1 Ht2]. cbn [fst snd].
  apply wp_header_fake; [done|case_if; done| |done|done].
  apply (edit_seq_ack p _ (λ l, if _ =? 4 then put32 l _ _ else Ret l) Hc (u32_range _)).
  intros l. destruct (_ =? 0x04); eauto.
Qed.

Lemma wp_sendDesyncFIN p da : captured p → is_byte (ttl da) →
  wp (sendDesyncFIN da p) (decoys p (fin_plan p (count da))).
Proof using Rd Rw.
  intros Hc Ht. unfold sendDesyncFIN, fin_plan. routine Hc.
  apply wp_fakes. intros j Hj. wp_step.
  eapply wp_mono; [by apply wp_ttl|]. intros t [Ht1 Ht2]. cbn [fst snd].
  assert (0 <= fin_seq (seq_no p) j < 4294967296) as Hr.
  { unfold fin_seq. cbv zeta. case_if; [apply u32_range|lia]. }
  apply wp_header_fake; [done|done| |done|done].
  apply (edit_seq_ack p _ (λ l, put32 l _ _) Hc Hr). eauto.
Qed.

Lemma ack_ttl_range p t i : 1 <= t < 256 → (1 < get p ttl_at → t < get p ttl_at) →
  1 <= ack_ttl t i < 256 ∧ (1 < get p ttl_at → ack_ttl t i < get p ttl_at).
Proof.
  intros Ht Hp. unfold ack_ttl. cbv zeta. pose proof (is_byte_u8 i). unfold is_byte in *.
  destruct (t <=? u8 i) eqn:E; [cbn; lia|]. rewrite u8_small by (unfold is_byte; zlia). case_if; zlia.
Qed.

Lemma wp_sendDesyncACK p r da : captured p → is_byte (ttl da) →
  wp (sendDesyncACK da r p) (decoys p (ack_plan r p (count da))).
Proof using Rd Rw.
  intros Hc Ht. unfold sendDesyncACK, ack_plan. routine Hc. wp_step.
  eapply wp_mono; [by apply wp_ttl|]. intros t [Ht1 Ht2].
  apply wp_fakes. intros j Hj. destruct (ack_ttl_range p t j Ht1 Ht2). cbn [fst snd].
  apply wp_header_fake; [done|done| |done|done].
  apply (edit_seq_ack p _ (λ l, put32 l _ _) Hc (u32_range _)). eauto.
Qed.

Lemma decoys_app p s1 s2 a1 a2 : decoys p s1 a1 → decoys p s2 a2 → decoys p (s1 ++ s2) (a1 ++ a2).
Proof. unfold decoys, sent. rewrite omap_app. apply Forall2_app. Qed.

Lemma wp_sendDesyncCombo p r da : captured p → is_byte (ttl da) →
  wp (sendDesyncCombo da r p) (decoys p (combo_plan r p)).
Proof using Rd Rw.
  intros Hc Ht. unfold sendDesyncCombo, combo_plan.
  wp_step. eapply wp_mono; [by apply wp_sendDesyncRST|]. intros a1 H1.
  wp_step. eapply wp_mono; [by apply wp_sendDesyncFIN|]. intros a2 H2.
  wp_step. eapply wp_mono; [by apply wp_sendDesyncACK|]. intros a3 H3.
  apply wp_ret, decoys_app; [done|]. change (decoys p (fin_plan p 1 ++ ack_plan r p 2) (a2 ++ Sleep 500000 :: a3)).
  by apply decoys_app.
Qed.

Lemma wp_sendDesyncFull p da : captured p → is_byte (ttl da) →
  wp (sendDesyncFull da p) (decoys p (full_plan p)).
Proof using Rd Rw.
  intros Hc Ht. unfold sendDesyncFull, full_plan. routine Hc. wp_step.
  eapply wp_mono; [by apply wp_ttl|]. intros t [Ht1 Ht2].
  wp_step. eapply wp_mono; [apply wp_header_fake; [done|done|by apply edit_seq, u32_range|done|done]|]. intros syn Hsyn.
  wp_step. eapply wp_mono; [apply (wp_each_fake p (λ i, (0x04, u32 (seq_no p + u32 (i * 100)))))|].
  { intros j Hj. apply wp_header_fake; [done|done|by apply edit_seq, u32_range|done|done]. }
  intros acts Ha. cbv zeta.
  assert (decoys p ((2, u32 (seq_no p - 100000)) :: map (λ i, (4, u32 (seq_no p + u32 (i * 100)))) [0; 1; 2])
    (Send syn :: Sleep (100 * microsecond) :: acts)) as Hstart by by constructor.
  destruct is_v6; [apply wp_ret; by rewrite app_nil_r|].
  wp_step. eapply wp_mono; [apply wp_header_fake; [done|done|by apply edit_none|done|done]|]. intros push Hpush.
  wp_step. eapply wp_mono; [apply wp_header_fake; [done|done|by apply edit_urgent|done|done]|]. intros urg Hurg.
  apply wp_ret. rewrite app_comm_cons. apply decoys_app; [exact Hstart|]. repeat constructor; done.
Qed.
End decoys.

Lemma wp_ExecuteDesync {F : Family} {R : Receiver} {Rd : Reader} {Rw : Rewriter}
    (cfg : SetConfig) (r : draws) (p : bytes) :
  captured p → is_byte (ds_TTL (Desync (TCP cfg))) →
  wp (ExecuteDesync cfg r p) (decoys p (desync_plan cfg r p)).
Proof.
  intros Hc Ht. unfold ExecuteDesync, desync_plan. cbv zeta. cbn [mode NewDesyncAttacker].
  set (m := ds_Mode _). set (da := NewDesyncAttacker _). assert (is_byte (ttl da)) by done.
  case_bool_decide; [rewrite decide_True by done; by apply wp_ret; constructor|rewrite decide_False by done].
  case_bool_decide; [rewrite decide_True by done; by apply (wp_sendDesyncRST p da)|rewrite decide_False by done].
  case_bool_decide; [rewrite decide_True by done; by apply (wp_sendDesyncFIN p da)|rewrite decide_False by done].
  case_bool_decide; [rewrite decide_True by done; by apply (wp_sendDesyncACK p r da)|rewrite decide_False by done].
  case_bool_decide as E; [rewrite decide_False by (rewrite E; done); by apply wp_sendDesyncCombo|].
  case_bool_decide; [rewrite decide_True by done|rewrite decide_False by done].
  - by apply wp_sendDesyncFull.
  - by apply wp_sendDesyncCombo.
Qed.

(** C15: The bursts sent before the ClientHello are what their mode plans: each packet
    has the planned flags and sequence number, belongs to the connection, has no
    data and a TTL below the packet's, and would be valid had its checksum not been
    inverted. *)
Theorem ExecuteDesync_decoys {F : Family} {R : Receiver} {Rd : Reader} {Rw : Rewriter}
    (cfg : SetConfig) (r : draws) (p : bytes) :
  captured p → is_byte (ds_TTL (Desync (TCP cfg))) →
  wp (ExecuteDesync cfg r p) (decoys p (desync_plan cfg r p)).
Proof. apply wp_ExecuteDesync. Qed.

(** ** After the real packet *)

Lemma wp_post_fakes {F : Family} {R : Receiver} (p : bytes) (seq t : Z) (types : list (Z * Z)) :
  captured p → 1 <= t < 256 → (1 < get p ttl_at → t < get p ttl_at) → Forall (λ y, is_byte y.1) types →
  wp (post_fakes p (hdr p) (off p - hdr p) seq t types)
     (decoys p (map (λ '(flags, o), (flags, post_seq seq o)) types)).
Proof.
  intros Hc Ht Htp. induction 1 as [|[flags o] types Hf Hts IH]; cbn [post_fakes map].
  { apply wp_ret. constructor. }
  wp_step. eapply wp_mono; [apply wp_header_fake; [done|done|by apply edit_seq, u32_range|done|done]|].
  intros f Hfk. wp_step. eapply wp_mono; [exact IH|]. intros acts Ha. apply wp_ret. by constructor.
Qed.

Lemma post_header_law {F : Family} {R : Receiver} (p : bytes) : captured p →
  post_header p (hdr p) = Ret (Some (off p - hdr p)).
Proof.
  intros Hc. pose proof (captured_range p Hc). pose proof Hc as (Hok & _ & _ & Hl & _).
  unfold post_header. destruct (len p <? hdr p + 20) eqn:E; [zlia|]. rewrite idx_ret by lia. cbn [go_bind].
  pose proof (nibble_range _ (bytes_ok_get p (hdr p + 12) Hok)).
  assert (u8 (Z.shiftr (get p (hdr p + 12)) 4 * 4) = off p - hdr p) as ->.
  { rewrite u8_small by (unfold is_byte; lia). unfold off. lia. }
  destruct ((off p - hdr p <? 20) || (len p <? hdr p + (off p - hdr p))) eqn:E2; [zlia|done].
Qed.

Definition post_plan {F : Family} {R : Receiver} (p : bytes) : list (Z * Z) :=
  let n := len (payload_of p) in
  if is_v6 then [(0x14, u32 (seq_no p + n))]
  else map (λ '(flags, o), (flags, post_seq (seq_no p) o)) (fakeTypes n).

Lemma wp_sendPostDesyncRSTV4 (cfg : SetConfig) (p4 : bytes) :
  captured4 p4 → is_byte (FakingTTL (Faking cfg)) →
  wp (sendPostDesyncRSTV4 cfg p4 (ihl4 p4)) (@decoys IPv4 _ p4 (@post_plan IPv4 _ p4)).
Proof.
  intros H4 Ht. unfold sendPostDesyncRSTV4, post_plan. pose proof (post_header_law p4 H4) as E.
  pose proof (captured_range p4 H4). pose proof H4 as (_ & _ & _ & Hl & _). cbn [hdr Receiver4 is_v6 IPv4] in *.
  rewrite E. cbn [go_bind]. cbv zeta.
  do 2 wp_step. wp_step. eapply wp_mono; [by apply (@wp_ttl IPv4 _ _ p4)|]. intros t [Ht1 Ht2].
  rewrite payload_len by done. replace (len p4 - ihl4 p4 - (off4 p4 - ihl4 p4)) with (len p4 - off4 p4) by lia.
  exact (@wp_post_fakes IPv4 _ p4 (@seq_no IPv4 _ p4) t (fakeTypes _) H4 Ht1 Ht2 ltac:(repeat constructor; done)).
Qed.

Lemma wp_sendPostDesyncRSTv6 (cfg : SetConfig) (p6 : bytes) :
  captured6 p6 → is_byte (FakingTTL (Faking cfg)) →
  wp (sendPostDesyncRSTv6 cfg p6) (@decoys IPv6 _ p6 (@post_plan IPv6 _ p6)).
Proof.
  intros H6 Ht. unfold sendPostDesyncRSTv6, post_plan. pose proof (post_header_law p6 H6) as E.
  pose proof (captured_range p6 H6). pose proof H6 as (_ & _ & _ & Hl & _). cbn [hdr Receiver6 is_v6 IPv6] in *.
  rewrite E. cbn [go_bind]. cbv zeta.
  do 2 wp_step. wp_step. eapply wp_mono; [by apply (@wp_ttl IPv6 _ _ p6)|]. intros t [Ht1 Ht2].
  rewrite payload_len by done. replace (len p6 - 40 - (off6 p6 - 40)) with (len p6 - off6 p6) by lia.
  rewrite u32_add_l. wp_step.
  set (sq := u32 _). pose proof (@edit_seq IPv6 _ p6 sq H6 (u32_range _)) as He.
  eapply wp_mono; [exact (@wp_header_fake IPv6 _ p6 0x14 _ t sq H6 ltac:(done) He Ht1 Ht2)|].
  intros f Hf. apply wp_ret. by constructor.
Qed.

(** After the ClientHello, five decoys over IPv4 and one over IPv6: resets and a FIN
    for the place where the payload starts, where it ends and two far away. *)
Theorem sendPostDesyncRST_decoys (cfg : SetConfig) (p4 p6 : bytes) :
  captured4 p4 → captured6 p6 → is_byte (FakingTTL (Faking cfg)) →
  wp (sendPostDesyncRSTV4 cfg p4 (ihl4 p4)) (@decoys IPv4 _ p4 (@post_plan IPv4 _ p4))
  ∧ wp (sendPostDesyncRSTv6 cfg p6) (@decoys IPv6 _ p6 (@post_plan IPv6 _ p6)).
Proof. intros. split; [by apply wp_sendPostDesyncRSTV4|by apply wp_sendPostDesyncRSTv6]. Qed.

(** ** Window probes *)

Section windows.
Context {F : Family} {R : Receiver} {Rd : Reader} {Rw : Rewriter}.
Implicit Types (p l f : bytes).

(** [f] has [p]'s headers up to the data offset - addresses, ports, sequence and
    acknowledgement numbers - but for the TTL and the length, id and checksum of the IP
    header. *)
Definition same_headers p f : Prop :=
  ∀ k, 0 <= k < hdr p + 13 → k ∉ ip_fields → k ≠ ttl_at → get f k = get p k.

(** A packet of [n] bytes with [p]'s headers and place in the stream, these flags, this
    window and TTL, checksums that verify, and [p]'s data as far as it reaches. *)
Definition is_probe p (spec : Z * Z * Z * Z) f : Prop :=
  let '(fl, win, t, n) := spec in
  len f = n ∧ total f = n ∧ sums_ok f ∧ hdr f = hdr p ∧ off f = off p ∧ seq_no f = seq_no p
  ∧ get16 f (hdr p + 14) = win ∧ get f ttl_at = t
  ∧ same_headers p f ∧ get f (hdr p + 13) = fl ∧ ∀ k, hdr p + 20 <= k < n → get f k = get p k.

(** The flags, windows, falling TTLs and length. *)
Definition ladder p (fl base : Z) (wins : list Z) : list (Z * Z * Z * Z) :=
  imap (λ i w, (fl, u16 w, probe_ttl (base - Z.of_nat i), hdr p + 20)) wins.

(** [p]'s flags, or ACK alone for the mode "oscillate", which is also the default. *)
Definition window_plan (cfg : SetConfig) (r : draws) p : list (Z * Z * Z * Z) :=
  let fl := get p (hdr p + 13) in
  let wm := NewWindowManipulator (TCP cfg) in
  let mode := w_Mode (Win (TCP cfg)) in
  if decide (mode = ConfigOff) then []
  else if decide (mode = "zero"%string) then [(fl, 0, 3, len p); (fl, 65535, 2, len p)]
  else if decide (mode = "random"%string)
  then ladder p fl 8 (map (λ n, random_window wm r (Z.of_nat n)) (seq 0 (Z.to_nat (3 + r_count r mod 3))))
  else if decide (mode = "escalate"%string) then ladder p fl 10 [0; 100; 500; 1460; 8192; 32768; 65535]
  else ladder p 16 10 (values wm).

Lemma wp_probe_fix p l fl win t n : captured p → bytes_ok l → len l = n → total l = n → hdr p + 20 <= n →
  (∀ k, 0 <= k < hdr p + 13 → k ∉ ip_fields → k ≠ ttl_at → get l k = get p k) →
  get16 l (hdr p + 14) = win → get l ttl_at = t → get l (hdr p + 13) = fl →
  (∀ k, hdr p + 20 <= k < n → get l k = get p k) →
  wp (fix_segment l (hdr p)) (is_probe p (fl, win, t, n)).
Proof.
  intros Hc Hok Hl Ht Hn Hg Hw Htl Hfl Hd. pose proof (captured_range p Hc). pose proof ttl_range.
  pose proof len_at_range. destruct ttl_out as [Hout _].
  destruct (hdr_stable p l) as [Hh Hhok]; [by destruct Hc as (_ & ? & _)|intros; apply Hg; done || lia|].
  eapply wp_mono; [rewrite <- Hh; apply fix_segment_law; [done|done|lia|unfold total in Ht; lia]|].
  intros f (Hlf & Hokf & Htf & Hgf & Hs). rewrite Hh in Hgf.
  assert (∀ k, 0 <= k < hdr p + 13 → k ∉ ip_fields → k ≠ ttl_at → get f k = get p k) as Hgp.
  { intros k Hk Hn1 Hn2. rewrite Hgf by (done || lia). by apply Hg. }
  destruct (hdr_stable p f) as [Hhf Hhokf]; [by destruct Hc as (_ & ? & _)|intros; apply Hgp; done || lia|].
  split_and!; [lia| |done|done|..].
  - unfold total in *. lia.
  - unfold off. rewrite Hhf, Hgp; [done|lia|apply fields_high; lia|lia].
  - unfold seq_no. rewrite Hhf. apply get32_eq. intros k Hk. apply Hgp; [lia|apply fields_high; lia|lia].
  - rewrite <- Hw. apply get16_eq; apply Hgf; try apply fields_high; lia.
  - rewrite <- Htl. apply Hgf; [done|lia|lia].
  - exact Hgp.
  - rewrite <- Hfl. apply Hgf; [apply fields_high; lia|lia|lia].
  - intros k Hk. rewrite Hgf; [by apply Hd|apply fields_high; lia|lia|lia].
Qed.

Lemma probe_ttl_byte n : is_byte (probe_ttl n).
Proof. unfold probe_ttl. pose proof (is_byte_u8 n). unfold is_byte in *. case_if; lia. Qed.

Lemma wp_window_fake p w t ack : captured p → is_byte t →
  wp (window_fake p (hdr p) w t ack) (is_probe p (if ack then 16 else get p (hdr p + 13), u16 w, t, hdr p + 20)).
Proof.
  intros Hc Ht. pose proof (captured_range p Hc). pose proof ttl_range. pose proof len_at_range.
  pose proof ttl_not_len. pose proof Hc as (Hok & _ & _ & Hl & _). pose proof not_len.
  unfold window_fake. wp_step. eapply wp_mono; [apply wp_header_copy; [done|lia]|]. intros l ->.
  unfold set_len. do 6 wp_step. set (l2 := splice _ len_at _).
  assert (bytes_ok l2) as Hok2 by (unfold l2; auto 8 with b4).
  assert (len l2 = hdr p + 20) as Hl2 by (unfold l2; len_lia).
  assert (∀ k, 0 <= k < hdr p + 13 → k ∉ ip_fields → k ≠ ttl_at → get l2 k = get p k) as G.
  { intros k Hk Hn1 Hn2. destruct (not_len k Hn1). unfold l2. gets; try zlia; try (f_equal; lia). }
  assert (get l2 (hdr p + 13) = get p (hdr p + 13)) as FL by (unfold l2; gets; try zlia; try (f_equal; lia)).
  assert (get16 l2 (hdr p + 14) = u16 w ∧ get l2 ttl_at = t ∧ total l2 = hdr p + 20) as (W & T & N).
  { split_and!.
    - apply get16_bytes16; [apply u16_range|..]; unfold l2; gets; try zlia; f_equal; lia.
    - unfold l2. gets; try zlia.
    - unfold total, l2. rewrite get16_splice by (apply u16_range || len_lia || auto 8 with b4).
      rewrite u16_small by lia. lia. }
  clearbody l2. destruct ack; do 2 wp_step.
  - apply wp_probe_fix; [done|auto with b4|len_lia| |lia|..].
    + rewrite <- N. unfold total. f_equal. apply get16_eq; gets; done.
    + intros k Hk Hn1 Hn2. rewrite <- G by done. gets. done.
    + rewrite <- W. apply get16_eq; gets; done.
    + gets; done.
    + gets; done.
    + intros k Hk. lia.
  - apply wp_probe_fix; try done. intros k Hk. lia.
Qed.

Lemma wp_whole_fake p w t : captured p → total p = len p → is_byte t →
  wp (whole_fake p (hdr p) w t) (is_probe p (get p (hdr p + 13), u16 w, t, len p)).
Proof.
  intros Hc Htot Ht. pose proof (captured_range p Hc). pose proof ttl_range. pose proof len_at_range.
  pose proof ttl_not_len. pose proof Hc as (Hok & _ & _ & Hl & _).
  unfold whole_fake. wp_step. eapply wp_mono; [apply wp_header_copy; [done|lia]|]. intros l ->.
  rewrite sub_full. do 4 wp_step. apply wp_probe_fix; [done|auto 8 with b4|len_lia| |lia|..].
  - rewrite <- Htot. unfold total. f_equal. apply get16_eq; gets; done.
  - intros k Hk Hn1 Hn2. gets; done.
  - apply get16_bytes16; [apply u16_range|..]; gets; f_equal; lia.
  - gets; done.
  - gets; done.
  - intros k Hk. gets; done.
Qed.

Definition probes p (plan : list (Z * Z * Z * Z)) (acts : list action) : Prop :=
  Forall2 (is_probe p) plan (sent acts).

Lemma wp_window_fakes p wins base i ack pause : captured p →
  wp (window_fakes p (hdr p) wins base i ack pause)
     (probes p (imap (λ j w, (if ack then 16 else get p (hdr p + 13), u16 w, probe_ttl (base - (i + Z.of_nat j)), hdr p + 20)) wins)).
Proof.
  intros Hc. revert i. induction wins as [|w wins IH]; intros i; cbn [window_fakes].
  { apply wp_ret. constructor. }
  wp_step. eapply wp_mono; [by apply wp_window_fake, probe_ttl_byte|]. intros f Hf.
  wp_step. eapply wp_mono; [apply IH|]. intros acts Ha. apply wp_ret. constructor.
  - cbn [Z.of_nat]. by rewrite Z.add_0_r.
  - erewrite imap_ext; [exact Ha|]. intros j x _. cbn. do 3 f_equal. lia.
Qed.

Lemma wp_ladder p wins base ack pause : captured p →
  wp (window_fakes p (hdr p) wins base 0 ack pause) (probes p (ladder p (if ack then 16 else get p (hdr p + 13)) base wins)).
Proof. intros Hc. exact (wp_window_fakes p wins base 0 ack pause Hc). Qed.
End windows.

Lemma wp_ManipulateWindow {F : Family} {R : Receiver} {Rd : Reader} {Rw : Rewriter}
    (cfg : SetConfig) (r : draws) (p : bytes) :
  captured p → total p = len p →
  wp (ManipulateWindow cfg r p) (probes p (window_plan cfg r p)).
Proof.
  intros Hc Htot. pose proof (captured_range p Hc). pose proof Hc as (Hok & _ & _ & Hl & _).
  unfold ManipulateWindow, window_plan. cbv zeta. set (m := w_Mode _).
  case_bool_decide; [rewrite decide_True by done; by apply wp_ret; constructor|rewrite decide_False by done].
  rewrite ip_len by done. cbn [go_bind]. wp_step; [zlia|]. do 2 wp_step.
  pose proof (nibble_range _ (bytes_ok_get p (hdr p + 12) Hok)).
  assert (u8 (Z.shiftr (get p (hdr p + 12)) 4 * 4) = off p - hdr p) as ->.
  { rewrite u8_small by (unfold is_byte; lia). unfold off. lia. }
  assert ((len p <? hdr p + (off p - hdr p)) = false) as -> by lia. rewrite andb_false_r.
  cbn [wm_mode NewWindowManipulator]. fold m.
  case_bool_decide as E; [rewrite E; repeat (rewrite decide_False by done); by apply (wp_ladder p _ _ true)|clear E].
  case_bool_decide; [rewrite decide_True by done|rewrite decide_False by done].
  { unfold sendZeroWindow. wp_step. eapply wp_mono; [by apply wp_whole_fake|]. intros f Hf.
    wp_step. eapply wp_mono; [by apply wp_whole_fake|]. intros f2 Hf2.
    apply wp_ret. constructor; [exact Hf|]. constructor; [exact Hf2|constructor]. }
  case_bool_decide; [rewrite decide_True by done; by apply (wp_ladder p _ _ false)|rewrite decide_False by done].
  case_bool_decide; [rewrite decide_True by done; by apply (wp_ladder p _ _ false)|rewrite decide_False by done; by apply (wp_ladder p _ _ true)].
Qed.

(** C19: The window probes are what their mode plans: with [p]'s addresses, ports and place
    in the stream, the planned flags, window, TTL and length, and checksums that verify.  All
    but those of the mode "zero" end 20 bytes after the IP header and still declare [p]'s data
    offset: when [p] has TCP options they are malformed. *)
Theorem ManipulateWindow_probes {F : Family} {R : Receiver} {Rd : Reader} {Rw : Rewriter}
    (cfg : SetConfig) (r : draws) (p : bytes) :
  captured p → total p = len p →
  wp (ManipulateWindow cfg r p) (probes p (window_plan cfg r p)).
Proof. apply wp_ManipulateWindow. Qed.

(** ** The reset sent to the client *)

(** A reset as the server would send it: from [dst] to [src], from the port the
    client sent to, with the client's acknowledgement number as its sequence number
    and nothing else. *)
Definition is_reset {F : Family} {R : Receiver} (src dst tcp : bytes) (h at_ : Z) (f : bytes) : Prop :=
  valid f ∧ hdr f = h ∧ len f = h + 20 ∧ view f = (get32 tcp 8, [])
  ∧ sub f at_ (at_ + len dst) = dst ∧ sub f (at_ + len dst) (at_ + len dst + len src) = src
  ∧ get16 f h = get16 tcp 2 ∧ get16 f (h + 2) = get16 tcp 0 ∧ get f (h + 13) = 0x04.

Lemma sub_eq (l r : bytes) (i j : Z) : len l = len r → 0 <= i → i <= j → j <= len l →
  (∀ k, i <= k < j → get l k = get r k) → sub l i j = sub r i j.
Proof.
  intros Hl Hi Hij Hj H. apply list_ext_get; [len_simp; lia|]. intros k Hk. rewrite len_sub in Hk by lia.
  rewrite !get_sub by lia. zcases. apply H. lia.
Qed.

Lemma wp_reset {F : Family} {R : Receiver} (l src dst tcp : bytes) (at_ : Z) :
  bytes_ok l → hdr_ok l → len l = hdr l + 20 → total l = len l → off l = hdr l + 20 →
  0 <= at_ → at_ + len dst + len src <= hdr l → (∀ k, at_ <= k → k ∉ ip_fields) →
  sub l at_ (at_ + len dst) = dst → sub l (at_ + len dst) (at_ + len dst + len src) = src →
  get16 l (hdr l) = get16 tcp 2 → get16 l (hdr l + 2) = get16 tcp 0 → get32 l (hdr l + 4) = get32 tcp 8 →
  get l (hdr l + 13) = 0x04 → wp (fix_segment l (hdr l)) (is_reset src dst tcp (hdr l) at_).
Proof.
  intros Hok Hh Hl Ht Ho Ha0 Ha Hf Hd Hs Hp1 Hp2 Hsq Hfl. pose proof (hdr_range l Hok Hh).
  eapply wp_mono; [apply fix_segment_law; [done|done|lia|unfold total in Ht; lia]|].
  intros f (Hlf & Hokf & Htf & Hg & Hsum).
  destruct (hdr_stable l f Hh) as [Hhf _]; [intros; apply Hg; done || lia|].
  assert (∀ k, 12 <= k → k < hdr l + 16 ∨ hdr l + 18 <= k → get f k = get l k) as Hg12.
  { intros k Hk Hk'. apply Hg; [by apply fields_high|lia..]. }
  assert (total f = len f) as Htf' by (unfold total in *; lia).
  assert (off f = off l) as Hof by (unfold off; rewrite Hhf, Hg12 by lia; done).
  split_and!; [done|done|lia|..].
  - unfold view, seq_no. rewrite Hhf, Htf', Hof. f_equal.
    + rewrite <- Hsq. apply get32_eq. intros. apply Hg12; lia.
    + rewrite Ho, Hlf, Hl. apply sub_nil.
  - etransitivity; [|exact Hd]. apply sub_eq; [lia..|]. intros. apply Hg; [apply Hf; lia|lia..].
  - etransitivity; [|exact Hs]. apply sub_eq; [lia..|]. intros. apply Hg; [apply Hf; lia|lia..].
  - rewrite <- Hp1. apply get16_eq; apply Hg12; lia.
  - rewrite <- Hp2. apply get16_eq; apply Hg12; lia.
  - rewrite Hg12 by lia. done.
Qed.

Lemma wp_unbind {A B} (m : go A) (k : A → go B) (Q : B → Prop) :
  wp (go_bind m k) Q → wp m (λ a, wp (k a) Q).
Proof. by destruct m. Qed.

Lemma get32_bytes32_at (l : bytes) (i v : Z) :
  0 <= v < 4294967296 → (∀ k, 0 <= k < 4 → get l (i + k) = get (bytes32 (u32 v)) k) → get32 l i = v.
Proof. intros Hv H. apply get32_of_bytes32; [done|]. intros k Hk. rewrite H by done. by rewrite u32_small. Qed.

(** Name the elements of a list of known length. *)
Ltac explode l H := repeat (destruct l as [|? l]; [discriminate H|]; cbn [length] in H); destruct l; [|discriminate H].
Ltac read_field :=
  first [ apply get16_bytes16; [done|rewrite <- (u16_small (get16 _ _)) by done; reflexivity..]
        | apply get32_bytes32_at; [done|];
          let k := fresh in intros k ?; assert (k = 0 ∨ k = 1 ∨ k = 2 ∨ k = 3) as [-> | [-> | [-> | ->]]] by lia;
          reflexivity ].

(** The resets before their checksums. *)
Definition rst_tcp (tcp : bytes) : bytes :=
  bytes16 (u16 (get16 tcp 2)) ++ bytes16 (u16 (get16 tcp 0)) ++ bytes32 (u32 (get32 tcp 8)) ++ replicate 4 0
  ++ [0x50; 0x04; 0; 0; 0; 0; 0; 0].
Definition rst4 (src dst tcp : bytes) (now : Z) : bytes :=
  [0x45; 0] ++ bytes16 40 ++ bytes16 (u16 (u16 (Z.land now 65535))) ++ [0; 0; 64; 6; 0; 0] ++ dst ++ src ++ rst_tcp tcp.
Definition rst6 (src dst tcp : bytes) : bytes :=
  [0x60; 0; 0; 0] ++ bytes16 20 ++ [6; 64] ++ dst ++ src ++ rst_tcp tcp.

Ltac start_reset :=
  do 2 wp_step; wp_step; [exfalso; match goal with H : _ = true |- _ => revert H; len_simp; lia end|];
  match goal with |- context [sub ?raw ?i ?j] =>
    let H := fresh "Htok" in assert (bytes_ok (sub raw i j)) as H by (auto with b4);
    pose proof (get16_range _ 0 H); pose proof (get16_range _ 2 H); pose proof (get32_range _ 8 H);
    assert (20 <= len (sub raw i j)) by len_lia; generalize dependent (sub raw i j); intros tcp; intros
  end; wp_run.

Lemma bytes_ok_rst_tcp tcp : bytes_ok (rst_tcp tcp).
Proof.
  unfold rst_tcp. repeat (apply bytes_ok_app; split); auto with b4. by apply bytes_okb_spec.
Qed.

Lemma rst4_reset (src dst tcp : bytes) (now : Z) :
  bytes_ok src → bytes_ok dst → length src = 4%nat → length dst = 4%nat → bytes_ok tcp →
  wp (@fix_segment IPv4 (rst4 src dst tcp now) 20) (@is_reset IPv4 _ src dst tcp 20 12).
Proof.
  intros Hs Hd Ls Ld Ht. pose proof (bytes_ok_rst_tcp tcp). pose proof (get16_range _ 0 Ht).
  pose proof (get16_range _ 2 Ht). pose proof (get32_range _ 8 Ht).
  assert (bytes_ok (rst4 src dst tcp now)) as Hok.
  { unfold rst4. repeat (apply bytes_ok_app; split); auto with b4; by apply bytes_okb_spec. }
  explode src Ls. explode dst Ld.
  set (l := rst4 _ _ tcp now) in *. assert (@hdr IPv4 _ l = 20) as Hh by reflexivity. rewrite <- Hh.
  apply (@wp_reset IPv4 _ l); rewrite ?Hh;
    first [exact Hok|read_field|reflexivity|cbn; set_solver|vm_compute; discriminate|idtac].
Qed.

Lemma rst6_reset (src dst tcp : bytes) :
  bytes_ok src → bytes_ok dst → length src = 16%nat → length dst = 16%nat → bytes_ok tcp →
  wp (@fix_segment IPv6 (rst6 src dst tcp) 40) (@is_reset IPv6 _ src dst tcp 40 8).
Proof.
  intros Hs Hd Ls Ld Ht. pose proof (bytes_ok_rst_tcp tcp). pose proof (get16_range _ 0 Ht).
  pose proof (get16_range _ 2 Ht). pose proof (get32_range _ 8 Ht).
  assert (bytes_ok (rst6 src dst tcp)) as Hok.
  { unfold rst6. repeat (apply bytes_ok_app; split); auto with b4; by apply bytes_okb_spec. }
  explode src Ls. explode dst Ld.
  set (l := rst6 _ _ tcp) in *. assert (@hdr IPv6 _ l = 40) as Hh by reflexivity. rewrite <- Hh.
  apply (@wp_reset IPv6 _ l); rewrite ?Hh;
    first [exact Hok|read_field|reflexivity|cbn; set_solver|vm_compute; discriminate|idtac].
Qed.

Lemma pair_of (v : Z) : ∃ x y, bytes16 (u16 v) = [x; y].
Proof. by eexists _, _. Qed.
Lemma quad_of (v : Z) : ∃ x y z t, bytes32 (u32 v) = [x; y; z; t].
Proof. by eexists _, _, _, _. Qed.

(** The buffer under construction is [r], the buffer of [H]: the fields are made
    variables first. *)
Ltac same_buffer H :=
  unfold rst4, rst6, rst_tcp in H;
  repeat match goal with
  | |- context [bytes16 (u16 ?v)] =>
      lazymatch v with Zpos _ => fail | _ =>
        let E := fresh in destruct (pair_of v) as (? & ? & E); rewrite E in *; clear E end
  | |- context [bytes32 (u32 ?v)] =>
      let E := fresh in destruct (quad_of v) as (? & ? & ? & ? & E); rewrite E in *; clear E
  end;
  match type of H with wp (fix_segment ?r _) _ =>
    match goal with |- context [<[Z.to_nat ?i := ?v]> ?l] =>
      assert (<[Z.to_nat i := v]> l = r) as -> by (vm_compute; reflexivity) end end.

Lemma fix4_eq (l : bytes) (h : Z) :
  @fix_segment IPv4 l h = let! l := on_slice FixIPv4Checksum l 0 h in FixTCPChecksum l.
Proof. done. Qed.
Lemma fix6_eq (l : bytes) (h : Z) : @fix_segment IPv6 l h = FixTCPChecksumV6 l.
Proof. done. Qed.

Lemma wp_sendRST4 (raw src dst : bytes) (ihl now : Z) :
  bytes_ok raw → 0 <= ihl → ihl + 20 <= len raw →
  bytes_ok src → bytes_ok dst → length src = 4%nat → length dst = 4%nat →
  wp (sendRSTToClientV4 raw ihl src dst now) (λ acts, ∃ f, acts = [Send f]
    ∧ @is_reset IPv4 _ src dst (sub raw ihl (len raw)) 20 12 f).
Proof.
  intros Hr Hi Hl Hs Hd Ls Ld. pose proof (λ tcp, rst4_reset src dst tcp now Hs Hd Ls Ld) as Hrst.
  explode src Ls. explode dst Ld. unfold sendRSTToClientV4. start_reset.
  specialize (Hrst tcp Htok). same_buffer Hrst.
  rewrite fix4_eq in Hrst. apply wp_unbind in Hrst. eapply wp_mono; [exact Hrst|].
  intros f1 Hf1. wp_step. eapply wp_mono; [exact Hf1|].
  intros f Hf. apply wp_ret. exists f. split; [reflexivity|exact Hf].
Qed.

Lemma wp_sendRST6 (raw src dst : bytes) :
  bytes_ok raw → 60 <= len raw →
  bytes_ok src → bytes_ok dst → length src = 16%nat → length dst = 16%nat →
  wp (sendRSTToClientV6 raw src dst) (λ acts, ∃ f, acts = [Send f]
    ∧ @is_reset IPv6 _ src dst (sub raw 40 (len raw)) 40 8 f).
Proof.
  intros Hr Hl Hs Hd Ls Ld. pose proof (λ tcp, rst6_reset src dst tcp Hs Hd Ls Ld) as Hrst.
  explode src Ls. explode dst Ld. unfold sendRSTToClientV6. start_reset.
  specialize (Hrst tcp Htok). same_buffer Hrst.
  rewrite fix6_eq in Hrst. eapply wp_mono; [exact Hrst|]. intros f Hf. apply wp_ret. exists f. split; [reflexivity|exact Hf].
Qed.

(** C20: Both resets are valid packets that the client takes for the server's: from the
    address and port the client's packet was sent to, at the place the client expects
    next, without data. *)
Theorem sendRSTToClient_resets (raw4 raw6 src4 dst4 src6 dst6 : bytes) (ihl now : Z) :
  bytes_ok raw4 → 0 <= ihl → ihl + 20 <= len raw4 →
  bytes_ok src4 → bytes_ok dst4 → length src4 = 4%nat → length dst4 = 4%nat →
  bytes_ok raw6 → 60 <= len raw6 →
  bytes_ok src6 → bytes_ok dst6 → length src6 = 16%nat → length dst6 = 16%nat →
  wp (sendRSTToClientV4 raw4 ihl src4 dst4 now) (λ acts, ∃ f, acts = [Send f]
    ∧ @is_reset IPv4 _ src4 dst4 (sub raw4 ihl (len raw4)) 20 12 f)
  ∧ wp (sendRSTToClientV6 raw6 src6 dst6) (λ acts, ∃ f, acts = [Send f]
    ∧ @is_reset IPv6 _ src6 dst6 (sub raw6 40 (len raw6)) 40 8 f).
Proof. intros. split; [by apply wp_sendRST4|by apply wp_sendRST6]. Qed.

(** ** Witnesses *)

Lemma ExecuteDesync_decoys_witness :
  wp (ExecuteDesyncIPv4 cfg_demo draws_demo packet4_demo) (λ acts, length (sent acts) = 6%nat
    ∧ ∃ f, last (sent acts) = Some f ∧ @is_decoy IPv4 _ packet4_demo 0x39 (@seq_no IPv4 _ packet4_demo) f).
Proof.
  eapply wp_mono; [apply (ExecuteDesync_decoys cfg_demo draws_demo packet4_demo captured4_demo)|].
  - done.
  - intros acts H. unfold decoys in H. split; [symmetry; exact (Forall2_length _ _ _ H)|].
    set (plan := desync_plan _ _ _) in H.
    assert (plan = take 5 plan ++ [(0x39, @seq_no IPv4 _ packet4_demo)]) as E by reflexivity.
    rewrite E in H. apply Forall2_app_inv_l in H as (fs & gs & _ & Hg & ->).
    inversion Hg as [|? f ? gs' Hf Hg' E1 E2]; subst. inversion Hg'; subst. exists f. by rewrite last_snoc.
Defined.

Lemma sendPostDesyncRST_decoys_witness :
  wp (sendPostDesyncRSTV4 cfg_demo packet4_demo 20) (λ acts, length (sent acts) = 5%nat)
  ∧ wp (sendPostDesyncRSTv6 cfg_demo packet6_demo) (λ acts, length (sent acts) = 1%nat).
Proof.
  destruct (sendPostDesyncRST_decoys cfg_demo packet4_demo packet6_demo captured4_demo captured6_demo) as [H1 H2];
    [done|].
  assert (ihl4 packet4_demo = 20) as E by reflexivity. rewrite E in H1. split; [eapply wp_mono; [exact H1|]|eapply wp_mono; [exact H2|]]; intros acts H; symmetry; exact (Forall2_length _ _ _ H).
Defined.

Lemma ManipulateWindow_probes_witness :
  wp (ManipulateWindowIPv6 cfg_demo draws_demo packet6_demo) (λ acts,
    Forall2 (λ w f, get16 f 54 = w) [0; 1460; 8192; 65535] (sent acts)).
Proof.
  eapply wp_mono; [apply (ManipulateWindow_probes cfg_demo draws_demo packet6_demo captured6_demo)|].
  - vmc.
  - intros acts H. unfold probes in H. set (plan := window_plan _ _ _) in H.
    assert (plan = [(16, 0, 10, 60); (16, 1460, 9, 60); (16, 8192, 8, 60); (16, 65535, 7, 60)]) as E by reflexivity.
    rewrite E in H. clearbody plan. subst plan. change [0; 1460; 8192; 65535] with
      (map (λ s : Z * Z * Z * Z, s.1.1.2) [(16, 0, 10, 60); (16, 1460, 9, 60); (16, 8192, 8, 60); (16, 65535, 7, 60)]).
    apply Forall2_fmap_l. eapply Forall2_impl; [exact H|].
    intros [[[fl w] t] n] f Hf. destruct Hf as (Hl & _ & _ & _ & _ & _ & Hw & _). exact Hw.
Defined.

Lemma sendRSTToClient_resets_witness :
  wp (sendRSTToClientV4 packet4_demo 20 [10; 0; 0; 1] [93; 184; 216; 34] 77) (λ acts, ∃ f, acts = [Send f]
    ∧ @valid IPv4 _ f ∧ get f 33 = 4).
Proof.
  eapply wp_mono.
  - refine (proj1 (sendRSTToClient_resets packet4_demo packet6_demo [10; 0; 0; 1] [93; 184; 216; 34]
      (replicate 16 1) (replicate 16 2) 20 77 _ _ _ _ _ _ _ _ _ _ _ _ _));
      first [by apply bytes_okb_spec|reflexivity|vmc].
  - intros acts (f & -> & Hf). exists f. destruct Hf as (Hv & _ & _ & _ & _ & _ & _ & _ & Hfl).
    split; [reflexivity|]. split; [exact Hv|exact Hfl].
Defined.
