(* ===== verification/Oob.v ===== *)
(** * Out-of-band data

    src/src/nfq/oob.go: the payload in two segments and, between them, one byte of
    urgent data at the place of the second segment's first byte.  What is to keep
    the server from reading the byte is its TTL, which is the configured one whatever
    the packet's is. *)

From Stdlib Require Import ZArith Lia Ascii.
From stdpp Require Import base list numbers sets strings.
From S2P Require Import Prelude Config Payloads Checksum Fragment Split Segment Families Mutation Strategies Decoys.

Local Open Scope Z_scope.

(** [x[i] ^= 0xFF] *)
Definition flip (x : bytes) (i : Z) : go bytes :=
  let! b := idx x i in upd x i (Z.lxor b 255).

(** The byte's place: the configured position, or the middle of the name, inside the
    payload. *)
Definition oob_position (cfg : SetConfig) (r : draws) (payload : bytes) : go Z :=
  let fr := Fragmentation cfg in
  let payloadLen := len payload in
  let oobPos := ResolveRange (r_pos r) (OOBPosition fr) (OOBPositionMax fr) in
  let oobPos := if oobPos <=? 0 then 1 else oobPos in
  let! oobPos := (if MiddleSNI fr
    then let! sni := locateSNI payload in
         Ret (match sni with
              | Some (sniStart, sniEnd) =>
                  if sniStart <? sniEnd then sniStart + Z.quot (sniEnd - sniStart) 2 else oobPos
              | None => oobPos
              end)
    else Ret oobPos) in
  let oobPos := if payloadLen <=? oobPos then Z.quot payloadLen 2 else oobPos in
  Ret (if oobPos <=? 0 then 1 else oobPos).

(** The urgent byte. *)
Definition oob_fake `{Family} (cfg : SetConfig) (packet : bytes) (ipHdrLen payloadStart oobPos seq id : Z)
    : go bytes :=
  let oobChar := OOBChar (Fragmentation cfg) in
  let oobChar := if oobChar =? 0 then 120 else oobChar in
  let fakeLen := payloadStart + 1 in
  let! fake := make fakeLen in
  let! h := slice packet 0 payloadStart in
  let! fake := copy_at fake 0 payloadStart h in
  let! fake := upd fake payloadStart oobChar in
  let! fake := put32 fake (ipHdrLen + 4) (u32 (seq + oobPos)) in
  let! x := idx fake (ipHdrLen + 13) in
  let! fake := upd fake (ipHdrLen + 13) (Z.lor x 0x20) in
  let! fake := put16 fake (ipHdrLen + 18) 1 in
  let! fake := upd fake ttl_at (FakingTTL (Faking cfg)) in
  let! t := idx fake ttl_at in
  let! fake := (if t =? 0 then upd fake ttl_at 3 else Ret fake) in
  let! fake := set_id fake (u16 (id + 1)) in
  let! fake := set_len fake fakeLen in
  let! fake := fix_segment fake ipHdrLen in
  let strategy := f_Strategy (Faking cfg) in
  if bool_decide (strategy = "tcp_check"%string)
  then let! fake := flip fake (ipHdrLen + 16) in flip fake (ipHdrLen + 17)
  else if bool_decide (strategy = "md5sum"%string)
  then
    let! fake := flip fake (ipHdrLen + 16) in
    if is_v6 then flip fake (ipHdrLen + 17) else flip fake 10
  else Ret fake.

(** The second segment: urgent flag and pointer are cleared. *)
Definition oob_second `{Family} (packet : bytes) (ipHdrLen payloadStart seq id oobPos : Z) (data : bytes)
    : go bytes :=
  let seg2Len := payloadStart + len data in
  let! seg2 := new_segment packet payloadStart data in
  let! seg2 := put32 seg2 (ipHdrLen + 4) (u32 (seq + oobPos)) in
  let! seg2 := set_id seg2 (u16 (id + 2)) in
  let! seg2 := set_len seg2 seg2Len in
  let! x := idx seg2 (ipHdrLen + 13) in
  let! seg2 := upd seg2 (ipHdrLen + 13) (andnot x 0x20) in
  let! seg2 := put16 seg2 (ipHdrLen + 18) 0 in
  fix_segment seg2 ipHdrLen.

Definition sendOOBFragments `{Family} (cfg : SetConfig) (r : draws) (packet : bytes) : go (list action) :=
  let! ipHdrLen := ip_header_len packet is_v6 in
  if len packet <? ipHdrLen + 20 then Ret [Send packet] else
  let! d := idx packet (ipHdrLen + 12) in
  let tcpHdrLen := u8 (Z.shiftr d 4 * 4) in
  let payloadStart := ipHdrLen + tcpHdrLen in
  let payloadLen := len packet - payloadStart in
  if payloadLen <=? 0 then Ret [Send packet] else
  let! payload := slice_from packet payloadStart in
  let! oobPos := oob_position cfg r payload in
  let! seq := be32 packet (ipHdrLen + 4) in
  let! id := be16 packet 4 in
  let delay := seg2delay cfg r in
  let! d1 := slice payload 0 oobPos in
  let! seg1 := split_piece packet ipHdrLen payloadStart d1 None in
  let! fake := oob_fake cfg packet ipHdrLen payloadStart oobPos seq id in
  let! d2 := slice_from payload oobPos in
  let! seg2 := oob_second packet ipHdrLen payloadStart seq id oobPos d2 in
  Ret (if ReverseOrder (Fragmentation cfg)
       then [Send seg2] ++ sleep_if delay ++ [Send fake] ++ sleep_if delay ++ [Send seg1]
       else [Send seg1] ++ sleep_if delay ++ [Send fake] ++ sleep_if delay ++ [Send seg2]).

Definition sendOOBFragmentsV4 := @sendOOBFragments IPv4.
Definition sendOOBFragmentsV6 := @sendOOBFragments IPv6.

(** ** What is delivered *)

Lemma wp_flip (x : bytes) (i : Z) : 0 <= i < len x → wp (flip x i) (λ y, len y = len x).
Proof. intros Hi. unfold flip. do 2 wp_step. wp_step. len_simp. done. Qed.

(** Spoiling the checksum leaves a packet. *)
Lemma wp_spoil (cfg : SetConfig) (g : bytes) (h : Z) (v6 : bool) : 20 <= h → h + 20 <= len g →
  let strategy := f_Strategy (Faking cfg) in
  wp (if bool_decide (strategy = "tcp_check"%string)
      then let! fake := flip g (h + 16) in flip fake (h + 17)
      else if bool_decide (strategy = "md5sum"%string)
      then let! fake := flip g (h + 16) in if v6 then flip fake (h + 17) else flip fake 10
      else Ret g) (λ f, strategy ∉ ["tcp_check"; "md5sum"]%string → f = g).
Proof.
  intros Hh Hl strategy.
  assert (∀ (j : Z) (Q : bytes → Prop), 0 <= j < len g → (∀ y, Q y) →
    wp (let! fake := flip g (h + 16) in flip fake j) Q) as Hw.
  { intros j Q Hj HQ. wp_step. eapply wp_mono; [apply wp_flip; lia|]. cbv beta. intros y Hy.
    eapply wp_mono; [apply wp_flip; lia|]. auto. }
  case_bool_decide; [apply Hw; [lia|set_solver]|].
  case_bool_decide; [destruct v6; apply Hw; [lia|set_solver|lia|set_solver]|by apply wp_ret].
Qed.

Section oob.
Context {F : Family} {R : Receiver} {Rd : Reader} {Rw : Rewriter}.
Implicit Types (p q f g d : bytes) (cfg : SetConfig) (r : draws).

(** No urgent data in [p]. *)
Definition calm p : Prop := Z.land (get p (hdr p + 13)) 0x20 = 0 ∧ get p (hdr p + 18) = 0 ∧ get p (hdr p + 19) = 0.

(** The urgent byte: a valid segment with the configured TTL at [pos] of the
    payload, or one with a spoilt checksum. *)
Definition oob_byte cfg p (pos : Z) f : Prop := ∃ q g,
  captured q ∧ hdr q = hdr p ∧ off q = off p ∧ same_header (decoy_fields (hdr p)) p q (off p)
  ∧ get q ttl_at = (if FakingTTL (Faking cfg) =? 0 then 3 else FakingTTL (Faking cfg))
  ∧ seg_of q (u32 (seq_no p + pos))
      [if OOBChar (Fragmentation cfg) =? 0 then 120 else OOBChar (Fragmentation cfg)] g
  ∧ (f_Strategy (Faking cfg) ∉ ["tcp_check"; "md5sum"]%string → f = g).

Definition oob_delivers cfg p (acts : list action) : Prop :=
  acts = [Send p] ∨ ∃ pos fake reals,
    0 < pos <= len (payload_of p) ∧ (1 < len (payload_of p) → pos < len (payload_of p))
    ∧ sent acts ≡ₚ fake :: reals ∧ length reals = 2%nat ∧ carries p reals ∧ oob_byte cfg p pos fake.

Lemma wp_oob_position cfg r l : bytes_ok l → 0 < len l →
  wp (oob_position cfg r l) (λ pos, 0 < pos <= len l ∧ (1 < len l → pos < len l)).
Proof.
  intros Hok Hl. unfold oob_position. cbv zeta. wp_step. apply (wp_mono _ (λ _, True)).
  { wp_step; [|done]. wp_step. eapply wp_mono; [by apply wp_locateSNI|]. done. }
  intros x _. apply wp_ret. rewrite Z.quot_div_nonneg by lia.
  repeat case_if; Z.div_mod_to_equations; zlia.
Qed.

Lemma wp_oob_fake cfg p pos : captured p → is_byte (FakingTTL (Faking cfg)) →
  is_byte (OOBChar (Fragmentation cfg)) → off p + 1 <= 65535 + len_base →
  wp (oob_fake cfg p (hdr p) (off p) pos (seq_no p) (get16 p 4)) (oob_byte cfg p pos).
Proof.
  intros Hc Httl Hch Hsz. pose proof (captured_range p Hc). pose proof ttl_range.
  pose proof Hc as (Hok & _ & _ & Hl & _). unfold oob_fake. cbv zeta.
  set (c := if OOBChar (Fragmentation cfg) =? 0 then 120 else OOBChar (Fragmentation cfg)).
  assert (is_byte c) as Hcb by (unfold c; case_if; done).
  set (t0 := FakingTTL (Faking cfg)) in *.
  do 20 wp_step. rewrite take_ge_len by len_lia.
  match goal with |- wp (go_bind (if _ =? 0 then upd ?l _ _ else _) _) _ => set (q0 := l) end.
  assert (bytes_ok q0) as Hok0.
  { unfold q0. assert (∀ x, is_byte x → is_byte (Z.lor x 32)) by (intros; by apply is_byte_lor). auto 20 with b4. }
  assert (len q0 = off p + 1) as Hl0 by (unfold q0; len_lia).
  assert (get q0 ttl_at = t0) as Ht0 by (unfold q0; gets; done). rewrite Ht0.
  assert (same_header (decoy_fields (hdr p)) p q0 (off p)) as Hs0.
  { intros k Hk [Hn1 [Hn2 Hn3%not_edited]%not_elem_of_cons]%not_elem_of_cons. unfold q0. gets; try done; f_equal; lia. }
  assert (get32 q0 (hdr p + 4) = u32 (seq_no p + pos)) as Hsq0.
  { apply get32_of_bytes32; [apply u32_range|]. intros k Hk. unfold q0. gets; try done.
    rewrite u32_small by apply u32_range. f_equal. lia. }
  assert (get q0 (off p) = c) as Hc0 by (unfold q0; gets; done). clearbody q0.
  wp_step. set (t := if t0 =? 0 then 3 else t0).
  apply (wp_mono _ (λ q, bytes_ok q ∧ len q = off p + 1 ∧ get q ttl_at = t
    ∧ ∀ k, k ≠ ttl_at → get q k = get q0 k)).
  { unfold t. destruct (t0 =? 0) eqn:E; [wp_step|by apply wp_ret].
    split_and!; [auto with b4|len_lia|gets; done|intros; gets; done]. }
  intros q (Hokq & Hlq & Htq & Hgq).
  assert (same_header (decoy_fields (hdr p)) p q (off p)) as Hsame.
  { intros k Hk Hn. rewrite <- Hs0 by done. apply Hgq. by apply not_elem_of_cons in Hn as [? _]. }
  destruct (decoy_base p q Hc Hokq ltac:(lia) Hsame) as (Hcq & Hhq & Hoq).
  assert (seq_no q = u32 (seq_no p + pos)) as Hsq.
  { rewrite <- Hsq0. unfold seq_no. rewrite Hhq. apply get32_eq. intros k Hk. apply Hgq. lia. }
  assert (draft q (u32 (seq_no p + pos)) [c] q) as Hd.
  { rewrite <- Hsq. apply draft_init; [done|done|cbn; lia|done|]. cbn. intros k Hk.
    assert (k = 0) as -> by lia. rewrite Z.add_0_r, Hoq, Hgq by lia. done. }
  wp_step. eapply wp_mono; [by apply (wp_draft_id _ _ _ _ _ Hcq Hd)|]. intros l1 H1.
  wp_step. eapply wp_mono; [apply (wp_draft_len _ _ _ _ _ Hcq H1); destruct H1 as (_ & Hl1 & _); cbn in Hl1; lia|].
  intros l2 H2. wp_step. rewrite <- Hhq. eapply wp_mono; [by apply (wp_ready_fix _ _ _ _ Hcq H2)|]. intros g Hg.
  destruct (seg_of_len _ _ _ _ Hg) as (_ & Hlg & _). cbn in Hlg.
  eapply wp_mono; [apply (wp_spoil cfg g (hdr q) is_v6); lia|]. intros f Hf. by exists q, g.
Qed.

Lemma no_urg x y : no_psh x = no_psh y → Z.land y 0x20 = 0 → andnot x 0x20 = x.
Proof.
  intros Hxy Hy. apply Z.bits_inj'. intros n Hn. rewrite Z.ldiff_spec.
  assert (Z.testbit (no_psh x) n = Z.testbit (no_psh y) n) as E by (by rewrite Hxy).
  assert (Z.testbit (Z.land y 0x20) n = false) as E2 by (rewrite Hy; apply Z.bits_0).
  unfold no_psh in E. rewrite !Z.ldiff_spec in E. rewrite Z.land_spec in E2.
  assert (Z.testbit 0x20 n = true → Z.testbit 8 n = false) as E3.
  { change 0x20 with (2 ^ 5). change 8 with (2 ^ 3). rewrite !Z.pow2_bits_eqb by lia. lia. }
  destruct (Z.testbit 0x20 n); [rewrite E3 in E by done|by rewrite andb_true_r].
  rewrite andb_true_r in E2. rewrite !andb_true_r, E2 in E. by rewrite E.
Qed.

Lemma splice_same (l s : bytes) i : 0 <= i → i + len s <= len l →
  (∀ k, 0 <= k < len s → get l (i + k) = get s k) → splice l i s = l.
Proof.
  intros Hi Hl H. apply list_ext_get; [len_simp; lia|]. intros k Hk. rewrite get_splice by lia. case_if; [|done].
  rewrite <- H by zlia. f_equal. lia.
Qed.

Lemma wp_oob_second p d id pos : captured p → calm p → bytes_ok d → off p + len d <= 65535 + len_base →
  wp (oob_second p (hdr p) (off p) (seq_no p) id pos d) (seg_of p (u32 (seq_no p + pos)) d).
Proof.
  intros Hc (Hu1 & Hu2 & Hu3) Hd Hsz. pose proof (captured_range p Hc). unfold oob_second. cbv zeta.
  wp_step. eapply wp_mono; [by apply wp_new_segment|]. intros l1 H1.
  wp_step. eapply wp_mono; [by apply (wp_draft_seq _ _ _ _ _ Hc H1), u32_range|]. intros l2 H2.
  wp_step. eapply wp_mono; [by apply (wp_draft_id _ _ _ _ _ Hc H2)|]. intros l3 H3.
  wp_step. eapply wp_mono; [apply (wp_draft_len _ _ _ _ _ Hc H3); destruct H3 as (_ & Hn & _); lia|].
  intros l4 H4. pose proof H4 as [(Hok4 & Hl4 & _ & _ & Hg4 & Hp4 & _) _].
  do 3 wp_step. rewrite (no_urg _ _ Hp4 Hu1).
  eapply wp_mono; [apply (wp_ready_flags _ _ _ _ _ Hc H4); [by apply bytes_ok_get|done]|]. intros l5 H5.
  pose proof H5 as [(_ & Hl5 & _ & _ & Hg5 & _) _].
  do 2 wp_step. rewrite splice_same; [by apply wp_ready_fix|lia|len_lia|].
  intros k Hk. rewrite Hg5; [|len_simp; cbn in Hk; lia|].
  - assert (k = 0 ∨ k = 1) as [-> | ->] by (cbn in Hk; lia).
    + rewrite Z.add_0_r. by rewrite Hu2.
    + replace (hdr p + 18 + 1) with (hdr p + 19) by lia. by rewrite Hu3.
  - cbn in Hk. apply not_rewritten. split_and!; [apply fields_high; lia|lia..].
Qed.

(** What is assumed of the configuration. *)
Definition oob_config cfg : Prop := is_byte (FakingTTL (Faking cfg)) ∧ is_byte (OOBChar (Fragmentation cfg)).

Lemma wp_sendOOB cfg r p : sendable p → calm p → oob_config cfg →
  wp (sendOOBFragments cfg r p) (oob_delivers cfg p).
Proof using Rw.
  intros [Hc Htot] Hcalm [Ht Hch]. pose proof (captured_range p Hc). pose proof Hc as (Hok & _ & _ & Hl & Hsz).
  pose proof (payload_len p Hc) as Hpl.
  unfold sendOOBFragments. cbv zeta. rewrite ip_len by done. cbn [go_bind]. wp_step; [zlia|]. do 2 wp_step.
  pose proof (nibble_range _ (bytes_ok_get p (hdr p + 12) Hok)).
  assert (hdr p + u8 (Z.shiftr (get p (hdr p + 12)) 4 * 4) = off p) as ->.
  { rewrite u8_small by (unfold is_byte; lia). done. }
  wp_step; [by left|]. rewrite payload_slice by done. cbn [go_bind].
  wp_step. eapply wp_mono; [apply wp_oob_position; [auto with b4|zlia]|]. intros pos [Hpos1 Hpos2].
  do 2 wp_step. do 2 wp_step. do 2 wp_step. wp_step.
  eapply wp_mono; [apply (wp_split_piece p _ None Hc); auto with b4; apply captured_small; [done|lia..]|].
  intros g1 Hg1. wp_step. eapply wp_mono; [by apply wp_oob_fake; try lia|]. intros fake Hfake.
  do 3 wp_step. eapply wp_mono; [apply wp_oob_second; [done|done|auto with b4|apply captured_small; [done|lia..]]|].
  intros g2 Hg2. apply wp_ret. right. exists pos, fake, [g1; g2]. split_and!; [lia|lia|done| |done| |done].
  - case_if; rewrite !sent_app, !sent_sleep; cbn; [|apply perm_swap].
    change [g2; fake; g1] with ([g2; fake] ++ [g1]). rewrite (Permutation_app_comm [g2; fake] [g1]).
    cbn. rewrite (perm_swap fake g2). apply perm_swap.
  - apply (cut_carries p [g1; g2]); [|done]. rewrite <- (u32_seq_no p Hok), <- (Z.add_0_r (seq_no p)) in Hg1.
    apply (cut_two p pos); [lia|lia|done|done].
Qed.
End oob.


