(* ===== verification/Disorder.v ===== *)
(** * Sending a ClientHello in many pieces, out of order and among decoys

    The "extsplit", "firstbyte", "disorder", "combo" and "hybrid" strategies of
    src/src/nfq/{extsplit,firstbyte,disorder,combo,hybrid}.go and their _ipv6.go
    twins.  What they promise is [delivers]: the packets sent are decoys and valid
    segments that carry the payload; with a sequence overlap configured, at most one of
    the segments starts with that many bytes of the pattern, over a part of the stream
    that the server has from elsewhere. *)

From Stdlib Require Import ZArith Lia Ascii Sorting.Sorted.
From stdpp Require Import base list numbers sets strings.
From S2P Require Import Prelude Config Payloads Checksum Fragment Split Segment Families Strategies.

Local Open Scope Z_scope.

(** ** Two pieces *)

Definition sendExtSplitFragments `{Family} (cfg : SetConfig) (r : draws) (packet : bytes)
    : go (list action) :=
  let! pi := ExtractPacketInfo packet in
  match pi with
  | None => Ret [Send packet]
  | Some pi =>
      if PayloadLen pi <? 50 then Ret [Send packet] else
      let! splitPos := findPreSNIExtensionPoint (Payload pi) in
      if (splitPos <=? 5) || (PayloadLen pi - 10 <=? splitPos)
      then sendTCPFragments cfg r packet else
      let! d1 := slice (Payload pi) 0 splitPos in
      let! seg1 := BuildSegment packet pi d1 0 0 in
      let! seg1 := ClearPSH seg1 (IPHdrLen pi) in
      let! seg1 := fix_tcp seg1 in
      let! d2 := slice_from (Payload pi) splitPos in
      let! seg2 := BuildSegment packet pi d2 (u32 splitPos) 1 in
      Ret (SendTwoSegments seg1 seg2 (seg2delay cfg r) (ReverseOrder (Fragmentation cfg)))
  end.

(** The jitter is a remainder of the id over IPv4 and of the sequence number over
    IPv6, where the divisor is converted to 32 bits. *)
Definition first_byte_jitter `{Family} (pi : PacketInfo) (delay : Z) : go Z :=
  let n := Z.quot delay 3 + 1 in
  if is_v6 then (if u32 n =? 0 then Panic else Ret (Seq0 pi mod u32 n))
  else (if n =? 0 then Panic else Ret (Z.rem (ID0 pi) n)).

Definition sendFirstByteDesync `{Family} (cfg : SetConfig) (r : draws) (packet : bytes)
    : go (list action) :=
  let! pi := ExtractPacketInfo packet in
  match pi with
  | None => Ret [Send packet]
  | Some pi =>
      if PayloadLen pi <? 2 then Ret [Send packet] else
      let! d1 := slice (Payload pi) 0 1 in
      let! seg1 := BuildSegment packet pi d1 0 0 in
      let! seg1 := ClearPSH seg1 (IPHdrLen pi) in
      let! seg1 := fix_tcp seg1 in
      let! d2 := slice_from (Payload pi) 1 in
      let! seg2 := BuildSegment packet pi d2 1 1 in
      let delay := seg2delay cfg r in
      let delay := if delay <? 10 then 30 else delay in
      let! jitter := first_byte_jitter pi delay in
      Ret [Send seg1; Sleep ((delay + jitter) * millisecond); Send seg2]
  end.

(** ** Many pieces *)

(** [MinJitterUs] and [MaxJitterUs], or the defaults. *)
Definition GetDisorderJitter (disorder : DisorderFragConfig) : Z * Z :=
  let minJitter := MinJitterUs disorder in
  let maxJitter := MaxJitterUs disorder in
  let minJitter := if minJitter <=? 0 then 1000 else minJitter in
  let maxJitter := if maxJitter <=? minJitter then minJitter + 2000 else maxJitter in
  (minJitter, maxJitter).

(** The segments between consecutive split points; PSH is cleared on all but the
    last. *)
Fixpoint disorder_segments `{Family} (packet : bytes) (pi : PacketInfo) (validSplits : list Z)
    (i : Z) : go (list Segment) :=
  match validSplits with
  | start :: ((end_ :: rest) as validSplits) =>
      let! realPayload := slice (Payload pi) start end_ in
      let! seg := BuildSegment packet pi realPayload (u32 start) (u16 i) in
      let! seg := (if bool_decide (rest = []) then Ret seg
                   else let! seg := ClearPSH seg (IPHdrLen pi) in fix_tcp seg) in
      let! segments := disorder_segments packet pi validSplits (i + 1) in
      Ret ({| Data := seg; Seq := u32 (Seq0 pi + u32 start) |} :: segments)
  | _ => Ret []
  end.

(** The sequence overlap of the second segment, over the end of the first. *)
Definition disorder_overlap `{Family} (packet : bytes) (pi : PacketInfo) (fr : FragmentationConfig)
    (segments : list Segment) : go (list Segment) :=
  let seqovlPattern := SeqOverlapBytes fr in
  let seqovlLength := SeqOverlapLength fr in
  if negb ((0 <? seqovlLength) && (0 <? len seqovlPattern)) then Ret segments else
  match segments with
  | first :: second :: rest =>
      let startOff := u32 (Seq second - Seq0 pi) in
      if negb (seqovlLength <? startOff) then Ret segments else
      let payloadLen := len (Data second) - PayloadStart pi in
      if PayloadLen pi <? startOff + payloadLen then Ret segments else
      let! origPayload := slice (Payload pi) startOff (startOff + payloadLen) in
      let! newData := BuildSeqOverlapSegment packet pi origPayload startOff seqovlLength seqovlPattern 1 in
      let! newData := (if bool_decide (rest = []) then Ret newData
                       else let! d := ClearPSH newData (IPHdrLen pi) in fix_tcp d) in
      Ret (first :: {| Data := newData; Seq := u32 (Seq0 pi + u32 startOff - u32 seqovlLength) |} :: rest)
  | _ => Ret segments
  end.

Definition fake_count (d min max : Z) : Z :=
  let n := ResolveRange d min max in
  if n <=? 0 then 1 else if 11 <? n then 11 else n.

(** The decoys before a segment, [n] times the same one. *)
Fixpoint send_fakes `{Family} (n : nat) (packet : bytes) (pi : PacketInfo)
    (payloadLen seqOffset : Z) (pattern : bytes) (ttl : Z) : go (list action) :=
  match n with
  | O => Ret []
  | S n =>
      let! fakeSeg := BuildFakeOverlapSegment packet pi payloadLen seqOffset 0 pattern ttl in
      let! rest := send_fakes n packet pi payloadLen seqOffset pattern ttl in
      Ret (match fakeSeg with
           | Some fakeSeg => Send fakeSeg :: Sleep (50 * microsecond) :: rest
           | None => rest
           end)
  end.

Definition fakes_before `{Family} (packet : bytes) (pi : PacketInfo) (cfg : SetConfig)
    (sendFake : bool) (count : Z) (seg : Segment) : go (list action) :=
  let seqovlPattern := SeqOverlapBytes (Fragmentation cfg) in
  let seqovlLen := len seqovlPattern in
  if sendFake && (0 <? seqovlLen)
  then
    let payloadLen := len (Data seg) - PayloadStart pi in
    if seqovlLen <=? payloadLen
    then send_fakes (Z.to_nat count) packet pi payloadLen (u32 (Seq seg - Seq0 pi)) seqovlPattern
           (FakingTTL (Faking cfg))
    else Ret []
  else Ret [].

(** The sending loop: decoys, the segment, and the pause [pause i] after it. *)
Fixpoint send_segments `{Family} (packet : bytes) (pi : PacketInfo) (cfg : SetConfig)
    (fakePerSeg : bool) (count : Z) (pause : Z → bool → go (list action))
    (segments : list Segment) (i : Z) : go (list action) :=
  match segments with
  | [] => Ret []
  | seg :: segments =>
      let! fakes := fakes_before packet pi cfg (fakePerSeg || (i =? 0)) count seg in
      let! sleep := pause i (bool_decide (segments = [])) in
      let! rest := send_segments packet pi cfg fakePerSeg count pause segments (i + 1) in
      Ret (fakes ++ [Send (Data seg)] ++ sleep ++ rest)
  end.

Definition disorder_pause (cfg : SetConfig) (r : draws) (i : Z) (last : bool) : go (list action) :=
  if last then Ret [] else
  let seg2d := seg2delay cfg r in
  let (minJitter, maxJitter) := GetDisorderJitter (Disorder (Fragmentation cfg)) in
  if 0 <? seg2d
  then
    let! jitter := intn (r_jitter r i) (Z.quot seg2d 2 + 1) in
    Ret [Sleep ((seg2d + jitter) * millisecond)]
  else
    let! jitter := intn (r_jitter r i) (maxJitter - minJitter + 1) in
    Ret [Sleep ((minJitter + jitter) * microsecond)].

Definition sendDisorderFragments `{Family} (cfg : SetConfig) (r : draws) (packet : bytes)
    : go (list action) :=
  let fr := Fragmentation cfg in
  let disorder := Disorder fr in
  let! pi := ExtractPacketInfo packet in
  match pi with
  | None => Ret [Send packet]
  | Some pi =>
      if PayloadLen pi <? 10 then Ret [Send packet] else
      let! splits := GetSNISplitPoints (Payload pi) (PayloadLen pi) (MiddleSNI fr) 0 in
      let splits := if bool_decide (splits = [])
                    then [1; Z.quot (PayloadLen pi) 2; Z.quot (PayloadLen pi * 3) 4] else splits in
      let validSplits := BuildValidSplits splits (PayloadLen pi) in
      let! segments := disorder_segments packet pi validSplits 0 in
      let! segments := disorder_overlap packet pi fr segments in
      let! segments := ShuffleSegments segments (d_ShuffleMode disorder) (r_shuffle r) in
      let! segments := SetMaxSeqPSH segments (IPHdrLen pi) fix_tcp in
      let count := fake_count (r_count r) (d_FakePerSegCount disorder) (d_FakePerSegCountMax disorder) in
      send_segments packet pi cfg (d_FakePerSegment disorder) count (disorder_pause cfg r) segments 0
  end.

(** [sendDecoyPacket]: a packet with another payload and a low TTL, in two pieces. *)
Definition sendDecoyPacket `{Family} (cfg : SetConfig) (r : draws) (packet : bytes) (pi : PacketInfo)
    : go (list action) :=
  let fakeBlob := GetPayload (Faking cfg) (r_payload r) in
  if len fakeBlob <? 3 then Ret [] else
  let fakeBlob := if 680 <? len fakeBlob then sub fakeBlob 0 680 else fakeBlob in
  let! fakePacket := new_segment packet (PayloadStart pi) fakeBlob in
  let! fakePacket := set_len fakePacket (len fakePacket) in
  let! ttl := dynamicTTL packet is_v6 (FakingTTL (Faking cfg)) in
  let! fakePacket := upd fakePacket ttl_at ttl in
  let! fakePacket := fix_segment fakePacket (IPHdrLen pi) in
  let splitPos := 2 in
  let! d1 := slice fakeBlob 0 splitPos in
  let! seg1 := BuildSegment fakePacket pi d1 0 0 in
  let! seg1 := ClearPSH seg1 (IPHdrLen pi) in
  let! seg1 := fix_tcp seg1 in
  let! d2 := slice_from fakeBlob splitPos in
  let! seg2 := BuildSegment fakePacket pi d2 (u32 splitPos) 1 in
  Ret ([Send seg1; Sleep (50 * microsecond); Send seg2] ++ sleep_if (seg2delay cfg r)).

(** The loop over the sorted split points, from [prevEnd] on; [idx] is the index of
    the split point. *)
Fixpoint combo_segments `{Family} (packet : bytes) (pi : PacketInfo) (splits : list Z)
    (idx prevEnd : Z) : go (list Segment * Z) :=
  match splits with
  | [] => Ret ([], prevEnd)
  | splitPos :: splits =>
      if splitPos <=? prevEnd then combo_segments packet pi splits (idx + 1) prevEnd else
      let! d := slice (Payload pi) prevEnd splitPos in
      let! seg := BuildSegment packet pi d (u32 prevEnd) (u16 idx) in
      let! (segments, last) := combo_segments packet pi splits (idx + 1) splitPos in
      Ret ({| Data := seg; Seq := u32 (Seq0 pi + u32 prevEnd) |} :: segments, last)
  end.

(** The sequence overlap of the first segment, before the stream's next byte. *)
Definition combo_overlap `{Family} (packet : bytes) (pi : PacketInfo) (fr : FragmentationConfig)
    (segments : list Segment) : go (list Segment) :=
  let seqovlPattern := SeqOverlapBytes fr in
  let seqovlLength := SeqOverlapLength fr in
  if negb ((0 <? seqovlLength) && (0 <? len seqovlPattern)) then Ret segments else
  match segments with
  | first :: rest =>
      let startOff := u32 (Seq first - Seq0 pi) in
      let payloadLen := len (Data first) - PayloadStart pi in
      if negb ((0 <=? startOff) && (startOff + payloadLen <=? PayloadLen pi)) then Ret segments else
      let! origPayload := slice (Payload pi) startOff (startOff + payloadLen) in
      let! newData := BuildSeqOverlapSegment packet pi origPayload startOff seqovlLength seqovlPattern 0 in
      Ret ({| Data := newData; Seq := u32 (Seq0 pi + u32 startOff - u32 seqovlLength) |} :: rest)
  | [] => Ret segments
  end.

Definition combo_pause (cfg : SetConfig) (r : draws) (i : Z) (last : bool) : go (list action) :=
  let combo := Combo (Fragmentation cfg) in
  let firstDelayMs := ResolveRange (r_first r) (FirstDelayMs combo) (FirstDelayMsMax combo) in
  let firstDelayMs := if firstDelayMs <=? 0 then 100 else firstDelayMs in
  let jitterMaxUs := ResolveRange (r_pos r) (JitterMaxUs combo) (JitterMaxUsMax combo) in
  let jitterMaxUs := if jitterMaxUs <=? 0 then 2000 else jitterMaxUs in
  if i =? 0
  then
    let! jitter := intn (r_jitter r i) (Z.quot firstDelayMs 3 + 1) in
    Ret [Sleep ((firstDelayMs + jitter) * millisecond)]
  else if last then Ret []
  else let! jitter := intn (r_jitter r i) jitterMaxUs in Ret [Sleep (jitter * microsecond)].

Definition sendComboFragments `{Family} (cfg : SetConfig) (r : draws) (packet : bytes)
    : go (list action) :=
  let fr := Fragmentation cfg in
  let combo := Combo fr in
  let! pi := ExtractPacketInfo packet in
  match pi with
  | None => Ret [Send packet]
  | Some pi =>
      if PayloadLen pi <? 20 then Ret [Send packet] else
      let! decoy := (if DecoyEnabled combo then sendDecoyPacket cfg r packet pi else Ret []) in
      let! splits := GetComboSplitPoints (Payload pi) (PayloadLen pi) combo (MiddleSNI fr) in
      let splits := uniqueSorted splits (PayloadLen pi) in
      let splits := if bool_decide (splits = []) then [Z.quot (PayloadLen pi) 2] else splits in
      let! (segments, prevEnd) := combo_segments packet pi splits 0 0 in
      let! segments :=
        (if prevEnd <? PayloadLen pi
         then
           let! d := slice_from (Payload pi) prevEnd in
           let! seg := BuildSegment packet pi d (u32 prevEnd) (u16 (Z.of_nat (length segments))) in
           Ret (segments ++ [{| Data := seg; Seq := u32 (Seq0 pi + u32 prevEnd) |}])
         else Ret segments) in
      if bool_decide (segments = []) then Ret (decoy ++ [Send packet]) else
      let! segments := combo_overlap packet pi fr segments in
      let! segments := ShuffleSegments segments (c_ShuffleMode combo) (r_shuffle r) in
      let! segments := SetMaxSeqPSH segments (IPHdrLen pi) fix_tcp in
      let count := fake_count (r_count r) (c_FakePerSegCount combo) (c_FakePerSegCountMax combo) in
      let! acts := send_segments packet pi cfg (c_FakePerSegment combo) count (combo_pause cfg r) segments 0 in
      Ret (decoy ++ acts)
  end.

(** The IPv6 version checks the length before it reads the headers. *)
Definition sendHybridFragments `{Family} (cfg : SetConfig) (r : draws) (packet : bytes)
    : go (list action) :=
  if is_v6 && (len packet <? 40 + 20) then Ret [Send packet] else
  let! (ipHdrLen, tcpHdrLen) := headers packet in
  let payloadStart := ipHdrLen + tcpHdrLen in
  let payloadLen := len packet - payloadStart in
  if payloadLen <? 10 then Ret [Send packet] else
  let! payload := slice_from packet payloadStart in
  let! extSplit := findPreSNIExtensionPoint payload in
  let! sni := locateSNI payload in
  let long := match sni with Some (sniStart, sniEnd) => 6 <? sniEnd - sniStart | None => false end in
  if (5 <? extSplit) && long then sendComboFragments cfg r packet
  else if long then sendDisorderFragments cfg r packet
  else if 5 <? extSplit then sendExtSplitFragments cfg r packet
  else sendFirstByteDesync cfg r packet.

Definition sendExtSplitFragmentsV4 := @sendExtSplitFragments IPv4.
Definition sendExtSplitFragmentsV6 := @sendExtSplitFragments IPv6.
Definition sendFirstByteDesyncV4 := @sendFirstByteDesync IPv4.
Definition sendFirstByteDesyncV6 := @sendFirstByteDesync IPv6.
Definition sendDisorderFragmentsV4 := @sendDisorderFragments IPv4.
Definition sendDisorderFragmentsV6 := @sendDisorderFragments IPv6.
Definition sendComboFragmentsV4 := @sendComboFragments IPv4.
Definition sendComboFragmentsV6 := @sendComboFragments IPv6.
Definition sendDecoyPacketV6 := @sendDecoyPacket IPv6.
Definition sendHybridFragmentsV4 := @sendHybridFragments IPv4.
Definition sendHybridFragmentsV6 := @sendHybridFragments IPv6.

(** ** What the senders promise *)

Section spec.
Context {F : Family} {R : Receiver}.
Implicit Types (p f : bytes).

(** A packet under a TTL lower than [p]'s: a decoy that does not reach the server. *)
Definition is_low p f : Prop := ∃ ttl sq d,
  1 <= ttl < 256 ∧ (1 < get p ttl_at → ttl < get p ttl_at) ∧ seg_of (with_ttl p ttl) sq d f.
Definition decoy p f : Prop := is_fake p f ∨ is_low p f.

(** The configured overlap, and its bytes: the pattern repeated. *)
Definition overlap (fr : FragmentationConfig) : Z :=
  if (0 <? SeqOverlapLength fr) && (0 <? len (SeqOverlapBytes fr)) then SeqOverlapLength fr else 0.
Definition overlap_bytes (fr : FragmentationConfig) : bytes :=
  let pat := SeqOverlapBytes fr in
  map (λ k, get pat (Z.of_nat k mod len pat)) (seq 0 (Z.to_nat (overlap fr))).

(** Where in the stream the overlap may end: at the start of the payload, or behind bytes of
    the payload that another segment carries. *)
Definition at_start (_ : FragmentationConfig) (a : Z) : Prop := a = 0.
Definition inside (fr : FragmentationConfig) (a : Z) : Prop := overlap fr < a.
Definition anywhere (fr : FragmentationConfig) (a : Z) : Prop := at_start fr a ∨ inside fr a.
Definition placing : Type := FragmentationConfig → Z → Prop.

(** [fs] carry the payload of [p], but that one of them has the overlap before its data [d],
    whose place is [a]. *)
Definition padded p (fr : FragmentationConfig) (place : placing) (fs : list bytes) : Prop :=
  ∃ a d g rest, 0 < overlap fr ∧ place fr a ∧ fs ≡ₚ g :: rest
    ∧ view g = (u32 (seq_no p + a - overlap fr), overlap_bytes fr ++ d)
    ∧ carries_views (seq_no p) (payload_of p) ((u32 (seq_no p + a), d) :: map view rest)
    ∧ Forall (is_seg p) fs.
Definition carries_over p fr place (fs : list bytes) : Prop := carries p fs ∨ padded p fr place fs.

Definition delivers p fr place (acts : list action) : Prop := ∃ reals decoys,
  sent acts ≡ₚ reals ++ decoys ∧ Forall (decoy p) decoys ∧ carries_over p fr place reals.

Lemma carries_views_perm sq P vs ws : vs ≡ₚ ws → carries_views sq P vs → carries_views sq P ws.
Proof. intros Hp (us & H1 & H2). exists us. split; [by etransitivity|done]. Qed.

Lemma carries_over_perm p fr place fs gs : fs ≡ₚ gs → carries_over p fr place fs → carries_over p fr place gs.
Proof.
  intros Hp [[H1 H2]|(a & d & g & rest & H1 & H2 & H3 & H4 & H5 & H6)].
  - left. split; [|by rewrite <- Hp]. eapply carries_views_perm; [|exact H1]. by apply Permutation_map.
  - right. exists a, d, g, rest. rewrite <- Hp. done.
Qed.

Lemma carries_over_views p fr place fs gs : map view gs = map view fs → Forall (is_seg p) gs →
  carries_over p fr place fs → carries_over p fr place gs.
Proof.
  intros Hv Hg [[H1 H2]|(a & d & g & rest & H1 & H2 & H3 & H4 & H5 & H6)].
  - left. split; [by rewrite Hv|]. eapply Forall_impl; [exact Hg|]. by right.
  - right. assert (map view (g :: rest) ≡ₚ map view gs) as Hp by (rewrite Hv; symmetry; by apply Permutation_map).
    apply Permutation_map_inv in Hp as (l & Hl & Hp). destruct l as [|g' rest']; [done|]. pose proof (f_equal (List.hd (view g)) Hl : view g = view g') as E1.
    pose proof (f_equal (@tail _) Hl : map view rest = map view rest') as E2.
    exists a, d, g', rest'. rewrite <- E1, <- E2. done.
Qed.

Lemma carries_carries_over p fr place fs : carries p fs → carries_over p fr place fs.
Proof. by left. Qed.

(** Without an overlap, the payload is carried and nothing else. *)
Lemma carries_over_0 p fr place fs : overlap fr = 0 → carries_over p fr place fs → carries p fs.
Proof. intros E [H|(a & d & g & rest & H & _)]; [done|lia]. Qed.

Lemma carries_delivers p fr place acts : carries p (sent acts) → delivers p fr place acts.
Proof.
  intros H. exists (sent acts), []. rewrite app_nil_r. split_and!; [done|constructor|].
  by apply carries_carries_over.
Qed.

Lemma delivers_mono p fr (P Q : placing) acts : (∀ a, P fr a → Q fr a) → delivers p fr P acts → delivers p fr Q acts.
Proof.
  intros HPQ (rs & ds & H1 & H2 & [H3|(a & d & g & rest & H4 & H5 & H6)]); exists rs, ds; (split_and!; [done|done|]).
  - by left.
  - right. exists a, d, g, rest. split; [done|]. split; [by apply HPQ|done].
Qed.

Lemma cut_is_seg p a c fs : cut p a c fs → Forall (is_seg p) fs.
Proof. induction 1; constructor; [|done]. by eapply seg_of_is_seg. Qed.

(** One piece with the overlap before its data. *)
Lemma cut_over p fr place pre f post g a d :
  cut p 0 (len (payload_of p)) (pre ++ f :: post) → 0 < overlap fr → place fr a →
  view f = (u32 (seq_no p + a), d) → seg_of p (u32 (u32 (seq_no p + a) - overlap fr)) (overlap_bytes fr ++ d) g →
  carries_over p fr place (pre ++ g :: post).
Proof.
  intros Hcut HL Hpl Hvf Hg. destruct (cut_views _ _ _ _ Hcut) as [H1 H2]; [lia|done|].
  rewrite Z.add_0_r, sub_full in *. destruct (seg_of_is_seg _ _ _ _ Hg) as [Hsg Hvg].
  pose proof (cut_is_seg _ _ _ _ Hcut) as Hall. apply Forall_app in Hall as [Ha Hb%Forall_cons_1].
  right. exists a, d, g, (pre ++ post). split_and!; [done|done|symmetry; apply Permutation_middle| | |].
  - rewrite Hvg. f_equal. unfold u32. by rewrite Zminus_mod_idemp_l.
  - exists (map view (pre ++ f :: post)). split_and!; [|done|done].
    by rewrite <- Hvf, !map_app, map_cons, <- Permutation_middle.
  - apply Forall_app. split; [done|]. constructor; [done|apply Hb].
Qed.

(** The recorded sequence number is the segment's. *)
Definition seq_ok (s : Segment) : Prop := Seq s = (view (Data s)).1.

Lemma cut_snoc p a b c fs f : cut p a b fs → b <= c →
  seg_of p (u32 (seq_no p + b)) (sub (payload_of p) b c) f → cut p a c (fs ++ [f]).
Proof.
  induction 1 as [a|a x b f' fs Hx Hf' Hcut IH]; intros Hbc Hf; cbn.
  - eapply cut_cons; [done|done|constructor].
  - eapply cut_cons; [done|done|by apply IH].
Qed.
End spec.

(** ** The builders *)

Section builders.
Context {F : Family} {R : Receiver}.
Implicit Types (p f d : bytes) (cfg : SetConfig).

Lemma u32_sub_shift (a b c : Z) : u32 (a + u32 (u32 b - u32 c)) = u32 (u32 (a + b) - c).
Proof. unfold u32. Z.div_mod_to_equations. lia. Qed.

Lemma wp_BuildSeqOverlapSegment p d a L pat ido :
  captured p → bytes_ok d → bytes_ok pat → 0 < L → 0 < len pat → off p + L + len d <= 65535 + len_base →
  wp (BuildSeqOverlapSegment p (info p) d a L pat ido)
    (seg_of p (u32 (u32 (seq_no p + a) - L))
       (map (λ k, get pat (Z.of_nat k mod len pat)) (seq 0 (Z.to_nat L)) ++ d)).
Proof.
  intros Hc Hd Hpat HL Hlp Hsz. unfold BuildSeqOverlapSegment, overlap_payload.
  wp_step; [zlia|]. wp_step. wp_step. wp_step.
  wp_step. eapply wp_mono; [apply wp_fill_pattern; [auto with b4|done|lia|lia|lia|lia|len_lia|lia]|].
  intros e (Hle & Hoke & Hge). revert Hle. len_simp. intros Hle. wp_step.
  rewrite take_ge_len by lia. cbv zeta.
  eapply wp_mono; [apply wp_BuildSegment; [done|auto with b4|len_simp; lia]|].
  intros g Hg. rewrite u32_sub_shift in Hg. set (pre := map _ _).
  assert (len pre = L) as Hpre by (unfold pre; rewrite length_map, length_seq; lia).
  assert (∀ k, 0 <= k < L → get pre k = get pat (k mod len pat)) as Hgp.
  { intros k Hk. unfold pre, get at 1. destruct (0 <=? k) eqn:E0; [|zlia].
    rewrite (nth_indep _ _ (get pat (Z.of_nat 0 mod len pat))) by (rewrite length_map, length_seq; lia).
    rewrite (map_nth (λ k, get pat (Z.of_nat k mod len pat))), seq_nth by lia. do 2 f_equal. lia. }
  replace (pre ++ d) with (splice e L d); [done|]. clearbody pre.
  apply list_ext_get; [len_simp; lia|]. intros k Hk. revert Hk. len_simp; [|lia..]. intros Hk.
  rewrite get_splice, get_app by lia. zcases; [f_equal; lia|]. rewrite Hgp by lia.
  rewrite Hge. zcases. f_equal. f_equal. lia.
Qed.

Lemma wp_build_flagged p d so ido (b : bool) :
  captured p → bytes_ok d → off p + len d <= 65535 + len_base →
  wp (let! seg := BuildSegment p (info p) d so ido in
      if b then Ret seg else let! seg := ClearPSH seg (hdr p) in fix_tcp seg)
    (seg_of p (u32 (seq_no p + so)) d).
Proof.
  intros Hc Hd Hsz. wp_step. eapply wp_mono; [by apply wp_BuildSegment|]. intros g Hg.
  destruct b; [by apply wp_ret|]. by apply wp_flag_op; auto.
Qed.

Lemma last_cons (x y : Z) (l : list Z) : List.last (y :: l) x = List.last l y.
Proof. revert y. induction l as [|z l IH]; intros y; [done|]. cbn in *. by destruct l. Qed.

Lemma last_ge (x : Z) (l : list Z) : StronglySorted Z.le (x :: l) → x <= List.last l x.
Proof.
  revert x. induction l as [|y l IH]; intros x Hs; [done|]. rewrite last_cons.
  apply StronglySorted_inv in Hs as [Hs Hx]. apply Forall_cons_1 in Hx as [Hx _].
  specialize (IH y Hs). lia.
Qed.

Lemma wp_disorder_segments p x l i :
  captured p → StronglySorted Z.le (x :: l) → 0 <= x → List.last l x <= len (payload_of p) →
  wp (disorder_segments p (info p) (x :: l) i) (λ segs,
    cut p x (List.last l x) (map Data segs) ∧ Forall seq_ok segs ∧ (l ≠ [] → segs ≠ [])).
Proof.
  intros Hc. revert x i. induction l as [|y l IH]; intros x i Hs Hx Hn.
  { apply wp_ret. split_and!; [constructor|constructor|done]. }
  rewrite last_cons in *. apply StronglySorted_inv in Hs as [Hs Hxy].
  apply Forall_cons_1 in Hxy as [Hxy _]. pose proof (last_ge y l Hs).
  pose proof Hc as (Hok & _). cbn [disorder_segments].
  cbn [Payload info Seq0 IPHdrLen]. wp_step. wp_step. apply wp_bind2.
  eapply wp_mono; [apply (wp_build_flagged p _ _ _ (bool_decide (l = []))); [done|auto with b4|]|].
  { apply captured_small; [done|lia..]. }
  intros g Hg. wp_step. eapply wp_mono; [apply IH; [done|lia|done]|]. intros segs (H1 & H2 & _).
  rewrite u32_add_l in Hg. apply wp_ret. split_and!; [|constructor; [|done]|done].
  - eapply cut_cons; [exact Hxy|exact Hg|exact H1].
  - unfold seq_ok. cbn [Data Seq Seq0 info]. destruct (seg_of_is_seg _ _ _ _ Hg) as [_ ->]. cbn [fst]. by rewrite u32_add_l.
Qed.
End builders.

Section pieces.
Context {F : Family} {R : Receiver}.
Implicit Types (p f d : bytes) (cfg : SetConfig) (fr : FragmentationConfig).

Lemma wp_combo_segments p l i a :
  captured p → Forall (λ s, s <= len (payload_of p)) l → 0 <= a → a <= len (payload_of p) →
  wp (combo_segments p (info p) l i a) (λ '(segs, b),
    cut p a b (map Data segs) ∧ Forall seq_ok segs ∧ a <= b ∧ b <= len (payload_of p)).
Proof.
  intros Hc. revert i a. induction l as [|s l IH]; intros i a Hl Ha Han.
  { apply wp_ret. split_and!; [constructor|constructor|lia|done]. }
  apply Forall_cons_1 in Hl as [Hs Hl]. cbn [combo_segments].
  destruct (s <=? a) eqn:E; [by apply IH|]. pose proof Hc as (Hok & _).
  cbn [Payload info Seq0]. do 3 wp_step.
  eapply wp_mono; [apply wp_BuildSegment; [done|auto with b4|]|].
  { apply captured_small; [done|zlia..]. }
  intros g Hg.
  wp_step. eapply wp_mono; [apply IH; [done|zlia|done]|]. intros [segs b] (H1 & H2 & H3 & H4).
  rewrite ?u32_add_l in Hg. apply wp_ret. split_and!; [|constructor; [|done]|zlia|done].
  - eapply cut_cons; [|exact Hg|exact H1]. zlia.
  - unfold seq_ok. cbn [Data Seq]. destruct (seg_of_is_seg _ _ _ _ Hg) as [_ ->]. cbn [fst]. by rewrite u32_add_l.
Qed.

Lemma cut_delivers_0 p fr place segs : cut p 0 (len (payload_of p)) (map Data segs) →
  carries_over p fr place (map Data segs).
Proof. intros H. apply carries_carries_over. by eapply cut_carries. Qed.

(** The place of a piece, from its recorded sequence number. *)
Lemma seq_ok_offset p s a d : seq_ok s → seg_of p (u32 (seq_no p + a)) d (Data s) →
  0 <= a < 4294967296 → u32 (Seq s - seq_no p) = a.
Proof.
  intros Hs Hg Ha. destruct (seg_of_is_seg _ _ _ _ Hg) as [_ Hv]. rewrite Hs, Hv. cbn [fst].
  unfold u32. rewrite Zminus_mod_idemp_l. replace (seq_no p + a - seq_no p) with a by lia.
  by apply Z.mod_small.
Qed.

Lemma cut_cons_inv p a c f fs : cut p a c (f :: fs) → ∃ b,
  a <= b ∧ b <= c ∧ seg_of p (u32 (seq_no p + a)) (sub (payload_of p) a b) f ∧ cut p b c fs.
Proof.
  inversion 1 as [|? b ? ? ? H1 H2 H3]; subst. exists b. pose proof (cut_le _ _ _ _ H3). done.
Qed.

Lemma wp_disorder_overlap p fr segs :
  captured p → bytes_ok (SeqOverlapBytes fr) → len p + overlap fr <= 65535 + len_base →
  cut p 0 (len (payload_of p)) (map Data segs) → Forall seq_ok segs →
  wp (disorder_overlap p (info p) fr segs) (λ segs',
    carries_over p fr inside (map Data segs') ∧ Forall (is_seg p) (map Data segs')
    ∧ (segs' = [] → segs = [])).
Proof.
  intros Hc Hpat Hsz Hcut Hseq. pose proof (captured_range p Hc). pose proof (payload_len p Hc) as Hpl.
  pose proof Hc as (Hok & _ & _ & Hl & Hlp).
  assert (carries_over p fr inside (map Data segs) ∧ Forall (is_seg p) (map Data segs)
    ∧ (segs = [] → segs = [])) as Hsame.
  { split_and!; [by apply cut_delivers_0|by eapply cut_is_seg|done]. }
  unfold disorder_overlap. cbv zeta. destruct ((0 <? SeqOverlapLength fr) && _) eqn:E; cbn [negb];
    [|by apply wp_ret].
  pose proof Hsz as Hsz'. unfold overlap in Hsz'. rewrite E in Hsz'.
  destruct segs as [|s1 [|s2 rest]]; [by apply wp_ret..|]. cbn [map] in Hcut.
  apply cut_cons_inv in Hcut as Hc1. destruct Hc1 as (a & Ha0 & Han & H1 & Hc1).
  apply cut_cons_inv in Hc1 as (b & Hab & Hbn & H2 & H3).
  apply Forall_cons_1 in Hseq as [_ [Hs2 _]%Forall_cons_1].
  cbn [Seq0 info PayloadStart PayloadLen Payload].
  rewrite (seq_ok_offset p s2 a _ Hs2 H2) by lia.
  destruct (SeqOverlapLength fr <? a) eqn:E2; cbn [negb]; [|by apply wp_ret].
  destruct (seg_of_len _ _ _ _ H2) as (_ & Hl2 & _). rewrite len_sub in Hl2 by lia.
  wp_step; [by apply wp_ret|].
  replace (a + (len (Data s2) - off p)) with b by lia. wp_step. apply wp_slice; [lia..|].
  apply wp_bind2. wp_step.
  eapply wp_mono; [apply wp_BuildSeqOverlapSegment; [done|auto with b4|done|zlia|zlia|len_simp; zlia]|].
  intros g Hg. assert (overlap fr = SeqOverlapLength fr) as Eov by (unfold overlap; by rewrite E).
  rewrite <- Eov in Hg. fold (overlap_bytes fr) in Hg.
  apply (wp_mono _ (seg_of p (u32 (u32 (seq_no p + a) - overlap fr)) (overlap_bytes fr ++ sub (payload_of p) a b))).
  { destruct (bool_decide (rest = [])); [by apply wp_ret|]. by apply wp_flag_op; auto. }
  clear g Hg. intros g Hg. apply wp_ret. cbn [map Data].
  pose proof (cut_is_seg _ _ _ _ Hcut) as Hall.
  apply Forall_cons_1 in Hall as [Hi1 [Hi2 Hall]%Forall_cons_1]. split_and!; [|constructor; [done|]|done].
  - apply (cut_over p fr inside [Data s1] (Data s2) (map Data rest) g a (sub (payload_of p) a b));
      [exact Hcut|zlia|unfold inside; zlia| |exact Hg]. by eapply seg_of_is_seg.
  - constructor; [by eapply seg_of_is_seg|done].
Qed.

Lemma wp_combo_overlap p fr segs :
  captured p → bytes_ok (SeqOverlapBytes fr) → len p + overlap fr <= 65535 + len_base →
  cut p 0 (len (payload_of p)) (map Data segs) → Forall seq_ok segs →
  wp (combo_overlap p (info p) fr segs) (λ segs',
    carries_over p fr at_start (map Data segs') ∧ Forall (is_seg p) (map Data segs')
    ∧ (segs' = [] → segs = [])).
Proof.
  intros Hc Hpat Hsz Hcut Hseq. pose proof (captured_range p Hc). pose proof (payload_len p Hc) as Hpl.
  pose proof Hc as (Hok & _ & _ & Hl & Hlp).
  assert (carries_over p fr at_start (map Data segs) ∧ Forall (is_seg p) (map Data segs)
    ∧ (segs = [] → segs = [])) as Hsame.
  { split_and!; [by apply cut_delivers_0|by eapply cut_is_seg|done]. }
  unfold combo_overlap. cbv zeta. destruct ((0 <? SeqOverlapLength fr) && _) eqn:E; cbn [negb];
    [|by apply wp_ret].
  pose proof Hsz as Hsz'. unfold overlap in Hsz'. rewrite E in Hsz'.
  destruct segs as [|s1 rest]; [by apply wp_ret|]. cbn [map] in Hcut.
  apply cut_cons_inv in Hcut as Hc1. destruct Hc1 as (b & Hb0 & Hbn & H1 & H2).
  apply Forall_cons_1 in Hseq as [Hs1 _].
  cbn [Seq0 info PayloadStart PayloadLen Payload].
  rewrite (seq_ok_offset p s1 0 _ Hs1 H1) by lia. rewrite !Z.add_0_l.
  destruct (seg_of_len _ _ _ _ H1) as (_ & Hl1 & _). rewrite len_sub in Hl1 by lia.
  wp_step; [by apply wp_ret|].
  replace (len (Data s1) - off p) with b by lia. wp_step. apply wp_slice; [lia..|]. wp_step.
  eapply wp_mono; [apply wp_BuildSeqOverlapSegment; [done|auto with b4|done|zlia|zlia|len_simp; zlia]|].
  intros g Hg. assert (overlap fr = SeqOverlapLength fr) as Eov by (unfold overlap; by rewrite E).
  rewrite <- Eov in Hg. fold (overlap_bytes fr) in Hg. apply wp_ret. cbn [map Data].
  pose proof (cut_is_seg _ _ _ _ Hcut) as Hall.
  apply Forall_cons_1 in Hall as [Hi1 Hall]. split_and!; [|constructor; [|done]|done].
  - apply (cut_over p fr at_start [] (Data s1) (map Data rest) g 0 (sub (payload_of p) 0 b));
      [exact Hcut|zlia|done| |exact Hg]. by eapply seg_of_is_seg.
  - by eapply seg_of_is_seg.
Qed.
End pieces.

(** ** Decoys and the sending loop *)

(** What the senders assume of the configured bytes. *)
Definition config_ok (cfg : SetConfig) : Prop :=
  bytes_ok (SeqOverlapBytes (Fragmentation cfg)) ∧ faking_ok (Faking cfg) ∧ is_byte (FakingTTL (Faking cfg)).

Section sending.
Context {F : Family} {R : Receiver}.
Implicit Types (p f d : bytes) (cfg : SetConfig) (r : draws).

Lemma sent_cons_sleep n acts : sent (Sleep n :: acts) = sent acts.
Proof. done. Qed.

Lemma wp_send_fakes n p len0 so pat ttl :
  captured p → bytes_ok pat → is_byte ttl → off p + len0 <= 65535 + len_base →
  wp (send_fakes n p (info p) len0 so pat ttl) (λ acts, Forall (is_fake p) (sent acts)).
Proof.
  intros Hc Hp Ht Hsz. induction n as [|n IH]; cbn [send_fakes]; [apply wp_ret; constructor|].
  wp_step. eapply wp_mono; [by apply wp_BuildFakeOverlapSegment|]. intros o Ho.
  wp_step. eapply wp_mono; [exact IH|]. intros rest Hr. apply wp_ret.
  destruct o as [f|]; [|done]. by constructor.
Qed.

Lemma wp_fakes_before p cfg b count s :
  captured p → config_ok cfg → is_seg p (Data s) →
  wp (fakes_before p (info p) cfg b count s) (λ acts, Forall (is_fake p) (sent acts)).
Proof.
  intros Hc (Hpat & _ & Ht) Hs. unfold fakes_before. cbv zeta.
  wp_step; [|apply wp_ret; constructor]. wp_step; [|apply wp_ret; constructor].
  apply wp_send_fakes; [done|done|done|]. cbn [PayloadStart info].
  destruct (seg_of_len _ _ _ _ Hs) as (Hok & _ & Hl). pose proof (get16_range (Data s) len_at Hok).
  unfold total in Hl. lia.
Qed.

Lemma wp_send_segments p cfg b count pause segs i :
  captured p → config_ok cfg → Forall (is_seg p) (map Data segs) →
  (∀ i last, wp (pause i last) (λ acts, sent acts = [])) →
  wp (send_segments p (info p) cfg b count pause segs i) (λ acts, ∃ fakes,
    sent acts ≡ₚ map Data segs ++ fakes ∧ Forall (is_fake p) fakes).
Proof.
  intros Hc Hcfg Hs Hpause. revert i Hs. induction segs as [|s segs IH]; intros i Hs; cbn [send_segments].
  { apply wp_ret. by exists []. }
  cbn [map] in Hs. apply Forall_cons_1 in Hs as [H1 H2].
  wp_step. eapply wp_mono; [by apply wp_fakes_before|]. intros fa Hfa.
  wp_step. eapply wp_mono; [apply Hpause|]. intros sl Hsl.
  wp_step. eapply wp_mono; [by apply IH|]. intros rest (fs & Hp & Hf). apply wp_ret.
  exists (sent fa ++ fs). split; [|by apply Forall_app].
  rewrite !sent_app, Hsl, Hp. cbn. rewrite <- Permutation_middle. f_equiv.
  rewrite !app_assoc. f_equiv. apply Permutation_app_comm.
Qed.

Lemma wp_intn (x n : Z) : 0 < n → wp (intn x n) (λ y, 0 <= y < n).
Proof. intros Hn. unfold intn. wp_step; [zlia|]. apply wp_ret. by apply Z.mod_pos_bound. Qed.

Lemma wp_disorder_pause cfg r i last : wp (disorder_pause cfg r i last) (λ acts, sent acts = []).
Proof.
  unfold disorder_pause. wp_step; [by apply wp_ret|]. cbv zeta.
  destruct (GetDisorderJitter _) as [mn mx] eqn:E.
  assert (mn < mx) as Hm.
  { unfold GetDisorderJitter in E. injection E as <- <-. repeat case_if; zlia. }
  wp_step; (wp_step; eapply wp_mono; [apply wp_intn|]; [|by intros; apply wp_ret]); [|lia].
  rewrite Z.quot_div_nonneg by zlia. Z.div_mod_to_equations. zlia.
Qed.

Lemma wp_combo_pause cfg r i last : wp (combo_pause cfg r i last) (λ acts, sent acts = []).
Proof.
  unfold combo_pause. cbv zeta.
  wp_step; [wp_step; eapply wp_mono; [apply wp_intn|by intros; apply wp_ret]|].
  { case_if; [done|]. rewrite Z.quot_div_nonneg by zlia. Z.div_mod_to_equations. zlia. }
  wp_step; [by apply wp_ret|]. wp_step. eapply wp_mono; [apply wp_intn|by intros; apply wp_ret].
  case_if; zlia.
Qed.

(** The end of both senders: reordering, PSH, and the loop. *)
Lemma wp_finish p fr place cfg mode rnd b count pause segs :
  captured p → config_ok cfg → segs ≠ [] →
  carries_over p fr place (map Data segs) → Forall (is_seg p) (map Data segs) →
  (∀ i last, wp (pause i last) (λ acts, sent acts = [])) →
  wp (let! segs := ShuffleSegments segs mode rnd in
      let! segs := SetMaxSeqPSH segs (hdr p) fix_tcp in
      send_segments p (info p) cfg b count pause segs 0) (delivers p fr place).
Proof.
  intros Hc Hcfg Hne Hov Hall Hpause. wp_step. eapply wp_mono; [apply wp_ShuffleSegments|].
  intros segs1 (Hp & _). assert (segs1 ≠ []) as Hne1.
  { intros ->. by apply Permutation_nil in Hp. }
  rewrite <- Hp in Hall. apply (carries_over_perm p fr place _ (map Data segs1)) in Hov; [|by rewrite Hp].
  wp_step. eapply wp_mono; [apply (wp_SetMaxSeqPSH p); [done| |done]|].
  { by rewrite Forall_map in Hall. }
  intros segs2 HF. destruct (same_seg_views _ _ _ HF) as [Hv Hall2]. apply Forall_map in Hall2.
  apply (carries_over_views p fr place _ (map Data segs2)) in Hov; [|done|done].
  eapply wp_mono; [by apply wp_send_segments|]. intros acts (fs & Hfs & Hfk).
  exists (map Data segs2), fs. split_and!; [done| |done].
  eapply Forall_impl; [exact Hfk|]. by left.
Qed.
End sending.

(** ** The senders *)

Section senders.
Context {F : Family} {R : Receiver} {Rd : Reader}.
Implicit Types (p f d : bytes) (cfg : SetConfig) (r : draws).

(** A packet the senders are given: room for the configured overlap is left. *)
Definition sendable_with p cfg : Prop :=
  sendable p ∧ config_ok cfg ∧ len p + overlap (Fragmentation cfg) <= 65535 + len_base.

Lemma delivers_whole p fr place : sendable p → delivers p fr place [Send p].
Proof. intros Hp. by apply carries_delivers, carries_whole. Qed.

Lemma wp_piece p a b so ido :
  captured p → 0 <= a → a <= b → b <= len (payload_of p) → u32 (seq_no p + so) = u32 (seq_no p + a) →
  wp (BuildSegment p (info p) (sub (payload_of p) a b) so ido)
    (seg_of p (u32 (seq_no p + a)) (sub (payload_of p) a b)).
Proof.
  intros Hc Ha Hab Hb <-. pose proof Hc as (Hok & _).
  apply wp_BuildSegment; [done|auto with b4|by apply captured_small].
Qed.

Lemma wp_ExtSplit p cfg r : sendable p →
  wp (sendExtSplitFragments cfg r p) (λ acts, carries p (sent acts)).
Proof using Rd.
  intros Hp. pose proof Hp as [Hc Ht]. pose proof Hc as (Hok & _). pose proof (payload_len p Hc) as Hpl.
  unfold sendExtSplitFragments. rewrite extract_law by done. cbn [go_bind].
  cbn [PayloadLen Payload info IPHdrLen].
  wp_step; [apply wp_ret; by apply carries_whole|].
  wp_step. eapply wp_mono; [apply wp_findPreSNIExtensionPoint; auto with b4|]. intros s _.
  wp_step; [apply wp_sendTCPFragments; [done|zlia]|].
  wp_step. wp_step. apply wp_bind.
  eapply wp_mono; [apply (wp_piece p 0 s 0 0); [done|zlia..|done]|]. intros g1 H1.
  apply wp_bind2. eapply wp_mono; [apply (wp_flag_op p _ _ _ ClearPSH Hc H1); by left|]. clear g1 H1. intros g1 H1.
  do 3 wp_step.
  eapply wp_mono; [apply (wp_piece p s); [done|zlia..|by rewrite u32_add_l]|]. intros g2 H2.
  apply wp_ret. eapply (carries_two p s); [zlia|zlia|done|done].
Qed.

Lemma wp_FirstByte p cfg r : sendable p → seg2delay cfg r < 4294967296 →
  wp (sendFirstByteDesync cfg r p) (λ acts, carries p (sent acts)).
Proof using Rd.
  intros Hp Hdl. pose proof Hp as [Hc Ht]. pose proof Hc as (Hok & _). pose proof (payload_len p Hc) as Hpl.
  unfold sendFirstByteDesync. rewrite extract_law by done. cbn [go_bind].
  cbn [PayloadLen Payload info IPHdrLen].
  wp_step; [apply wp_ret; by apply carries_whole|].
  wp_step. wp_step. apply wp_bind.
  eapply wp_mono; [apply (wp_piece p 0 1 0 0); [done|zlia..|done]|]. intros g1 H1.
  apply wp_bind2. eapply wp_mono; [apply (wp_flag_op p _ _ _ ClearPSH Hc H1); by left|]. clear g1 H1. intros g1 H1.
  do 3 wp_step.
  eapply wp_mono; [apply (wp_piece p 1); [done|zlia..|done]|]. intros g2 H2.
  wp_step. apply (wp_mono _ (λ _, True)).
  - unfold first_byte_jitter. cbv zeta.
    set (n := Z.quot _ 3). assert (0 <= n < 4294967295) as Hn.
    { unfold n. rewrite Z.quot_div_nonneg by (first [lia|case_if; zlia]). case_if; Z.div_mod_to_equations; zlia. }
    rewrite u32_small by lia. destruct is_v6; (wp_step; [zlia|done]).
  - intros j _. apply wp_ret. eapply (cut_carries p [g1; g2]); [|done].
    by apply (cut_two p 1); [lia|zlia|..].
Qed.

Lemma wp_Disorder p cfg r : sendable_with p cfg →
  wp (sendDisorderFragments cfg r p) (delivers p (Fragmentation cfg) inside).
Proof using Rd.
  intros (Hp & Hcfg & Hsz). pose proof Hp as [Hc Ht]. pose proof Hc as (Hok & _).
  pose proof (payload_len p Hc) as Hpl. pose proof (captured_range p Hc).
  unfold sendDisorderFragments. cbv zeta. rewrite extract_law by done. cbn [go_bind].
  cbn [PayloadLen Payload info IPHdrLen]. rewrite <- Hpl.
  wp_step; [apply wp_ret; by apply delivers_whole|].
  wp_step. eapply wp_mono; [apply wp_GetSNISplitPoints; auto with b4|]. intros sp Hsp.
  set (sp' := if bool_decide _ then _ else _). assert (StronglySorted Z.le sp') as Hsp'.
  { unfold sp'. case_bool_decide; [|done]. rewrite !Z.quot_div_nonneg by lia.
    repeat constructor; Z.div_mod_to_equations; zlia. }
  destruct (BuildValidSplits_sorted sp' (len (payload_of p))) as (l' & -> & Hs & Hlast & Hne); [lia|done|].
  wp_step. eapply wp_mono; [apply wp_disorder_segments; [done|done|lia|by rewrite Hlast]|].
  intros segs (H1 & H2 & H3). rewrite Hlast in H1. destruct Hcfg as (Hpat & Hd & Htl).
  wp_step. eapply wp_mono; [by apply wp_disorder_overlap|]. intros segs' (H4 & H5 & H6).
  apply wp_finish; [done|done|by intros ->; apply H3, H6|done|done|].
  intros. apply wp_disorder_pause.
Qed.

Lemma seq_no_ttl p t : captured p → seq_no (with_ttl p t) = seq_no p.
Proof.
  intros Hc. pose proof (captured_range p Hc). pose proof ttl_range.
  destruct (header_stable p (with_ttl p t) Hc) as (H1 & _).
  { intros k _ _ Hk. rewrite ttl_get by done. case_if; [zlia|done]. }
  unfold seq_no. rewrite H1. apply get32_eq. intros k Hk. rewrite ttl_get by done. case_if; [zlia|done].
Qed.

Lemma wp_sendDecoyPacket p cfg r : captured p → config_ok cfg → off p + 680 <= 65535 + len_base →
  wp (sendDecoyPacket cfg r p (info p)) (λ acts, Forall (is_low p) (sent acts)).
Proof.
  intros Hc (_ & Hfk & Httl) Hsz. pose proof (GetPayload_ok _ (r_payload r) Hfk) as Hblob. pose proof (captured_range p Hc). pose proof Hc as (Hok & _ & _ & Hl & _).
  unfold sendDecoyPacket. cbv zeta. wp_step; [apply wp_ret; constructor|].
  set (blob := if 680 <? _ then _ else _).
  assert (bytes_ok blob ∧ 3 <= len blob <= 680) as [Hokb Hlb].
  { unfold blob. case_if; [|split; [done|zlia]]. split; [auto with b4|len_simp; zlia]. }
  clearbody blob. cbn [PayloadStart IPHdrLen info].
  wp_step. eapply wp_mono; [by apply wp_new_segment|]. intros l1 H1.
  wp_step. eapply wp_mono; [apply (wp_draft_len _ _ _ _ _ Hc H1); destruct H1 as (_ & Hl1 & _); lia|].
  intros l2 H2. wp_step.
  eapply wp_mono; [apply (wp_dynamicTTL p is_v6 (FakingTTL (Faking cfg))); [done|done|lia]|].
  intros t (Ht1 & Ht2 & _). wp_step.
  eapply wp_mono; [by apply (wp_ready_ttl _ _ _ _ t Hc H2)|]. intros l3 H3.
  destruct (captured_ttl p t Hc Ht1) as (Hc' & Hh & Ho & Hpl). pose proof (seq_no_ttl p t Hc) as Hsq.
  assert (1 < get p ttl_at → t < get p ttl_at) as Htt by (destruct ttl_out as [_ ->]; done).
  wp_step. rewrite <- Hh. eapply wp_mono; [by apply (wp_ready_fix _ _ _ _ Hc' H3)|]. intros q Hq.
  assert (seq_no q = seq_no (with_ttl p t)) as Hsqq.
  { destruct Hq as (_ & Hv & _). unfold view in Hv. injection Hv as Hv _. by rewrite Hv, Hsq. }
  destruct (seg_of_len _ _ _ _ Hq) as (Hokq & Hlq & Htq).
  pose proof Hq as (_ & _ & _ & Hhq & Hhokq & Hsame & _). pose proof (header_off _ q Hc' Hsame) as (_ & _ & Hoq).
  pose proof (get16_range q len_at Hokq).
  assert (captured q) as Hcq by (unfold captured, total in *; split_and!; [done|done|lia..]).
  assert (fits (info p) q) as Hfit by (split_and!; cbn; congruence).
  assert (∀ e so ido, bytes_ok e → len e <= 680 →
    wp (BuildSegment q (info p) e so ido) (seg_of (with_ttl p t) (u32 (seq_no q + so)) e)) as Hb.
  { intros e so ido He Hle. eapply wp_mono; [apply wp_BuildSegment_fits; [done|done|done|lia]|].
    intros f. by apply (seg_of_trans _ q _ _ _ _ f Hc' Hq). }
  assert (∀ sq d f, seg_of (with_ttl p t) sq d f → is_low p f) as Hlow by (intros sq d f Hf; by exists t, sq, d).
  wp_step. wp_step. wp_step. eapply wp_mono; [apply Hb; [auto with b4|len_simp; lia]|]. intros g1 H1'.
  apply wp_bind2. eapply wp_mono; [apply (wp_flag_op _ _ _ _ ClearPSH Hc' H1'); by left|].
  clear g1 H1'. intros g1 H1'. do 3 wp_step.
  eapply wp_mono; [apply Hb; [auto with b4|len_simp; lia]|]. intros g2 H2'. apply wp_ret.
  rewrite sent_app, sent_sleep. cbn. repeat constructor; eauto.
Qed.

(** Decoys sent before. *)
Lemma wp_delivers_app p fr place cfg mode rnd b count pause segs dc :
  Forall (is_low p) (sent dc) →
  wp (let! segs := ShuffleSegments segs mode rnd in
      let! segs := SetMaxSeqPSH segs (hdr p) fix_tcp in
      send_segments p (info p) cfg b count pause segs 0) (delivers p fr place) →
  wp (let! segs := ShuffleSegments segs mode rnd in
      let! segs := SetMaxSeqPSH segs (hdr p) fix_tcp in
      let! acts := send_segments p (info p) cfg b count pause segs 0 in
      Ret (dc ++ acts)) (delivers p fr place).
Proof.
  intros Hdc. destruct (ShuffleSegments _ _ _) as [s1| |]; [cbn [go_bind]|done..].
  destruct (SetMaxSeqPSH _ _ _) as [s2| |]; [cbn [go_bind]|done..].
  destruct (send_segments _ _ _ _ _ _ _ _) as [acts| |]; [cbn|done..].
  intros (reals & fs & H1 & H2 & H3). exists reals, (sent dc ++ fs). rewrite sent_app, H1. split_and!.
  - rewrite !app_assoc. f_equiv. apply Permutation_app_comm.
  - apply Forall_app. split; [|done]. eapply Forall_impl; [exact Hdc|]. by right.
  - done.
Qed.

Lemma wp_Combo p cfg r : sendable_with p cfg → (DecoyEnabled (Combo (Fragmentation cfg)) = true → off p + 680 <= 65535 + len_base) →
  wp (sendComboFragments cfg r p) (delivers p (Fragmentation cfg) at_start).
Proof using Rd.
  intros (Hp & Hcfg & Hsz) Hbig. pose proof Hp as [Hc Ht]. pose proof Hc as (Hok & _).
  pose proof (payload_len p Hc) as Hpl. pose proof (captured_range p Hc).
  unfold sendComboFragments. cbv zeta. rewrite extract_law by done. cbn [go_bind].
  cbn [PayloadLen Payload info IPHdrLen Seq0]. rewrite <- Hpl.
  wp_step; [apply wp_ret; by apply delivers_whole|].
  wp_step. apply (wp_mono _ (λ acts, Forall (is_low p) (sent acts))).
  { wp_step; [apply wp_sendDecoyPacket; [done|done|by apply Hbig]|apply wp_ret; constructor]. }
  intros dc Hdc. wp_step. eapply wp_mono; [apply wp_GetComboSplitPoints; auto with b4|]. intros sp _.
  set (sp' := if bool_decide _ then _ else _).
  assert (Forall (λ s, s <= len (payload_of p)) sp') as Hsp'.
  { unfold sp'. case_bool_decide.
    - constructor; [|done]. rewrite Z.quot_div_nonneg by lia. Z.div_mod_to_equations. lia.
    - rewrite Forall_forall. intros s Hs%uniqueSorted_sorted. lia. }
  wp_step. eapply wp_mono; [apply wp_combo_segments; [done|done|lia|lia]|].
  intros [segs b] (H1 & H2 & H3 & H4). wp_step.
  apply (wp_mono _ (λ segs, cut p 0 (len (payload_of p)) (map Data segs) ∧ Forall seq_ok segs)).
  { destruct (b <? len (payload_of p)) eqn:E.
    - wp_step. wp_step. wp_step.
      eapply wp_mono; [apply (wp_piece p b); [done|zlia..|by rewrite u32_add_l]|]. intros g Hg. apply wp_ret.
      rewrite map_app. split.
      + eapply cut_snoc; [exact H1|zlia|exact Hg].
      + apply Forall_app. split; [done|]. constructor; [|done]. unfold seq_ok. cbn [Data Seq].
        destruct (seg_of_is_seg _ _ _ _ Hg) as [_ ->]. cbn [fst]. by rewrite u32_add_l.
    - apply wp_ret. split; [|done]. by replace (len (payload_of p)) with b by zlia. }
  clear segs H1 H2. intros segs [H1 H2]. wp_step.
  { apply wp_ret. apply bool_decide_eq_true in Heqb0. subst segs. inversion H1. zlia. }
  apply bool_decide_eq_false in Heqb0. destruct Hcfg as (Hpat & Hd & Htl).
  wp_step. eapply wp_mono; [by apply wp_combo_overlap|]. intros segs' (H5 & H6 & H7).
  apply wp_delivers_app; [done|].
  apply wp_finish; [done|done|by intros ->; apply Heqb0, H7|done|done|].
  intros. apply wp_combo_pause.
Qed.

Lemma wp_Hybrid p cfg r : sendable_with p cfg → (DecoyEnabled (Combo (Fragmentation cfg)) = true → off p + 680 <= 65535 + len_base) →
  seg2delay cfg r < 4294967296 →
  wp (sendHybridFragments cfg r p) (delivers p (Fragmentation cfg) anywhere).
Proof using Rd.
  intros Hs Hbig Hdl. pose proof Hs as (Hp & _). pose proof Hp as [Hc Ht]. pose proof Hc as (Hok & _).
  unfold sendHybridFragments. wp_step; [apply wp_ret; by apply delivers_whole|].
  rewrite headers_law by done. cbn [go_bind]. rewrite Zplus_minus. rewrite payload_slice by done. cbn [go_bind].
  wp_step; [apply wp_ret; by apply delivers_whole|].
  wp_step. eapply wp_mono; [apply wp_findPreSNIExtensionPoint; auto with b4|]. intros e _.
  wp_step. eapply wp_mono; [apply wp_locateSNI; auto with b4|]. intros sni _. cbv zeta.
  wp_step; [eapply wp_mono; [by apply wp_Combo|]; intros acts; apply delivers_mono; by left|].
  wp_step; [eapply wp_mono; [by apply wp_Disorder|]; intros acts; apply delivers_mono; by right|].
  wp_step; (eapply wp_mono; [first [by apply wp_ExtSplit|by apply wp_FirstByte]|]);
    intros acts; apply carries_delivers.
Qed.
End senders.

(** C11: The "disorder" strategy, for IPv4 and for IPv6, on every captured packet with room
    for the configured overlap, every configuration and every draw: the packets it sends are
    decoys, each with a TTL below the packet's when that is above 1, and valid segments of the
    connection that carry the ClientHello, each byte once.  At most one segment has more: the
    configured overlap before its data, which is the pattern repeated, over bytes of the
    ClientHello that another segment carries. *)
Theorem sendDisorderFragments_delivers {F : Family} {R : Receiver} {Rd : Reader} p cfg r :
  sendable_with p cfg →
  wp (sendDisorderFragments cfg r p) (delivers p (Fragmentation cfg) inside).
Proof. apply wp_Disorder. Qed.

(** C10: The "combo" strategy (the default) likewise, with its decoy packet: when that is
    enabled there is room for its 680 bytes, and the overlap of one segment comes before the start of the
    ClientHello. *)
Theorem sendComboFragments_delivers {F : Family} {R : Receiver} {Rd : Reader} p cfg r :
  sendable_with p cfg → (DecoyEnabled (Combo (Fragmentation cfg)) = true → off p + 680 <= 65535 + len_base) →
  wp (sendComboFragments cfg r p) (delivers p (Fragmentation cfg) at_start).
Proof. apply wp_Combo. Qed.

(** C12: The "hybrid" strategy likewise, whichever of the four it picks: with room for the
    overlap and, when it is enabled, for the 680 bytes of the decoy, what it sends are decoys of a lower TTL and valid
    segments that carry the ClientHello, each byte once, at most one of them with the overlap
    before its data. *)
Theorem sendHybridFragments_delivers {F : Family} {R : Receiver} {Rd : Reader} p cfg r :
  sendable_with p cfg → (DecoyEnabled (Combo (Fragmentation cfg)) = true → off p + 680 <= 65535 + len_base) → seg2delay cfg r < 4294967296 →
  wp (sendHybridFragments cfg r p) (delivers p (Fragmentation cfg) anywhere).
Proof. apply wp_Hybrid. Qed.

(** ** Witnesses *)

Lemma sendable_with4_demo : @sendable_with IPv4 _ packet4_demo cfg_demo.
Proof.
  split; [exact sendable4_demo|]. split; [|vmc].
  split_and!; [by apply bytes_okb_spec|split; by apply bytes_okb_spec|vmc].
Qed.
Lemma sendable_with6_demo : @sendable_with IPv6 _ packet6_demo cfg_demo.
Proof.
  split; [exact sendable6_demo|]. split; [|vmc].
  split_and!; [by apply bytes_okb_spec|split; by apply bytes_okb_spec|vmc].
Qed.

Lemma sendDisorderFragments_delivers_witness :
  wp (sendDisorderFragmentsV4 cfg_demo draws_demo packet4_demo) (@delivers IPv4 _ packet4_demo frag_demo inside)
  ∧ wp (sendDisorderFragmentsV6 cfg_demo draws_demo packet6_demo) (@delivers IPv6 _ packet6_demo frag_demo inside).
Proof.
  split.
  - exact (sendDisorderFragments_delivers packet4_demo cfg_demo draws_demo sendable_with4_demo).
  - exact (sendDisorderFragments_delivers packet6_demo cfg_demo draws_demo sendable_with6_demo).
Defined.

Lemma sendComboFragments_delivers_witness :
  wp (sendComboFragmentsV4 cfg_demo draws_demo packet4_demo) (@delivers IPv4 _ packet4_demo frag_demo at_start).
Proof.
  refine (sendComboFragments_delivers packet4_demo cfg_demo draws_demo sendable_with4_demo _). vmc.
Defined.

Lemma sendHybridFragments_delivers_witness :
  wp (sendHybridFragmentsV6 cfg_demo draws_demo packet6_demo) (@delivers IPv6 _ packet6_demo frag_demo anywhere).
Proof.
  refine (sendHybridFragments_delivers packet6_demo cfg_demo draws_demo sendable_with6_demo _ _); vmc.
Defined.
