(* ===== verification/Dispatch.v ===== *)
(** * Injecting a ClientHello

    The queue worker's dropAndInjectTCP (src/src/nfq/nfq.go) and dropAndInjectTCPv6
    (nfq_ipv6.go): the captured packet is dropped and a rewritten one is sent in its
    place, by one of the strategies, between decoys. *)

From Stdlib Require Import ZArith Lia Ascii.
From stdpp Require Import base list numbers sets strings.
From S2P Require Import Prelude Config Payloads Checksum Fragment Fragment6 Split Segment Families Mutation Strategies FakeSni Decoys Oob Disorder.

Local Open Scope Z_scope.

(** What the two families have of their own: the shortest packet, the "ip" strategy
    and the decoys after the packet (which over IPv4 are given the length of the
    header of the packet before its mutation). *)
Class Injector := {
  min_len : Z;
  send_ip : SetConfig → draws → bytes → go (list action);
  send_post : SetConfig → bytes → Z → go (list action) }.

Definition Injector4 : Injector := {|
  min_len := 40; send_ip := sendIPFragmentsV4; send_post := sendPostDesyncRSTV4 |}.
Definition Injector6 : Injector := {|
  min_len := 60; send_ip := sendIPFragmentsV6; send_post cfg raw _ := sendPostDesyncRSTv6 cfg raw |}.

(** The draws of each step. *)
Record inject_draws := {
  i_mutate : mutation_draws; i_desync : draws; i_window : draws; i_fakes : draws; i_pool : Z; i_send : draws }.

Definition chosen_strategy (cfg : SetConfig) (d : inject_draws) : string :=
  ResolveStrategyPool (i_pool d) (StrategyPool (Fragmentation cfg)) (Strategy (Fragmentation cfg)).

Definition send_strategy `{Family, Injector} (cfg : SetConfig) (r : draws) (strategy : string) (raw : bytes)
    : go (list action) :=
  if bool_decide (strategy = "tcp"%string) then sendTCPFragments cfg r raw
  else if bool_decide (strategy = "ip"%string) then send_ip cfg r raw
  else if bool_decide (strategy = "oob"%string) then sendOOBFragments cfg r raw
  else if bool_decide (strategy = "tls"%string) then sendTLSFragments cfg r raw
  else if bool_decide (strategy = "disorder"%string) then sendDisorderFragments cfg r raw
  else if bool_decide (strategy = "extsplit"%string) then sendExtSplitFragments cfg r raw
  else if bool_decide (strategy = "firstbyte"%string) then sendFirstByteDesync cfg r raw
  else if bool_decide (strategy = "combo"%string) then sendComboFragments cfg r raw
  else if bool_decide (strategy = "hybrid"%string) then sendHybridFragments cfg r raw
  else if bool_decide (strategy = ConfigNone) then Ret [Send raw]
  else sendComboFragments cfg r raw.

Definition dropAndInjectTCP `{Family, Injector} (cfg : SetConfig) (d : inject_draws) (raw : bytes)
    : go (list action) :=
  if len raw <? min_len then Ret [Send raw] else
  let! (ipHdrLen, tcpHdrLen) := headers raw in
  let payloadStart := ipHdrLen + tcpHdrLen in
  let payloadLen := len raw - payloadStart in
  if payloadLen <=? 0 then Ret [Send raw] else
  let mutation := SNIMutation (Faking cfg) in
  let! raw := (if bool_decide (Mode mutation = ConfigOff) then Ret raw
               else MutateClientHello mutation (i_mutate d) raw) in
  let! a1 := (if bool_decide (ds_Mode (Desync (TCP cfg)) = ConfigOff) then Ret []
              else let! acts := ExecuteDesync cfg (i_desync d) raw in
                   Ret (acts ++ [Sleep (seg2delay cfg (i_desync d) * millisecond)])) in
  let! a2 := (if bool_decide (w_Mode (Win (TCP cfg)) = ConfigOff) then Ret []
              else ManipulateWindow cfg (i_window d) raw) in
  let! a3 := (if SNI (Faking cfg) && (0 <? SNISeqLength (Faking cfg))
              then sendFakeSNISequence cfg (i_fakes d) raw else Ret []) in
  let! a4 := send_strategy cfg (i_send d) (chosen_strategy cfg d) raw in
  let! a5 := (if PostDesync (Desync (TCP cfg))
              then let! acts := send_post cfg raw ipHdrLen in Ret (Sleep (50 * millisecond) :: acts)
              else Ret []) in
  Ret (a1 ++ a2 ++ a3 ++ a4 ++ a5).

Definition dropAndInjectTCPV4 := @dropAndInjectTCP IPv4 Injector4.
Definition dropAndInjectTCPv6 := @dropAndInjectTCP IPv6 Injector6.

(** ** What an injection delivers *)

(** What the "ip" strategy and the decoys after the packet promise. *)
Class Injects {F : Family} {R : Receiver} {I : Injector} := {
  ip_delivers : draws → bytes → list action → Prop;
  min_len_law p : captured p → min_len <= len p;
  ip_law cfg r p : sendable p → Z.shiftr (get p 0) 4 = (if is_v6 then 6 else 4) → len p <= 65535 →
    0 <= r_id r < 4294967296 → wp (send_ip cfg r p) (ip_delivers r p);
  post_law cfg p : captured p → is_byte (FakingTTL (Faking cfg)) →
    wp (send_post cfg p (hdr p)) (decoys p (post_plan p)) }.

#[export, refine] Instance Injects4 : @Injects IPv4 _ Injector4 := {|
  ip_delivers r p acts := sent acts = [p] ∨
    Forall (λ f, good_frag4 p f (ihl4 p)) (sent acts)
    ∧ length (sent acts) = 2%nat
    ∧ reassemble 2 (map frag4 (sent acts)) 0 = Some (sub p (ihl4 p) (len p)) |}.
Proof.
  - intros p Hc. pose proof (captured_range p Hc) as (H1 & H2 & _). destruct Hc as (_ & _ & _ & Hl & _).
    change (@min_len Injector4) with 40. lia.
  - intros cfg r p [Hc _] _ _ _. by apply wp_sendIPFragmentsV4.
  - intros cfg p Hc Ht. by apply wp_sendPostDesyncRSTV4.
Defined.

#[export, refine] Instance Injects6 : @Injects IPv6 _ Injector6 := {|
  ip_delivers r p acts := sent acts = [p] ∨
    Forall (λ f, good_frag6 p f 6 (r_id r)) (sent acts)
    ∧ length (sent acts) = 2%nat
    ∧ reassemble 2 (map frag6 (sent acts)) 0 = Some (sub p 40 (len p)) |}.
Proof.
  - intros p Hc. pose proof (captured_range p Hc) as (H1 & H2 & _). destruct Hc as (_ & _ & _ & Hl & _).
    cbn in H2. change (@min_len Injector6) with 60. lia.
  - intros cfg r p [Hc Ht] Hv Hsz Hid. pose proof (captured_range p Hc) as (H1 & H2 & _).
    pose proof Hc as (_ & Hh & _ & Hl & _). cbn in H2, Hh. unfold total in Ht. cbn in Ht.
    apply wp_sendIPFragmentsV6; [done| |lia|lia|done]. split_and!; [lia|exact Hv|by left|lia].
  - intros cfg p Hc Ht. by apply wp_sendPostDesyncRSTv6.
Defined.

Section inject.
Context {F : Family} {R : Receiver} {Rd : Reader} {Rw : Rewriter} {I : Injector} {In : Injects}.
Implicit Types (p q f : bytes) (cfg : SetConfig) (d : inject_draws).

(** The fake ClientHellos before the packet [q]: none, or as many as configured, each with the
    configured data. *)
Definition fake_hellos cfg (r : draws) q (acts : list action) : Prop :=
  if SNI (Faking cfg) && (0 <? SNISeqLength (Faking cfg))
  then len (sent acts) = SNISeqLength (Faking cfg) ∧ Forall (hidden cfg q) (sent acts)
    ∧ ∃ hello, fake_hello cfg r (payload_of q) = Ret hello ∧ Forall (λ f, payload_of f = hello) (sent acts)
  else acts = [].

(** The decoys after it. *)
Definition post_decoys cfg q (acts : list action) : Prop :=
  if PostDesync (Desync (TCP cfg)) then decoys q (post_plan q) acts else acts = [].

(** Where a strategy may put its overlap. *)
Definition placing_of (strategy : string) : placing :=
  if decide (strategy = "disorder"%string) then inside
  else if decide (strategy = "hybrid"%string) then anywhere else at_start.

(** How the strategies deliver the ClientHello. *)
Definition delivered cfg (r : draws) (strategy : string) q (acts : list action) : Prop :=
  if decide (strategy = "ip"%string) then ip_delivers r q acts
  else if decide (strategy = "oob"%string) then oob_delivers cfg q acts
  else if decide (strategy ∈ ["tcp"; "tls"; "extsplit"; "firstbyte"; "none"]%string) then carries q (sent acts)
  else delivers q (Fragmentation cfg) (placing_of strategy) acts.

(** What is sent in place of [p]. *)
Definition injected cfg d p (acts : list action) : Prop := ∃ q burst probing hellos core post,
  acts = burst ++ probing ++ hellos ++ core ++ post ∧ mutated p q
  ∧ decoys q (desync_plan cfg (i_desync d) q) burst
  ∧ probes q (window_plan cfg (i_window d) q) probing
  ∧ fake_hellos cfg (i_fakes d) q hellos
  ∧ delivered cfg (i_send d) (chosen_strategy cfg d) q core
  ∧ post_decoys cfg q post.

(** What is assumed of the packet, the configuration and the draws. *)
Definition inject_ok cfg d p : Prop :=
  sendable p ∧ Z.shiftr (get p 0) 4 = (if is_v6 then 6 else 4) ∧ calm p ∧ 5 < len (payload_of p)
  ∧ fakes_ok cfg p ∧ config_ok cfg ∧ oob_config cfg ∧ is_byte (ds_TTL (Desync (TCP cfg)))
  ∧ mutation_ok (SNIMutation (Faking cfg))
  ∧ Z.max (len p) MaxTCPPacketSize + overlap (Fragmentation cfg) <= 65000
  ∧ seg2delay cfg (i_send d) < 4294967296 ∧ 0 <= r_id (i_send d) < 4294967296.

Lemma mutated_seg_of p q : mutated p q →
  q = p ∨ ∃ sq, seg_of p sq (payload_of q) q ∧ 5 < len (payload_of q).
Proof. intros [[?|[? ?]] _]; eauto. Qed.

Lemma overlap_nonneg fr : 0 <= overlap fr.
Proof. unfold overlap. case_if; zlia. Qed.

Lemma calm_seg p sq dt q : captured p → calm p → seg_of p sq dt q → calm q.
Proof.
  intros Hc (H1 & H2 & H3) (_ & _ & _ & Hh & _ & Hs & Hf). pose proof (captured_range p Hc).
  unfold calm. rewrite Hh. split_and!.
  - assert (∀ x, Z.land (no_psh x) 0x20 = Z.land x 0x20) as E.
    { intros x. unfold no_psh. apply Z.bits_inj'. intros n Hn. rewrite !Z.land_spec, Z.ldiff_spec.
      change 0x20 with (2 ^ 5). change 8 with (2 ^ 3). rewrite !Z.pow2_bits_eqb by lia.
      destruct (5 =? n) eqn:E5, (3 =? n) eqn:E3; try zlia; destruct (Z.testbit x n); done. }
    by rewrite <- E, Hf, E.
  - rewrite Hs; [done|lia|]. apply not_rewritten. split_and!; [apply fields_high; lia|lia..].
  - rewrite Hs; [done|lia|]. apply not_rewritten. split_and!; [apply fields_high; lia|lia..].
Qed.

(** A mutated packet meets the assumptions again. *)
Lemma inject_ok_mutated cfg d p q : mutated p q → inject_ok cfg d p → inject_ok cfg d q ∧ hdr q = hdr p.
Proof using Rw.
  intros Hm (Hs & Hv & Hcalm & Hpl & Hfk & Hcfg & Hoob & Hds & Hmut & Hsz & Hdl & Hid).
  pose proof Hs as [Hc Ht]. pose proof Hm as [_ Hlen]. pose proof (overlap_nonneg (Fragmentation cfg)).
  pose proof (captured_range p Hc).
  destruct (mutated_seg_of p q Hm) as [->|(sq & Hq & Hlq)]; [by split_and!|].
  pose proof Hq as ((_ & Htq & _) & _ & _ & Hh & _ & Hsame & _).
  destruct (mutated_next p q Hc (version_of p Hv) ltac:(lia) Hm) as (Hcq & _). split; [|done].
  destruct Hfk as (F1 & F2 & F3 & F4 & F5).
  assert (sendable q) as Hsq by done.
  assert (Z.shiftr (get q 0) 4 = (if is_v6 then 6 else 4)) as Hvq.
  { rewrite <- Hv, (Hsame 0); [done|lia|]. apply not_rewritten. split_and!; [intros Hin%fields_low; lia|lia..]. }
  assert (calm q) as Hcq' by exact (calm_seg p _ _ q Hc Hcalm Hq).
  assert (fakes_ok cfg q) as Hfq by (split_and!; done || lia).
  do 9 (split; [done|]). split; [lia|done].
Qed.

Definition carrying : list string := ["tcp"; "tls"; "extsplit"; "firstbyte"; "none"]%string.

Lemma delivered_carries cfg r strategy q acts :
  strategy ∈ carrying → carries q (sent acts) → delivered cfg r strategy q acts.
Proof using Type.
  intros Hin H. clear Rd Rw. unfold delivered, carrying in *. rewrite !decide_False by set_solver.
  by rewrite decide_True.
Qed.

Lemma delivered_other cfg r strategy q acts :
  strategy ≠ "ip"%string → strategy ≠ "oob"%string → strategy ∉ carrying →
  delivers q (Fragmentation cfg) (placing_of strategy) acts → delivered cfg r strategy q acts.
Proof using Type. clear Rd Rw. intros. unfold delivered. by rewrite !decide_False. Qed.

Lemma wp_send_strategy cfg d strategy q : inject_ok cfg d q →
  wp (send_strategy cfg (i_send d) strategy q) (delivered cfg (i_send d) strategy q).
Proof using Rd Rw In.
  intros (Hs & Hv & Hcalm & Hpl & Hfk & Hcfg & Hoob & Hds & Hmut & Hsz & Hdl & Hid).
  pose proof Hs as [Hc Ht]. pose proof (captured_range q Hc). pose proof (overlap_nonneg (Fragmentation cfg)).
  pose proof Hc as (_ & _ & _ & Hl & _).
  assert (sendable_with q cfg) as Hsw by (split_and!; done || lia).
  assert (off q + 680 <= 65535 + len_base) as Hbig by lia.
  assert (∀ m : go (list action), strategy ∈ carrying → wp m (λ acts, carries q (sent acts)) →
    wp m (delivered cfg (i_send d) strategy q)) as Hcar.
  { intros m Hin Hm. eapply wp_mono; [exact Hm|]. intros acts. by apply delivered_carries. }
  assert (∀ m : go (list action), strategy ≠ "ip"%string → strategy ≠ "oob"%string → strategy ∉ carrying →
    wp m (delivers q (Fragmentation cfg) (placing_of strategy)) → wp m (delivered cfg (i_send d) strategy q)) as Hoth.
  { intros m H1 H2 H3 Hm. eapply wp_mono; [exact Hm|]. intros acts. by apply delivered_other. }
  unfold send_strategy, carrying in *.
  case_bool_decide; [apply Hcar; [set_solver|apply wp_sendTCPFragments; [done|lia]]|].
  case_bool_decide.
  { eapply wp_mono; [apply ip_law; done || lia|]. intros acts Ha. unfold delivered. by rewrite decide_True. }
  case_bool_decide.
  { eapply wp_mono; [by apply wp_sendOOB|]. intros acts Ha. unfold delivered. by rewrite decide_False, decide_True. }
  case_bool_decide; [apply Hcar; [set_solver|apply wp_sendTLSFragments; [done|lia]]|].
  case_bool_decide; [apply Hoth; [done|done|set_solver|unfold placing_of; rewrite decide_True by done; by apply wp_Disorder]|].
  case_bool_decide; [apply Hcar; [set_solver|by apply wp_ExtSplit]|].
  case_bool_decide; [apply Hcar; [set_solver|by apply wp_FirstByte]|].
  case_bool_decide; [apply Hoth; [done|done|set_solver|unfold placing_of; rewrite !decide_False by (done || congruence); by apply wp_Combo]|].
  case_bool_decide; [apply Hoth; [done|done|set_solver|unfold placing_of; rewrite decide_False, decide_True by done; by apply wp_Hybrid]|].
  case_bool_decide; [apply Hcar; [unfold ConfigNone in *; set_solver|by apply wp_ret, carries_whole]|].
  apply Hoth; [done|done|unfold ConfigNone in *; set_solver|unfold placing_of; rewrite !decide_False by done; by apply wp_Combo].
Qed.

Lemma decoys_off cfg r q : ds_Mode (Desync (TCP cfg)) = ConfigOff → decoys q (desync_plan cfg r q) [].
Proof. intros E. unfold desync_plan. rewrite decide_True by done. constructor. Qed.
Lemma probes_off cfg r q : w_Mode (Win (TCP cfg)) = ConfigOff → probes q (window_plan cfg r q) [].
Proof. intros E. unfold window_plan. rewrite decide_True by done. constructor. Qed.

Lemma wp_before cfg d q : inject_ok cfg d q → ∀ (k : list action → list action → list action → go (list action)) Q,
  (∀ a1 a2 a3, decoys q (desync_plan cfg (i_desync d) q) a1 → probes q (window_plan cfg (i_window d) q) a2 →
     fake_hellos cfg (i_fakes d) q a3 → wp (k a1 a2 a3) Q) →
  wp (let! a1 := (if bool_decide (ds_Mode (Desync (TCP cfg)) = ConfigOff) then Ret []
                  else let! acts := ExecuteDesync cfg (i_desync d) q in
                       Ret (acts ++ [Sleep (seg2delay cfg (i_desync d) * millisecond)])) in
      let! a2 := (if bool_decide (w_Mode (Win (TCP cfg)) = ConfigOff) then Ret []
                  else ManipulateWindow cfg (i_window d) q) in
      let! a3 := (if SNI (Faking cfg) && (0 <? SNISeqLength (Faking cfg))
                  then sendFakeSNISequence cfg (i_fakes d) q else Ret []) in
      k a1 a2 a3) Q.
Proof using Rd Rw.
  intros (Hs & Hv & Hcalm & Hpl & Hfk & Hcfg & Hoob & Hds & Hmut & Hsz & Hdl & Hid) k Q Hk.
  pose proof Hs as [Hc Ht].
  wp_step. apply (wp_mono _ (decoys q (desync_plan cfg (i_desync d) q))).
  { case_bool_decide as E; [by apply wp_ret, decoys_off|]. wp_step. eapply wp_mono; [by apply wp_ExecuteDesync|].
    intros acts Ha. apply wp_ret. unfold decoys in *. rewrite sent_app. cbn. by rewrite app_nil_r. }
  intros a1 H1. wp_step. apply (wp_mono _ (probes q (window_plan cfg (i_window d) q))).
  { case_bool_decide as E; [by apply wp_ret, probes_off|]. by apply wp_ManipulateWindow. }
  intros a2 H2. wp_step. apply (wp_mono _ (fake_hellos cfg (i_fakes d) q)).
  { unfold fake_hellos. wp_step; [|by apply wp_ret]. bprop. by apply wp_sendFakes_hidden. }
  intros a3 H3. by apply Hk.
Qed.

Lemma wp_inject cfg d p : inject_ok cfg d p → wp (dropAndInjectTCP cfg d p) (injected cfg d p).
Proof using Rd Rw In.
  intros Hok. pose proof Hok as ([Hc Ht] & Hv & _ & Hpl & Hfk & Hcfg & _ & _ & Hmut & Hsz & _).
  pose proof (captured_range p Hc). pose proof (min_len_law p Hc). pose proof (overlap_nonneg (Fragmentation cfg)).
  unfold dropAndInjectTCP. wp_step; [zlia|]. rewrite headers_law by done. cbn [go_bind]. cbv zeta.
  rewrite payload_len in Hpl by done. wp_step; [zlia|]. wp_step. apply (wp_mono _ (mutated p)).
  { wp_step; [apply wp_ret, mutated_refl|]. apply wp_Mutate; [done|by apply version_of|lia|done]. }
  intros q Hm. destruct (inject_ok_mutated cfg d p q Hm Hok) as [Hq Hh].
  apply wp_before; [done|]. intros a1 a2 a3 Hb Hpr Hf. wp_step. eapply wp_mono; [by apply wp_send_strategy|].
  intros a4 Ha4. wp_step. apply (wp_mono _ (post_decoys cfg q)).
  { unfold post_decoys. wp_step; [|by apply wp_ret]. wp_step. rewrite <- Hh. pose proof Hq as ([Hcq _] & _).
    eapply wp_mono; [apply post_law; [done|by destruct Hfk as (_ & _ & _ & ? & _)]|].
    intros acts Ha. by apply wp_ret. }
  intros a5 Ha5. apply wp_ret. by exists q, a1, a2, a3, a4, a5.
Qed.
End inject.

(** C1: What the queue worker sends in place of a captured ClientHello, in this order: the burst
    of decoys and the window probes that the configuration plans; the configured number of
    fake ClientHellos; the packet, possibly mutated, delivered as the chosen strategy promises;
    and the decoys afterwards.  This holds, without a panic, for every strategy, strategy pool
    and draw, for a valid packet that has more than 5 bytes of payload, no urgent data, and
    room for the configured overlap and fakes below 65000 bytes, and for a configuration with
    bytes where bytes are meant and with counts of mutations that are not negative. *)
Theorem dropAndInjectTCP_delivers {F : Family} {R : Receiver} {Rd : Reader} {Rw : Rewriter}
    {I : Injector} {In : Injects} (cfg : SetConfig) (d : inject_draws) (p : bytes) :
  inject_ok cfg d p → wp (dropAndInjectTCP cfg d p) (injected cfg d p).
Proof. apply wp_inject. Qed.

(** ** Witnesses *)

Definition inject_cfg : SetConfig :=
  set_demo tcp_demo udp_demo frag_demo
     {| SNI := true; FakingTTL := 5; f_Strategy := "ttl"; SeqOffset := 10000; SNISeqLength := 2;
       SNIType := FakePayloadDefault1; CustomPayload := []; PayloadFile := ""; PayloadDomain := ""; PayloadData := []; TLSMod := []; TimestampDecrease := 0;
       TCPMD5 := false; SNIMutation := mut_cfg "grease" |}.
Definition inject_demo : inject_draws :=
  {| i_mutate := mut_draws; i_desync := draws_demo; i_window := draws_demo; i_fakes := draws_demo; i_pool := 0;
     i_send := draws_demo |}.

Lemma inject_ok_demo : @inject_ok IPv6 _ inject_cfg inject_demo ch6_demo.
Proof.
  split; [split; [exact captured_ch6|vmc]|]. split; [vmc|]. split; [vmc|]. split; [vmc|].
  split; [split_and!; [split; constructor|vmc|vmc|vmc|vmc]|].
  split; [split_and!; [by apply bytes_okb_spec|split; constructor|vmc]|].
  split; [vmc|]. split; [vmc|]. split; [split; [constructor; [by apply bytes_okb_spec|constructor]|vmc]|]. vmc.
Qed.

Lemma dropAndInjectTCP_delivers_witness :
  wp (dropAndInjectTCPv6 inject_cfg inject_demo ch6_demo) (λ acts, ∃ q before hellos core after,
    acts = before ++ hellos ++ core ++ after ∧ @mutated IPv6 _ ch6_demo q ∧ len (sent hellos) = 2
    ∧ @delivers IPv6 _ q frag_demo at_start core ∧ length (sent after) = 1%nat).
Proof.
  eapply wp_mono; [exact (dropAndInjectTCP_delivers (In := Injects6) inject_cfg inject_demo ch6_demo inject_ok_demo)|].
  intros acts (q & b & pr & h & c & post & H1 & H2 & _ & _ & (H3 & _) & H4 & H5). exists q, (b ++ pr), h, c, post.
  rewrite <- app_assoc. split; [exact H1|]. split; [exact H2|].
  split; [exact H3|]. split; [exact H4|]. apply Forall2_length in H5. by rewrite <- H5.
Defined.
