(* ===== verification/Quic.v ===== *)
(** * QUIC Initial packets: package [quic]

    src/src/quic/{sniff,parse,initial,locate}.go.  The key schedule and the two
    ciphers (HKDF, AES and AES-GCM of Go's crypto packages) are parameters: the
    header-protection mask of a sample, the IV, and AEAD opening, each a function
    of the connection ID and version.  Go's [int] has the width of the [Target]: the
    routines that convert a 62-bit varint to [int] are defined for every width, and the
    rest of the development is about targets of 64 bits; [locateSNIInCrypto_total] and
    [DecryptInitial_int32_panics] show what happens on those of 32. *)

From Stdlib Require Import ZArith Lia.
From stdpp Require Import base list numbers.
From S2P Require Import Prelude.
From S2P Require Import Tls.

Local Open Scope Z_scope.

(** ** Go's [int]

    [int_of] is the conversion to [int], and what a sum of [int]s wraps to. *)
Class Target := int_bits : Z.
Definition int_of {Tg : Target} (v : Z) : Z :=
  let u := v mod 2 ^ int_bits in if u <? 2 ^ (int_bits - 1) then u else u - 2 ^ int_bits.

(** The targets of the Makefile: amd64, arm64 and others; 386, arm and mips. *)
Definition bits32 : Target := 32.
#[export] Instance bits64 : Target := 64.

Lemma int_of_64 (v : Z) : - 2 ^ 63 <= v < 2 ^ 63 → int_of v = v.
Proof.
  intros Hv. unfold int_of, int_bits, bits64. change (64 - 1) with 63. change (2 ^ 64) with (2 * 2 ^ 63) in *.
  set (m := 2 ^ 63) in *. assert (0 < m) by (unfold m; lia). clearbody m.
  destruct (decide (0 <= v)).
  - rewrite Z.mod_small by lia. zcases. done.
  - rewrite <- (Z.mod_add v 1) by lia. rewrite Z.mod_small by lia. zcases. lia.
Qed.
(** Values that do not overflow. *)
Lemma int_of_small (v : Z) : - 2 ^ 62 <= v < 2 ^ 62 + 2 ^ 62 → int_of v = v.
Proof. intros. apply int_of_64. lia. Qed.

(** ** Variable-length integers *)

(** [for i := 1; i < ln; i++ { v = v<<8 | uint64(b[i]) }] *)
Fixpoint var_loop (fuel : nat) (b : bytes) (ln i v : Z) : go Z :=
  match fuel with
  | O => Spin
  | S f =>
      if i <? ln
      then
        let! x := idx b i in
        var_loop f b ln (i + 1) (Z.lor (Z.shiftl v 8) x)
      else Ret v
  end.

(** Returns the value and the number of bytes read, 0 on truncation. *)
Definition readVar (b : bytes) : go (Z * Z) :=
  if len b =? 0 then Ret (0, 0) else
  let! b0 := idx b 0 in
  let ln := Z.shiftl 1 (Z.shiftr b0 6) in
  if len b <? ln then Ret (0, 0) else
  let! v := var_loop 9 b ln 1 (Z.land b0 63) in
  Ret (v, ln).

Definition readVarint (b : bytes) : go (Z * Z) :=
  if len b =? 0 then Ret (0, 0) else
  let! b0 := idx b 0 in
  let prefix := Z.shiftr b0 6 in
  let l := Z.shiftl 1 prefix in
  if len b <? l then Ret (0, 0) else
  let! val := var_loop 9 b l 1 (Z.land b0 63) in
  Ret (val, l).

(** ** Header parsing *)

Definition versionV1 : Z := 1.
Definition versionV2 : Z := 1798521807.

Definition IsInitial (b : bytes) : go bool :=
  if len b <? 7 then Ret false else
  let! b0 := idx b 0 in
  if Z.land b0 128 =? 0 then Ret false else
  let ptype := Z.shiftr (Z.land b0 48) 4 in
  let! ver := be32 b 1 in
  if ver =? versionV1 then Ret (ptype =? 0)
  else if ver =? versionV2 then Ret (ptype =? 1)
  else Ret false.

Definition LooksLikeQUIC (b : bytes) : go bool :=
  if len b <? 7 then Ret false else
  let! b0 := idx b 0 in
  if negb (Z.land b0 192 =? 192) then Ret false else
  let off := 1 + 4 in
  if len b <? off + 1 then Ret false else
  let! dlen := idx b off in
  let off := off + 1 in
  if (20 <? dlen) || (len b <? off + dlen + 1) then Ret false else
  let off := off + dlen in
  let! slen := idx b off in
  let off := off + 1 in
  if (20 <? slen) || (len b <? off + slen) then Ret false else
  Ret true.

Definition ParseDCID (b : bytes) : go (option bytes) :=
  if len b <? 7 then Ret None else
  let! b0 := idx b 0 in
  if Z.land b0 128 =? 0 then Ret None else
  let off := 1 + 4 in
  let! dlen := idx b off in
  let off := off + 1 in
  if len b <? off + dlen then Ret None else
  let! d := slice b off (off + dlen) in
  Ret (Some d).

(** [None] is the "truncated" error; otherwise [(dstLen, srcLen, off)]. *)
Definition cidLens (b : bytes) : go (option (Z * Z * Z)) :=
  if len b <? 1 then Ret None else
  let! dstLen := idx b 0 in
  let off := 1 in
  if len b <? off + dstLen + 1 then Ret None else
  let off := off + dstLen in
  let! srcLen := idx b off in
  let off := off + 1 in
  if len b <? off + srcLen then Ret None else
  let off := off + srcLen in
  Ret (Some (dstLen, srcLen, off)).

Fixpoint extract_loop (fuel : nat) (payload : bytes) : go (option bytes) :=
  match fuel with
  | O => Spin
  | S f =>
      if 0 <? len payload
      then
        let! (ftype, n) := readVar payload in
        if n =? 0 then Ret None else
        let! payload := slice_from payload n in
        if negb (ftype =? 6)
        then
          let! (_, m) := readVar payload in
          if m =? 0 then Ret None else
          let! rest := slice_from payload m in
          let! (length, k) := readVar rest in
          if k =? 0 then Ret None else
          let total := m + k + length in
          if len payload <? total then Ret None else
          let! payload := slice_from payload total in
          extract_loop f payload
        else
          let! (_, m) := readVar payload in
          if m =? 0 then Ret None else
          let! rest := slice_from payload m in
          let! (length, k) := readVar rest in
          if k =? 0 then Ret None else
          let dataStart := m + k in
          if len payload <? dataStart + length then Ret None else
          let! d := slice payload dataStart (dataStart + length) in
          Ret (Some d)
      else Ret None
  end.

Definition ExtractCrypto (initial : bytes) : go (option bytes) :=
  let! ini := IsInitial initial in
  if negb ini then Ret None else
  let! rest := slice_from initial 6 in
  let! lens := cidLens rest in
  match lens with
  | None => Ret None
  | Some (_, _, skip) =>
      let! payload := slice_from initial (6 + skip) in
      extract_loop (S (length payload)) payload
  end.

(** ** Decryption *)
Section crypto.
Context {Tg : Target}.
(** What [deriveInitial] and [deriveHP] set up for a connection ID and version:
    [hp.Encrypt] of a sample, the IV, and [aead.Open(nil, nonce, ct, aad)]. *)
Context (hp_encrypt : bytes → Z → bytes → bytes).
Context (initial_iv : bytes → Z → bytes).
Context (aead_open : bytes → Z → bytes → bytes → bytes → option bytes).

(** The version switch of the two derivations. *)
Definition known_version (ver : Z) : bool := (ver =? versionV1) || (ver =? versionV2).

(** [for i := 0; i < pnLen; i++]: the packet number is unmasked. *)
Fixpoint unmask_pn (fuel : nat) (packet mask : bytes) (pnOff pnLen i : Z) (pnBytes : bytes)
    : go bytes :=
  match fuel with
  | O => Spin
  | S f =>
      if i <? pnLen
      then
        let! x := idx packet (pnOff + i) in
        let! k := idx mask (1 + i) in
        let! pnBytes := upd pnBytes i (Z.lxor x k) in
        unmask_pn f packet mask pnOff pnLen (i + 1) pnBytes
      else Ret pnBytes
  end.

(** [nonce[len(nonce)-pnLen+i] ^= pnBytes[i]] *)
Fixpoint xor_nonce (fuel : nat) (nonce pnBytes : bytes) (pnLen i : Z) : go bytes :=
  match fuel with
  | O => Spin
  | S f =>
      if i <? pnLen
      then
        let! x := idx nonce (len nonce - pnLen + i) in
        let! k := idx pnBytes i in
        let! nonce := upd nonce (len nonce - pnLen + i) (Z.lxor x k) in
        xor_nonce f nonce pnBytes pnLen (i + 1)
      else Ret nonce
  end.

(** The numeric packet number, which the code computes and does not use, is left
    out. *)
Definition DecryptInitial (dcid packet : bytes) : go (option bytes) :=
  if len packet <? 7 then Ret None else
  let! b0 := idx packet 0 in
  if Z.land b0 128 =? 0 then Ret None else
  let! ver := be32 packet 1 in
  if negb (known_version ver) then Ret None else
  let iv := initial_iv dcid ver in
  let off := 1 + 4 in
  if len packet <? off + 1 then Ret None else
  let! dlen := idx packet off in
  let off := off + 1 in
  if len packet <? off + dlen + 1 then Ret None else
  let off := off + dlen in
  let! slen := idx packet off in
  let off := off + 1 in
  if len packet <? off + slen then Ret None else
  let off := off + slen in
  let! rest := slice_from packet off in
  let! (tlen, n) := readVar rest in
  if (n =? 0) || (len packet <? int_of (off + n + int_of tlen)) then Ret None else
  let off := int_of (off + (n + int_of tlen)) in
  let! rest := slice_from packet off in
  let! (_, m) := readVar rest in
  if m =? 0 then Ret None else
  let pnOff := off + m in
  if len packet <? pnOff + 4 + 16 then Ret None else
  let! sample := slice packet (pnOff + 4) (pnOff + 4 + 16) in
  let mask := hp_encrypt dcid ver sample in
  let! mask0 := idx mask 0 in
  let first := Z.lxor b0 (Z.land mask0 15) in
  let pnLen := Z.land first 3 + 1 in
  if len packet <? pnOff + pnLen then Ret None else
  let! pnBytes := make 4 in
  let! pnBytes := unmask_pn 5 packet mask pnOff pnLen 0 pnBytes in
  let! aad := make (pnOff + pnLen) in
  let! hdr := slice packet 0 pnOff in
  let! aad := copy_from aad 0 hdr in
  let! aad := upd aad 0 first in
  let! pns := slice pnBytes 0 pnLen in
  let! aad := copy_from aad pnOff pns in
  let! nonce := xor_nonce 5 iv pnBytes pnLen 0 in
  let! ct := slice_from packet (pnOff + pnLen) in
  Ret (aead_open dcid ver nonce ct aad).

(** Returns [(headerLen, pnLen, ok)]. *)
Definition parseHeaderLength (packet : bytes) : go (Z * Z * bool) :=
  let fail := Ret (0, 0, false) in
  if len packet <? 7 then fail else
  let off := 1 + 4 in
  if len packet <? off + 1 then fail else
  let! dlen := idx packet off in
  let off := off + 1 in
  if len packet <? off + dlen then fail else
  let! dcid := slice packet off (off + dlen) in
  let off := off + dlen in
  if len packet <? off + 1 then fail else
  let! slen := idx packet off in
  let off := off + 1 in
  if len packet <? off + slen then fail else
  let off := off + slen in
  let! rest := slice_from packet off in
  let! (tlen, n) := readVar rest in
  if n =? 0 then fail else
  let off := int_of (off + (n + int_of tlen)) in
  let! rest := slice_from packet off in
  let! (_, m) := readVar rest in
  if m =? 0 then fail else
  let pnOff := off + m in
  if len packet <? pnOff + 4 + 16 then fail else
  let! ver := be32 packet 1 in
  if negb (known_version ver) then Ret (pnOff, 2, true) else
  let! sample := slice packet (pnOff + 4) (pnOff + 4 + 16) in
  let mask := hp_encrypt dcid ver sample in
  let! b0 := idx packet 0 in
  let! mask0 := idx mask 0 in
  let first := Z.lxor b0 (Z.land mask0 15) in
  let pnLen := Z.land first 3 + 1 in
  Ret (pnOff, pnLen, true).

(** ** Locating the server name *)

Fixpoint locate_ext (fuel : nat) (ch : bytes) (extEnd pos : Z) : go (Z * Z) :=
  match fuel with
  | O => Spin
  | S f =>
      if pos + 4 <=? extEnd
      then
        let! extType := be16 ch pos in
        let! extDataLen := be16 ch (pos + 2) in
        let pos := pos + 4 in
        if extEnd <? pos + extDataLen then Ret (-1, 0) else
        if extType =? 0
        then
          if extDataLen <? 5 then Ret (-1, 0) else
          let! nameLen := be16 ch (pos + 3) in
          let nameStart := pos + 5 in
          if pos + extDataLen <? nameStart + nameLen then Ret (-1, 0) else
          Ret (nameStart, nameLen)
        else locate_ext f ch extEnd (pos + extDataLen)
      else Ret (-1, 0)
  end.

Definition locateSNIInClientHello (ch : bytes) : go (Z * Z) :=
  let fail := Ret (-1, 0) in
  if len ch <? 4 then fail else
  let! c0 := idx ch 0 in
  if negb (c0 =? 1) then fail else
  let pos := 4 in
  if len ch <? pos + 34 then fail else
  let pos := pos + 34 in
  if len ch <=? pos then fail else
  let! sidLen := idx ch pos in
  let pos := pos + 1 in
  let pos := pos + sidLen in
  if len ch <? pos + 2 then fail else
  let! csLen := be16 ch pos in
  let pos := pos + (2 + csLen) in
  if len ch <=? pos then fail else
  let! compLen := idx ch pos in
  let pos := pos + 1 in
  let pos := pos + compLen in
  if len ch <? pos + 2 then fail else
  let! extLen := be16 ch pos in
  let pos := pos + 2 in
  let extEnd := pos + extLen in
  let extEnd := if len ch <? extEnd then len ch else extEnd in
  locate_ext (S (length ch)) ch extEnd pos.

Fixpoint locate_frames (fuel : nat) (plain : bytes) (pos : Z) : go (Z * Z) :=
  match fuel with
  | O => Spin
  | S f =>
      if pos <? len plain
      then
        let! t := idx plain pos in
        if t =? 0 then locate_frames f plain (pos + 1) else
        if t =? 1 then locate_frames f plain (pos + 1) else
        if negb (t =? 6) then Ret (-1, 0) else
        let pos := pos + 1 in
        let! rest := slice_from plain pos in
        let! (cryptoOff, n) := readVar rest in
        if n =? 0 then Ret (-1, 0) else
        let pos := pos + n in
        let! rest := slice_from plain pos in
        let! (cryptoLen, n) := readVar rest in
        if n =? 0 then Ret (-1, 0) else
        let pos := pos + n in
        let cryptoDataStart := pos in
        let stop := int_of (pos + int_of cryptoLen) in
        if len plain <? stop then Ret (-1, 0) else
        let! cryptoData := slice plain pos stop in
        let! (o, sniLen) := locateSNIInClientHello cryptoData in
        if (0 <=? o) && (cryptoOff =? 0) then Ret (cryptoDataStart + o, sniLen)
        else locate_frames f plain stop
      else Ret (-1, 0)
  end.

Definition locateSNIInCrypto (plain : bytes) : go (Z * Z) :=
  locate_frames (S (length plain)) plain 0.

Definition LocateSNIOffset (packet : bytes) : go (Z * Z) :=
  let! ini := IsInitial packet in
  if negb ini then Ret (-1, 0) else
  let! (headerLen, pnLen, ok) := parseHeaderLength packet in
  if negb ok then Ret (-1, 0) else
  let! dcid := ParseDCID packet in
  match dcid with
  | None => Ret (-1, 0)
  | Some dcid =>
      let! plain := DecryptInitial dcid packet in
      match plain with
      | None => Ret (-1, 0)
      | Some plain =>
          let! (o, sniLen) := locateSNIInCrypto plain in
          if o <? 0 then Ret (-1, 0) else Ret (headerLen + pnLen + o, sniLen)
      end
  end.
End crypto.

(** ** Varints *)

(** Big-endian accumulation, and the [n] big-endian bytes of a value. *)
Definition acc_be (v : Z) (l : bytes) : Z := fold_left (λ v x, v * 256 + x) l v.

Fixpoint be_bytes (n : nat) (v : Z) : bytes :=
  match n with
  | O => []
  | S n => u8 (Z.shiftr v (8 * Z.of_nat n)) :: be_bytes n v
  end.

Lemma acc_be_cons (a x : Z) (l : bytes) : acc_be a (x :: l) = acc_be (a * 256 + x) l.
Proof. done. Qed.

Lemma be_bytes_len (n : nat) (v : Z) : length (be_bytes n v) = n.
Proof. induction n; cbn; [done|by f_equal]. Qed.

Lemma be_bytes_ok (n : nat) (v : Z) : bytes_ok (be_bytes n v).
Proof. induction n; cbn; auto with b4. Qed.

Lemma acc_be_bytes (n : nat) (a v : Z) :
  acc_be a (be_bytes n v) = a * 256 ^ Z.of_nat n + v mod 256 ^ Z.of_nat n.
Proof.
  revert a. induction n as [|n IH]; intros a.
  { cbn. rewrite Z.mod_1_r. lia. }
  cbn [be_bytes]. rewrite acc_be_cons, IH. unfold u8. rewrite Z.shiftr_div_pow2 by lia.
  rewrite (Z.pow_mul_r 2 8) by lia. change (2 ^ 8) with 256.
  replace (Z.of_nat (S n)) with (Z.of_nat n + 1) by lia.
  rewrite Z.pow_add_r by lia. change (256 ^ 1) with 256.
  set (B := 256 ^ Z.of_nat n). assert (0 < B) by (unfold B; lia).
  rewrite (Z.rem_mul_r v B 256) by lia. lia.
Qed.

Lemma acc_be_range (n : nat) (a b : Z) (l : bytes) :
  bytes_ok l → length l = n → 0 <= a < 2 ^ b → 0 <= b →
  0 <= acc_be a l < 2 ^ (b + 8 * Z.of_nat n).
Proof.
  revert a b l. induction n as [|n IH]; intros a b [|x l] Hok Hl Ha Hb; try done.
  { cbn. by rewrite Z.add_0_r. }
  apply Forall_cons_1 in Hok as [Hx Hok]. rewrite acc_be_cons.
  replace (b + 8 * Z.of_nat (S n)) with (b + 8 + 8 * Z.of_nat n) by lia.
  apply IH; [done|by injection Hl| |lia].
  rewrite Z.pow_add_r by lia. change (2 ^ 8) with 256. unfold is_byte in Hx. nia.
Qed.

(** The byte loop accumulates. *)
Lemma wp_var_loop (fuel : nat) (b : bytes) (ln i v : Z) Q :
  bytes_ok b → 0 <= i → i <= ln → ln <= len b → ln - i < Z.of_nat fuel → 0 <= v →
  Q (acc_be v (sub b i ln)) → wp (var_loop fuel b ln i v) Q.
Proof.
  intros Hok. revert i v. induction fuel as [|f IH]; intros i v Hi Hil Hln Hf Hv HQ; [lia|].
  cbn [var_loop]. destruct (i <? ln) eqn:E.
  - wp_step. wp_step. pose proof (bytes_ok_get b i Hok) as Hb. unfold is_byte in Hb.
    rewrite lor_shiftl_add by lia. change (2 ^ 8) with 256.
    apply IH; try zlia. rewrite sub_cons in HQ by zlia. exact HQ.
  - assert (i = ln) as -> by zlia. apply wp_ret. by rewrite sub_nil in HQ.
Qed.

(** The length class in the top two bits of the first byte. *)
Lemma var_class (b0 : Z) : is_byte b0 →
  let ln := Z.shiftl 1 (Z.shiftr b0 6) in
  (ln = 1 ∨ ln = 2 ∨ ln = 4 ∨ ln = 8) ∧ 0 <= Z.land b0 63 < 64.
Proof.
  unfold is_byte. intros Hb. cbn zeta. split.
  - rewrite Z.shiftr_div_pow2 by lia. change (2 ^ 6) with 64.
    assert (b0 / 64 = 0 ∨ b0 / 64 = 1 ∨ b0 / 64 = 2 ∨ b0 / 64 = 3) as Hc
      by (Z.div_mod_to_equations; lia).
    destruct Hc as [->|[->|[->| ->]]]; vm_compute; tauto.
  - change 63 with (Z.ones 6). rewrite Z.land_ones by lia. apply Z.mod_pos_bound. lia.
Qed.

Definition var_result (b : bytes) (r : Z * Z) : Prop :=
  r = (0, 0) ∨ (r.2 = 1 ∨ r.2 = 2 ∨ r.2 = 4 ∨ r.2 = 8) ∧ r.2 <= len b ∧ 0 <= r.1 < 2 ^ 62.

Lemma wp_readVar (b : bytes) : bytes_ok b → wp (readVar b) (var_result b).
Proof.
  intros Hok. unfold readVar. wp_step; [by apply wp_ret; left|]. wp_step. wp_step.
  destruct (var_class (get b 0) (bytes_ok_get b 0 Hok)) as [Hln Hlow]. cbv zeta in *.
  set (ln := Z.shiftl 1 _) in *. wp_step; [by apply wp_ret; left|].
  wp_step. apply wp_var_loop; [done|lia|lia|zlia|lia|lia|]. apply wp_ret. right.
  cbn [fst snd]. split; [done|]. split; [zlia|].
  pose proof (acc_be_range (Z.to_nat (ln - 1)) (Z.land (get b 0) 63) 6 (sub b 1 ln)) as Hr.
  destruct Hr as [H1 H2]; [auto with b4|apply Nat2Z.inj; rewrite len_sub, Z2Nat.id by zlia; lia|lia|lia|].
  split; [lia|].
  eapply Z.lt_le_trans; [exact H2|]. apply Z.pow_le_mono_r; lia.
Qed.

(** The encoding of RFC 9000, section 16, in the class [k] (1, 2, 4 or 8 bytes). *)
Definition enc_var (k : nat) (v : Z) : bytes :=
  let n := (2 ^ k - 1)%nat in
  be_bytes (S n) (Z.of_nat k * 64 * 256 ^ Z.of_nat n + v).

Lemma enc_var_len (k : nat) (v : Z) : len (enc_var k v) = Z.of_nat (2 ^ k).
Proof.
  unfold enc_var. rewrite be_bytes_len. pose proof (Nat.pow_nonzero 2 k). lia.
Qed.

Lemma enc_var_ok (k : nat) (v : Z) : bytes_ok (enc_var k v).
Proof. apply be_bytes_ok. Qed.
#[local] Hint Resolve enc_var_ok : b4.
Ltac bytes_app :=
  repeat lazymatch goal with |- bytes_ok (_ ++ _) => apply bytes_ok_app; split end; auto with b4.

(** The first byte holds the class and the top six bits. *)
Lemma enc_var_head (k n : nat) (v : Z) :
  (k < 4)%nat → 0 <= v < 64 * 256 ^ Z.of_nat n →
  let b0 := u8 (Z.shiftr (Z.of_nat k * 64 * 256 ^ Z.of_nat n + v) (8 * Z.of_nat n)) in
  b0 = Z.of_nat k * 64 + v / 256 ^ Z.of_nat n
  ∧ Z.shiftr b0 6 = Z.of_nat k ∧ Z.land b0 63 = v / 256 ^ Z.of_nat n.
Proof.
  intros Hk Hv b0. set (B := 256 ^ Z.of_nat n) in *. assert (0 < B) by (unfold B; lia).
  assert (0 <= v / B < 64) as Hq.
  { split; [apply Z.div_pos; lia|]. apply Z.div_lt_upper_bound; lia. }
  assert (b0 = Z.of_nat k * 64 + v / B) as Hb0.
  { unfold b0, u8. rewrite Z.shiftr_div_pow2, (Z.pow_mul_r 2 8) by lia. change (2 ^ 8) with 256.
    fold B. rewrite Z.add_comm, Z.div_add, Z.mod_small by lia. lia. }
  split; [done|]. rewrite Hb0. split.
  - rewrite Z.shiftr_div_pow2 by lia. change (2 ^ 6) with 64. Z.div_mod_to_equations. lia.
  - change 63 with (Z.ones 6). rewrite Z.land_ones by lia. change (2 ^ 6) with 64.
    rewrite Z.add_comm, Z.mod_add by lia. by apply Z.mod_small.
Qed.

Lemma var_62 (k : nat) (v : Z) : (k < 4)%nat → v < 2 ^ (8 * Z.of_nat (2 ^ k) - 2) → v < 2 ^ 62.
Proof. intros Hk. destruct k as [|[|[|[|?]]]]; [cbn; lia..|lia]. Qed.

Lemma pow2_8 (k : nat) : (k < 4)%nat → 1 <= Z.of_nat (2 ^ k) <= 8.
Proof. intros Hk. destruct k as [|[|[|[|?]]]]; [cbn; lia..|lia]. Qed.

Lemma readVar_enc (k : nat) (v : Z) (r : bytes) :
  (k < 4)%nat → 0 <= v < 2 ^ (8 * Z.of_nat (2 ^ k) - 2) → bytes_ok r →
  readVar (enc_var k v ++ r) = Ret (v, Z.of_nat (2 ^ k)).
Proof.
  intros Hk Hv Hr. unfold enc_var. set (n := (2 ^ k - 1)%nat).
  assert (S n = 2 ^ k)%nat as Hn by (unfold n; pose proof (Nat.pow_nonzero 2 k); lia).
  assert (0 <= v < 64 * 256 ^ Z.of_nat n) as Hv'.
  { replace (8 * Z.of_nat (2 ^ k) - 2) with (6 + 8 * Z.of_nat n) in Hv by lia.
    rewrite Z.pow_add_r, (Z.pow_mul_r 2 8) in Hv by lia. exact Hv. }
  set (W := Z.of_nat k * 64 * 256 ^ Z.of_nat n + v). cbn [be_bytes].
  destruct (enc_var_head k n v Hk Hv') as (_ & Hcls & Hlow). fold W in Hcls, Hlow.
  set (b0 := u8 (Z.shiftr W (8 * Z.of_nat n))) in *. rewrite <- app_comm_cons.
  set (l := b0 :: be_bytes n W ++ r).
  assert (len l = Z.of_nat (2 ^ k) + len r) as Hl.
  { unfold l. len_simp. rewrite be_bytes_len. lia. }
  unfold readVar. destruct (len l =? 0) eqn:E; [zlia|].
  rewrite (at_pos_idx l 0 b0 _ (at_pos_start _)). cbn [go_bind].
  rewrite Hcls, Hlow. rewrite Z.shiftl_mul_pow2, Z.mul_1_l by lia.
  replace (2 ^ Z.of_nat k) with (Z.of_nat (2 ^ k)) by (by rewrite Nat2Z.inj_pow).
  destruct (len l <? Z.of_nat (2 ^ k)) eqn:E1; [zlia|].
  enough (var_loop 9 l (Z.of_nat (2 ^ k)) 1 (v / 256 ^ Z.of_nat n) = Ret v) as -> by done.
  assert (wp (var_loop 9 l (Z.of_nat (2 ^ k)) 1 (v / 256 ^ Z.of_nat n)) (λ x, x = v)) as Hwp.
  2:{ apply wp_iff in Hwp as (x & -> & ->). done. }
  assert (2 ^ k <= 8)%nat by (destruct k as [|[|[|[|k]]]]; cbn; lia).
  apply wp_var_loop; try lia.
  { unfold l. apply bytes_ok_cons; [apply is_byte_u8|]. apply bytes_ok_app.
    split; [apply be_bytes_ok|done]. }
  { apply Z.div_pos; lia. }
  assert (sub l 1 (Z.of_nat (2 ^ k)) = be_bytes n W) as ->.
  { unfold sub, l. rewrite <- Hn. change (Z.to_nat 1) with 1%nat. cbn [drop].
    replace (Z.to_nat (Z.of_nat (S n) - 1)) with (length (be_bytes n W))
      by (rewrite be_bytes_len; lia). apply take_app_length. }
  rewrite acc_be_bytes. unfold W. rewrite (Z.add_comm _ v), Z.mod_add by lia.
  pose proof (Z.div_mod v (256 ^ Z.of_nat n) ltac:(lia)). lia.
Qed.

(** Reading a QUIC variable-length integer, encoded in any of the four length
    classes and followed by anything, gives back the value and the number of
    bytes of its encoding. *)
Theorem readVar_roundtrip (k : nat) (v : Z) (r : bytes) :
  (k < 4)%nat → 0 <= v < 2 ^ (8 * Z.of_nat (2 ^ k) - 2) → bytes_ok r →
  readVar (enc_var k v ++ r) = Ret (v, Z.of_nat (2 ^ k)).
Proof. apply readVar_enc. Qed.

Lemma readVar_roundtrip_witness : readVar (enc_var 1 300 ++ [9]) = Ret (300, 2).
Proof.
  apply (readVar_roundtrip 1 300 [9]); [lia|vmc|by apply bytes_okb_spec].
Defined.

(** ** Locating the server name *)

Abbreviation enough fuel l i := (Z.max 0 (len l - i) < Z.of_nat fuel).

(** Not found, or a range of the buffer. *)
Definition located (l : bytes) (r : Z * Z) : Prop :=
  r = (-1, 0) ∨ 0 <= r.1 ∧ 0 <= r.2 ∧ r.1 + r.2 <= len l.

Lemma wp_locate_ext fuel ch extEnd pos :
  bytes_ok ch → extEnd <= len ch → 0 <= pos → enough fuel ch pos →
  wp (locate_ext fuel ch extEnd pos) (located ch).
Proof.
  intros Hok He. revert pos. induction fuel as [|f IH]; intros pos Hp Hf; [lia|].
  cbn [locate_ext]. wp_step; [|by apply wp_ret; left]. do 4 wp_step.
  pose proof (get16_range ch (pos + 2) Hok). cbv zeta. wp_step; [by apply wp_ret; left|].
  wp_step; [|apply IH; zlia]. wp_step; [by apply wp_ret; left|]. do 2 wp_step.
  pose proof (get16_range ch (pos + 4 + 3) Hok). wp_step; [by apply wp_ret; left|].
  apply wp_ret. right. cbn. zlia.
Qed.

Lemma wp_locateSNIInClientHello ch : bytes_ok ch → wp (locateSNIInClientHello ch) (located ch).
Proof.
  intros Hok. unfold locateSNIInClientHello. cbv zeta.
  repeat (wp_step; [by apply wp_ret; left|]; repeat (wp_step; []; read_ranges Hok)).
  apply wp_locate_ext; [done|case_if; zlia|zlia|zlia].
Qed.

Lemma wp_locate_frames fuel plain pos :
  bytes_ok plain → len plain < 2 ^ 62 → 0 <= pos → enough fuel plain pos →
  wp (locate_frames fuel plain pos) (located plain).
Proof.
  intros Hok Hshort. revert pos. induction fuel as [|f IH]; intros pos Hp Hf; [lia|].
  cbn [locate_frames]. wp_step; [|by apply wp_ret; left]. do 2 wp_step.
  wp_step; [apply IH; zlia|]. wp_step; [apply IH; zlia|]. wp_step; [by apply wp_ret; left|].
  do 3 wp_step. eapply wp_mono; [apply wp_readVar; auto with b4|].
  intros [off n] [[= -> ->]|(Hn & Hnl & Hoff)]; cbn [fst snd] in *; [by left|].
  rewrite len_sub in Hnl by zlia. wp_step; [zlia|]. do 3 wp_step.
  eapply wp_mono; [apply wp_readVar; auto with b4|].
  intros [cl n2] [[= -> ->]|(Hn2 & Hnl2 & Hcl)]; cbn [fst snd] in *; [by left|].
  rewrite len_sub in Hnl2 by zlia. cbv zeta. wp_step; [zlia|].
  rewrite (int_of_small cl) by zlia. rewrite int_of_small by zlia. wp_step; [by apply wp_ret; left|].
  do 3 wp_step. eapply wp_mono; [apply wp_locateSNIInClientHello; auto with b4|].
  intros [o sl] Hloc. wp_step; [|apply IH; zlia]. apply wp_ret. right.
  destruct Hloc as [[= -> ->]|(H1 & H2 & H3)]; [zlia|]. cbn [fst snd] in *.
  rewrite len_sub in H3 by zlia. zlia.
Qed.

(** ** Headers, as RFC 9000 section 17.2.2 writes them *)

(** The header from the version to the length field. *)
Definition long_head (ver : Z) (dcid scid : bytes) (kt : nat) (tlen : Z) (tail : bytes) : bytes :=
  bytes32 ver ++ [len dcid] ++ dcid ++ [len scid] ++ scid ++ enc_var kt tlen ++ tail.

Lemma at_pos_readVar (l : bytes) (i : Z) (k : nat) (v : Z) (r : bytes) :
  at_pos l i (enc_var k v ++ r) → (k < 4)%nat → 0 <= v < 2 ^ (8 * Z.of_nat (2 ^ k) - 2) →
  bytes_ok r →
  (let! rest := slice_from l i in readVar rest) = Ret (v, Z.of_nat (2 ^ k))
  ∧ at_pos l (i + Z.of_nat (2 ^ k)) r.
Proof.
  intros H Hk Hv Hr. rewrite (at_pos_slice_from _ _ _ H). split.
  - cbn [go_bind]. by apply readVar_enc.
  - apply at_pos_app in H. by rewrite enc_var_len in H.
Qed.

(** The first byte of an Initial packet of the version. *)
Definition initial_byte (ver first : Z) : Prop :=
  is_byte first ∧ Z.land first 128 ≠ 0
  ∧ (ver = versionV1 ∧ Z.land first 48 = 0 ∨ ver = versionV2 ∧ Z.land first 48 = 16).

(** The connection IDs and the token length fit their fields. *)
Definition head_ok (dcid scid : bytes) (kt : nat) (tlen : Z) : Prop :=
  len dcid < 256 ∧ len scid < 256 ∧ (kt < 4)%nat ∧ 0 <= tlen < 2 ^ (8 * Z.of_nat (2 ^ kt) - 2)
  ∧ bytes_ok dcid ∧ bytes_ok scid.

Lemma initial_byte_ver ver first :
  initial_byte ver first → 0 <= ver < 4294967296 ∧ known_version ver = true.
Proof.
  intros (_ & _ & H). unfold known_version, versionV1, versionV2 in *.
  destruct H as [[-> _]|[-> _]]; (split; [lia|done]).
Qed.

Lemma IsInitial_head ver first dcid scid kt tlen tail :
  initial_byte ver first →
  IsInitial (first :: long_head ver dcid scid kt tlen tail) = Ret true.
Proof.
  intros Hi. destruct (initial_byte_ver _ _ Hi) as [Hv _]. destruct Hi as (_ & H128 & Ht).
  unfold IsInitial. set (l := first :: _). pose proof (at_pos_start l) as H. unfold l at 2 in H.
  unfold long_head in H. destruct (at_pos_len _ _ _ H) as [Hl _]. revert Hl. len_simp. intros Hl.
  skip_if. read8 H. skip_if. rewrite (at_pos_be32 _ _ _ _ H) by done. cbn [go_bind].
  destruct Ht as [[-> ->]|[-> ->]]; done.
Qed.

(** The mask of the first byte leaves the high bits, which type the packet, and is
    undone by masking again. *)
Lemma mask_high (first m c : Z) :
  Z.land 15 c = 0 → Z.land (Z.lxor first (Z.land m 15)) c = Z.land first c.
Proof.
  intros Hc. apply Z.bits_inj'. intros n Hn. rewrite !Z.land_spec, Z.lxor_spec, Z.land_spec.
  assert (Z.testbit 15 n && Z.testbit c n = false) as E by (by rewrite <- Z.land_spec, Hc, Z.bits_0).
  destruct (Z.testbit c n), (Z.testbit 15 n); try done;
    by rewrite ?andb_false_r, ?andb_true_r, ?xorb_false_r.
Qed.

Lemma mask_twice (first m : Z) : Z.lxor (Z.lxor first (Z.land m 15)) (Z.land m 15) = first.
Proof. by rewrite Z.lxor_assoc, Z.lxor_nilpotent, Z.lxor_0_r. Qed.

Lemma initial_byte_masked ver first m :
  initial_byte ver first → initial_byte ver (Z.lxor first (Z.land m 15)).
Proof.
  intros (Hf & H128 & Ht). unfold initial_byte. rewrite !mask_high by done. split_and!; try done.
  apply is_byte_lxor; [done|]. change 15 with (Z.ones 4). rewrite Z.land_ones by lia.
  pose proof (Z.mod_pos_bound m (2 ^ 4) ltac:(lia)). unfold is_byte. lia.
Qed.

Lemma ParseDCID_head ver first dcid scid kt tlen tail :
  Z.land first 128 ≠ 0 →
  ParseDCID (first :: long_head ver dcid scid kt tlen tail) = Ret (Some dcid).
Proof.
  intros H128. unfold ParseDCID. set (l := first :: _).
  pose proof (at_pos_start l) as H. unfold l at 2 in H.
  unfold long_head in H. destruct (at_pos_len _ _ _ H) as [Hl _]. revert Hl. len_simp. intros Hl.
  skip_if. read8 H. skip_if. apply at_pos_app in H. rewrite len_bytes32 in H. znorm_in H. read8 H.
  skip_if. by rewrite (at_pos_slice _ _ _ _ _ H eq_refl).
Qed.

Section crypto_proofs.
Context (hp_encrypt : bytes → Z → bytes → bytes).
Context (initial_iv : bytes → Z → bytes).
Context (aead_open : bytes → Z → bytes → bytes → bytes → option bytes).

(** C31: An Initial packet whose token length exceeds the rest of the packet makes
    [LocateSNIOffset] panic: [parseHeaderLength] slices the packet at the end of
    the token without the bounds test that [DecryptInitial] has. *)
Theorem LocateSNIOffset_long_token_panics ver first dcid scid kt tlen tail :
  initial_byte ver first → head_ok dcid scid kt tlen → bytes_ok tail → len tail < tlen →
  LocateSNIOffset hp_encrypt initial_iv aead_open
    (first :: long_head ver dcid scid kt tlen tail) = Panic.
Proof.
  intros Hi (Hd & Hs & Hkt & Htl & Hdok & Hsok) Htail Hlong. unfold LocateSNIOffset.
  rewrite IsInitial_head by done. cbn [go_bind negb]. unfold parseHeaderLength.
  set (l := first :: _). pose proof (at_pos_start l) as H. unfold l at 2 in H.
  unfold long_head in H. destruct (at_pos_len _ _ _ H) as [Hl _]. revert Hl. len_simp.
  rewrite enc_var_len. intros Hl. skip_if. apply at_pos_cons in H. apply at_pos_app in H.
  rewrite len_bytes32 in H. znorm_in H. skip_if. read8 H. skip_if.
  rewrite (at_pos_slice _ _ _ _ _ H eq_refl). cbn [go_bind]. apply at_pos_app in H.
  skip_if. read8 H. skip_if. apply at_pos_app in H.
  rewrite (at_pos_slice_from _ _ _ H). cbn [go_bind]. rewrite readVar_enc by done. cbn [go_bind].
  assert (0 < Z.of_nat (2 ^ kt)) by (pose proof (Nat.pow_nonzero 2 kt); lia).
  pose proof (var_62 kt tlen Hkt ltac:(lia)). pose proof (pow2_8 kt Hkt). rewrite (int_of_small tlen), int_of_small by lia.
  skip_if. unfold slice_from, slice. znorm. case_if; [zlia|done].
Qed.

(** ** Opening what was sealed *)

(** Sealing, with the header as additional data (RFC 9001, section 5.3), and the
    nonce: the IV with the packet number xored into its end. *)
Context (aead_seal : bytes → Z → bytes → bytes → bytes → bytes).

Definition xor_bytes (a b : bytes) : bytes := zip_with Z.lxor a b.
Definition nonce_of (iv pn : bytes) : bytes :=
  sub iv 0 (len iv - len pn) ++ xor_bytes (sub iv (len iv - len pn) (len iv)) pn.

(** A protected Initial packet (RFC 9001, section 5.4): the sample starts four
    bytes after the start of the packet number; the mask covers the low bits of
    the first byte and the packet number. *)
Definition seal_initial (ver first : Z) (dcid scid : bytes) (kt : nat) (token : bytes)
    (kl : nat) (plen : Z) (pn plain : bytes) : bytes :=
  let hdr tail := long_head ver dcid scid kt (len token) (token ++ enc_var kl plen ++ tail) in
  let ct := aead_seal dcid ver (nonce_of (initial_iv dcid ver) pn) plain (first :: hdr pn) in
  let mask := hp_encrypt dcid ver (sub (pn ++ ct) 4 20) in
  Z.lxor first (Z.land (get mask 0) 15) :: hdr (xor_bytes pn (sub mask 1 (1 + len pn)) ++ ct).

Lemma xor_bytes_get (a b : bytes) (k : Z) :
  len a = len b → get (xor_bytes a b) k = Z.lxor (get a k) (get b k).
Proof.
  revert b k. induction a as [|x a IH]; intros [|y b] k Hl; try (cbn in Hl; lia).
  - by rewrite !get_nil.
  - cbn [xor_bytes zip_with]. rewrite !get_cons. zcases; first [done | apply IH; revert Hl; len_simp; lia].
Qed.

Lemma xor_bytes_len (a b : bytes) : len a = len b → len (xor_bytes a b) = len a.
Proof. intros H. unfold xor_bytes. rewrite length_zip_with. lia. Qed.

Lemma wp_unmask_pn fuel packet mask pnOff pnLen i acc (pn : bytes) Q :
  0 <= i <= pnLen → pnLen <= 4 → len pn = pnLen → len acc = 4 → 5 <= len mask →
  0 <= pnOff → pnOff + pnLen <= len packet → pnLen - i < Z.of_nat fuel →
  (∀ k, 0 <= k < pnLen → get packet (pnOff + k) = Z.lxor (get pn k) (get mask (1 + k))) →
  sub acc 0 i = sub pn 0 i →
  (∀ acc', len acc' = 4 → sub acc' 0 pnLen = pn → Q acc') →
  wp (unmask_pn fuel packet mask pnOff pnLen i acc) Q.
Proof.
  intros Hi H4 Hpn Hacc Hm Hoff Hfit Hf Hx Hpre HQ. revert i acc Hi Hacc Hf Hpre.
  induction fuel as [|f IH]; intros i acc Hi Hacc Hf Hpre; [lia|]. cbn [unmask_pn].
  destruct (i <? pnLen) eqn:E.
  - do 4 wp_step. wp_step. wp_step. apply IH; try zlia.
    + by rewrite len_insert.
    + rewrite Hx by zlia. rewrite Z.lxor_assoc, Z.lxor_nilpotent, Z.lxor_0_r.
      apply list_ext_get; [len_simp; lia|]. intros k Hk. rewrite len_sub in Hk by (len_simp; lia).
      rewrite !get_sub, get_insert by (len_simp; lia). zcases.
      * do 2 f_equal. lia.
      * pose proof (f_equal (λ l, get l k) Hpre) as Hg. cbn in Hg. rewrite !get_sub in Hg by zlia.
        destruct ((0 <=? k) && (k <? i - 0)) eqn:?; [done|zlia].
  - assert (i = pnLen) as -> by zlia. apply wp_ret. apply HQ; [done|].
    rewrite Hpre, <- Hpn. apply sub_full.
Qed.

Lemma wp_xor_nonce fuel (iv nonce pnBytes pn : bytes) pnLen i Q :
  0 <= i <= pnLen → pnLen <= 4 → len pn = pnLen → pnLen <= len iv → len pnBytes = 4 →
  sub pnBytes 0 pnLen = pn → pnLen - i < Z.of_nat fuel → len nonce = len iv →
  (∀ j, get nonce j = if (len iv - pnLen <=? j) && (j <? len iv - pnLen + i)
     then Z.lxor (get iv j) (get pn (j - (len iv - pnLen))) else get iv j) →
  Q (nonce_of iv pn) → wp (xor_nonce fuel nonce pnBytes pnLen i) Q.
Proof.
  intros Hi H4 Hpn Hiv H4' Hsub Hf Hn Hg HQ. revert i nonce Hi Hf Hn Hg.
  induction fuel as [|f IH]; intros i nonce Hi Hf Hn Hg; [lia|]. cbn [xor_nonce].
  assert (∀ k, 0 <= k < pnLen → get pnBytes k = get pn k) as Hp.
  { intros k Hk. rewrite <- Hsub, get_sub by zlia. case_if; [done|zlia]. }
  destruct (i <? pnLen) eqn:E.
  - do 6 wp_step. apply IH; try zlia; [by rewrite len_insert|].
    intros j. rewrite get_insert by zlia. rewrite Hp by zlia. rewrite !Hg.
    zcases; first [done | f_equal; f_equal; lia].
  - assert (i = pnLen) as -> by zlia. apply wp_ret.
    assert (nonce = nonce_of iv pn) as ->; [|done]. unfold nonce_of.
    apply list_ext_get.
    { rewrite len_app, xor_bytes_len by (rewrite len_sub by lia; lia). len_simp; lia. }
    intros k Hk. rewrite Hg, get_app, len_sub by lia. rewrite Hpn. zcases.
    + rewrite xor_bytes_get by (rewrite len_sub by lia; lia). rewrite get_sub by lia. zcases.
      f_equal; f_equal; lia.
    + rewrite get_sub by lia. zcases. f_equal; lia.
Qed.

(** What the two ciphers promise: a 16-byte mask, a 12-byte IV, bytes out, a
    16-byte tag, and that opening undoes sealing. *)
Record cipher_laws : Prop := {
  mask_len : ∀ dcid ver s, len s = 16 → len (hp_encrypt dcid ver s) = 16;
  mask_ok : ∀ dcid ver s, bytes_ok (hp_encrypt dcid ver s);
  iv_len : ∀ dcid ver, len (initial_iv dcid ver) = 12;
  seal_ok : ∀ dcid ver n p a, bytes_ok p → bytes_ok (aead_seal dcid ver n p a);
  seal_len : ∀ dcid ver n p a, len (aead_seal dcid ver n p a) = len p + 16;
  open_seal : ∀ dcid ver n p a, aead_open dcid ver n (aead_seal dcid ver n p a) a = Some p }.

(** The fields of a sealed packet fit. *)
Definition sealed_ok (ver first : Z) (dcid scid : bytes) (kt : nat) (token : bytes)
    (kl : nat) (plen : Z) (pn plain : bytes) : Prop :=
  initial_byte ver first ∧ head_ok dcid scid kt (len token) ∧ bytes_ok token
  ∧ (kl < 4)%nat ∧ 0 <= plen < 2 ^ (8 * Z.of_nat (2 ^ kl) - 2)
  ∧ Z.land first 3 + 1 = len pn ∧ bytes_ok pn ∧ 4 <= len pn + len plain < 2 ^ 62 ∧ bytes_ok plain.

Lemma bytes_ok_xor (a b : bytes) : bytes_ok a → bytes_ok b → bytes_ok (xor_bytes a b).
Proof.
  intros Ha. revert b. induction Ha as [|x a Hx Ha IH]; intros b Hb; [constructor|].
  destruct Hb as [|y b Hy Hb]; [constructor|]. apply bytes_ok_cons; [by apply is_byte_lxor|by apply IH].
Qed.

Lemma pn_unmasked (pn mask : bytes) (k : Z) :
  len pn <= 4 → len mask = 16 → 0 <= k < len pn →
  get (xor_bytes pn (sub mask 1 (1 + len pn))) k = Z.lxor (get pn k) (get mask (1 + k)).
Proof.
  intros Hp Hm Hk. rewrite xor_bytes_get by (rewrite len_sub; lia).
  rewrite get_sub by lia. zcases. done.
Qed.

Section sealed.
#[local] Set Default Proof Using "All".
Context (Hlaws : cipher_laws) (ver first : Z) (dcid scid : bytes) (kt : nat) (token : bytes).
Context (kl : nat) (plen : Z) (pn plain : bytes).
Context (Hok : sealed_ok ver first dcid scid kt token kl plen pn plain).

Let hdr tail := long_head ver dcid scid kt (len token) (token ++ enc_var kl plen ++ tail).
Let ct := aead_seal dcid ver (nonce_of (initial_iv dcid ver) pn) plain (first :: hdr pn).
Let mask := hp_encrypt dcid ver (sub (pn ++ ct) 4 20).
Let mpn := xor_bytes pn (sub mask 1 (1 + len pn)).
Let packet := seal_initial ver first dcid scid kt token kl plen pn plain.
(** Where the packet number starts. *)
Definition pn_off : Z :=
  7 + len dcid + len scid + Z.of_nat (2 ^ kt) + len token + Z.of_nat (2 ^ kl).

Lemma sealed_eq : packet = Z.lxor first (Z.land (get mask 0) 15) :: hdr (mpn ++ ct).
Proof. done. Qed.

Lemma pn_range : 1 <= len pn <= 4 ∧ 20 - len pn <= len ct.
Proof.
  destruct Hok as (_ & _ & _ & _ & _ & Hpn & _ & Hlen & _). unfold ct. rewrite (seal_len Hlaws).
  change 3 with (Z.ones 2) in Hpn. rewrite Z.land_ones in Hpn by lia.
  pose proof (Z.mod_pos_bound first (2 ^ 2) ltac:(lia)) as Hr.
  change (2 ^ 2) with 4 in *. lia.
Qed.

Lemma mask_len16 : len mask = 16.
Proof.
  apply (mask_len Hlaws). pose proof pn_range. len_simp; lia.
Qed.

Lemma mpn_len : len mpn = len pn.
Proof. pose proof pn_range. pose proof mask_len16. unfold mpn. by rewrite xor_bytes_len by (rewrite len_sub by lia; lia). Qed.

Lemma tail_ok : bytes_ok (mpn ++ ct).
Proof.
  destruct Hok as (_ & _ & _ & _ & _ & _ & Hpn & _ & Hplain). apply bytes_ok_app. split.
  - apply bytes_ok_xor; [done|]. apply bytes_ok_sub, (mask_ok Hlaws).
  - by apply (seal_ok Hlaws).
Qed.

(** The sample is not touched by the masking of the packet number. *)
Lemma sample_eq : sub (mpn ++ ct) 4 20 = sub (pn ++ ct) 4 20.
Proof.
  pose proof pn_range. pose proof mpn_len. apply list_ext_get; [len_simp; lia|]. intros k Hk.
  rewrite len_sub in Hk by (len_simp; lia).
  rewrite !get_sub by (len_simp; lia). rewrite !get_app. rewrite mpn_len. zcases. done.
Qed.

(** The tail of the packet starts at the packet number. *)
Lemma packet_len : len packet = pn_off + len pn + len ct.
Proof.
  rewrite sealed_eq. unfold hdr, long_head, pn_off. pose proof mpn_len.
  len_simp. rewrite !enc_var_len. lia.
Qed.

Lemma hdr_app (tail : bytes) : hdr tail = hdr [] ++ tail.
Proof using. unfold hdr, long_head. by rewrite app_nil_r, <- !app_assoc. Qed.

Lemma hdr_len : 1 + len (hdr []) = pn_off.
Proof using. unfold hdr, long_head, pn_off. len_simp. rewrite !enc_var_len. lia. Qed.

(** The additional data: the header with its first byte and packet number
    unmasked. *)
Lemma aad_eq (l : bytes) :
  l = Z.lxor first (Z.land (get mask 0) 15) :: hdr (mpn ++ ct) → 1 <= len pn <= 4 →
  splice (<[0%nat := first]> (splice (replicate (Z.to_nat (pn_off + len pn)) 0) 0 (sub l 0 pn_off)))
    pn_off pn = first :: hdr pn.
Proof using.
  intros -> Hr. pose proof hdr_len as Hh. rewrite !(hdr_app pn), (hdr_app (mpn ++ ct)).
  set (A := hdr []) in *. set (f' := Z.lxor _ _).
  assert (sub (f' :: A ++ mpn ++ ct) 0 pn_off = f' :: A) as ->.
  { change (f' :: A ++ mpn ++ ct) with ((f' :: A) ++ mpn ++ ct).
    unfold sub. rewrite Z.sub_0_r, <- Hh. cbn [Z.to_nat drop].
    replace (Z.to_nat (1 + len A)) with (length (f' :: A)) by (cbn [length]; lia).
    apply take_app_length. }
  assert (0 <= len A) by lia. apply list_ext_get; [len_simp; lia|].
  intros k Hk. revert Hk. len_simp; try lia. intros Hk.
  rewrite get_splice by (len_simp; lia). rewrite (get_insert _ 0) by (len_simp; lia).
  rewrite get_splice by (len_simp; lia). rewrite !get_cons, get_app. len_simp.
  zcases; first [done | f_equal; lia].
Qed.

(** Reading the header up to the packet number. *)
Ltac read_var H :=
  znorm; rewrite (at_pos_slice_from _ _ _ H); cbn [go_bind];
  rewrite readVar_enc by (first [done | lia | bytes_app]);
  cbn [go_bind];
  apply at_pos_app in H; rewrite enc_var_len in H.

Lemma pow2_pos (k : nat) : 0 < Z.of_nat (2 ^ k).
Proof using. pose proof (Nat.pow_nonzero 2 k). lia. Qed.

(** The facts both readers of a sealed header use. *)
Ltac sealed_facts :=
  pose proof packet_len as Hplen; pose proof sample_eq as Hsam; pose proof pn_range as Hr;
  pose proof mpn_len as Hml; pose proof mask_len16 as Hmask;
  pose proof tail_ok as [Htail1 Htail2]%bytes_ok_app;
  pose proof (pow2_pos kt) as Hk1; pose proof (pow2_pos kl) as Hk2;
  pose proof (eq_refl pn_off) as Hoff; unfold pn_off at 2 in Hoff; rewrite Hoff in Hplen;
  destruct Hok as (Hi & (Hd & Hs & Hkt & Htl & Hdok & Hsok) & Htok & Hkl & Hpl & Hpn & Hpnok & _ & _);
  pose proof (var_62 kt (len token) Hkt ltac:(lia)) as Htoken; pose proof (pow2_8 kt Hkt) as Hkt8.

Lemma decrypt_sealed : DecryptInitial hp_encrypt initial_iv aead_open dcid packet = Ret (Some plain).
Proof.
  sealed_facts.
  destruct (initial_byte_ver _ _ Hi) as [Hv Hkv]. destruct Hi as (Hf & H128 & _).
  pose proof (mask_high first (get mask 0) 128 eq_refl) as Hm128.
  pose proof (mask_twice first (get mask 0)) as Hm0.
  assert (at_pos packet 0 (Z.lxor first (Z.land (get mask 0) 15) :: hdr (mpn ++ ct))) as H
    by (rewrite sealed_eq; apply at_pos_start).
  pose proof sealed_eq as Hleq. unfold DecryptInitial. generalize dependent packet.
  intros l Hl H Hleq. unfold hdr, long_head in H.
  skip_if. read8 H. skip_if. rewrite (at_pos_be32 _ _ _ _ H) by done. cbn [go_bind].
  rewrite Hkv. cbn [negb]. apply at_pos_app in H. rewrite len_bytes32 in H. znorm_in H.
  skip_if. cbn [app] in H. read8 H. skip_if. apply at_pos_app in H. read8 H. skip_if.
  apply at_pos_app in H. 
  read_var H. rewrite (int_of_small (len token)), !int_of_small by lia.
  match goal with |- context [if ?b then _ else _] => destruct b eqn:?; [zlia|] end.
  apply at_pos_app in H. rewrite <- (app_nil_r (_ ++ ct)) in H.
  replace (6 + len dcid + 1 + len scid + Z.of_nat (2 ^ kt) + len token)
    with (6 + len dcid + 1 + len scid + (Z.of_nat (2 ^ kt) + len token)) in H by lia.
  rewrite app_nil_r in H. read_var H. skip_if. skip_if.
  set (p := 6 + len dcid + 1 + len scid + (Z.of_nat (2 ^ kt) + len token) + Z.of_nat (2 ^ kl)) in *.
  assert (slice l (p + 4) (p + 4 + 16) = Ret (sub (pn ++ ct) 4 20)) as ->.
  { rewrite <- Hsam, <- Z.add_assoc. apply at_pos_slice_sub; len_simp; (done || lia). }
  cbn [go_bind]. fold mask. apply wp_eq. wp_step. wp_step. rewrite Hm0, Hpn. skip_if.
  assert (p = pn_off) as Hp by (unfold p; lia). clearbody p. subst p.
  do 2 wp_step. wp_step. apply wp_unmask_pn with (pn := pn); try lia; try done.
  { intros k Hk. rewrite (at_pos_get _ _ _ _ H), get_app by lia. zcases. apply pn_unmasked; lia. }
  intros acc Hacc Hsub. do 4 wp_step. do 8 wp_step. wp_step.
  rewrite Hsub, !take_ge_len by (len_simp; lia). change (Z.to_nat 0) with 0%nat.
  rewrite (aad_eq l) by (done || lia). pose proof (iv_len Hlaws dcid ver).
  apply wp_xor_nonce with (iv := initial_iv dcid ver) (pn := pn); try lia; try done.
  { intros j. zcases. done. }
  apply at_pos_app in H. rewrite Hml in H. rewrite (at_pos_slice_from _ _ _ H). cbn [go_bind].
  apply wp_ret. apply (open_seal Hlaws).
Qed.
Lemma parse_sealed : parseHeaderLength hp_encrypt packet = Ret (pn_off, len pn, true).
Proof.
  sealed_facts.
  destruct (initial_byte_ver _ _ Hi) as [Hv Hkv].
  pose proof (mask_twice first (get mask 0)) as Hm0.
  assert (at_pos packet 0 (Z.lxor first (Z.land (get mask 0) 15) :: hdr (mpn ++ ct))) as H
    by (rewrite sealed_eq; apply at_pos_start).
  unfold parseHeaderLength. generalize dependent packet. intros l Hl H. unfold hdr, long_head in H.
  skip_if. skip_if. pose proof H as H1. apply at_pos_cons in H. pose proof H as Hver.
  apply at_pos_app in H. rewrite len_bytes32 in H. znorm_in H. cbn [app] in H. read8 H. skip_if.
  rewrite (at_pos_slice _ _ _ _ _ H eq_refl). cbn [go_bind]. apply at_pos_app in H.
  skip_if. read8 H. skip_if. apply at_pos_app in H. read_var H. skip_if. apply at_pos_app in H.
  rewrite (int_of_small (len token)), !int_of_small by lia. rewrite <- Z.add_assoc in H. read_var H. skip_if. skip_if.
  set (p := 6 + len dcid + 1 + len scid + (Z.of_nat (2 ^ kt) + len token) + Z.of_nat (2 ^ kl)) in *.
  znorm_in Hver. rewrite (at_pos_be32 _ _ _ _ Hver) by done. cbn [go_bind]. rewrite Hkv. cbn [negb].
  assert (slice l (p + 4) (p + 4 + 16) = Ret (sub (pn ++ ct) 4 20)) as ->.
  { rewrite <- Hsam, <- Z.add_assoc. apply at_pos_slice_sub; len_simp; (done || lia). }
  cbn [go_bind]. fold mask. rewrite (at_pos_idx _ _ _ _ H1). cbn [go_bind].
  apply wp_eq. wp_step. wp_step. apply wp_ret. rewrite Hm0, Hpn. do 2 f_equal. unfold p. lia.
Qed.
End sealed.

(** Decrypting an Initial packet that was protected as RFC 9001 says, with any
    connection IDs, token, length-field encodings and packet-number length, gives
    back the plaintext. *)
Theorem DecryptInitial_opens ver first dcid scid kt token kl plen pn plain :
  cipher_laws → sealed_ok ver first dcid scid kt token kl plen pn plain →
  DecryptInitial hp_encrypt initial_iv aead_open dcid
    (seal_initial ver first dcid scid kt token kl plen pn plain) = Ret (Some plain).
Proof. intros. by apply decrypt_sealed. Qed.

(** ** The name in a ClientHello *)

(** The handshake message of a ClientHello, and a CRYPTO frame carrying data. *)
Definition enc_handshake (h : hello) : bytes :=
  [1; u8 (Z.shiftr (len (enc_hello h)) 16)] ++ bytes16 (len (enc_hello h)) ++ enc_hello h.
Definition crypto_frame (k1 k2 : nat) (off : Z) (data : bytes) : bytes :=
  [6] ++ enc_var k1 off ++ enc_var k2 (len data) ++ data.

(** [o] is where [d] is in [l]. *)
Definition found (l : bytes) (d : bytes) (r : Z * Z) : Prop :=
  0 <= r.1 ∧ r.2 = len d ∧ r.1 + r.2 <= len l ∧ sub l r.1 (r.1 + r.2) = d.

Lemma found_at (l d r : bytes) (o : Z) : at_pos l o (d ++ r) → found l d (o, len d).
Proof.
  intros H. destruct (at_pos_len _ _ _ H) as [Hl Ho]. rewrite len_app in Hl.
  unfold found. cbn [fst snd]. split_and!; [lia..|].
  pose proof (at_pos_slice _ _ _ _ _ H eq_refl) as Hs. unfold slice in Hs.
  revert Hs. case_if; [|done]. by intros [= ->].
Qed.

Lemma locate_ext_enc es1 es2 host fuel l q :
  at_pos l q (enc_exts (es1 ++ (0, enc_sni host) :: es2)) → enough fuel l q →
  Forall (λ e, 0 <= e.1 < 65536 ∧ len e.2 < 65536) (es1 ++ (0, enc_sni host) :: es2) →
  Forall (λ e, e.1 ≠ 0) es1 →
  wp (locate_ext fuel l (len l) q) (found l host).
Proof.
  revert fuel q. induction es1 as [|[et ed] es1 IH]; intros fuel q H Hf Hok Hne;
    (destruct fuel as [|f]; [lia|]); cbn [locate_ext app] in *;
    destruct (at_pos_len _ _ _ H) as [Hl Hq]; rewrite enc_exts_cons in H, Hl; cbn [fst snd] in *;
    apply Forall_cons_1 in Hok as [[Het Hed] Hok]; cbn [fst snd] in *; revert Hl; len_simp; intros Hl.
  - assert (len (enc_sni host) = 5 + len host) as Hsn by (unfold enc_sni; len_lia).
    case_if; [|zlia]. read16 H. read16 H. skip_if. cbn [Z.eqb]. skip_if.
    unfold enc_sni in H. rewrite <- !app_assoc in H. apply at_pos_app in H.
    rewrite len_bytes16 in H. cbn [app] in H. apply at_pos_cons in H.
    replace (q + 2 + 2 + 2 + 1) with (q + 4 + 3) in H by lia. read16 H. skip_if. apply wp_ret.
    replace (q + 4 + 5) with (q + 4 + 3 + 2) by lia. by apply (found_at _ _ _ _ H).
  - apply Forall_cons_1 in Hne as [Hne0 Hne]. cbn in Hne0. case_if; [|zlia].
    read16 H. read16 H. skip_if. skip_if. apply at_pos_app in H.
    replace (q + 4) with (q + 2 + 2) by lia. apply IH; [done|lia|done|done].
Qed.

Lemma locate_hello_enc h es1 es2 host :
  hello_ok h → h_exts h = es1 ++ (0, enc_sni host) :: es2 → Forall (λ e, e.1 ≠ 0) es1 →
  wp (locateSNIInClientHello (enc_handshake h)) (found (enc_handshake h) host).
Proof.
  intros (Hv & Hr & Hs & Hc & Hm & Hx & Hb & Hes) He Hne. unfold locateSNIInClientHello.
  set (l := enc_handshake h). pose proof (at_pos_start l) as H. unfold l at 2 in H.
  unfold enc_handshake, enc_hello at 3 in H. rewrite <- !app_assoc in H. cbn [app] in H.
  destruct (at_pos_len _ _ _ H) as [Hl _]. revert Hl. len_simp. intros Hl.
  skip_if. read8 H. change (negb (1 =? 1)) with false. cbn iota. skip_if. skip_if. cbv zeta.
  apply at_pos_cons, at_pos_app, at_pos_app, at_pos_app in H. rewrite Hr, !len_bytes16 in H.
  znorm_in H. read8 H. skip_if. apply at_pos_app in H. read16 H. rewrite Z.add_assoc. skip_if.
  apply at_pos_app in H. read8 H. skip_if. apply at_pos_app in H. read16 H.
  destruct (at_pos_len _ _ _ H) as [Hl2 _].
  case_if; [zlia|]. rewrite <- Hl2, He in *. apply (locate_ext_enc es1 es2); [done|lia| |done].
  rewrite <- He in *. by apply exts_data_fit.
Qed.

Lemma found_in (l d : bytes) (o n : Z) (rest : bytes) (p : Z) :
  at_pos l p (d ++ rest) → 0 <= o → 0 <= n → o + n <= len d →
  sub l (p + o) (p + o + n) = sub d o (o + n).
Proof.
  intros H Ho Hn Hd. destruct (at_pos_len _ _ _ H) as [Hl Hp]. revert Hl. len_simp. intros Hl.
  apply list_ext_get; [len_simp; lia|]. intros k Hk. rewrite len_sub in Hk by lia.
  rewrite !get_sub by lia. zcases. rewrite <- Z.add_assoc, (at_pos_get _ _ _ _ H), get_app by lia.
  zcases. done.
Qed.

Lemma enc_handshake_ok h : hello_ok h → bytes_ok (enc_handshake h).
Proof.
  intros (_ & _ & _ & _ & _ & _ & Hb & _). unfold enc_handshake. cbn [app].
  apply bytes_ok_cons; [done|]. apply bytes_ok_cons; [apply is_byte_u8|].
  apply bytes_ok_app. split; [apply bytes_ok_bytes16|done].
Qed.

Lemma locate_frames_enc quiet k1 k2 h es1 es2 host rest fuel l q :
  len l < 2 ^ 62 → at_pos l q (quiet ++ crypto_frame k1 k2 0 (enc_handshake h) ++ rest) → enough fuel l q →
  Forall (λ x, x = 0 ∨ x = 1) quiet → (k1 < 4)%nat → (k2 < 4)%nat →
  len (enc_handshake h) < 2 ^ (8 * Z.of_nat (2 ^ k2) - 2) → bytes_ok rest →
  hello_ok h → h_exts h = es1 ++ (0, enc_sni host) :: es2 → Forall (λ e, e.1 ≠ 0) es1 →
  wp (locate_frames fuel l q) (found l host).
Proof.
  intros Hshort H Hf Hq Hk1 Hk2 Hlen Hrest Hh He Hne. revert fuel q H Hf.
  induction Hq as [|x quiet Hx Hq IH]; intros fuel q H Hf; (destruct fuel as [|f]; [lia|]);
    cbn [locate_frames app] in *; destruct (at_pos_len _ _ _ H) as [Hl Hq0];
    revert Hl; unfold crypto_frame in *; len_simp; intros Hl; (case_if; [|zlia]).
  - rewrite <- !app_assoc in H. cbn [app] in H. read8 H. cbn [Z.eqb negb Pos.eqb].
    pose proof (enc_handshake_ok h Hh) as Hhok. set (ch := enc_handshake h) in *.
    assert (0 <= 0 < 2 ^ (8 * Z.of_nat (2 ^ k1) - 2)) as H0.
    { split; [done|]. apply Z.pow_pos_nonneg; [done|]. pose proof (pow2_pos k1). lia. }
    rewrite (at_pos_slice_from _ _ _ H). cbn [go_bind].
    rewrite readVar_enc by (first [done|bytes_app]).
    cbn [go_bind]. apply at_pos_app in H. rewrite enc_var_len in H. pose proof (pow2_pos k1).
    skip_if. rewrite (at_pos_slice_from _ _ _ H). cbn [go_bind].
    rewrite readVar_enc by (first [done|lia|bytes_app]).
    cbn [go_bind]. apply at_pos_app in H. rewrite enc_var_len in H. pose proof (pow2_pos k2).
    destruct (at_pos_len _ _ _ H) as [Hl2 _]. revert Hl2. len_simp. intros Hl2.
    skip_if. cbv zeta. rewrite (int_of_small (len ch)), !int_of_small by lia.
    skip_if. rewrite (at_pos_slice _ _ _ _ _ H eq_refl). cbn [go_bind].
    apply wp_bind. eapply wp_mono; [by apply (locate_hello_enc h es1 es2 host)|].
    intros [o n] (Ho & Hn & Hon & Hsub). cbn [fst snd] in *. fold ch in Hon, Hsub. case_if; [|zlia].
    apply wp_ret. unfold found. cbn [fst snd]. split_and!; [lia|done|lia|].
    rewrite <- Hsub. apply (found_in _ _ _ _ _ _ H); lia.
  - read8 H. destruct Hx as [-> | ->]; cbn [Z.eqb Pos.eqb]; apply IH; first [done|lia].
Qed.

Lemma wp_LocateSNIOffset_sealed ver first dcid scid kt token kl plen pn
    quiet k1 k2 h es1 es2 host rest :
  let plain := quiet ++ crypto_frame k1 k2 0 (enc_handshake h) ++ rest in
  cipher_laws → sealed_ok ver first dcid scid kt token kl plen pn plain →
  Forall (λ x, x = 0 ∨ x = 1) quiet → (k1 < 4)%nat → (k2 < 4)%nat →
  len (enc_handshake h) < 2 ^ (8 * Z.of_nat (2 ^ k2) - 2) →
  hello_ok h → h_exts h = es1 ++ (0, enc_sni host) :: es2 → Forall (λ e, e.1 ≠ 0) es1 →
  wp (LocateSNIOffset hp_encrypt initial_iv aead_open
        (seal_initial ver first dcid scid kt token kl plen pn plain))
    (λ '(off, n), ∃ o, off = pn_off dcid scid kt token kl + len pn + o
       ∧ n = len host ∧ 0 <= o ∧ o + n <= len plain ∧ sub plain o (o + n) = host).
Proof.
  intros plain Hlaws Hok Hquiet Hk1 Hk2 Hlen Hh He Hne.
  pose proof Hok as (Hi & _ & _ & _ & _ & _ & _ & Hshort & Hplain).
  unfold LocateSNIOffset. assert (bytes_ok rest) as Hrest.
  { apply bytes_ok_app in Hplain as [_ Hplain]. by apply bytes_ok_app in Hplain as [_ Hplain]. }
  assert (IsInitial (seal_initial ver first dcid scid kt token kl plen pn plain) = Ret true) as ->.
  { apply IsInitial_head. by apply initial_byte_masked. }
  cbn [go_bind negb]. rewrite (parse_sealed Hlaws _ _ _ _ _ _ _ _ _ _ Hok). cbn [go_bind negb].
  assert (ParseDCID (seal_initial ver first dcid scid kt token kl plen pn plain) = Ret (Some dcid)) as ->.
  { apply ParseDCID_head. rewrite mask_high by done. apply Hi. }
  cbn [go_bind].
  rewrite (decrypt_sealed Hlaws _ _ _ _ _ _ _ _ _ _ Hok). cbn [go_bind]. apply wp_bind.
  eapply wp_mono.
  { apply (locate_frames_enc quiet k1 k2 h es1 es2 host rest); try done; [lia|apply at_pos_start|lia]. }
  intros [o n] (Ho & Hn & Hon & Hsub). cbn [fst snd] in *. case_if; [zlia|]. apply wp_ret.
  exists o. split_and!; done.
Qed.

(** C26: The packet range [LocateSNIOffset] reports for a protected Initial packet
    carrying a ClientHello is where the encryption of the host name is: the
    ciphertext starts after the packet number, and the reported offset into it is
    the offset of the name in the plaintext.  Padding and PING frames before the
    CRYPTO frame, other frames after it and other extensions before the name do
    not disturb it. *)
Theorem LocateSNIOffset_finds_host ver first dcid scid kt token kl plen pn
    quiet k1 k2 h es1 es2 host rest :
  let plain := quiet ++ crypto_frame k1 k2 0 (enc_handshake h) ++ rest in
  cipher_laws → sealed_ok ver first dcid scid kt token kl plen pn plain →
  Forall (λ x, x = 0 ∨ x = 1) quiet → (k1 < 4)%nat → (k2 < 4)%nat →
  len (enc_handshake h) < 2 ^ (8 * Z.of_nat (2 ^ k2) - 2) →
  hello_ok h → h_exts h = es1 ++ (0, enc_sni host) :: es2 → Forall (λ e, e.1 ≠ 0) es1 →
  wp (LocateSNIOffset hp_encrypt initial_iv aead_open
        (seal_initial ver first dcid scid kt token kl plen pn plain))
    (λ '(off, n), ∃ o, off = pn_off dcid scid kt token kl + len pn + o
       ∧ n = len host ∧ 0 <= o ∧ o + n <= len plain ∧ sub plain o (o + n) = host).
Proof. apply wp_LocateSNIOffset_sealed. Qed.
End crypto_proofs.

(** ** Locating the name in any datagram *)
Section total.
Context (hp_encrypt : bytes → Z → bytes → bytes).
Context (initial_iv : bytes → Z → bytes).
Context (aead_open : bytes → Z → bytes → bytes → bytes → option bytes).

(** Blocks of AES, the length of the IV, and plaintexts that are bytes and no longer than
    what is opened. *)
Record cipher_shape : Prop := {
  shape_mask d v s : len s = 16 → len (hp_encrypt d v s) = 16;
  shape_mask_ok d v s : bytes_ok (hp_encrypt d v s);
  shape_iv d v : len (initial_iv d v) = 12;
  shape_open d v n c a p : bytes_ok c → aead_open d v n c a = Some p → bytes_ok p ∧ len p <= len c }.
Context (Hsh : cipher_shape).

(** The token that the header declares ends within the datagram. *)
Definition token_fits (p : bytes) : Prop :=
  let slen_at := 6 + get p 5 in
  let token_at := slen_at + 1 + get p slen_at in
  ∀ tlen n, readVar (sub p token_at (len p)) = Ret (tlen, n) → n ≠ 0 → token_at + n + tlen <= len p.

Lemma wp_unmask_any fuel packet mask pnOff pnLen i acc :
  0 <= i → pnLen <= 4 → len acc = 4 → bytes_ok acc → bytes_ok packet → bytes_ok mask → 5 <= len mask →
  0 <= pnOff → pnOff + pnLen <= len packet → Z.max 0 (pnLen - i) < Z.of_nat fuel →
  wp (unmask_pn fuel packet mask pnOff pnLen i acc) (λ r, len r = 4 ∧ bytes_ok r).
Proof using Type.
  intros Hi H4 Ha Hok Hp Hm Hml Ho Hfit. revert i acc Hi Ha Hok.
  induction fuel as [|f IH]; intros i acc Hi Ha Hok Hf; [lia|]. cbn [unmask_pn].
  wp_step; [|by apply wp_ret]. do 6 wp_step. apply IH; [lia|by rewrite len_insert| |zlia].
  apply bytes_ok_insert; [done|]. apply is_byte_lxor; by apply bytes_ok_get.
Qed.

Lemma wp_xor_any fuel nonce pnBytes pnLen i :
  0 <= i → pnLen <= 4 → len nonce = 12 → len pnBytes = 4 → Z.max 0 (pnLen - i) < Z.of_nat fuel →
  wp (xor_nonce fuel nonce pnBytes pnLen i) (λ _, True).
Proof using Type.
  intros Hi H4 Hn Hb. revert i nonce Hi Hn.
  induction fuel as [|f IH]; intros i nonce Hi Hn Hf; [lia|]. cbn [xor_nonce].
  wp_step; [|by apply wp_ret]. do 6 wp_step. apply IH; [lia|by rewrite len_insert|zlia].
Qed.

Lemma pn_len_range x : 1 <= Z.land x 3 + 1 <= 4.
Proof using Type.
  change 3 with (Z.ones 2). rewrite Z.land_ones by lia.
  pose proof (Z.mod_pos_bound x (2 ^ 2) ltac:(lia)). lia.
Qed.

Lemma var_range b r : var_result b r → 0 <= r.1 < 2 ^ 62 ∧ 0 <= r.2 <= 8 ∧ r.2 <= len b.
Proof using Type. intros [->|(H1 & H2 & H3)]; cbn; [lia|]. lia. Qed.

Ltac read_var Hp :=
  eapply wp_mono; [apply wp_readVar; auto with b4|];
  let t := fresh "t" in let n := fresh "n" in let H := fresh "Hv" in
  intros [t n] H; apply var_range in H; cbn [fst snd] in H; rewrite len_sub in H by zlia.

Lemma wp_DecryptInitial_any dcid p : bytes_ok p →
  wp (DecryptInitial hp_encrypt initial_iv aead_open dcid p) (λ o, ∀ plain, o = Some plain → bytes_ok plain ∧ len plain <= len p).
Proof using Hsh.
  intros Hp. unfold DecryptInitial. pose proof (bytes_ok_get p 5 Hp).
  repeat (wp_step; [by apply wp_ret|]; repeat (wp_step; []; read_ranges Hp)).
  read_var Hp. rewrite (int_of_small t), !int_of_small by zlia.
  repeat (wp_step; [by apply wp_ret|]; repeat (wp_step; []; read_ranges Hp)).
  bprop. read_var Hp.
  repeat (wp_step; [by apply wp_ret|]; repeat (wp_step; []; read_ranges Hp)).
  set (pnOff := _ + n0). set (mask := hp_encrypt _ _ _).
  assert (len mask = 16) as Hm by (apply (shape_mask Hsh); len_lia).
  wp_step. set (pnLen := Z.land _ 3 + 1).
  pose proof (pn_len_range (Z.lxor (get p 0) (Z.land (get mask 0) 15))) as Hr. fold pnLen in Hr.
  repeat (wp_step; [by apply wp_ret|]; repeat (wp_step; [])).
  eapply wp_mono.
  { apply wp_unmask_any; try (by apply bytes_ok_replicate) || done || zlia. apply (shape_mask_ok Hsh). }
  intros pn [Hpn Hpnok]. repeat (wp_step; []).
  eapply wp_mono; [apply wp_xor_any; try zlia; apply (shape_iv Hsh)|]. intros nonce _.
  repeat (wp_step; []). intros plain Ho.
  eapply (shape_open Hsh) in Ho as [Hpo Hple]; [|auto with b4]. split; [done|]. rewrite len_sub in Hple by zlia. zlia.
Qed.

Lemma wp_parseHeaderLength p : bytes_ok p → token_fits p →
  wp (parseHeaderLength hp_encrypt p) (λ '(h, n, ok), 0 <= h ∧ 0 <= n).
Proof using Hsh.
  intros Hp Hfit. unfold parseHeaderLength. pose proof (bytes_ok_get p 5 Hp).
  repeat (wp_step; [by apply wp_ret|]; repeat (wp_step; []; read_ranges Hp)).
  pose proof (wp_readVar (sub p (1 + 4 + 1 + get p (1 + 4) + 1 + get p (1 + 4 + 1 + get p (1 + 4))) (len p))
    ltac:(auto with b4)) as Hrv.
  eapply wp_mono; [exact (wp_self _ _ Hrv)|]. intros [t n] [Hv Heq]. apply var_range in Hv.
  cbn [fst snd] in Hv. rewrite len_sub in Hv by zlia.
  wp_step; [by apply wp_ret|]. rewrite (int_of_small t), !int_of_small by zlia. wp_step.
  assert (1 + 4 + 1 + get p (1 + 4) + 1 + get p (1 + 4 + 1 + get p (1 + 4)) + n + t <= len p) as Hend.
  { unfold token_fits in Hfit. cbv zeta in Hfit. change (1 + 4) with 5 in *. change (5 + 1) with 6 in *.
    replace (6 + get p 5 + 1 + get p (6 + get p 5)) with (6 + get p 5 + 1 + get p (6 + get p 5)) in * by lia.
    apply Hfit; [exact Heq|zlia]. }
  repeat (wp_step; []). read_var Hp.
  repeat (wp_step; [by apply wp_ret|]; repeat (wp_step; []; read_ranges Hp)).
  wp_step; [apply wp_ret; zlia|]. repeat (wp_step; []; read_ranges Hp).
  set (mask := hp_encrypt _ _ _). assert (len mask = 16) as Hm by (apply (shape_mask Hsh); len_lia).
  repeat (wp_step; []). split; [zlia|]. pose proof (pn_len_range (Z.lxor (get p 0) (Z.land (get mask 0) 15))). lia.
Qed.

Lemma wp_LocateSNIOffset_any p : bytes_ok p → len p < 2 ^ 62 → token_fits p →
  wp (LocateSNIOffset hp_encrypt initial_iv aead_open p) (λ _, True).
Proof using Hsh.
  intros Hp Hshort Hfit. unfold LocateSNIOffset, IsInitial, ParseDCID.
  apply wp_bind, (wp_mono _ (λ _, True)).
  { repeat (wp_step; read_ranges Hp); done. }
  intros ini _. wp_step; [by apply wp_ret|]. wp_step.
  eapply wp_mono; [by apply wp_parseHeaderLength|]. intros [[h n] ok] _.
  wp_step; [by apply wp_ret|]. apply wp_bind, (wp_mono _ (λ _, True)).
  { repeat (wp_step; read_ranges Hp); done. }
  intros [dcid|] _; [|by apply wp_ret]. wp_step.
  eapply wp_mono; [by apply wp_DecryptInitial_any|]. intros [plain|] Hpl; [|by apply wp_ret].
  wp_step. eapply wp_mono; [apply wp_locate_frames; [by apply Hpl|destruct (Hpl plain eq_refl); lia|lia|lia]|]. intros [o sl] _.
  wp_step; by apply wp_ret.
Qed.
End total.

(** ** Targets of 32 bits *)

Lemma int32_negative v : 2 ^ 31 <= v mod 2 ^ 32 → int_of (Tg := bits32) v = v mod 2 ^ 32 - 2 ^ 32.
Proof. intros H. unfold int_of, int_bits, bits32. cbv zeta. change (32 - 1) with 31. zcases. done. Qed.
Lemma int32_small v : - 2 ^ 31 <= v < 2 ^ 31 → int_of (Tg := bits32) v = v.
Proof.
  intros H. unfold int_of, int_bits, bits32. cbv zeta. change (32 - 1) with 31.
  change (2 ^ 32) with 4294967296 in *. change (2 ^ 31) with 2147483648 in *. destruct (decide (0 <= v)).
  - rewrite Z.mod_small by lia. zcases. done.
  - rewrite <- (Z.mod_add v 1) by lia. rewrite Z.mod_small by lia. zcases. lia.
Qed.

Lemma locate_int32 k1 k2 off L rest : (k1 < 4)%nat → (k2 < 4)%nat →
  0 <= off < 2 ^ (8 * Z.of_nat (2 ^ k1) - 2) → 0 <= L < 2 ^ (8 * Z.of_nat (2 ^ k2) - 2) →
  2 ^ 31 <= L mod 2 ^ 32 → bytes_ok rest →
  locateSNIInCrypto (Tg := bits32) ([6] ++ enc_var k1 off ++ enc_var k2 L ++ rest) = Panic.
Proof.
  intros Hk1 Hk2 Hoff HL Hneg Hrest. unfold locateSNIInCrypto. set (l := [6] ++ _). pose proof (at_pos_start l) as H.
  unfold l at 2 in H. pose proof (pow2_8 k1 Hk1). pose proof (pow2_8 k2 Hk2).
  cbn [app] in H. destruct (at_pos_len _ _ _ H) as [Hl _]. revert Hl. len_simp. rewrite !enc_var_len. intros Hl.
  cbn [locate_frames]. case_if; [|zlia]. read8 H. cbn [Z.eqb negb Pos.eqb].
  rewrite (at_pos_slice_from _ _ _ H). cbn [go_bind]. rewrite readVar_enc by (first [done|bytes_app]).
  cbn [go_bind]. apply at_pos_app in H. rewrite enc_var_len in H. skip_if.
  rewrite (at_pos_slice_from _ _ _ H). cbn [go_bind]. rewrite readVar_enc by (first [done|lia|bytes_app]).
  cbn [go_bind]. skip_if. cbv zeta. pose proof (Z.mod_pos_bound L (2 ^ 32) ltac:(lia)).
  rewrite (int32_negative L) by done. rewrite int32_small by lia. skip_if. unfold slice. case_if; [zlia|done].
Qed.

Section narrow.
Context (hp_encrypt : bytes → Z → bytes → bytes).
Context (initial_iv : bytes → Z → bytes).
Context (aead_open : bytes → Z → bytes → bytes → bytes → option bytes).

(** On a target of 32 bits an Initial packet makes [DecryptInitial] panic when the length of
    its token becomes negative as an [int] - and below minus a thousand, so that the sum that
    is compared with the length of the packet and then sliced with is negative. *)
Theorem DecryptInitial_int32_panics ver first dcid scid kt tlen tail dcid' :
  initial_byte ver first → head_ok dcid scid kt tlen → bytes_ok tail → 2 ^ 31 <= tlen mod 2 ^ 32 < 2 ^ 32 - 1000 →
  DecryptInitial (Tg := bits32) hp_encrypt initial_iv aead_open dcid' (first :: long_head ver dcid scid kt tlen tail) = Panic.
Proof.
  intros Hi (Hd & Hs & Hkt & Htl & Hdok & Hsok) Htail Hneg. unfold DecryptInitial.
  destruct (initial_byte_ver _ _ Hi) as [Hv Hkv]. destruct Hi as (Hf & H128 & _). pose proof (pow2_8 kt Hkt) as Hp8.
  set (l := first :: _). pose proof (at_pos_start l) as H. unfold l at 2 in H.
  unfold long_head in H. destruct (at_pos_len _ _ _ H) as [Hl _]. revert Hl. len_simp.
  rewrite enc_var_len. intros Hl. skip_if. read8 H. skip_if. rewrite (at_pos_be32 _ _ _ _ H) by done. cbn [go_bind].
  rewrite Hkv. cbn [negb]. apply at_pos_app in H. rewrite len_bytes32 in H. znorm_in H.
  skip_if. cbn [app] in H. read8 H. skip_if. apply at_pos_app in H. read8 H. skip_if. apply at_pos_app in H.
  rewrite (at_pos_slice_from _ _ _ H). cbn [go_bind]. rewrite readVar_enc by done. cbn [go_bind].
  rewrite (int32_negative tlen) by lia. rewrite !int32_small by lia.
  match goal with |- context [if ?b then _ else _] => destruct b eqn:?; [zlia|] end.
  unfold slice_from, slice. case_if; [zlia|done].
Qed.
End narrow.

(** C32: Searching a decrypted payload for the server name.  On a target of 64 bits it terminates
    without panicking whatever the bytes, and a position it reports is a range inside the
    payload.  On a target of 32 bits, for which the Makefile also builds, a CRYPTO frame whose
    length has the bit 31 set becomes negative as an [int], passes the comparison with the end
    of the payload and makes the slice panic. *)
Theorem locateSNIInCrypto_total :
  (∀ plain, bytes_ok plain → len plain < 2 ^ 62 → wp (locateSNIInCrypto (Tg := bits64) plain) (located plain))
  ∧ ∀ k1 k2 off L rest, (k1 < 4)%nat → (k2 < 4)%nat →
      0 <= off < 2 ^ (8 * Z.of_nat (2 ^ k1) - 2) → 0 <= L < 2 ^ (8 * Z.of_nat (2 ^ k2) - 2) →
      2 ^ 31 <= L mod 2 ^ 32 → bytes_ok rest →
      locateSNIInCrypto (Tg := bits32) ([6] ++ enc_var k1 off ++ enc_var k2 L ++ rest) = Panic.
Proof.
  split; [intros plain Hok Hl; by apply wp_locate_frames; [..|lia|lia]|]. intros. by apply locate_int32.
Qed.

(** The same payload on both targets: a length of 2^31. *)
Lemma locateSNIInCrypto_total_witness :
  let plain := [6; 0; 192; 0; 0; 0; 128; 0; 0; 0; 1] in
  wp (locateSNIInCrypto (Tg := bits64) plain) (located plain) ∧ locateSNIInCrypto (Tg := bits32) plain = Panic.
Proof.
  destruct locateSNIInCrypto_total as [H1 H2]. cbv zeta. split; [apply H1; [by apply bytes_okb_spec|vmc]|].
  apply (H2 0%nat 3%nat 0 (2 ^ 31) [1]); first [lia|by apply bytes_okb_spec|vmc].
Defined.

Lemma DecryptInitial_int32_panics_witness :
  ∃ p, DecryptInitial (Tg := bits32) (λ _ _ _, []) (λ _ _, []) (λ _ _ _ _ _, None) [] p = Panic.
Proof.
  eexists. apply (DecryptInitial_int32_panics _ _ _ versionV1 193 [1; 2] [3] 3 (2 ^ 31) (replicate 40 0));
    [|unfold head_ok; split_and!; first [lia|by apply bytes_okb_spec|vmc]|by apply bytes_okb_spec|vmc].
  unfold initial_byte. split_and!; try lia; try vmc; by left.
Defined.

(** ** Witnesses: a cipher that xors a constant and appends a fixed tag *)
Module Toy.
Definition hp (_ : bytes) (_ : Z) (s : bytes) : bytes := map (λ x, u8 (x + 29)) (sub s 0 16).
Definition iv (_ : bytes) (_ : Z) : bytes := replicate 12 5.
Definition tag : bytes := replicate 16 1.
Definition seal (_ : bytes) (_ : Z) (_ p _ : bytes) : bytes := map (Z.lxor 90) p ++ tag.
Definition open (_ : bytes) (_ : Z) (_ c _ : bytes) : option bytes :=
  let n := (length c - 16)%nat in
  if bool_decide (drop n c = tag) then Some (map (Z.lxor 90) (take n c)) else None.

Lemma laws : cipher_laws hp iv open seal.
Proof.
  split; intros *.
  - intros H. unfold hp. rewrite length_map, len_sub by lia. done.
  - unfold hp, bytes_ok. apply Forall_map, Forall_true. intros x. apply is_byte_u8.
  - done.
  - intros H. apply bytes_ok_app. split; [|by apply bytes_okb_spec].
    apply Forall_map. revert H. apply Forall_impl. intros x Hx. by apply is_byte_lxor.
  - unfold seal. rewrite length_app, length_map. cbn [tag length replicate]. lia.
  - unfold open, seal. rewrite length_app. change (length tag) with 16%nat.
    replace (_ + 16 - 16)%nat with (length (map (Z.lxor 90) p)) by lia.
    rewrite drop_app_length, take_app_length, bool_decide_true by done. f_equal.
    rewrite map_map. rewrite <- (map_id p) at 2. apply map_ext. intros x.
    by rewrite <- Z.lxor_assoc, Z.lxor_nilpotent, Z.lxor_0_l.
Qed.

Lemma shape : cipher_shape hp iv open.
Proof.
  split; intros *.
  - intros H. unfold hp. rewrite length_map, len_sub by lia. done.
  - unfold hp, bytes_ok. apply Forall_map, Forall_true. intros x. apply is_byte_u8.
  - done.
  - unfold open. intros H. case_bool_decide; [|done]. intros [= <-]. split.
    + apply Forall_map. eapply Forall_impl; [|exact (bytes_ok_take _ c H)].
      intros x Hx. by apply is_byte_lxor.
    + rewrite length_map, length_take. lia.
Qed.

Definition plain : bytes := [0; 1; 0] ++ crypto_frame 0 1 0 (enc_handshake demo_hello) ++ [0; 0].

Lemma sealed : sealed_ok versionV1 193 [1; 2; 3; 4] [9] 0 [7; 7] 1 300 [0; 5] plain.
Proof.
  unfold sealed_ok, initial_byte, head_ok.
  split_and!; try lia; try (by apply bytes_okb_spec); try vmc.
  by left.
Qed.
End Toy.

Lemma DecryptInitial_opens_witness :
  DecryptInitial Toy.hp Toy.iv Toy.open [1; 2; 3; 4]
    (seal_initial Toy.hp Toy.iv Toy.seal versionV1 193 [1; 2; 3; 4] [9] 0 [7; 7] 1 300 [0; 5] Toy.plain)
  = Ret (Some Toy.plain).
Proof. apply DecryptInitial_opens; [exact Toy.laws|exact Toy.sealed]. Defined.

Lemma LocateSNIOffset_finds_host_witness :
  wp (LocateSNIOffset Toy.hp Toy.iv Toy.open
    (seal_initial Toy.hp Toy.iv Toy.seal versionV1 193 [1; 2; 3; 4] [9] 0 [7; 7] 1 300 [0; 5] Toy.plain))
    (λ '(off, n), n = 4 ∧ 0 <= off).
Proof.
  eapply wp_mono; [apply (LocateSNIOffset_finds_host Toy.hp Toy.iv Toy.open Toy.seal versionV1 193
    [1; 2; 3; 4] [9] 0 [7; 7] 1 300 [0; 5] [0; 1; 0] 0 1 demo_hello [(2570, [0])]
    [(16, [0; 3; 2; 104; 50])] [97; 46; 105; 111] [0; 0])|].
  - exact Toy.laws.
  - exact Toy.sealed.
  - repeat constructor; lia.
  - lia.
  - lia.
  - vmc.
  - exact demo_hello_ok.
  - reflexivity.
  - repeat constructor; discriminate.
  - intros [off n] (o & -> & -> & Ho & _). split; [reflexivity|].
    assert (0 <= pn_off [1; 2; 3; 4] [9] 0 [7; 7] 1) by vmc. lia.
Defined.

Lemma LocateSNIOffset_long_token_panics_witness :
  LocateSNIOffset Toy.hp Toy.iv Toy.open
    (193 :: long_head versionV1 [1; 2] [3] 1 1000 (replicate 40 0)) = Panic.
Proof.
  apply LocateSNIOffset_long_token_panics; [|unfold head_ok|by apply bytes_okb_spec|vmc].
  - split_and!; [done|vmc|]. by left.
  - split_and!; try lia; try (by apply bytes_okb_spec); vmc.
Defined.
