(* ===== verification/Assemble.v ===== *)
(** * Reassembly of a QUIC CRYPTO stream: src/src/quic/assemble.go, src/src/sni/quic.go

    The buffers live in a map keyed by connection ID; a handler threads that map.
    [time.Now] of a write and the order in which the map is visited are
    arguments.  Each method holds its buffer's mutex throughout, so a call is one
    step. *)

From Stdlib Require Import ZArith Lia.
From stdpp Require Import base list numbers gmap.
From S2P Require Import Prelude Tls Quic.

Local Open Scope Z_scope.

Record cbuf := { data : bytes; mask : bytes; head : Z; lastAccess : Z }.
Record cryptoFrame := { off : Z; b : bytes }.
(** [cmap]: the key is [string(dcid)]. *)
Abbreviation cmap := (gmap (list Z) cbuf).

Definition maxEntries : Z := 10000.
Definition entryTTL : Z := 30 * 1000000000.
Definition maxBufSize : Z := 32 * 1024.

(** ** Frames *)

(** [for i < len(plain) && plain[i] == 0x00 { i++ }] *)
Fixpoint skip_padding (fuel : nat) (plain : bytes) (i : Z) : go Z :=
  match fuel with
  | O => Spin
  | S f =>
      if i <? len plain
      then
        let! x := idx plain i in
        if x =? 0 then skip_padding f plain (i + 1) else Ret i
      else Ret i
  end.

Fixpoint crypto_loop {Tg : Target} (fuel : nat) (plain : bytes) (i : Z) (out : list cryptoFrame)
    : go (list cryptoFrame) :=
  match fuel with
  | O => Spin
  | S f =>
      if i <? len plain
      then
        let! t := idx plain i in
        let i := i + 1 in
        if t =? 6
        then
          let! rest := slice_from plain i in
          let! (off, n) := readVarint rest in
          if n =? 0 then Ret out else
          let i := i + n in
          let! rest := slice_from plain i in
          let! (ln, n2) := readVarint rest in
          if (n2 =? 0) || (len plain - i - n2 <? int_of ln) then Ret out else
          let i := i + n2 in
          let! d := slice plain i (i + int_of ln) in
          crypto_loop f plain (i + int_of ln) (out ++ [{| off := off; b := d |}])
        else if t =? 0
        then let! i := skip_padding (S (length plain)) plain i in crypto_loop f plain i out
        else if t =? 1 then crypto_loop f plain i out
        else Ret out
      else Ret out
  end.

Definition parseCryptoFrames {Tg : Target} (plain : bytes) : go (list cryptoFrame) :=
  crypto_loop (S (length plain)) plain 0 [].

(** ** A buffer *)

Definition ensure (c : cbuf) (n : Z) : go cbuf :=
  if maxBufSize <? n then Ret c else
  if n <=? len (data c) then Ret c else
  let! nd := make n in
  let! nd := copy_from nd 0 (data c) in
  let! nm := make n in
  let! nm := copy_from nm 0 (mask c) in
  Ret {| data := nd; mask := nm; head := if n <? head c then n else head c;
         lastAccess := lastAccess c |}.

(** [for i := off; i < end; i++ { b.mask[i] = 1 }] *)
Fixpoint mark (fuel : nat) (m : bytes) (i stop : Z) : go bytes :=
  match fuel with
  | O => Spin
  | S f => if i <? stop then let! m := upd m i 1 in mark f m (i + 1) stop else Ret m
  end.

(** [for b.head < len(b.mask) && b.mask[b.head] == 1 { b.head++ }] *)
Fixpoint advance (fuel : nat) (m : bytes) (h : Z) : go Z :=
  match fuel with
  | O => Spin
  | S f =>
      if h <? len m
      then let! x := idx m h in if x =? 1 then advance f m (h + 1) else Ret h
      else Ret h
  end.

Definition write (now : Z) (c : cbuf) (off : Z) (p : bytes) : go cbuf :=
  let stop := off + len p in
  if maxBufSize <? stop then Ret c else
  let! c := ensure c stop in
  if len (data c) <? stop then Ret c else
  let! d := copy_at (data c) off stop p in
  let! m := mark (S (length p)) (mask c) off stop in
  let! h := advance (S (length m)) m (head c) in
  Ret {| data := d; mask := m; head := h; lastAccess := now |}.

Definition snapshot (c : cbuf) : go (option bytes) :=
  if head c =? 0 then Ret None else
  let! out := make (head c) in
  let! s := slice (data c) 0 (head c) in
  let! out := copy_from out 0 s in
  Ret (Some out).

(** ** The map *)

(** The loop over the frames; [None] when the buffer is given up. *)
Fixpoint write_frames (now : Z) (frames : list cryptoFrame) (c : cbuf) : go (option cbuf) :=
  match frames with
  | [] => Ret (Some c)
  | f :: frames =>
      if Z.shiftl 1 20 <? off f then write_frames now frames c else
      let! c := write now c (off f) (b f) in
      if Z.shiftl 1 20 <? head c then Ret None else write_frames now frames c
  end.

(** [now1] is the time of creation and [now2] of the writes. *)
Definition AssembleCrypto {Tg : Target} (now1 now2 : Z) (dcid plain : bytes) (m : cmap)
    : go (option bytes * cmap) :=
  if (len dcid =? 0) || (len plain =? 0) then Ret (None, m) else
  let! frames := parseCryptoFrames plain in
  if bool_decide (frames = []) then Ret (None, m) else
  let buf := match m !! dcid with
             | Some v => v
             | None => {| data := []; mask := []; head := 0; lastAccess := now1 |}
             end in
  let! r := write_frames now2 frames buf in
  match r with
  | None => Ret (None, delete dcid m)
  | Some c => let! s := snapshot c in Ret (s, <[dcid := c]> m)
  end.

Definition ClearDCID (dcid : bytes) (m : cmap) : cmap :=
  if len dcid =? 0 then m else delete dcid m.

(** One tick of the cleaner: the stale entries, then, while more than
    [maxEntries] are left, entries in the order [order] the map is visited. *)
Fixpoint drop_excess (order : list (list Z)) (total excess : Z) (m : cmap) : cmap :=
  match order with
  | [] => m
  | k :: order =>
      if total - excess <=? maxEntries then m
      else drop_excess order total (excess + 1) (delete k m)
  end.

Definition cleanupStaleEntries (now : Z) (order : list (list Z)) (m : cmap) : cmap :=
  let m := filter (λ kv, negb (entryTTL <? now - lastAccess kv.2)) m in
  let totalCount := Z.of_nat (size m) in
  if maxEntries <? totalCount then drop_excess order totalCount 0 m else m.

(** ** The buffer holds what was written *)

Lemma wp_mark (fuel : nat) (m : bytes) (i stop : Z) :
  0 <= i → i <= stop → stop <= len m → stop - i < Z.of_nat fuel →
  wp (mark fuel m i stop) (λ m', len m' = len m
    ∧ ∀ j, get m' j = if (i <=? j) && (j <? stop) then 1 else get m j).
Proof.
  revert m i. induction fuel as [|f IH]; intros m i Hi His Hs Hf; [lia|]. cbn [mark].
  destruct (i <? stop) eqn:E.
  - do 2 wp_step. eapply wp_mono; [apply IH; rewrite ?len_insert; zlia|].
    intros m' [Hl Hg]. rewrite len_insert in Hl. split; [done|].
    intros j. rewrite Hg, get_insert by zlia. zcases; done.
  - apply wp_ret. split; [done|]. intros j. zcases. done.
Qed.

Lemma wp_advance (fuel : nat) (m : bytes) (h : Z) :
  0 <= h → h <= len m → len m - h < Z.of_nat fuel →
  wp (advance fuel m h) (λ h', h <= h' ∧ h' <= len m
    ∧ (∀ j, h <= j < h' → get m j = 1) ∧ get m h' ≠ 1).
Proof.
  revert h. induction fuel as [|f IH]; intros h Hh Hl Hf; [lia|]. cbn [advance].
  destruct (h <? len m) eqn:E.
  - do 2 wp_step. destruct (get m h =? 1) eqn:E1; bprop.
    + eapply wp_mono; [apply IH; lia|]. intros h' (H1 & H2 & H3 & H4). split_and!; try lia.
      intros j Hj. destruct (decide (j = h)) as [->|]; [done|]. apply H3. lia.
    + apply wp_ret. split_and!; [lia|lia|lia|done].
  - apply wp_ret. split_and!; [lia|lia|lia|]. rewrite get_over by zlia. done.
Qed.

Lemma wp_ensure (c : cbuf) (n : Z) :
  len (data c) = len (mask c) → head c <= len (mask c) → 0 <= n → n <= maxBufSize →
  wp (ensure c n) (λ c', len (data c') = Z.max n (len (data c))
    ∧ len (mask c') = Z.max n (len (data c)) ∧ (∀ i, get (data c') i = get (data c) i)
    ∧ (∀ i, get (mask c') i = get (mask c) i) ∧ head c' = head c).
Proof.
  intros Hlen Hh Hn Hmax. unfold ensure. wp_step; [zlia|]. wp_step.
  { apply wp_ret. split_and!; [zlia|zlia|done..]. }
  do 8 wp_step. apply wp_ret. cbn [data mask head]. rewrite !take_ge_len by (len_simp; zlia).
  split_and!; [len_simp; zlia|len_simp; zlia| | |zcases; done].
  all: intros i; rewrite get_splice, get_replicate by (len_simp; zlia).
  all: zcases; first [f_equal; lia | symmetry; apply get_out; zlia].
Qed.

Section stream.
(** The stream the peer sends. *)
Context (s : bytes).

(** [W] is the set of positions written so far: the mask is that set, the data is
    the stream there, and [head] is the end of the first run. *)
Record buf_inv (W : Z → Prop) (c : cbuf) : Prop := {
  inv_len : len (data c) = len (mask c);
  inv_max : len (data c) <= maxBufSize;
  inv_head : 0 <= head c <= len (mask c);
  inv_mask : ∀ i, W i ↔ get (mask c) i = 1;
  inv_data : ∀ i, get (mask c) i = 1 → get (data c) i = get s i;
  inv_run : ∀ i, 0 <= i < head c → get (mask c) i = 1;
  inv_stop : get (mask c) (head c) ≠ 1 }.

Definition stream_piece (f : cryptoFrame) : Prop :=
  0 <= off f ∧ off f + len (b f) <= len s
  ∧ ∀ k, 0 <= k < len (b f) → get (b f) k = get s (off f + k).
(** The frames the buffer takes. *)
Definition fits (f : cryptoFrame) : Prop :=
  off f <= Z.shiftl 1 20 ∧ off f + len (b f) <= maxBufSize.
Definition covers (fs : list cryptoFrame) (i : Z) : Prop :=
  ∃ f, f ∈ fs ∧ fits f ∧ off f <= i < off f + len (b f).

Lemma buf_inv_ext (W W' : Z → Prop) c : (∀ i, W i ↔ W' i) → buf_inv W c → buf_inv W' c.
Proof. intros HW []. split; try done. intros i. by rewrite <- HW. Qed.

Lemma covers_one f i : fits f → covers [f] i ↔ off f <= i < off f + len (b f).
Proof.
  intros Hf. split; [by intros (g & ->%list_elem_of_singleton & _ & H)|].
  intros H. exists f. split; [set_solver|done].
Qed.

Lemma wp_write now W c f :
  buf_inv W c → stream_piece f → off f <= Z.shiftl 1 20 →
  wp (write now c (off f) (b f)) (buf_inv (λ i, W i ∨ covers [f] i)).
Proof.
  intros Hinv (Ho & Hs & Hp) H20. unfold write. cbv zeta. destruct (maxBufSize <? _) eqn:E.
  { apply wp_ret. eapply buf_inv_ext; [|exact Hinv]. intros i. split; [tauto|].
    intros [|(g & ->%list_elem_of_singleton & [_ Hf] & _)]; [done|]. zlia. }
  destruct Hinv as [Hl Hm [Hh0 Hh] HW Hd Hr Hst]. wp_step.
  eapply wp_mono; [apply wp_ensure; zlia|]. intros c1 (Hl1 & Hm1 & Hd1 & Hmk1 & Hh1).
  wp_step; [zlia|]. do 3 wp_step. eapply wp_mono; [apply wp_mark; zlia|]. intros m2 [Hl2 Hg2].
  wp_step. eapply wp_mono; [apply wp_advance; rewrite ?Hh1; zlia|].
  intros h (Hha & Hhb & Hrun & Hstop). apply wp_ret.
  rewrite take_ge_len by zlia.
  assert (∀ i, get m2 i = 1 ↔ W i ∨ off f <= i < off f + len (b f)) as Hset.
  { intros i. rewrite Hg2, Hmk1, HW. case_if; [split; [right; zlia|done]|].
    split; [by left|]. intros [|]; [done|zlia]. }
  split; cbn [data mask head]; len_simp; try zlia.
  - intros i. rewrite Hset, covers_one; [done|]. split; [done|zlia].
  - intros i Hi%Hset. rewrite get_splice by zlia. case_if.
    + rewrite Hp by zlia. f_equal. lia.
    + destruct Hi as [Hi|]; [|zlia]. rewrite Hd1. apply Hd. by apply HW.
  - intros i Hi. destruct (decide (i < head c1)); [|apply Hrun; lia].
    apply Hset. left. apply HW, Hr. lia.
Qed.

Lemma covers_cons f fs i : covers (f :: fs) i ↔ covers [f] i ∨ covers fs i.
Proof.
  unfold covers. split.
  - intros (g & Hg & H). apply elem_of_cons in Hg as [->|Hg]; [left|right]; eexists; (split; [|exact H]); set_solver.
  - intros [(g & Hg & H)|(g & Hg & H)]; exists g; (split; [|exact H]); set_solver.
Qed.

Lemma covers_app fs gs i : covers (fs ++ gs) i ↔ covers fs i ∨ covers gs i.
Proof.
  induction fs as [|f fs IH]; cbn.
  - split; [by right|]. intros [(g & Hg & _)|]; [set_solver|done].
  - rewrite (covers_cons f (fs ++ gs)), IH, (covers_cons f fs). tauto.
Qed.

Lemma wp_write_frames now W c fs :
  buf_inv W c → Forall stream_piece fs →
  wp (write_frames now fs c) (λ r, ∃ c', r = Some c' ∧ buf_inv (λ i, W i ∨ covers fs i) c').
Proof.
  revert W c. induction fs as [|f fs IH]; intros W c Hinv Hp; cbn [write_frames].
  { apply wp_ret. exists c. split; [done|]. eapply buf_inv_ext; [|exact Hinv].
    intros i. split; [tauto|]. intros [|(g & Hg & _)]; [done|set_solver]. }
  apply Forall_cons_1 in Hp as [Hf Hp]. wp_step.
  - eapply wp_mono; [by apply (IH W)|]. intros r (c' & -> & Hc'). exists c'. split; [done|].
    eapply buf_inv_ext; [|exact Hc']. intros i. rewrite covers_cons.
    assert (¬ covers [f] i); [|tauto].
    intros (g & ->%list_elem_of_singleton & [Hg _] & _). zlia.
  - wp_step. eapply wp_mono; [apply (wp_write _ W); [done..|zlia]|]. intros c' Hc'.
    wp_step.
    + exfalso. destruct Hc' as [Hl Hm [Hh0 Hh]]. change (Z.shiftl 1 20) with 1048576 in *.
      unfold maxBufSize in *. zlia.
    + eapply wp_mono; [by apply IH|]. intros r (c2 & -> & Hc2). exists c2. split; [done|].
      eapply buf_inv_ext; [|exact Hc2]. intros i. cbn. rewrite (covers_cons f fs). tauto.
Qed.

(** [h] ends the first run of [W]. *)
Definition run_end (W : Z → Prop) (h : Z) : Prop := 0 <= h ∧ (∀ i, 0 <= i < h → W i) ∧ ¬ W h.

Lemma wp_snapshot W c :
  buf_inv W c → (∀ i, W i → i < len s) →
  wp (snapshot c) (λ r, ∃ h, run_end W h ∧ h <= len s
    ∧ r = if h =? 0 then None else Some (sub s 0 h)).
Proof.
  intros [Hl Hm [Hh0 Hh] HW Hd Hr Hst] Hs. unfold snapshot.
  assert (run_end W (head c)) as He.
  { split; [done|]. split; [intros i Hi; by apply HW, Hr|by rewrite HW]. }
  assert (head c <= len s) as Hle.
  { destruct (decide (head c = 0)); [lia|]. assert (W (head c - 1)) as Hw by (apply He; lia).
    apply Hs in Hw. lia. }
  wp_step; [apply wp_ret; exists (head c); split_and!; try done; by rewrite Heqb0|].
  do 6 wp_step. apply wp_ret. exists (head c). rewrite Heqb0. split_and!; try done. f_equal.
  rewrite take_ge_len by (len_simp; zlia). apply list_ext_get; [len_simp; zlia|].
  intros k Hk. revert Hk. len_simp; try zlia. intros Hk.
  rewrite get_splice, !get_sub, len_sub by (len_simp; zlia). zcases. rewrite Z.sub_0_r.
  apply Hd, Hr. lia.
Qed.

(** ** The map *)

Definition map_inv (dcid : bytes) (W : Z → Prop) (m : cmap) : Prop :=
  match m !! dcid with Some c => buf_inv W c | None => ∀ i, ¬ W i end.

(** What one call returns and leaves, when [W] was written before. *)
Definition assembled (dcid : bytes) (W : Z → Prop) (m : cmap) (r : option bytes * cmap) : Prop :=
  map_inv dcid W r.2 ∧ (∀ k, k ≠ dcid → r.2 !! k = m !! k)
  ∧ ∃ h, run_end W h ∧ h <= len s ∧ r.1 = if h =? 0 then None else Some (sub s 0 h).

Lemma fresh_inv now W : (∀ i, ¬ W i) → buf_inv W {| data := []; mask := []; head := 0; lastAccess := now |}.
Proof.
  intros HW. split; cbn; try done; try lia; [|intros i; by rewrite get_nil].
  intros i. rewrite get_nil. split; [by intros ?%HW|done].
Qed.

Lemma wp_AssembleCrypto now1 now2 dcid plain fs W m :
  dcid ≠ [] → parseCryptoFrames plain = Ret fs → fs ≠ [] → Forall stream_piece fs →
  map_inv dcid W m → (∀ i, W i → i < len s) →
  wp (AssembleCrypto now1 now2 dcid plain m) (assembled dcid (λ i, W i ∨ covers fs i) m).
Proof.
  intros Hd Hfs Hne Hp Hinv HW. unfold AssembleCrypto. wp_step.
  { destruct plain; [|destruct dcid; [done|cbn in *; zlia]].
    vm_compute in Hfs. by injection Hfs as <-. }
  rewrite Hfs. cbn [go_bind]. rewrite bool_decide_false by done. cbv zeta. wp_step.
  eapply wp_mono; [apply (wp_write_frames _ W); [|done]|].
  { unfold map_inv in Hinv. destruct (m !! dcid); [done|by apply fresh_inv]. }
  intros r (c & -> & Hc). wp_step.
  eapply wp_mono; [apply (wp_snapshot _ _ Hc)|].
  { intros i [Hi|(f & Hf & _ & Hi)]; [by apply HW|].
    rewrite Forall_forall in Hp. destruct (Hp f Hf) as (_ & Hl & _). lia. }
  intros r Hr. apply wp_ret. split_and!; cbn [fst snd].
  - unfold map_inv. by rewrite lookup_insert_eq.
  - intros k Hk. by rewrite lookup_insert_ne.
  - done.
Qed.

(** A sequence of payloads for one connection; the last result is returned. *)
Fixpoint feed (dcid : bytes) (payloads : list (Z * bytes)) (m : cmap) : go (option bytes * cmap) :=
  match payloads with
  | [] => Ret (None, m)
  | [(now, plain)] => AssembleCrypto now now dcid plain m
  | (now, plain) :: payloads =>
      let! (_, m) := AssembleCrypto now now dcid plain m in feed dcid payloads m
  end.

Lemma wp_feed dcid payloads frames W m :
  dcid ≠ [] → payloads ≠ [] →
  Forall2 (λ p fs, parseCryptoFrames p.2 = Ret fs ∧ fs ≠ [] ∧ Forall stream_piece fs) payloads frames →
  map_inv dcid W m → (∀ i, W i → i < len s) →
  wp (feed dcid payloads m) (assembled dcid (λ i, W i ∨ covers (concat frames) i) m).
Proof.
  intros Hd Hne HF. revert W m Hne. induction HF as [|[now plain] fs payloads frames (Hfs & Hn & Hp) HF IH];
    intros W m Hne Hinv HW; [done|]. cbn [snd] in Hfs.
  pose proof (wp_AssembleCrypto now now dcid plain fs W m Hd Hfs Hn Hp Hinv HW) as Hone.
  destruct HF as [|p2 fs2 payloads frames Hp2 HF].
  { cbn. by rewrite app_nil_r. }
  change (feed dcid ((now, plain) :: p2 :: payloads) m)
    with (let! (_, m) := AssembleCrypto now now dcid plain m in feed dcid (p2 :: payloads) m).
  wp_step. eapply wp_mono; [exact Hone|]. intros [r m1] (Hi1 & Hk1 & _). cbn [fst snd] in *.
  eapply wp_mono; [apply IH; [done|exact Hi1|]|].
  { intros i [Hi|(f & Hf & _ & Hi)]; [by apply HW|].
    rewrite Forall_forall in Hp. destruct (Hp f Hf) as (_ & Hl & _). lia. }
  intros [r2 m2] (Hi2 & Hk2 & h & He & Hh & Hr). unfold assembled, map_inv in *. cbn [fst snd] in *.
  assert (∀ i, (W i ∨ covers fs i) ∨ covers (concat (fs2 :: frames)) i
    ↔ W i ∨ covers (concat (fs :: fs2 :: frames)) i) as Hext.
  { intros i. cbn [concat]. rewrite (covers_app fs). tauto. }
  split_and!.
  - destruct (m2 !! dcid); [by apply (buf_inv_ext _ _ _ Hext)|]. intros i. rewrite <- Hext. done.
  - intros k Hk. by rewrite Hk2, Hk1.
  - exists h. split_and!; try done. destruct He as (H1 & H2 & H3).
    split; [done|]. split; [intros i Hi; by apply Hext, H2|by rewrite <- Hext].
Qed.

(** C29: CRYPTO frames of one stream, spread over any number of packets, in any
    order, overlapping and repeated, are put together to the longest prefix of the
    stream they cover (of the frames that fit the buffer); once they cover the
    stream, the result is the stream. *)
Theorem AssembleCrypto_reassembles dcid payloads frames m :
  dcid ≠ [] → payloads ≠ [] →
  Forall2 (λ p fs, parseCryptoFrames p.2 = Ret fs ∧ fs ≠ [] ∧ Forall stream_piece fs) payloads frames →
  m !! dcid = None → 0 < len s →
  wp (feed dcid payloads m) (λ '(r, m'),
    (∀ k, k ≠ dcid → m' !! k = m !! k)
    ∧ (∃ h, run_end (covers (concat frames)) h ∧ r = if h =? 0 then None else Some (sub s 0 h))
    ∧ ((∀ i, 0 <= i < len s → covers (concat frames) i) → r = Some s)).
Proof.
  intros Hd Hp HF Hm Hs. eapply wp_mono.
  { apply (wp_feed dcid payloads frames (λ _, False) m); try done. unfold map_inv. rewrite Hm. tauto. }
  intros [r m'] (_ & Hk & h & (H1 & H2 & H3) & Hh & Hr). cbn [fst snd] in *. split_and!; [done| |].
  - exists h. split; [|done]. split; [done|]. split; [|tauto].
    intros i Hi. destruct (H2 i Hi); [done|done].
  - intros Hall. assert (h = len s) as ->.
    { destruct (decide (h < len s)); [|lia]. exfalso. apply H3. right. apply Hall. lia. }
    rewrite Hr, sub_full. case_if; [zlia|done].
Qed.
End stream.

(** ** Parsing frames *)

Lemma wp_skip_padding fuel plain i :
  0 <= i → i <= len plain → enough fuel plain i →
  wp (skip_padding fuel plain i) (λ i', i <= i' ∧ i' <= len plain).
Proof.
  revert i. induction fuel as [|f IH]; intros i Hi Hl Hf; [lia|]. cbn [skip_padding].
  wp_step; [bprop|apply wp_ret; lia]. do 2 wp_step. wp_step; [|apply wp_ret; lia].
  eapply wp_mono; [apply IH; zlia|]. cbn beta. lia.
Qed.

Definition frame_ok (plain : bytes) (f : cryptoFrame) : Prop := 0 <= off f < 2 ^ 62 ∧ piece (b f) plain.

(** [readVarint] and [readVar] are the same function. *)
Lemma readVarint_readVar l : readVarint l = readVar l.
Proof. done. Qed.

Lemma wp_crypto_loop fuel plain i out :
  bytes_ok plain → 0 <= i → i <= len plain → enough fuel plain i → Forall (frame_ok plain) out →
  wp (crypto_loop fuel plain i out) (Forall (frame_ok plain)).
Proof.
  intros Hok. revert i out. induction fuel as [|f IH]; intros i out Hi Hl Hf Hout; [lia|].
  cbn [crypto_loop]. wp_step; [|by apply wp_ret]. do 2 wp_step. cbv zeta. wp_step.
  - do 3 wp_step. rewrite readVarint_readVar. eapply wp_mono; [apply wp_readVar; auto with b4|].
    intros [o n] [[= -> ->]|(Hn & Hnl & Hoff)]; cbn [fst snd] in *; [by apply wp_ret|].
    rewrite len_sub in Hnl by zlia. wp_step; [by apply wp_ret|]. do 3 wp_step.
    rewrite readVarint_readVar. eapply wp_mono; [apply wp_readVar; auto with b4|].
    intros [ln n2] [[= -> ->]|(Hn2 & Hnl2 & Hln)]; cbn [fst snd] in *; [by apply wp_ret|].
    rewrite len_sub in Hnl2 by zlia. rewrite (int_of_small ln) by zlia.
    wp_step; [by apply wp_ret|]. do 2 wp_step.
    apply IH; [zlia|zlia|zlia|]. apply Forall_app. split; [done|]. repeat constructor; cbn; [lia|lia|].
    apply piece_sub; zlia.
  - wp_step.
    + wp_step. eapply wp_mono; [apply wp_skip_padding; zlia|]. intros i' [Hi1 Hi2]. apply IH; [zlia..|done].
    + wp_step; [apply IH; zlia || done|by apply wp_ret].
Qed.

(** Splitting a decrypted payload into CRYPTO frames terminates without
    panicking on any bytes, and each frame is a piece of the payload. *)
Theorem parseCryptoFrames_total plain :
  bytes_ok plain → wp (parseCryptoFrames plain) (Forall (frame_ok plain)).
Proof. intros Hok. apply wp_crypto_loop; [done|lia|lia|lia|constructor]. Qed.

(** The frames of an encoded payload: CRYPTO frames, padding and PINGs. *)
Inductive item := IFrame (k1 k2 : nat) (f : cryptoFrame) | IPadding | IPing.
Definition enc_item (x : item) : bytes :=
  match x with
  | IFrame k1 k2 f => crypto_frame k1 k2 (off f) (b f)
  | IPadding => [0]
  | IPing => [1]
  end.
Definition item_frame (x : item) : list cryptoFrame :=
  match x with IFrame _ _ f => [f] | _ => [] end.
Definition item_ok (x : item) : Prop :=
  match x with
  | IFrame k1 k2 f => (k1 < 4)%nat ∧ (k2 < 4)%nat ∧ 0 <= off f < 2 ^ (8 * Z.of_nat (2 ^ k1) - 2)
      ∧ len (b f) < 2 ^ (8 * Z.of_nat (2 ^ k2) - 2) ∧ bytes_ok (b f)
  | _ => True
  end.
Definition enc_payload (xs : list item) : bytes := concat (map enc_item xs).
Definition frames_of (xs : list item) : list cryptoFrame := concat (map item_frame xs).

Lemma enc_payload_ok xs : Forall item_ok xs → bytes_ok (enc_payload xs).
Proof.
  induction 1 as [|x xs Hx Hxs IH]; [constructor|]. unfold enc_payload. cbn [map concat].
  apply bytes_ok_app. split; [|done]. destruct x as [k1 k2 f| |]; cbn [enc_item]; [|by apply bytes_okb_spec..].
  destruct Hx as (_ & _ & _ & _ & Hb). unfold crypto_frame.
  apply bytes_ok_app. split; [by apply bytes_okb_spec|].
  apply bytes_ok_app. split; [apply enc_var_ok|]. apply bytes_ok_app. split; [apply enc_var_ok|done].
Qed.

(** Padding is skipped in one go; the items left are the same frames. *)
Lemma skip_padding_enc xs fuel plain i :
  at_pos plain i (enc_payload xs) → enough fuel plain i →
  ∃ i' ys, skip_padding fuel plain i = Ret i' ∧ at_pos plain i' (enc_payload ys)
    ∧ frames_of ys = frames_of xs ∧ (∀ P, Forall P xs → Forall P ys) ∧ i <= i'.
Proof.
  revert fuel i. induction xs as [|x xs IH]; intros fuel i H Hf; (destruct fuel as [|f]; [lia|]);
    destruct (at_pos_len _ _ _ H) as [Hl Hi]; cbn [skip_padding].
  { exists i, []. cbn in Hl. case_if; [zlia|]. split_and!; try done. }
  unfold enc_payload in H, Hl. cbn [map concat] in H, Hl. revert Hl. len_simp. intros Hl.
  destruct x as [k1 k2 fr| |]; cbn [enc_item app] in *.
  - exists i, (IFrame k1 k2 fr :: xs). revert Hl. unfold crypto_frame in *. len_simp. intros Hl.
    case_if; [|zlia]. rewrite <- !app_assoc in H. cbn [app] in H. rewrite (at_pos_idx _ _ _ _ H).
    cbn [go_bind]. change (6 =? 0) with false. cbn iota. split_and!; try done.
    unfold enc_payload. cbn [map concat enc_item]. unfold crypto_frame.
    rewrite <- !app_assoc. exact H.
  - revert Hl. len_simp. intros Hl. case_if; [|zlia]. rewrite (at_pos_idx _ _ _ _ H). cbn [go_bind].
    change (0 =? 0) with true. cbn iota. apply at_pos_cons in H.
    destruct (IH f (i + 1) H ltac:(lia)) as (i' & ys & H1 & H2 & H3 & H4 & H5).
    exists i', ys. split_and!; try done; [|lia]. intros P HP. apply H4. by apply Forall_cons_1 in HP as [_ HP].
  - exists i, (IPing :: xs). revert Hl. len_simp. intros Hl. case_if; [|zlia].
    rewrite (at_pos_idx _ _ _ _ H). cbn [go_bind]. split_and!; done.
Qed.

Lemma crypto_loop_enc fuel xs plain i out :
  at_pos plain i (enc_payload xs) → enough fuel plain i → Forall item_ok xs →
  crypto_loop fuel plain i out = Ret (out ++ frames_of xs).
Proof.
  revert xs i out. induction fuel as [|f IH]; intros xs i out H Hf Hok; [lia|].
  destruct (at_pos_len _ _ _ H) as [Hl Hi]. cbn [crypto_loop].
  destruct xs as [|x xs].
  { cbn in Hl. case_if; [zlia|]. unfold frames_of. cbn. by rewrite app_nil_r. }
  pose proof (enc_payload_ok _ Hok) as Hbytes. apply Forall_cons_1 in Hok as [Hx Hok].
  unfold enc_payload in H, Hl, Hbytes. cbn [map concat] in H, Hl, Hbytes.
  fold (enc_payload xs) in H, Hl, Hbytes. apply bytes_ok_app in Hbytes as [_ Hbytes].
  revert Hl. len_simp. intros Hl. destruct x as [k1 k2 fr| |]; cbn [enc_item app item_ok] in *.
  - destruct Hx as (Hk1 & Hk2 & Hoff & Hln & Hb). unfold crypto_frame in *. revert Hl. len_simp.
    rewrite !enc_var_len. intros Hl. pose proof (pow2_pos k1). pose proof (pow2_pos k2).
    case_if; [|zlia]. rewrite <- !app_assoc in H. cbn [app] in H. read8 H. cbn [Z.eqb Pos.eqb].
    rewrite (at_pos_slice_from _ _ _ H). cbn [go_bind]. rewrite readVarint_readVar.
    rewrite readVar_enc by (first [done|bytes_app; apply enc_var_ok]). cbn [go_bind].
    apply at_pos_app in H. rewrite enc_var_len in H. skip_if.
    rewrite (at_pos_slice_from _ _ _ H). cbn [go_bind]. rewrite readVarint_readVar.
    rewrite readVar_enc by (first [done|lia|bytes_app]). cbn [go_bind].
    apply at_pos_app in H. rewrite enc_var_len in H.
    pose proof (var_62 k2 _ Hk2 Hln). rewrite (int_of_small (len (b fr))) by zlia. skip_if.
    rewrite (at_pos_slice _ _ _ _ _ H eq_refl). cbn [go_bind]. apply at_pos_app in H.
    rewrite (IH xs) by (done || zlia). unfold frames_of. cbn [map concat item_frame].
    rewrite <- app_assoc. by destruct fr.
  - revert Hl. len_simp. intros Hl. case_if; [|zlia]. read8 H. cbn [Z.eqb].
    destruct (skip_padding_enc xs (S (length plain)) plain (i + 1) H ltac:(lia))
      as (i' & ys & -> & H2 & H3 & H4 & H5). cbn [go_bind].
    rewrite (IH ys); [|done|lia|by apply H4]. by rewrite H3.
  - revert Hl. len_simp. intros Hl. case_if; [|zlia]. read8 H. cbn [Z.eqb].
    rewrite (IH xs) by (done || lia). done.
Qed.

(** The CRYPTO frames of a payload built of CRYPTO frames (with any varint
    classes), padding and PING frames, in any arrangement, are exactly the frames
    put in. *)
Theorem parseCryptoFrames_roundtrip xs :
  Forall item_ok xs → parseCryptoFrames (enc_payload xs) = Ret (frames_of xs).
Proof. intros Hok. apply (crypto_loop_enc _ _ _ 0 []); [apply at_pos_start|lia|done]. Qed.

(** ** The cleaner *)

Lemma drop_excess_spec (order : list (list Z)) (total excess : Z) (m : cmap) :
  NoDup order → (∀ k, k ∈ order → is_Some (m !! k)) → 0 <= excess →
  total - excess = Z.of_nat (size m) → Z.of_nat (length order) = Z.of_nat (size m) →
  Z.of_nat (size (drop_excess order total excess m)) <= maxEntries
  ∧ drop_excess order total excess m ⊆ m.
Proof.
  revert excess m. induction order as [|k order IH]; intros excess m Hnd Hin He Ht Hl; cbn [drop_excess].
  { cbn in Hl. split; [unfold maxEntries; lia|done]. }
  destruct (total - excess <=? maxEntries) eqn:E; [split; [zlia|done]|].
  apply NoDup_cons in Hnd as [Hk Hnd].
  assert (is_Some (m !! k)) as Hmk by (apply Hin; set_solver).
  assert (S (size (delete k m)) = size m) as Hsz.
  { destruct Hmk as [v Hv]. rewrite map_size_delete_Some by eauto.
    assert (size m ≠ 0%nat) by (intros E0%map_size_empty_inv; subst; by rewrite lookup_empty in Hv). lia. }
  cbn [length] in Hl. destruct (IH (excess + 1) (delete k m)) as [H1 H2]; try done; try lia.
  { intros j Hj. rewrite lookup_delete_ne by (intros ->; done). apply Hin. set_solver. }
  split; [done|]. etrans; [exact H2|]. apply delete_subseteq.
Qed.

(** After a tick of the cleaner at most [maxEntries] buffers are left, each was
    there before and none is older than [entryTTL]; below the limit only the
    stale ones go. *)
Theorem cleanupStaleEntries_bounds (now : Z) (order : list (list Z)) (m : cmap) :
  NoDup order →
  (∀ k, k ∈ order ↔ ∃ c, m !! k = Some c ∧ now - lastAccess c <= entryTTL) →
  let m' := cleanupStaleEntries now order m in
  Z.of_nat (size m') <= maxEntries
  ∧ (∀ k c, m' !! k = Some c → m !! k = Some c ∧ now - lastAccess c <= entryTTL)
  ∧ (Z.of_nat (size m) <= maxEntries →
       ∀ k c, m !! k = Some c → now - lastAccess c <= entryTTL → m' !! k = Some c).
Proof.
  intros Hnd Hord. unfold cleanupStaleEntries. set (fm := filter _ m). cbv zeta.
  assert (∀ k c, fm !! k = Some c ↔ m !! k = Some c ∧ now - lastAccess c <= entryTTL) as Hfm.
  { intros k c. unfold fm. rewrite map_lookup_filter_Some. cbn. apply and_iff_compat_l.
    destruct (entryTTL <? _) eqn:E; cbn; split; intros; first [done | zlia]. }
  assert (list_to_set order = dom fm) as Hset.
  { apply set_eq. intros k. rewrite elem_of_list_to_set, elem_of_dom, Hord.
    split; [intros (c & Hc); exists c; by apply Hfm|intros [c Hc]; exists c; by apply Hfm]. }
  assert (length order = size fm) as Hlen.
  { rewrite <- (size_dom (D := gset (list Z))), <- Hset. by rewrite size_list_to_set. }
  assert (fm ⊆ m) as Hsub.
  { apply map_subseteq_spec. intros k c Hc. by apply Hfm. }
  destruct (maxEntries <? _) eqn:E.
  - destruct (drop_excess_spec order (Z.of_nat (size fm)) 0 fm) as [H1 H2]; try done; try lia.
    { intros k Hk. apply Hord in Hk as (c & Hc). exists c. by apply Hfm. }
    split_and!; [done| |].
    + intros k c Hc. apply Hfm. by apply (lookup_weaken _ _ _ _ Hc).
    + intros Hm. pose proof (map_subseteq_size _ _ Hsub). zlia.
  - split_and!; [zlia|intros k c; apply Hfm|]. intros _ k c Hc Hage. by apply Hfm.
Qed.

(** ** Witnesses *)

(** The stream [10 .. 17] in two packets, the second half first and overlapping. *)
Definition demo_stream : bytes := [10; 11; 12; 13; 14; 15; 16; 17].
Definition demo_items1 : list item := [IPadding; IFrame 1 0 {| off := 3; b := [13; 14; 15; 16; 17] |}].
Definition demo_items2 : list item :=
  [IFrame 0 2 {| off := 0; b := [10; 11] |}; IPing; IFrame 0 0 {| off := 1; b := [11; 12; 13] |}; IPadding].

Lemma parseCryptoFrames_roundtrip_witness :
  parseCryptoFrames (enc_payload demo_items2) = Ret (frames_of demo_items2).
Proof.
  apply parseCryptoFrames_roundtrip. unfold demo_items2.
  apply Forall_cons_2; [split_and!; [lia|lia|vmc|vmc|vmc|by apply bytes_okb_spec]|].
  apply Forall_cons_2; [exact I|].
  apply Forall_cons_2; [split_and!; [lia|lia|vmc|vmc|vmc|by apply bytes_okb_spec]|].
  apply Forall_cons_2; [exact I|apply Forall_nil_2].
Defined.

Lemma parseCryptoFrames_total_witness :
  wp (parseCryptoFrames [0; 6; 1]) (Forall (frame_ok [0; 6; 1])).
Proof. apply parseCryptoFrames_total. by apply bytes_okb_spec. Defined.

Lemma demo_piece o d :
  bool_decide (0 <= o ∧ o + len d <= 8 ∧ d = sub demo_stream o (o + len d)) = true →
  stream_piece demo_stream {| off := o; b := d |}.
Proof.
  intros (H1 & H2 & H3)%bool_decide_eq_true. unfold stream_piece. cbn [off b].
  change (len demo_stream) with 8. split_and!; [done..|]. intros k Hk. rewrite H3 at 1.
  rewrite get_sub by (change (len demo_stream) with 8; lia). zcases. done.
Qed.

Lemma AssembleCrypto_reassembles_witness :
  wp (feed [1; 2] [(5, enc_payload demo_items1); (6, enc_payload demo_items2)] ∅)
    (λ '(r, _), r = Some demo_stream).
Proof.
  eapply wp_mono; [apply (AssembleCrypto_reassembles demo_stream [1; 2]
    [(5, enc_payload demo_items1); (6, enc_payload demo_items2)]
    [frames_of demo_items1; frames_of demo_items2] ∅)|].
  - done.
  - done.
  - constructor; [|constructor; [|constructor]];
      (split; [reflexivity|split; [done|]]); repeat (constructor; [by apply demo_piece|]); constructor.
  - done.
  - vmc.
  - intros [r m'] (_ & _ & Hall). apply Hall. intros i Hi. change (len demo_stream) with 8 in Hi.
    destruct (decide (i < 2)).
    + exists {| off := 0; b := [10; 11] |}. split; [set_solver|]. split; [split; vmc|cbn; lia].
    + destruct (decide (i < 4)).
      * exists {| off := 1; b := [11; 12; 13] |}. split; [set_solver|]. split; [split; vmc|cbn; lia].
      * exists {| off := 3; b := [13; 14; 15; 16; 17] |}.
        split; [set_solver|]. split; [split; vmc|cbn; lia].
Defined.

Lemma cleanupStaleEntries_bounds_witness :
  Z.of_nat (size (cleanupStaleEntries (31 * 1000000000) [[2]]
    {[ [1] := {| data := []; mask := []; head := 0; lastAccess := 0 |};
       [2] := {| data := []; mask := []; head := 0; lastAccess := 5000000000 |} ]})) <= maxEntries.
Proof.
  apply cleanupStaleEntries_bounds.
  - repeat constructor. set_solver.
  - intros k. rewrite list_elem_of_singleton. split.
    + intros ->. eexists. split; [reflexivity|vmc].
    + intros (c & Hc & Hage). rewrite !lookup_insert_Some in Hc.
      destruct Hc as [[<- <-]|(_ & Hc)]; [vm_compute in Hage; by destruct Hage|].
      apply lookup_singleton_Some in Hc as [<- _]. done.
Defined.
