(* ===== verification/QuicSni.v ===== *)
(** * The server name of a QUIC connection: src/src/sni/quic.go

    An Initial packet is decrypted, its CRYPTO frames are put to those seen before of the
    same connection, and the name is read from the ClientHello when it is complete.  The
    reader golang.org/x/crypto/cryptobyte is a parameter with its documented laws. *)

From Stdlib Require Import ZArith Lia.
From stdpp Require Import base list numbers gmap.
From S2P Require Import Prelude Fragment Buffer Tls Quic Assemble.

Local Open Scope Z_scope.

(** The reads of a [cryptobyte.String]: what was read and the rest, or failure. *)
Class Cryptobyte := {
  ReadUint8 : bytes → option (Z * bytes);
  ReadUint16 : bytes → option (Z * bytes);
  ReadUint8LengthPrefixed : bytes → option (bytes * bytes);
  ReadUint16LengthPrefixed : bytes → option (bytes * bytes);
  ReadUint24LengthPrefixed : bytes → option (bytes * bytes);
  Skip : Z → bytes → option bytes }.

Definition get24 (l : bytes) (i : Z) : Z := get l i * 65536 + get16 l (i + 1).

(** A vector behind a length of [w] bytes. *)
Definition prefixed (w n : Z) (s : bytes) : option (bytes * bytes) :=
  if len s <? w + n then None else Some (sub s w (w + n), sub s (w + n) (len s)).

(** Big-endian integers and vectors behind their length; a read fails when the string is
    too short, and advances over what it read otherwise. *)
Class CryptobyteLaws {C : Cryptobyte} := {
  ReadUint8_law s : ReadUint8 s = if len s <? 1 then None else Some (get s 0, sub s 1 (len s));
  ReadUint16_law s : ReadUint16 s = if len s <? 2 then None else Some (get16 s 0, sub s 2 (len s));
  ReadUint8LengthPrefixed_law s : bytes_ok s →
    ReadUint8LengthPrefixed s = if len s <? 1 then None else prefixed 1 (get s 0) s;
  ReadUint16LengthPrefixed_law s : bytes_ok s →
    ReadUint16LengthPrefixed s = if len s <? 2 then None else prefixed 2 (get16 s 0) s;
  ReadUint24LengthPrefixed_law s : bytes_ok s →
    ReadUint24LengthPrefixed s = if len s <? 3 then None else prefixed 3 (get24 s 0) s;
  Skip_law n s : 0 <= n → Skip n s = if len s <? n then None else Some (sub s n (len s)) }.

Section sni.
Context {Cb : Cryptobyte}.

(** The names of a server_name extension: the first entry decides.  [inr] is the result of
    the function, an error being [None]; [inl] goes on with the next extension. *)
Definition sni_entry (sniList : bytes) : option (option bytes) :=
  if len sniList =? 0 then None else
  match ReadUint8 sniList with
  | Some (nameType, rest) =>
      if negb (nameType =? 0) then Some None else
      match ReadUint16LengthPrefixed rest with
      | Some (host, _) => if len host =? 0 then Some None else Some (Some host)
      | None => Some None
      end
  | None => Some None
  end.

(** The loop over the extensions: [None] when there is no server_name among them, and
    otherwise the result of the function. *)
Fixpoint quic_exts (fuel : nat) (exts : bytes) : go (option (option bytes)) :=
  match fuel with
  | O => Spin
  | S f =>
      if len exts =? 0 then Ret None else
      match ReadUint16 exts with
      | None => Ret (Some None)
      | Some (typ, exts) =>
          match ReadUint16LengthPrefixed exts with
          | None => Ret (Some None)
          | Some (extData, exts) =>
              if negb (typ =? 0) then quic_exts f exts else
              match ReadUint16LengthPrefixed extData with
              | None => Ret (Some None)
              | Some (sniList, _) =>
                  match sni_entry sniList with
                  | Some r => Ret (Some r)
                  | None => quic_exts f exts
                  end
              end
          end
      end
  end.

(** The extensions of a ClientHello body; [None] is an error. *)
Definition quic_hello (ch : bytes) : option bytes :=
  match Skip (2 + 32) ch with
  | None => None
  | Some ch =>
      match ReadUint8LengthPrefixed ch with
      | None => None
      | Some (_, ch) =>
          match ReadUint16LengthPrefixed ch with
          | None => None
          | Some (_, ch) =>
              match ReadUint8LengthPrefixed ch with
              | None => None
              | Some (_, ch) =>
                  match ReadUint16LengthPrefixed ch with
                  | None => None
                  | Some (exts, _) => Some exts
                  end
              end
          end
      end
  end.

(** [None] is [errNotHello]. *)
Fixpoint quic_messages (fuel : nat) (s : bytes) : go (option bytes) :=
  match fuel with
  | O => Spin
  | S f =>
      if len s =? 0 then Ret None else
      match ReadUint8 s with
      | None => Ret None
      | Some (hsType, s) =>
          match ReadUint24LengthPrefixed s with
          | None => Ret None
          | Some (body, s) =>
              if negb (hsType =? tlsHandshakeClientHello) then quic_messages f s else
              match quic_hello body with
              | None => Ret None
              | Some exts =>
                  let! r := quic_exts (S (length exts)) exts in
                  match r with
                  | Some r => Ret r
                  | None => quic_messages f s
                  end
              end
          end
      end
  end.

Definition extractSNIFromQUIC (crypto : bytes) : go (option bytes) := quic_messages (S (length crypto)) crypto.

(** [recover] turns a panic into the zero results. *)
Definition assembleSafe (now1 now2 : Z) (dcid plain : bytes) (m : cmap) : go (option bytes * cmap) :=
  match AssembleCrypto now1 now2 dcid plain m with
  | Panic => Ret (None, m)
  | r => r
  end.

Context (hp_encrypt : bytes → Z → bytes → bytes).
Context (initial_iv : bytes → Z → bytes).
Context (aead_open : bytes → Z → bytes → bytes → bytes → option bytes).

(** [None] is ("", false). *)
Definition ParseQUICClientHelloSNI (now1 now2 : Z) (payload : bytes) (m : cmap) : go (option bytes * cmap) :=
  let! initial := IsInitial payload in
  if negb initial then Ret (None, m) else
  let! dcid := ParseDCID payload in
  let dcid := default [] dcid in
  let! plain := DecryptInitial hp_encrypt initial_iv aead_open dcid payload in
  match plain with
  | None => Ret (None, m)
  | Some plain =>
      let! (crypto, m) := assembleSafe now1 now2 dcid plain m in
      match crypto with
      | None => Ret (None, m)
      | Some crypto =>
          if len crypto =? 0 then Ret (None, m) else
          let! host := extractSNIFromQUIC crypto in
          match host with
          | None => Ret (None, m)
          | Some host => if len host =? 0 then Ret (None, m) else Ret (Some host, ClearDCID dcid m)
          end
      end
  end.
End sni.

(** ** The reader on what an encoder wrote *)

Section reader.
#[local] Set Default Proof Using "Type*".
Context {Cb : Cryptobyte} {Laws : CryptobyteLaws}.
Implicit Types (s d l : bytes).

Lemma prefixed_spec w n s d r : prefixed w n s = Some (d, r) → 0 <= w → 0 <= n →
  d = sub s w (w + n) ∧ len d = n ∧ len r = len s - w - n ∧ 0 <= len s - w - n.
Proof.
  intros H Hw Hn. unfold prefixed in H. destruct (_ <? _) eqn:E; [done|]. injection H as <- <-. bprop.
  rewrite !len_sub by lia. split_and!; [done|lia..].
Qed.

Lemma prefixed_enc w (l d s : bytes) : len l = w → prefixed w (len d) (l ++ d ++ s) = Some (d, s).
Proof.
  intros <-. unfold prefixed. rewrite !len_app. zcases. f_equal. f_equal.
  - apply sub_copied; [lia|lia|rewrite !len_app; lia|]. intros k Hk. rewrite !get_app. zcases. f_equal. lia.
  - apply sub_copied; [lia|lia|rewrite !len_app; lia|]. intros k Hk. rewrite !get_app. zcases. f_equal. lia.
Qed.

Lemma read_u8 x s : ReadUint8 (x :: s) = Some (x, s).
Proof.
  rewrite ReadUint8_law. cbn [length]. case_if; [zlia|]. f_equal. f_equal.
  change (x :: s) with ([x] ++ s). apply sub_copied; [lia|cbn [length app]; lia|cbn [length app]; lia|].
  intros k Hk. rewrite get_app. cbn [length]. zcases. f_equal. lia.
Qed.

Lemma get16_enc v s : 0 <= v < 65536 → get16 (bytes16 v ++ s) 0 = v.
Proof. intros Hv. by apply get16_bytes16. Qed.

Lemma read_u16 v s : 0 <= v < 65536 → ReadUint16 (bytes16 v ++ s) = Some (v, s).
Proof.
  intros Hv. rewrite ReadUint16_law, len_app, len_bytes16. case_if; [zlia|].
  rewrite get16_enc by done. f_equal. f_equal.
  apply sub_copied; [lia|lia|rewrite len_app, len_bytes16; lia|].
  intros k Hk. rewrite get_app, len_bytes16. zcases. f_equal. lia.
Qed.

Lemma read_p8 d s : bytes_ok (len d :: d ++ s) → ReadUint8LengthPrefixed (len d :: d ++ s) = Some (d, s).
Proof.
  intros Hok. rewrite ReadUint8LengthPrefixed_law by done. case_if; [cbn [length] in *; zlia|].
  rewrite get_cons. cbn [Z.eqb]. apply (prefixed_enc 1 [len d]). done.
Qed.

Lemma read_p16 d s : bytes_ok (d ++ s) → len d < 65536 →
  ReadUint16LengthPrefixed (bytes16 (len d) ++ d ++ s) = Some (d, s).
Proof.
  intros Hok Hd. rewrite ReadUint16LengthPrefixed_law.
  - rewrite len_app, len_bytes16. case_if; [zlia|]. rewrite get16_enc by lia.
    apply (prefixed_enc 2 (bytes16 (len d))). apply len_bytes16.
  - apply bytes_ok_app. split; [apply bytes_ok_bytes16|done].
Qed.

(** The length of a handshake message, three bytes. *)
Definition bytes24 (n : Z) : bytes := u8 (Z.shiftr n 16) :: bytes16 n.

Lemma get24_enc n s : 0 <= n < 16777216 → get24 (bytes24 n ++ s) 0 = n.
Proof.
  intros Hn. unfold get24, bytes24. rewrite <- app_comm_cons, get_cons. cbn [Z.eqb].
  assert (get16 (u8 (Z.shiftr n 16) :: bytes16 n ++ s) (0 + 1) = n mod 65536) as ->.
  { apply get16_bytes16; [apply Z.mod_pos_bound; done|..].
    - change (get (u8 (Z.shiftr n 16) :: bytes16 n ++ s) (0 + 1)) with (u8 (Z.shiftr n 8)).
      change (get (bytes16 (n mod 65536)) 0) with (u8 (Z.shiftr (n mod 65536) 8)).
      unfold u8. rewrite !Z.shiftr_div_pow2 by lia. change (2 ^ 8) with 256. Z.div_mod_to_equations; lia.
    - change (get (u8 (Z.shiftr n 16) :: bytes16 n ++ s) (0 + 1 + 1)) with (u8 n).
      change (get (bytes16 (n mod 65536)) 1) with (u8 (n mod 65536)).
      unfold u8. Z.div_mod_to_equations; lia. }
  rewrite u8_small.
  - rewrite Z.shiftr_div_pow2 by lia. change (2 ^ 16) with 65536. Z.div_mod_to_equations; lia.
  - unfold is_byte. rewrite Z.shiftr_div_pow2 by lia. change (2 ^ 16) with 65536. Z.div_mod_to_equations; lia.
Qed.

Lemma read_p24 d s : bytes_ok (d ++ s) → len d < 16777216 →
  ReadUint24LengthPrefixed (bytes24 (len d) ++ d ++ s) = Some (d, s).
Proof.
  intros Hok Hd. assert (len (bytes24 (len d)) = 3) as H3 by done. rewrite ReadUint24LengthPrefixed_law.
  - rewrite len_app, H3. case_if; [zlia|]. rewrite get24_enc by lia. by apply prefixed_enc.
  - apply bytes_ok_app. split; [|done]. constructor; [apply is_byte_u8|apply bytes_ok_bytes16].
Qed.

Lemma enc_handshake_24 h : enc_handshake h = 1 :: bytes24 (len (enc_hello h)) ++ enc_hello h.
Proof. unfold enc_handshake, bytes24. by rewrite <- app_comm_cons. Qed.

(** ** The name of a ClientHello *)

Lemma sni_entry_enc host : bytes_ok host → 0 < len host < 65536 →
  sni_entry ([0] ++ bytes16 (len host) ++ host) = Some (Some host).
Proof.
  intros Hok Hl. unfold sni_entry. case_if; [cbn [app length] in *; zlia|]. cbn [app]. rewrite read_u8. cbn [negb Z.eqb].
  rewrite <- (app_nil_r host) at 2. rewrite read_p16 by (rewrite ?app_nil_r; done || lia). case_if; [zlia|done].
Qed.

Lemma exts_pieces_ok es : bytes_ok (enc_exts es) → Forall (λ e, bytes_ok e.2) es.
Proof.
  intros H. induction es as [|e es IH]; constructor.
  - unfold enc_exts in H. cbn [map List.concat] in H. apply bytes_ok_app in H as [H _].
    unfold enc_ext in H. by apply bytes_ok_app in H as [_ [_ H]%bytes_ok_app].
  - apply IH. unfold enc_exts in H. cbn [map List.concat] in H. by apply bytes_ok_app in H as [_ H].
Qed.

Lemma quic_exts_enc es1 es2 host fuel :
  bytes_ok (enc_exts (es1 ++ (0, enc_sni host) :: es2)) →
  Forall (λ e, 0 <= e.1 < 65536 ∧ len e.2 < 65536) (es1 ++ (0, enc_sni host) :: es2) →
  Forall (λ e, e.1 ≠ 0) es1 → 0 < len host →
  len (enc_exts (es1 ++ (0, enc_sni host) :: es2)) < Z.of_nat fuel →
  quic_exts fuel (enc_exts (es1 ++ (0, enc_sni host) :: es2)) = Ret (Some (Some host)).
Proof.
  intros Hok Hfit Hne Hh. revert fuel Hok Hfit. induction Hne as [|[et ed] es1 He Hne IH]; intros fuel Hok Hfit Hf;
    (destruct fuel as [|fuel]; [lia|]); cbn [app] in *; apply Forall_cons_1 in Hfit as [[Het Hed] Hfit];
    cbn [fst snd] in *; rewrite enc_exts_cons in *; cbn [fst snd] in *; cbn [quic_exts];
    pose proof Hok as [_ [_ Hok2]%bytes_ok_app]%bytes_ok_app.
  - case_if; [rewrite !len_app, !len_bytes16 in *; zlia|].
    rewrite read_u16 by lia. rewrite read_p16 by (done || lia). cbn [negb Z.eqb].
    apply bytes_ok_app in Hok2 as [Hs _]. unfold enc_sni in *.
    assert (3 + len host = len ([0] ++ bytes16 (len host) ++ host)) as ->.
    { rewrite !len_app, len_bytes16. change (len [0]) with 1. lia. }
    apply bytes_ok_app in Hs as [_ Hs]. rewrite !len_app, !len_bytes16 in Hed. change (len [0]) with 1 in Hed.
    rewrite <- (app_nil_r ([0] ++ bytes16 (len host) ++ host)) at 2.
    rewrite read_p16; [|by rewrite app_nil_r|rewrite !len_app, len_bytes16; change (len [0]) with 1; lia].
    apply bytes_ok_app in Hs as [_ Hs]. apply bytes_ok_app in Hs as [_ Hs].
    by rewrite sni_entry_enc by (done || lia).
  - case_if; [rewrite !len_app, !len_bytes16 in *; zlia|].
    rewrite read_u16 by lia. rewrite read_p16 by (done || lia). case_if; [|zlia].
    apply IH; [by apply bytes_ok_app in Hok2 as [_ ?]|done|].
    rewrite !len_app, !len_bytes16 in Hf. lia.
Qed.

Lemma quic_hello_enc h : hello_ok h → quic_hello (enc_hello h) = Some (enc_exts (h_exts h)).
Proof.
  intros (Hv & Hr & Hs & Hc & Hm & Hx & Hb & Hes). unfold quic_hello, enc_hello in *.
  pose proof Hb as [Hb1 [Hb2 Hb3]%bytes_ok_app]%bytes_ok_app. rewrite Skip_law by lia.
  case_if; [rewrite !len_app, !len_bytes16 in *; zlia|].
  rewrite (app_assoc (bytes16 _)).
  set (tl := ([len (h_sid h)] ++ h_sid h) ++ _) in *.
  assert (sub ((bytes16 (h_version h) ++ h_random h) ++ tl) (2 + 32) (len ((bytes16 (h_version h) ++ h_random h) ++ tl)) = tl) as ->.
  { apply sub_copied; [lia|rewrite !len_app, len_bytes16; lia|lia|]. intros k Hk.
    rewrite (get_app _ tl), len_app, len_bytes16. zcases. f_equal. lia. }
  unfold tl in *. rewrite <- !app_assoc in *. cbn [app] in *. rewrite read_p8 by done.
  apply Forall_cons_1 in Hb3 as [_ Hb3]. apply bytes_ok_app in Hb3 as [_ Hb3]. apply bytes_ok_app in Hb3 as [_ Hb3].
  rewrite read_p16 by (done || lia). apply bytes_ok_app in Hb3 as [_ Hb3].
  rewrite read_p8 by done. apply Forall_cons_1 in Hb3 as [_ Hb3]. apply bytes_ok_app in Hb3 as [_ Hb3].
  apply bytes_ok_app in Hb3 as [_ Hb3].
  rewrite <- (app_nil_r (enc_exts (h_exts h))) at 2. rewrite read_p16 by (rewrite ?app_nil_r; done || lia). done.
Qed.
End reader.

Section names.
#[local] Set Default Proof Using "Type*".
Context {Cb : Cryptobyte} {Laws : CryptobyteLaws}.
Implicit Types (s d l : bytes).

(** A ClientHello with one server_name extension, for [host]. *)
Definition names_host (h : hello) (es1 es2 : list (Z * bytes)) (host : bytes) : Prop :=
  hello_ok h ∧ h_exts h = es1 ++ (0, enc_sni host) :: es2 ∧ Forall (λ e, e.1 ≠ 0) es1 ∧ 0 < len host
  ∧ len (enc_hello h) < 16777216.

Lemma hello_body_ok h : hello_ok h → bytes_ok (enc_hello h).
Proof. by intros (_ & _ & _ & _ & _ & _ & Hb & _). Qed.

Lemma extract_whole h es1 es2 host : names_host h es1 es2 host →
  extractSNIFromQUIC (enc_handshake h) = Ret (Some host).
Proof.
  intros (Hok & He & Hne & Hh & Hl). unfold extractSNIFromQUIC. rewrite enc_handshake_24.
  cbn [quic_messages]. case_if; [cbn [length] in *; zlia|]. rewrite read_u8.
  pose proof (hello_body_ok h Hok) as Hb. rewrite <- (app_nil_r (enc_hello h)) at 2.
  rewrite read_p24 by (rewrite ?app_nil_r; done). cbn [negb Z.eqb Pos.eqb tlsHandshakeClientHello].
  change (1 =? tlsHandshakeClientHello) with true. cbn [negb]. rewrite quic_hello_enc by done. rewrite He in *.
  assert (bytes_ok (enc_exts (h_exts h))) as Hx.
  { unfold enc_hello in Hb. by do 6 apply bytes_ok_app in Hb as [_ Hb]. }
  pose proof Hok as (_ & _ & _ & _ & _ & Hxl & _ & Hes).
  pose proof (exts_data_fit _ Hxl Hes) as Hfit. rewrite He in *.
  rewrite quic_exts_enc by (done || lia). done.
Qed.

(** An incomplete handshake message has no name yet. *)
Lemma extract_prefix h n : hello_ok h → len (enc_hello h) < 16777216 → 0 < n < len (enc_handshake h) →
  extractSNIFromQUIC (sub (enc_handshake h) 0 n) = Ret None.
Proof.
  intros Hok Hl Hn. unfold extractSNIFromQUIC. cbn [quic_messages]. rewrite len_sub by lia. case_if; [zlia|].
  rewrite ReadUint8_law, len_sub by lia. case_if; [done|].
  set (s := sub (sub (enc_handshake h) 0 n) 1 (n - 0)).
  assert (len s = n - 1) as Hs by (unfold s; rewrite len_sub by (rewrite ?len_sub by lia; lia); lia).
  assert (∀ k, 0 <= k < n - 1 → get s k = get (bytes24 (len (enc_hello h)) ++ enc_hello h) k) as Hg.
  { intros k Hk. unfold s. rewrite !get_sub by (rewrite ?len_sub by lia; lia). zcases.
    rewrite enc_handshake_24, get_cons. zcases. f_equal. lia. }
  assert (bytes_ok s) as Hbs by (apply bytes_ok_sub, bytes_ok_sub, enc_handshake_ok; done).
  rewrite ReadUint24LengthPrefixed_law, Hs by done. case_if; [done|].
  assert (get24 s 0 = len (enc_hello h)) as ->.
  { rewrite <- (get24_enc (len (enc_hello h)) (enc_hello h)) by lia. unfold get24, get16.
    change (0 + 1 + 1) with 2. rewrite !Hg by zlia. done. }
  unfold prefixed. rewrite Hs. case_if; [done|].
  assert (len (enc_handshake h) = 4 + len (enc_hello h)) as E.
  { rewrite enc_handshake_24. cbn [length]. rewrite length_app. change (length (bytes24 _)) with 3%nat. lia. }
  zlia.
Qed.

(** ** Any bytes *)

Lemma wp_quic_exts_any fuel exts : bytes_ok exts → len exts < Z.of_nat fuel → wp (quic_exts fuel exts) (λ _, True).
Proof.
  revert exts. induction fuel as [|fuel IH]; intros exts Hok Hf; [lia|]. cbn [quic_exts].
  case_if; [by apply wp_ret|]. rewrite ReadUint16_law. case_if; [by apply wp_ret|].
  set (rest := sub exts 2 (len exts)). assert (bytes_ok rest) as Hr by by apply bytes_ok_sub.
  assert (len rest = len exts - 2) as Hlr by (unfold rest; rewrite len_sub by zlia; lia).
  rewrite ReadUint16LengthPrefixed_law by done. case_if; [by apply wp_ret|].
  pose proof (get16_range rest 0 Hr). unfold prefixed. case_if; [by apply wp_ret|].
  assert (wp (quic_exts fuel (sub rest (2 + get16 rest 0) (len rest))) (λ _, True)) as Hnext.
  { apply IH; [by apply bytes_ok_sub|]. rewrite len_sub by zlia. zlia. }
  case_if; [done|].
  destruct (ReadUint16LengthPrefixed _) as [[sniList ?]|]; [|by apply wp_ret].
  destruct (sni_entry sniList); [by apply wp_ret|done].
Qed.

Lemma quic_hello_ok ch exts : bytes_ok ch → quic_hello ch = Some exts → bytes_ok exts.
Proof.
  intros Hok. unfold quic_hello. rewrite Skip_law by lia. case_if; [done|].
  assert (∀ w n s d r, prefixed w n s = Some (d, r) → bytes_ok s → bytes_ok d ∧ bytes_ok r) as Hp.
  { intros w n s d r. unfold prefixed. case_if; [done|]. intros [= <- <-] Hs. by split; apply bytes_ok_sub. }
  set (s1 := sub ch (2 + 32) (len ch)). assert (bytes_ok s1) as H1 by by apply bytes_ok_sub.
  rewrite ReadUint8LengthPrefixed_law by done. case_if; [done|].
  destruct (prefixed 1 _ s1) as [[? s2]|] eqn:E1; [|done]. apply Hp in E1 as [_ H2]; [|done].
  rewrite ReadUint16LengthPrefixed_law by done. case_if; [done|].
  destruct (prefixed 2 _ s2) as [[? s3]|] eqn:E2; [|done]. apply Hp in E2 as [_ H3]; [|done].
  rewrite ReadUint8LengthPrefixed_law by done. case_if; [done|].
  destruct (prefixed 1 _ s3) as [[? s4]|] eqn:E3; [|done]. apply Hp in E3 as [_ H4]; [|done].
  rewrite ReadUint16LengthPrefixed_law by done. case_if; [done|].
  destruct (prefixed 2 _ s4) as [[? s5]|] eqn:E4; [|done]. apply Hp in E4 as [H5 _]; [|done].
  by intros [= <-].
Qed.

Lemma wp_quic_messages_any fuel s : bytes_ok s → len s < Z.of_nat fuel → wp (quic_messages fuel s) (λ _, True).
Proof.
  revert s. induction fuel as [|fuel IH]; intros s Hok Hf; [lia|]. cbn [quic_messages].
  case_if; [by apply wp_ret|]. rewrite ReadUint8_law. case_if; [by apply wp_ret|].
  set (rest := sub s 1 (len s)). assert (bytes_ok rest) as Hr by by apply bytes_ok_sub.
  assert (len rest = len s - 1) as Hlr by (unfold rest; rewrite len_sub by zlia; lia).
  rewrite ReadUint24LengthPrefixed_law by done. case_if; [by apply wp_ret|].
  assert (0 <= get24 rest 0) as Hg.
  { pose proof (get16_range rest 1 Hr). pose proof (bytes_ok_get rest 0 Hr) as Hb. unfold is_byte in Hb.
    unfold get24. change (0 + 1) with 1. lia. }
  unfold prefixed. case_if; [by apply wp_ret|].
  assert (wp (quic_messages fuel (sub rest (3 + get24 rest 0) (len rest))) (λ _, True)) as Hnext.
  { apply IH; [by apply bytes_ok_sub|]. rewrite len_sub by zlia. zlia. }
  case_if; [done|].
  destruct (quic_hello _) as [exts|] eqn:Ee; [|by apply wp_ret].
  apply quic_hello_ok in Ee; [|by apply bytes_ok_sub].
  apply wp_bind. eapply wp_mono; [apply wp_quic_exts_any; [done|lia]|].
  intros [r|] _; [by apply wp_ret|done].
Qed.
End names.

(** ** Any packet *)

(** The buffers of the connections, whatever the peers sent. *)
Definition cbuf_wf (c : cbuf) : Prop :=
  len (data c) = len (Assemble.mask c) ∧ 0 <= head c <= len (Assemble.mask c) ∧ bytes_ok (data c).
Definition cmap_wf (m : cmap) : Prop := ∀ k c, m !! k = Some c → cbuf_wf c.

Lemma bytes_from_get (l : bytes) : (∀ k, 0 <= k < len l → is_byte (get l k)) → bytes_ok l.
Proof.
  intros H. apply Forall_lookup. intros n x Hn. pose proof (lookup_lt_Some _ _ _ Hn).
  specialize (H (Z.of_nat n) ltac:(lia)). by rewrite get_nth, (nth_lookup_Some _ _ _ _ Hn) in H.
Qed.

Lemma wp_write_any now c off p : cbuf_wf c → 0 <= off → bytes_ok p → wp (write now c off p) cbuf_wf.
Proof.
  intros (Hl & Hh & Hok) Ho Hp. unfold write. cbv zeta. wp_step; [by apply wp_ret|]. apply wp_bind.
  eapply wp_mono; [apply wp_ensure; zlia|]. intros c' (Hd & Hm & Hgd & Hgm & Hh').
  assert (cbuf_wf c') as Hc'.
  { split_and!; [lia|lia|lia|]. apply bytes_from_get. intros k Hk. rewrite Hgd. by apply bytes_ok_get. }
  wp_step; [by apply wp_ret|]. bprop. apply wp_bind, wp_copy_fit; [lia|lia|lia|].
  apply wp_bind. eapply wp_mono; [apply wp_mark; lia|]. intros m' [Hml Hmg].
  apply wp_bind. eapply wp_mono; [apply wp_advance; lia|]. intros h' (H1 & H2 & _). apply wp_ret.
  destruct Hc' as (_ & _ & Hok'). split_and!; cbn [data Assemble.mask head]; [rewrite len_splice by lia; lia|lia|lia|].
  by apply bytes_ok_splice.
Qed.

Lemma wp_write_frames_any now fs c : cbuf_wf c → Forall (λ f, 0 <= off f ∧ bytes_ok (b f)) fs →
  wp (write_frames now fs c) (λ r, ∀ c', r = Some c' → cbuf_wf c').
Proof.
  intros Hc Hfs. revert c Hc. induction Hfs as [|f fs [Ho Hb] Hfs IH]; intros c Hc; cbn [write_frames].
  { apply wp_ret. by intros c' [= <-]. }
  wp_step; [by apply IH|]. apply wp_bind. eapply wp_mono; [by apply wp_write_any|]. intros c' Hc'.
  wp_step; [by apply wp_ret|]. by apply IH.
Qed.

Lemma wp_AssembleCrypto_any now1 now2 dcid plain m : bytes_ok plain → cmap_wf m →
  wp (AssembleCrypto now1 now2 dcid plain m) (λ r, cmap_wf r.2 ∧ ∀ s, r.1 = Some s → bytes_ok s).
Proof.
  intros Hp Hm. unfold AssembleCrypto. wp_step; [by apply wp_ret|]. apply wp_bind.
  eapply wp_mono; [apply (wp_crypto_loop _ _ _ []); try done; lia|]. intros fs Hfs.
  case_bool_decide; [by apply wp_ret|]. cbv zeta. apply wp_bind.
  assert (Forall (λ f, 0 <= off f ∧ bytes_ok (b f)) fs) as Hfs'.
  { eapply Forall_impl; [exact Hfs|]. intros f [Ho (i & j & _ & _ & _ & ->)]. split; [lia|by apply bytes_ok_sub]. }
  eapply wp_mono; [apply wp_write_frames_any; [|done]|].
  { destruct (m !! dcid) as [c|] eqn:E; [by apply (Hm dcid)|]. split_and!; cbn; try done; [lia..|constructor]. }
  intros [c|] Hc.
  - specialize (Hc c eq_refl) as (Hl & Hh & Hok). apply wp_bind. unfold snapshot.
    assert (cmap_wf (<[dcid := c]> m)) as Hm'.
    { intros k c'. destruct (decide (k = dcid)) as [->|]; [rewrite lookup_insert_eq; by intros [= <-]|].
      rewrite lookup_insert_ne by done. apply Hm. }
    wp_step; [by apply wp_ret, wp_ret|]. apply wp_bind, wp_make; [lia|]. apply wp_bind, wp_slice; [lia..|].
    apply wp_bind, wp_copy_from; [lia|lia|]. apply wp_ret, wp_ret. cbn [fst snd]. split; [done|].
    intros s [= <-]. apply bytes_ok_splice; [by apply bytes_ok_replicate|].
    apply bytes_ok_take, bytes_ok_sub. done.
  - apply wp_ret. cbn [fst snd]. split; [|done]. intros k c'. rewrite lookup_delete_Some. intros [_ ?]. by apply (Hm k).
Qed.

Section packets.
#[local] Set Default Proof Using "Type*".
Context {Cb : Cryptobyte} {Laws : CryptobyteLaws}.
Context (hp_encrypt : bytes → Z → bytes → bytes).
Context (initial_iv : bytes → Z → bytes).
Context (aead_open : bytes → Z → bytes → bytes → bytes → option bytes).
Context (Hsh : cipher_shape hp_encrypt initial_iv aead_open).

(** [ParseQUICClientHelloSNI] on any datagram and any buffers: it ends, it does not panic
    (the [recover] of [assembleSafe] is never needed), and the buffers stay well-formed. *)
Lemma wp_ParseQUICClientHelloSNI now1 now2 payload m : bytes_ok payload → cmap_wf m →
  wp (ParseQUICClientHelloSNI hp_encrypt initial_iv aead_open now1 now2 payload m) (λ r, cmap_wf r.2).
Proof.
  intros Hp Hm. unfold ParseQUICClientHelloSNI, IsInitial. pose proof (bytes_ok_get payload 0 Hp).
  apply wp_bind. eapply (wp_mono _ (λ _, True)).
  { wp_step; [by apply wp_ret|]. do 2 wp_step. wp_step; [by apply wp_ret|]. do 2 wp_step.
    wp_step; [by apply wp_ret|]. wp_step; by apply wp_ret. }
  intros [] _; cbn [negb]; [|by apply wp_ret]. apply wp_bind. unfold ParseDCID.
  eapply (wp_mono _ (λ _, True)).
  { wp_step; [by apply wp_ret|]. do 2 wp_step. wp_step; [by apply wp_ret|]. bprop. do 2 wp_step.
    pose proof (bytes_ok_get payload 5 Hp) as Hb. unfold is_byte in Hb.
    change (1 + 4) with 5. wp_step; [by apply wp_ret|]. do 2 wp_step. by apply wp_ret. }
  intros o _. apply wp_bind. eapply wp_mono; [by apply wp_DecryptInitial_any|].
  intros [plain|] Hpl; [|by apply wp_ret]. destruct (Hpl plain eq_refl) as [Hpb _]. apply wp_bind.
  unfold assembleSafe. pose proof (wp_AssembleCrypto_any now1 now2 (default [] o) plain m Hpb Hm) as Ha.
  destruct (AssembleCrypto _ _ _ _ _) as [[r m']| |]; [|done..]. destruct Ha as [Hm' Hr]. apply wp_ret.
  cbn [fst snd] in *. destruct r as [crypto|]; [|by apply wp_ret]. specialize (Hr crypto eq_refl).
  wp_step; [by apply wp_ret|]. apply wp_bind.
  eapply wp_mono; [apply wp_quic_messages_any; [done|lia]|]. intros [host|] _; [|by apply wp_ret].
  wp_step; [by apply wp_ret|]. apply wp_ret. cbn [snd]. unfold ClearDCID. case_if; [done|].
  intros k c. rewrite lookup_delete_Some. intros [_ ?]. by apply (Hm' k).
Qed.
End packets.

(** ** A ClientHello spread over Initial packets *)

(** An Initial packet, by its fields; its payload is CRYPTO frames, padding and PINGs. *)
Record initial := {
  i_ver : Z; i_first : Z; i_scid : bytes; i_kt : nat; i_token : bytes; i_kl : nat; i_plen : Z;
  i_pn : bytes; i_items : list item }.

Section sniff.
#[local] Set Default Proof Using "Type*".
Context {Cb : Cryptobyte} {Laws : CryptobyteLaws}.
Context (hp_encrypt : bytes → Z → bytes → bytes).
Context (initial_iv : bytes → Z → bytes).
Context (aead_open : bytes → Z → bytes → bytes → bytes → option bytes).
Context (aead_seal : bytes → Z → bytes → bytes → bytes → bytes).
Context (Hlaws : cipher_laws hp_encrypt initial_iv aead_open aead_seal).
Context (h : hello) (es1 es2 : list (Z * bytes)) (host : bytes) (Hh : names_host h es1 es2 host).
Context (dcid : bytes) (Hd : dcid ≠ []).

Definition initial_packet (p : initial) : bytes :=
  seal_initial hp_encrypt initial_iv aead_seal (i_ver p) (i_first p) dcid (i_scid p) (i_kt p) (i_token p)
    (i_kl p) (i_plen p) (i_pn p) (enc_payload (i_items p)).

(** The packet is well-formed and its frames are pieces of the ClientHello. *)
Definition initial_ok (p : initial) : Prop :=
  sealed_ok (i_ver p) (i_first p) dcid (i_scid p) (i_kt p) (i_token p) (i_kl p) (i_plen p) (i_pn p)
    (enc_payload (i_items p))
  ∧ Forall item_ok (i_items p) ∧ Forall (stream_piece (enc_handshake h)) (frames_of (i_items p)).

(** Every byte of the ClientHello was seen. *)
Definition complete (W : Z → Prop) : Prop := ∀ i, 0 <= i < len (enc_handshake h) → W i.
Definition seen (ps : list (Z * initial)) (i : Z) : Prop :=
  covers (concat (map (λ p, frames_of (i_items p.2)) ps)) i.

(** The packets one after the other, each at its time. *)
Fixpoint sniff (ps : list (Z * initial)) (m : cmap) : go (list (option bytes) * cmap) :=
  match ps with
  | [] => Ret ([], m)
  | (now, p) :: ps =>
      let! (r, m) := ParseQUICClientHelloSNI hp_encrypt initial_iv aead_open now now (initial_packet p) m in
      let! (rs, m) := sniff ps m in
      Ret (r :: rs, m)
  end.

Lemma handshake_len : len (enc_handshake h) = 4 + len (enc_hello h).
Proof using Type. rewrite enc_handshake_24. cbn [length]. rewrite length_app. change (length (bytes24 _)) with 3%nat. lia. Qed.

(** What one packet gives, when [W] was seen before it. *)
Definition sniffed (W : Z → Prop) (p : initial) (m : cmap) (r : option bytes * cmap) : Prop :=
  let W' i := W i ∨ covers (frames_of (i_items p)) i in
  (complete W' ∧ r.1 = Some host ∧ r.2 !! dcid = None
   ∨ ¬ complete W' ∧ r.1 = None ∧ map_inv (enc_handshake h) dcid W' r.2)
  ∧ ∀ k, k ≠ dcid → r.2 !! k = m !! k.

Lemma wp_sniff_one now p W m : initial_ok p → map_inv (enc_handshake h) dcid W m →
  (∀ i, W i → i < len (enc_handshake h)) → ¬ complete W →
  wp (ParseQUICClientHelloSNI hp_encrypt initial_iv aead_open now now (initial_packet p) m) (sniffed W p m).
Proof.
  intros (Hs & Hit & Hpc) Hinv HW Hnc. unfold ParseQUICClientHelloSNI. pose proof Hs as ((Hif & Hi128 & Hi48) & _).
  assert (IsInitial (initial_packet p) = Ret true) as ->.
  { unfold initial_packet, seal_initial. apply IsInitial_head, initial_byte_masked. done. }
  cbn [go_bind negb].
  assert (ParseDCID (initial_packet p) = Ret (Some dcid)) as ->.
  { unfold initial_packet, seal_initial. apply ParseDCID_head. by rewrite mask_high. }
  cbn [go_bind]. cbv zeta. change (default [] (Some dcid)) with dcid.
  assert (DecryptInitial hp_encrypt initial_iv aead_open dcid (initial_packet p) = Ret (Some (enc_payload (i_items p)))) as ->.
  { by apply (decrypt_sealed _ _ _ _ Hlaws). }
  cbn [go_bind]. unfold assembleSafe.
  pose proof (crypto_loop_enc (S (length (enc_payload (i_items p)))) (i_items p) (enc_payload (i_items p)) 0 []
    (at_pos_start _) ltac:(lia) Hit) as Hparse. cbn [app] in Hparse.
  destruct (decide (frames_of (i_items p) = [])) as [Hnil|Hne].
  { assert (AssembleCrypto now now dcid (enc_payload (i_items p)) m = Ret (None, m)) as ->.
    { unfold AssembleCrypto, parseCryptoFrames. rewrite Hparse, Hnil. case_if; done. }
    cbn [go_bind]. apply wp_ret. split; [right|done]. cbn [fst snd]. rewrite Hnil. split_and!.
    - intros Hc. apply Hnc. intros i Hi. destruct (Hc i Hi) as [?|(f & Hf & _)]; [done|set_solver].
    - done.
    - unfold map_inv in *. destruct (m !! dcid) as [c|].
      + eapply buf_inv_ext; [|exact Hinv]. intros i. split; [tauto|]. intros [?|(f & Hf & _)]; [done|set_solver].
      + intros i [?|(f & Hf & _)]; [by apply (Hinv i)|set_solver]. }
  pose proof (wp_AssembleCrypto (enc_handshake h) now now dcid (enc_payload (i_items p)) _ W m Hd Hparse Hne Hpc Hinv HW) as Ha.
  destruct (AssembleCrypto _ _ _ _ _) as [[r m']| |]; [|done..]. cbn [go_bind].
  destruct Ha as (Hi & Hk & hd & (H0 & Hrun & Hst) & Hle & Hr). cbn [fst snd] in *. subst r.
  pose proof handshake_len. pose proof Hh as (Hhok & _ & _ & Hhost & H24).
  set (W' i := W i ∨ covers (frames_of (i_items p)) i) in *.
  destruct (hd =? 0) eqn:E0.
  { apply wp_ret. split; [right|done]. split_and!; [|done|done]. intros Hc. apply Hst, Hc. zlia. }
  cbv beta. rewrite len_sub by lia. case_if; [zlia|]. destruct (decide (hd = len (enc_handshake h))) as [->|Hlt].
  - rewrite sub_full, (extract_whole h es1 es2 host Hh). cbn [go_bind]. case_if; [zlia|]. apply wp_ret.
    unfold ClearDCID. case_if; [destruct dcid; [done|cbn [length] in *; zlia]|]. split; [left|]; cbn [fst snd].
    + split_and!; [exact Hrun|done|apply lookup_delete_eq].
    + intros k Hkd. rewrite lookup_delete_ne by done. by apply Hk.
  - rewrite extract_prefix by (done || zlia). cbn [go_bind]. apply wp_ret.
    split; [right|done]. split_and!; [|done|done]. intros Hc. apply Hst, Hc. zlia.
Qed.

Lemma covers_pieces fs i : Forall (stream_piece (enc_handshake h)) fs → covers fs i → i < len (enc_handshake h).
Proof using Type. intros Hp (f & Hf & _ & Hi). rewrite Forall_forall in Hp. destruct (Hp f Hf) as (_ & Hl & _). lia. Qed.

Lemma wp_sniff ps now p W m : Forall (λ q, initial_ok q.2) (ps ++ [(now, p)]) →
  map_inv (enc_handshake h) dcid W m → (∀ i, W i → i < len (enc_handshake h)) →
  ¬ complete (λ i, W i ∨ seen ps i) → complete (λ i, W i ∨ seen (ps ++ [(now, p)]) i) →
  wp (sniff (ps ++ [(now, p)]) m) (λ r, r.1 = replicate (length ps) None ++ [Some host]
    ∧ r.2 !! dcid = None ∧ ∀ k, k ≠ dcid → r.2 !! k = m !! k).
Proof.
  revert W m. induction ps as [|[t q] ps IH]; intros W m Hok Hinv HW Hnc Hc; cbn [app sniff] in *;
    apply Forall_cons_1 in Hok as [Hq Hok]; cbn [snd] in Hq; apply wp_bind;
    (eapply wp_mono; [apply (wp_sniff_one _ _ W); [done|done|done|]|]).
  - intros H. apply Hnc. intros i Hi. left. by apply H.
  - intros [r m'] Hs1. unfold sniffed in Hs1. cbn [fst snd] in Hs1. destruct Hs1 as ([(_ & -> & Hdel)|(Hn & _)] & Hk); [by apply wp_ret|].
    exfalso. apply Hn. intros i Hi. destruct (Hc i Hi) as [|Hs]; [by left|right].
    unfold seen in Hs. cbn [map concat snd] in Hs. by rewrite app_nil_r in Hs.
  - intros H. apply Hnc. intros i Hi. left. by apply H.
  - intros [r m'] Hs1. unfold sniffed in Hs1. cbn [fst snd] in Hs1.
    destruct Hs1 as ([(Hcp & _)|(Hn & -> & Hinv')] & Hk).
    { exfalso. apply Hnc. intros i Hi. destruct (Hcp i Hi) as [|Hs]; [by left|right].
      unfold seen. cbn [map concat snd]. apply covers_app. by left. }
    apply wp_bind. eapply wp_mono; [apply (IH _ m' Hok Hinv')|].
    + intros i [|Hs]; [by apply HW|]. destruct Hq as (_ & _ & Hpc). by apply (covers_pieces _ _ Hpc).
    + intros H. apply Hnc. intros i Hi. unfold seen in *. cbn [map concat snd].
      rewrite covers_app. destruct (H i Hi) as [[]|]; tauto.
    + intros i Hi. destruct (Hc i Hi) as [?|Hs]; [by left; left|]. unfold seen in *. cbn [map concat snd] in Hs.
      rewrite covers_app in Hs. tauto.
    + intros [rs m2] (Hrs & Hdel & Hk2); cbn [fst snd] in *. apply wp_ret. cbn [fst snd]. subst rs.
      split_and!; [done|done|]. intros k Hkd. rewrite Hk2 by done. by apply Hk.
Qed.
End sniff.

(** C28: The ClientHello of a QUIC connection, spread over any number of Initial packets in any
    order, with frames that overlap, repeat, and stand between padding and PINGs: no packet
    gives a name until every byte of the ClientHello was seen; the packet that completes it
    gives the server name, the state of the connection is dropped, and the buffers of the
    other connections are as they were. *)
Theorem ParseQUICClientHelloSNI_finds {Cb : Cryptobyte} {Laws : CryptobyteLaws}
    (hp_encrypt : bytes → Z → bytes → bytes) (initial_iv : bytes → Z → bytes)
    (aead_open : bytes → Z → bytes → bytes → bytes → option bytes)
    (aead_seal : bytes → Z → bytes → bytes → bytes → bytes)
    (h : hello) (es1 es2 : list (Z * bytes)) (host dcid : bytes)
    (ps : list (Z * initial)) (now : Z) (p : initial) (m : cmap) :
  cipher_laws hp_encrypt initial_iv aead_open aead_seal → names_host h es1 es2 host → dcid ≠ [] →
  Forall (λ q, initial_ok h dcid q.2) (ps ++ [(now, p)]) → m !! dcid = None →
  ¬ complete h (seen ps) → complete h (seen (ps ++ [(now, p)])) →
  wp (sniff hp_encrypt initial_iv aead_open aead_seal dcid (ps ++ [(now, p)]) m) (λ r,
    r.1 = replicate (length ps) None ++ [Some host]
    ∧ r.2 !! dcid = None ∧ ∀ k, k ≠ dcid → r.2 !! k = m !! k).
Proof.
  intros Hl Hh Hd Hok Hm Hn Hc. apply (wp_sniff _ _ _ _ Hl h es1 es2 host Hh dcid Hd ps now p (λ _, False)).
  - done.
  - unfold map_inv. rewrite Hm. tauto.
  - done.
  - intros H. apply Hn. intros i Hi. by destruct (H i Hi).
  - intros i Hi. right. by apply Hc.
Qed.

(** ** Witnesses *)
Module Demo.
Definition read_prefixed (w : Z) (n : bytes → Z) (s : bytes) : option (bytes * bytes) :=
  if len s <? w then None else prefixed w (n s) s.

#[local] Instance reader : Cryptobyte := {|
  ReadUint8 s := if len s <? 1 then None else Some (get s 0, sub s 1 (len s));
  ReadUint16 s := if len s <? 2 then None else Some (get16 s 0, sub s 2 (len s));
  ReadUint8LengthPrefixed := read_prefixed 1 (λ s, get s 0);
  ReadUint16LengthPrefixed := read_prefixed 2 (λ s, get16 s 0);
  ReadUint24LengthPrefixed := read_prefixed 3 (λ s, get24 s 0);
  Skip n s := if len s <? n then None else Some (sub s n (len s)) |}.
#[local] Instance laws : CryptobyteLaws.
Proof. split; intros; reflexivity. Qed.

Definition stream : bytes := enc_handshake demo_hello.
Definition frame (o n : Z) : cryptoFrame := {| off := o; b := sub stream o (o + n) |}.
Definition packet_of (items : list item) : initial := {|
  i_ver := versionV1; i_first := 193; i_scid := [9]; i_kt := 0; i_token := [7; 7]; i_kl := 1; i_plen := 300;
  i_pn := [0; 5]; i_items := items |}.
(** The end of the ClientHello comes first. *)
Definition first_packet : initial := packet_of [IPing; IFrame 1 1 (frame 20 (len stream - 20)); IPadding].
Definition second_packet : initial := packet_of [IPadding; IFrame 0 1 (frame 0 30); IPing].

Lemma named : names_host demo_hello [(2570, [0])] [(16, [0; 3; 2; 104; 50])] [97; 46; 105; 111].
Proof. split_and!; [exact demo_hello_ok|reflexivity|by repeat constructor|cbn [length]; lia|vmc]. Qed.

Lemma frame_piece o n : 0 <= o → 0 <= n → o + n <= len stream → stream_piece stream (frame o n).
Proof.
  intros Ho Hn Hl. unfold stream_piece, frame. cbn [off b]. rewrite len_sub by lia. split_and!; [lia|lia|].
  intros k Hk. rewrite get_sub by lia. zcases. done.
Qed.

Lemma frames_pieces (fs : list (Z * Z)) :
  forallb (λ f, (0 <=? f.1) && (0 <=? f.2) && (f.1 + f.2 <=? len stream)) fs = true →
  Forall (stream_piece stream) (map (λ f, frame f.1 f.2) fs).
Proof.
  induction fs as [|[o n] fs IH]; cbn [forallb map]; [constructor|].
  intros [[[H1 H2]%andb_true_iff H3]%andb_true_iff H]%andb_true_iff. cbn [fst snd] in *.
  constructor; [apply frame_piece; zlia|by apply IH].
Qed.
End Demo.
#[local] Existing Instances Demo.reader Demo.laws.

Lemma packet_ok items : sealed_ok versionV1 193 [1; 2; 3; 4] [9] 0 [7; 7] 1 300 [0; 5] (enc_payload items) →
  Forall item_ok items → Forall (stream_piece Demo.stream) (frames_of items) →
  initial_ok demo_hello [1; 2; 3; 4] (Demo.packet_of items).
Proof. done. Qed.

Lemma ParseQUICClientHelloSNI_finds_witness :
  wp (sniff Toy.hp Toy.iv Toy.open Toy.seal [1; 2; 3; 4] [(5, Demo.first_packet); (6, Demo.second_packet)] ∅) (λ r,
    r.1 = [None; Some [97; 46; 105; 111]]).
Proof.
  assert (∀ items, bytes_okb (enc_payload items) && (2 <=? len (enc_payload items))
      && (len (enc_payload items) <? 1000) = true →
    sealed_ok versionV1 193 [1; 2; 3; 4] [9] 0 [7; 7] 1 300 [0; 5] (enc_payload items)) as Hseal.
  { intros items [[Hi Hl]%andb_true_iff Hm]%andb_true_iff. pose proof Toy.sealed as (H1 & H2 & H3 & H4 & H5 & H6 & H7 & _ & _).
    split_and!; try done; [change (len [0; 5]) with 2; zlia..|by apply bytes_okb_spec]. }
  eapply wp_mono; [apply (ParseQUICClientHelloSNI_finds Toy.hp Toy.iv Toy.open Toy.seal demo_hello [(2570, [0])]
    [(16, [0; 3; 2; 104; 50])] [97; 46; 105; 111] [1; 2; 3; 4] [(5, Demo.first_packet)] 6 Demo.second_packet ∅)|].
  - exact Toy.laws.
  - exact Demo.named.
  - done.
  - constructor; [|constructor; [|constructor]]; apply packet_ok.
    all: try (apply Hseal; vm_compute; reflexivity).
    all: try (first [apply (Demo.frames_pieces [(20, len Demo.stream - 20)])|apply (Demo.frames_pieces [(0, 30)])]; vm_compute; reflexivity).
    all: repeat (apply Forall_cons_2; [first [exact I|split_and!; [lia|lia|vmc|vmc|vmc|by apply bytes_okb_spec]]|]);
      apply Forall_nil_2.
  - done.
  - intros H. destruct (H 0 ltac:(vmc)) as (f & Hf & _ & Hi).
    apply list_elem_of_singleton in Hf as ->. cbn in Hi. lia.
  - intros i Hi. change (len (enc_handshake demo_hello)) with 77 in Hi. destruct (decide (i < 20)).
    + exists (Demo.frame 0 30). split; [by right; left|]. split; [split; vmc|].
      change (len (b (Demo.frame 0 30))) with 30. cbn [off Demo.frame]. lia.
    + exists (Demo.frame 20 (len Demo.stream - 20)). split; [by left|]. split; [split; vmc|].
      change (len (b (Demo.frame 20 (len Demo.stream - 20)))) with 57. cbn [off Demo.frame]. lia.
  - intros r (H & _). exact H.
Defined.
