(* ===== verification/Voice.v ===== *)
(** * Voice traffic

    src/src/stun/stun.go and src/src/discord/discord.go: which UDP payloads are STUN
    requests and packets of Discord's voice connections.  The handler leaves them alone. *)

From Stdlib Require Import ZArith Lia.
From stdpp Require Import base list numbers.
From S2P Require Import Prelude Quic.

Local Open Scope Z_scope.

Definition IsSTUNMessage (data : bytes) : go bool :=
  if len data <? 20 then Ret false else
  let! messageType := be16 data 0 in
  let! messageLength := be16 data 2 in
  if negb (len data =? messageLength + 20) then Ret false else
  if negb (Z.land messageType 0xC000 =? 0) then Ret false else
  if negb (Z.land messageType 0x0110 =? 0) then Ret false else
  let! magicCookie := be32 data 4 in
  if negb (magicCookie =? 0x2112A442) then Ret false else
  Ret true.

Definition GetSTUNMessageType (data : bytes) : go Z :=
  let! yes := IsSTUNMessage data in
  if negb yes then Ret 0 else
  let! t := be16 data 0 in
  Ret (Z.land t 0x3FFF).

Definition ipDiscoveryLen : Z := 74.
Definition ipDiscoveryBodyLen : Z := 70.
Definition rtpHeaderLen : Z := 12.

Definition IsIPDiscovery (data : bytes) : go bool :=
  if negb (len data =? ipDiscoveryLen) then Ret false else
  let! msgType := be16 data 0 in
  if negb (msgType =? 1) && negb (msgType =? 2) then Ret false else
  let! n := be16 data 2 in
  Ret (n =? ipDiscoveryBodyLen).

Definition IsRTPMedia (data : bytes) : go bool :=
  if len data <? rtpHeaderLen then Ret false else
  let! b0 := idx data 0 in
  if negb (Z.land b0 0xC0 =? 0x80) then Ret false else
  let! b1 := idx data 1 in
  Ret (Z.land b1 0x7F =? 0x78).

Definition IsVoicePacket (data : bytes) : go bool :=
  let! d := IsIPDiscovery data in
  if d then Ret true else IsRTPMedia data.

(** What the handler asks. *)
Definition is_voice (data : bytes) : go bool :=
  let! s := IsSTUNMessage data in
  if s then Ret true else IsVoicePacket data.

(** ** What is taken for voice *)

Definition stun_request (d : bytes) : Prop :=
  20 <= len d ∧ len d = 20 + get16 d 2 ∧ Z.land (get16 d 0) 0xC000 = 0 ∧ Z.land (get16 d 0) 0x0110 = 0
  ∧ get32 d 4 = 0x2112A442.
Definition ip_discovery (d : bytes) : Prop :=
  len d = 74 ∧ (get16 d 0 = 1 ∨ get16 d 0 = 2) ∧ get16 d 2 = 70.
Definition rtp_opus (d : bytes) : Prop :=
  12 <= len d ∧ Z.land (get d 0) 0xC0 = 0x80 ∧ Z.land (get d 1) 0x7F = 0x78.

Lemma wp_is_voice (d : bytes) : wp (is_voice d) (λ r, r = true ↔ stun_request d ∨ ip_discovery d ∨ rtp_opus d).
Proof.
  unfold is_voice, IsVoicePacket. apply wp_bind.
  eapply (wp_mono _ (λ r, r = true ↔ stun_request d)).
  { unfold IsSTUNMessage, stun_request. wp_step; [apply wp_ret; split; [done|zlia]|]. do 4 wp_step.
    wp_step; [apply wp_ret; split; [done|zlia]|]. wp_step; [apply wp_ret; split; [done|zlia]|].
    wp_step; [apply wp_ret; split; [done|zlia]|]. do 2 wp_step.
    wp_step; apply wp_ret; (split; [try done|try done]); zlia. }
  intros s Hs. wp_step; [apply wp_ret; split; [intros _; left; by apply Hs|done]|]. apply wp_bind.
  eapply (wp_mono _ (λ r, r = true ↔ ip_discovery d)).
  { unfold IsIPDiscovery, ip_discovery, ipDiscoveryLen, ipDiscoveryBodyLen.
    wp_step; [apply wp_ret; split; [done|zlia]|]. bprop. do 2 wp_step.
    wp_step; [apply wp_ret; split; [done|zlia]|]. do 2 wp_step. apply wp_ret. rewrite Z.eqb_eq. 
    split; [intros; split_and!; [done|zlia|done]|tauto]. }
  intros i Hi. wp_step; [apply wp_ret; split; [intros _; right; left; by apply Hi|done]|].
  assert (¬ stun_request d) as Hns by (intros H%Hs; congruence).
  assert (¬ ip_discovery d) as Hni by (intros H%Hi; congruence).
  eapply (wp_mono _ (λ r, r = true ↔ rtp_opus d)); [|intros r ->; tauto].
  unfold IsRTPMedia, rtp_opus, rtpHeaderLen. wp_step; [apply wp_ret; split; [done|zlia]|]. do 2 wp_step.
  wp_step; [apply wp_ret; split; [done|zlia]|]. do 2 wp_step. apply wp_ret. rewrite Z.eqb_eq.
  split; [intros; split_and!; [zlia|zlia|done]|tauto].
Qed.

Lemma high_bits (d : bytes) : bytes_ok d → Z.land (get16 d 0) 0xC000 = Z.shiftl (Z.land (get d 0) 0xC0) 8.
Proof.
  intros Hok. unfold get16. change (0 + 1) with 1. change 0xC000 with (Z.shiftl 0xC0 8).
  rewrite Z.land_lor_distr_l, <- Z.shiftl_land.
  pose proof (bytes_ok_get d 1 Hok) as Hb. unfold is_byte in Hb.
  rewrite <- (Z.mod_small (get d 1) (2 ^ 8)) by lia. rewrite <- Z.land_ones, <- Z.land_assoc by lia.
  change (Z.land (Z.ones 8) (Z.shiftl 192 8)) with 0. by rewrite Z.land_0_r, Z.lor_0_r.
Qed.

(** The two filters never claim the same datagram: what is taken for voice is not taken for
    QUIC. *)
Theorem voice_is_not_QUIC (d : bytes) : bytes_ok d → is_voice d = Ret true → LooksLikeQUIC d = Ret false.
Proof.
  intros Hok H. pose proof (wp_is_voice d) as Hv. rewrite H in Hv. destruct Hv as [Hv _]. specialize (Hv eq_refl).
  assert (Z.land (get d 0) 192 ≠ 192) as Hq.
  { destruct Hv as [(_ & _ & H0 & _)|[(_ & H0 & _)|(_ & H0 & _)]].
    - rewrite high_bits in H0 by done. intros E. by rewrite E in H0.
    - assert (Z.land (get16 d 0) 0xC000 = 0) as H1 by (by destruct H0 as [-> | ->]).
      rewrite high_bits in H1 by done. intros E. by rewrite E in H1.
    - change 0xC0 with 192 in H0. congruence. }
  apply wp_eq. unfold LooksLikeQUIC. wp_step; [by apply wp_ret|]. do 2 wp_step. wp_step; [by apply wp_ret|]. zlia.
Qed.

Lemma voice_is_not_QUIC_witness :
  LooksLikeQUIC ([0x80; 0x78] ++ repeat 1 20) = Ret false.
Proof. apply voice_is_not_QUIC; [by apply bytes_okb_spec|reflexivity]. Defined.
