(* ===== verification/GoString.v ===== *)
(** * Strings

    What several components need of Go strings: the characters of a string, the
    shape of decimal numbers, and splitting at a separator. *)

From Stdlib Require Import ZArith Lia.
From Stdlib Require Strings.String.
From Stdlib Require Import Ascii.
From stdpp Require Import base list numbers strings pretty.
From S2P Require Import Prelude.

(** The characters of a string. *)
Abbreviation chars := Stdlib.Strings.String.list_ascii_of_string.

Lemma chars_app (s1 s2 : string) : chars (s1 +:+ s2) = chars s1 ++ chars s2.
Proof. induction s1 as [|a s1 IH]; cbn; [done|by rewrite <- IH]. Qed.

Lemma chars_inj (s1 s2 : string) : chars s1 = chars s2 → s1 = s2.
Proof.
  intros H. rewrite <- (Stdlib.Strings.String.string_of_list_ascii_of_string s1), H.
  apply Stdlib.Strings.String.string_of_list_ascii_of_string.
Qed.

Lemma pretty_go_chars (a : Ascii.ascii) (n : N) (s : string) :
  (∀ d, (d < 10)%N → a ≠ pretty_N_char d) → a ∉ chars s → a ∉ chars (pretty_N_go n s).
Proof.
  intros Ha. revert s. induction (N.lt_wf_0 n) as [n _ IH]; intros s Hs.
  assert (n = 0 ∨ 0 < n)%N as [->|Hn] by lia; [by rewrite pretty_N_go_0|].
  rewrite pretty_N_go_step by done. apply IH; [by apply N.div_lt|].
  cbn. rewrite not_elem_of_cons. split; [|done]. apply Ha. by apply N.mod_lt.
Qed.

(** A decimal number contains neither ':' nor '-'. *)
Lemma pretty_chars (a : Ascii.ascii) (n : N) :
  (∀ d, (d < 10)%N → a ≠ pretty_N_char d) → a ∉ chars (pretty n).
Proof.
  intros Ha. unfold pretty, pretty_N. case_decide.
  - cbn. rewrite not_elem_of_cons. split; [|apply not_elem_of_nil]. by apply (Ha 0%N).
  - apply pretty_go_chars; [done|]. apply not_elem_of_nil.
Qed.

Lemma colon_digit d : (d < 10)%N → ":"%char ≠ pretty_N_char d.
Proof. unfold pretty_N_char. by repeat case_match. Qed.
Lemma dash_digit d : (d < 10)%N → "-"%char ≠ pretty_N_char d.
Proof. unfold pretty_N_char. by repeat case_match. Qed.

Lemma split_first {A} (x : A) (l1 l2 r1 r2 : list A) :
  x ∉ l1 → x ∉ l2 → l1 ++ x :: r1 = l2 ++ x :: r2 → l1 = l2 ∧ r1 = r2.
Proof.
  revert l2. induction l1 as [|a l1 IH]; intros [|b l2] H1 H2 H; cbn in *.
  - by injection H.
  - injection H as -> _. rewrite not_elem_of_cons in H2. by destruct H2.
  - injection H as -> _. rewrite not_elem_of_cons in H1. by destruct H1.
  - injection H as -> H. rewrite not_elem_of_cons in H1, H2.
    destruct (IH l2) as [-> ->]; [by destruct H1|by destruct H2|done|done].
Qed.

Lemma split_last {A} (x : A) (l1 l2 r1 r2 : list A) :
  x ∉ r1 → x ∉ r2 → l1 ++ x :: r1 = l2 ++ x :: r2 → l1 = l2 ∧ r1 = r2.
Proof.
  intros H1 H2 H. apply (f_equal reverse) in H.
  rewrite !reverse_app, !reverse_cons, <- !(assoc_L (++)) in H. cbn in H.
  apply split_first in H as [Hr Hl]; [|by rewrite elem_of_reverse..].
  by apply (inj reverse) in Hr, Hl.
Qed.
