(* ===== verification/Text.v ===== *)
(** * The string functions of Go

    What the configuration and the matchers use of packages strings and strconv:
    [strings.TrimSpace], [Split], [SplitN], [Join], [ReplaceAll], [HasPrefix], the
    case mappings, [strconv.Atoi] and [Itoa].  A Go string is a sequence of bytes, an
    [ascii] is one byte.  The case mappings follow package strings: a string of ASCII
    bytes is mapped byte by byte, any other by the Unicode tables, which are the
    parameter [Unicode]. *)

From Stdlib Require Import ZArith Lia Ascii.
From Stdlib Require Strings.String.
From stdpp Require Import base list numbers strings pretty sorting.
From S2P Require Import Prelude GoString.

Local Open Scope Z_scope.

Abbreviation str := Stdlib.Strings.String.string_of_list_ascii.

Lemma chars_str (l : list ascii) : chars (str l) = l.
Proof. apply Stdlib.Strings.String.list_ascii_of_string_of_list_ascii. Qed.
Lemma str_chars (s : string) : str (chars s) = s.
Proof. apply Stdlib.Strings.String.string_of_list_ascii_of_string. Qed.

(** ** Characters *)

Definition code (a : ascii) : Z := Z.of_N (N_of_ascii a).
Definition of_code (z : Z) : ascii := ascii_of_N (Z.to_N z).

Lemma code_range a : 0 <= code a < 256.
Proof. unfold code. pose proof (N_ascii_bounded a). lia. Qed.
Lemma of_code_code a : of_code (code a) = a.
Proof. unfold of_code, code. rewrite N2Z.id. apply ascii_N_embedding. Qed.
Lemma code_of_code z : 0 <= z < 256 → code (of_code z) = z.
Proof. intros. unfold of_code, code. rewrite N_ascii_embedding by lia. lia. Qed.
Lemma code_inj a b : code a = code b → a = b.
Proof. intros H. rewrite <- (of_code_code a), H. apply of_code_code. Qed.

(** ** [strings.TrimSpace] *)

(** The UTF-8 encodings of the runes that [unicode.IsSpace] accepts. *)
Definition spaces : list (list Z) :=
  [[9]; [10]; [11]; [12]; [13]; [32]; [0xc2; 0x85]; [0xc2; 0xa0]; [0xe1; 0x9a; 0x80];
   [0xe2; 0x80; 0x80]; [0xe2; 0x80; 0x81]; [0xe2; 0x80; 0x82]; [0xe2; 0x80; 0x83]; [0xe2; 0x80; 0x84];
   [0xe2; 0x80; 0x85]; [0xe2; 0x80; 0x86]; [0xe2; 0x80; 0x87]; [0xe2; 0x80; 0x88]; [0xe2; 0x80; 0x89];
   [0xe2; 0x80; 0x8a]; [0xe2; 0x80; 0xa8]; [0xe2; 0x80; 0xa9]; [0xe2; 0x80; 0xaf]; [0xe2; 0x81; 0x9f];
   [0xe3; 0x80; 0x80]].
Definition space_runes : list (list ascii) := map (map of_code) spaces.

(** How many bytes a space at the head of [l] takes, 0 when there is none. *)
Definition space_width (runes : list (list ascii)) (l : list ascii) : nat :=
  match List.find (λ r, bool_decide (r `prefix_of` l)) runes with Some r => length r | None => 0%nat end.

Fixpoint trim_go (runes : list (list ascii)) (skip : nat) (l : list ascii) : list ascii :=
  match l with
  | [] => []
  | a :: t =>
      match skip with
      | S k => trim_go runes k t
      | O => match space_width runes l with O => l | S k => trim_go runes k t end
      end
  end.
Definition trim_left (l : list ascii) : list ascii := trim_go space_runes 0 l.
Definition trim_right (l : list ascii) : list ascii := rev (trim_go (map (@rev ascii) space_runes) 0 (rev l)).
Definition TrimSpace (s : string) : string := str (trim_right (trim_left (chars s))).

(** ** Separators *)

Definition Contains (s : string) (a : ascii) : bool := bool_decide (a ∈ chars s).

Fixpoint split_list (a : ascii) (l : list ascii) : list (list ascii) :=
  match l with
  | [] => [[]]
  | b :: t =>
      match split_list a t with
      | [] => []
      | h :: r => if decide (b = a) then [] :: h :: r else (b :: h) :: r
      end
  end.
(** [strings.Split] at a separator of one byte. *)
Definition Split (s : string) (a : ascii) : list string := map str (split_list a (chars s)).

(** [strings.SplitN(s, a, 2)] of a string that contains [a]. *)
Fixpoint split_once (a : ascii) (l : list ascii) : list ascii * list ascii :=
  match l with
  | [] => ([], [])
  | b :: t => if decide (b = a) then ([], t) else let (x, y) := split_once a t in (b :: x, y)
  end.
Definition SplitN2 (s : string) (a : ascii) : string * string :=
  let (x, y) := split_once a (chars s) in (str x, str y).

Fixpoint join_list (a : ascii) (ls : list (list ascii)) : list ascii :=
  match ls with
  | [] => []
  | [l] => l
  | l :: r => l ++ a :: join_list a r
  end.
Definition Join (ss : list string) (a : ascii) : string := str (join_list a (map chars ss)).

Definition ReplaceAll (s : string) (a b : ascii) : string :=
  str (map (λ c, if decide (c = a) then b else c) (chars s)).

Definition HasPrefix (s p : string) : bool := bool_decide (chars p `prefix_of` chars s).
Definition TrimPrefix (s p : string) : string :=
  if HasPrefix s p then str (drop (length (chars p)) (chars s)) else s.
Fixpoint drop_while (a : ascii) (l : list ascii) : list ascii :=
  match l with b :: t => if decide (b = a) then drop_while a t else l | [] => [] end.
(** [strings.TrimRight] with a cut set of one byte. *)
Definition TrimRight (s : string) (a : ascii) : string := str (rev (drop_while a (rev (chars s)))).

(** ** Case mappings *)

Class Unicode := { lower_runes : string → string; upper_runes : string → string; fold_runes : string → string → bool }.

Definition is_ascii (s : string) : bool := forallb (λ a, code a <? 128) (chars s).
Definition lower_char (a : ascii) : ascii := if (65 <=? code a) && (code a <=? 90) then of_code (code a + 32) else a.
Definition upper_char (a : ascii) : ascii := if (97 <=? code a) && (code a <=? 122) then of_code (code a - 32) else a.
Definition ToLower `{Unicode} (s : string) : string :=
  if is_ascii s then str (map lower_char (chars s)) else lower_runes s.
Definition ToUpper `{Unicode} (s : string) : string :=
  if is_ascii s then str (map upper_char (chars s)) else upper_runes s.
Definition EqualFold `{Unicode} (s t : string) : bool :=
  if is_ascii s && is_ascii t then bool_decide (map lower_char (chars s) = map lower_char (chars t))
  else fold_runes s t.

(** ** Decimal numbers *)

Definition MaxInt : Z := 9223372036854775807.
Definition MinInt : Z := -9223372036854775808.

Fixpoint digits (acc : Z) (l : list ascii) : option Z :=
  match l with
  | [] => Some acc
  | a :: t => if (48 <=? code a) && (code a <=? 57) then digits (acc * 10 + (code a - 48)) t else None
  end.

(** [strconv.Atoi]: the number and whether there was no error.  A syntax error
    returns 0, a number out of range the nearest bound. *)
Definition Atoi (s : string) : Z * bool :=
  let '(neg, body) := match chars s with
                      | a :: t => if decide (a = "-"%char) then (true, t)
                                  else if decide (a = "+"%char) then (false, t) else (false, chars s)
                      | [] => (false, [])
                      end in
  match body, digits 0 body with
  | [], _ | _, None => (0, false)
  | _, Some v =>
      let v := if neg then - v else v in
      if MaxInt <? v then (MaxInt, false) else if v <? MinInt then (MinInt, false) else (v, true)
  end.
Definition Itoa (z : Z) : string := pretty z.

(** ** Trimming *)

(** A byte that a number or a range of numbers is made of. *)
Definition plain (a : ascii) : bool :=
  ((48 <=? code a) && (code a <=? 57)) || bool_decide (a = "-"%char) || bool_decide (a = "+"%char).

Lemma plain_no_space a l : plain a = true → space_width space_runes (a :: l) = 0%nat
  ∧ space_width (map (@rev ascii) space_runes) (a :: l) = 0%nat.
Proof.
  intros Ha. split; unfold space_width;
    (destruct (List.find _ _) as [r|] eqn:E; [|done]); apply List.find_some in E as [Hin Hp];
    apply bool_decide_eq_true in Hp; exfalso;
    (assert (Forall (λ r, match r with [] => False | b :: _ => plain b = false end)
       ltac:(match type of Hin with List.In _ ?rs => exact rs end)) as F by (cbv -[plain]; repeat constructor));
    rewrite List.Forall_forall in F; specialize (F _ Hin); destruct r as [|b r]; try done;
    apply prefix_cons_inv_1 in Hp; subst; congruence.
Qed.

Lemma TrimSpace_plain s : Forall (λ a, plain a = true) (chars s) → TrimSpace s = s.
Proof.
  intros H. unfold TrimSpace, trim_right, trim_left.
  assert (trim_go space_runes 0 (chars s) = chars s) as ->.
  { destruct (chars s) as [|a l] eqn:E; [done|]. cbn [trim_go].
    inversion H; subst. by destruct (plain_no_space a l) as [-> _]. }
  assert (trim_go (map (@rev ascii) space_runes) 0 (rev (chars s)) = rev (chars s)) as ->.
  { destruct (rev (chars s)) as [|a l] eqn:E; [done|]. cbn [trim_go].
    destruct (plain_no_space a l) as [_ ->]; [|done].
    rewrite List.Forall_forall in H. apply H. rewrite <- (rev_involutive (chars s)), E, <- in_rev. by left. }
  by rewrite rev_involutive, str_chars.
Qed.

(** Trimming twice is trimming once. *)
Lemma trim_go_suffix runes k l : ∃ pre, l = pre ++ trim_go runes k l.
Proof.
  revert k. induction l as [|a l IH]; intros k; [by exists []|]. cbn [trim_go].
  assert (∀ k, ∃ pre, a :: l = pre ++ trim_go runes k l) as Hs.
  { intros k'. destruct (IH k') as [pre Hp]. exists (a :: pre). cbn. by f_equal. }
  destruct k; [|apply Hs]. destruct (space_width runes (a :: l)); [by exists []|apply Hs].
Qed.

Lemma trim_go_clean runes k l : space_width runes [] = 0%nat → space_width runes (trim_go runes k l) = 0%nat.
Proof.
  intros H0. revert k. induction l as [|a l IH]; intros k; [done|]. cbn [trim_go].
  destruct k; [|apply IH]. destruct (space_width runes (a :: l)) eqn:E; [done|apply IH].
Qed.

Lemma trim_go_id runes l : space_width runes l = 0%nat → trim_go runes 0 l = l.
Proof. destruct l as [|a l]; [done|]. cbn [trim_go]. by intros ->. Qed.

Lemma space_width_prefix runes l l' : Forall (λ r, r ≠ []) runes →
  l `prefix_of` l' → space_width runes l' = 0%nat → space_width runes l = 0%nat.
Proof.
  unfold space_width. intros Hne Hp H.
  destruct (List.find (λ r, bool_decide (r `prefix_of` l)) runes) as [r|] eqn:E; [|done].
  apply List.find_some in E as [Hin Hr]. apply bool_decide_eq_true in Hr.
  destruct (List.find (λ r, bool_decide (r `prefix_of` l')) runes) as [r'|] eqn:E'.
  - apply List.find_some in E' as [Hin' _]. rewrite Forall_forall in Hne.
    specialize (Hne r' ltac:(by apply list_elem_of_In)). by destruct r'.
  - eapply List.find_none in E'; [|exact Hin]. apply bool_decide_eq_false in E'. destruct E'. by etransitivity.
Qed.

Lemma TrimSpace_idem s : TrimSpace (TrimSpace s) = TrimSpace s.
Proof.
  unfold TrimSpace. rewrite chars_str. f_equal. set (l := trim_left (chars s)).
  assert (space_width space_runes l = 0%nat) as Hl by (by apply trim_go_clean).
  destruct (trim_go_suffix (map (@rev ascii) space_runes) 0 (rev l)) as [pre Hpre].
  assert (trim_left (trim_right l) = trim_right l) as ->.
  { unfold trim_left. apply trim_go_id. eapply (space_width_prefix _ _ l); [|exists (rev pre)|done].
    - apply (bool_decide_unpack _). by vm_compute.
    - unfold trim_right. by rewrite <- rev_app_distr, <- Hpre, rev_involutive. }
  unfold trim_right. rewrite rev_involutive. f_equal. apply trim_go_id. by apply trim_go_clean.
Qed.

(** ** Splitting and joining *)

Lemma split_list_ne a l : split_list a l ≠ [].
Proof. induction l as [|b l IH]; cbn; [done|]. destruct (split_list a l); [done|]. by case_decide. Qed.

Lemma split_list_free a l : a ∉ l → split_list a l = [l].
Proof.
  induction l as [|b l IH]; intros H; [done|]. rewrite not_elem_of_cons in H. destruct H as [Hb Hl].
  cbn [split_list]. rewrite IH by done. by rewrite decide_False by congruence.
Qed.

Lemma split_list_app a l r : a ∉ l → split_list a (l ++ a :: r) = l :: split_list a r.
Proof.
  induction l as [|b l IH]; intros H; cbn [app split_list].
  - pose proof (split_list_ne a r). destruct (split_list a r) eqn:E; [done|]. by rewrite decide_True by done.
  - rewrite not_elem_of_cons in H. destruct H as [Hb Hl]. rewrite IH by done.
    by rewrite decide_False by congruence.
Qed.

Lemma split_join a ls : ls ≠ [] → Forall (λ l, a ∉ l) ls → split_list a (join_list a ls) = ls.
Proof.
  induction ls as [|l ls IH]; intros Hne H; [done|]. inversion H; subst.
  destruct ls as [|l' ls]; [by apply split_list_free|].
  change (join_list a (l :: l' :: ls)) with (l ++ a :: join_list a (l' :: ls)).
  rewrite split_list_app by done. by rewrite IH.
Qed.

Lemma Split_Join ss a : ss ≠ [] → Forall (λ s, a ∉ chars s) ss → Split (Join ss a) a = ss.
Proof.
  intros Hne H. unfold Split, Join. rewrite chars_str, split_join.
  - rewrite map_map. rewrite <- (map_id ss) at 2. apply map_ext. apply str_chars.
  - by destruct ss.
  - by apply Forall_fmap.
Qed.

Lemma split_list_free_all a l : Forall (λ x, a ∉ x) (split_list a l).
Proof.
  induction l as [|b l IH]; cbn [split_list]; [repeat constructor; apply not_elem_of_nil|].
  destruct (split_list a l) as [|h r]; [done|]. inversion IH; subst. case_decide; constructor; try done.
  - apply not_elem_of_nil.
  - rewrite not_elem_of_cons. split; [congruence|done].
Qed.

(** A string with exactly one separator splits in two. *)
Lemma Split_two s a x y :
  Split s a = [x; y] ↔ (chars s = chars x ++ (a :: chars y)) ∧ (a ∉ chars x) ∧ (a ∉ chars y).
Proof.
  unfold Split. split.
  - intros H. pose proof (split_list_free_all a (chars s)) as F.
    assert (∀ l, join_list a (split_list a l) = l) as J.
    { induction l as [|b l IH]; [done|]. cbn [split_list]. pose proof (split_list_ne a l).
      destruct (split_list a l) as [|h r]; [done|]. case_decide; subst.
      - cbn [join_list app]. by f_equal.
      - destruct r; cbn [join_list app] in *; by f_equal. }
    destruct (split_list a (chars s)) as [|u [|v [|w r]]] eqn:E; try done. cbn in H.
    injection H as <- <-. rewrite !chars_str. pose proof (J (chars s)) as Hj. rewrite E in Hj. cbn in Hj.
    inversion F as [|? ? Hu F']; subst. inversion F'; subst. done.
  - intros (-> & Hx & Hy). rewrite split_list_app, split_list_free by done. cbn. by rewrite !str_chars.
Qed.

Lemma SplitN2_two s a x y :
  chars s = chars x ++ a :: chars y → a ∉ chars x → SplitN2 s a = (x, y).
Proof.
  unfold SplitN2. intros -> Hx.
  assert (split_once a (chars x ++ a :: chars y) = (chars x, chars y)) as ->; [|by rewrite !str_chars].
  induction (chars x) as [|b l IH]; cbn; [by rewrite decide_True|].
  rewrite not_elem_of_cons in Hx. destruct Hx as [Hb Hl]. rewrite decide_False by congruence. by rewrite IH.
Qed.

Lemma Contains_spec s a : Contains s a = true ↔ a ∈ chars s.
Proof. apply bool_decide_eq_true. Qed.

Lemma ReplaceAll_free s a b : a ∉ chars s → ReplaceAll s a b = s.
Proof.
  intros H. unfold ReplaceAll. rewrite <- (str_chars s) at 2. f_equal. rewrite <- (map_id (chars s)) at 2.
  apply map_ext_in. intros c Hc. apply list_elem_of_In in Hc. by rewrite decide_False by congruence.
Qed.

Lemma string_eq_nil s : chars s = [] ↔ s = ""%string.
Proof. by destruct s. Qed.

(** ** Numbers *)

Lemma digits_plain acc l v : digits acc l = Some v → Forall (λ a, 48 <= code a <= 57) l.
Proof.
  revert acc. induction l as [|a l IH]; intros acc H; [constructor|]. cbn in H.
  case_match; [|done]. constructor; [lia|by eapply IH].
Qed.

Lemma digits_ge acc l v : 0 <= acc → digits acc l = Some v → acc <= v.
Proof.
  revert acc. induction l as [|a l IH]; intros acc Ha H; cbn in H; [simplify_eq; lia|].
  case_match; [|done]. apply IH in H; lia.
Qed.

(** The shape of a string that is a number. *)
Lemma Atoi_shape s v : Atoi s = (v, true) →
  ∃ sign body n, chars s = sign ++ body ∧ body ≠ [] ∧ digits 0 body = Some n ∧ MinInt <= v <= MaxInt
    ∧ (sign = ["-"%char] ∧ v = - n ∨ (sign = [] ∨ sign = ["+"%char]) ∧ v = n).
Proof.
  unfold Atoi. intros H.
  set (p := match chars s with [] => _ | _ => _ end) in H.
  assert (∃ sign, chars s = sign ++ snd p
    ∧ (sign = ["-"%char] ∧ fst p = true ∨ (sign = [] ∨ sign = ["+"%char]) ∧ fst p = false)) as (sign & Hs & Hsign).
  { unfold p. destruct (chars s) as [|a t]; [exists []; split; [done|]; right; split; [by left|done]|].
    destruct (decide (a = "-"%char)) as [->|]; [exists ["-"%char]; split; [done|by left]|].
    destruct (decide (a = "+"%char)) as [->|]; [exists ["+"%char]|exists []]; (split; [done|]); right; auto. }
  clearbody p. destruct p as [neg body]. cbn [fst snd] in *. destruct body as [|b l]; [done|].
  destruct (digits 0 (b :: l)) as [n|] eqn:E; [|done].
  exists sign, (b :: l), n. split; [done|]. split; [done|]. split; [done|].
  destruct Hsign as [[-> ->]|[? ->]]; repeat case_match; simplify_eq; (split; [lia|]); auto.
Qed.

Lemma Atoi_plain s v : Atoi s = (v, true) → Forall (λ a, plain a = true) (chars s) ∧ chars s ≠ [].
Proof.
  intros (sign & body & n & -> & Hne & Hd & _ & Hs)%Atoi_shape. apply digits_plain in Hd. split.
  - apply Forall_app. split.
    + destruct Hs as [[-> _]|[[-> | ->] _]]; repeat constructor.
    + eapply Forall_impl; [exact Hd|]. cbv beta. intros a Ha. unfold plain.
      by replace ((48 <=? code a) && (code a <=? 57)) with true by lia.
  - intros [_ ?]%app_eq_nil. done.
Qed.

(** A positive number contains no separator. *)
Lemma Atoi_no_dash s v : Atoi s = (v, true) → 1 <= v → "-"%char ∉ chars s.
Proof.
  intros (sign & body & n & -> & Hne & Hd & _ & Hs)%Atoi_shape Hv.
  pose proof (digits_ge _ _ _ (Z.le_refl 0) Hd). apply digits_plain in Hd. rewrite elem_of_app. intros [Hin|Hin].
  - destruct Hs as [[-> ->]|[[-> | ->] ->]]; [lia|by apply elem_of_nil in Hin|].
    by apply list_elem_of_singleton in Hin.
  - rewrite Forall_forall in Hd. apply Hd in Hin. change (code "-") with 45 in Hin. lia.
Qed.

Lemma Atoi_no_char s v a : Atoi s = (v, true) → plain a = false → a ∉ chars s.
Proof.
  intros H Ha Hin. apply Atoi_plain in H as [H _]. rewrite Forall_forall in H. apply H in Hin. congruence.
Qed.

Lemma pretty_N_char_code d : (d < 10)%N → code (pretty_N_char d) = 48 + Z.of_N d.
Proof. intros. assert (∃ k : nat, (k < 10)%nat ∧ d = N.of_nat k) as (k & Hk & ->) by (exists (N.to_nat d); lia).
  do 10 (destruct k as [|k]; [done|]). lia.
Qed.

(** What [pretty] prints is read back. *)
Lemma digits_app acc l1 l2 : digits acc (l1 ++ l2) = digits acc l1 ≫= (λ v, digits v l2).
Proof.
  revert acc. induction l1 as [|a l1 IH]; intros acc; [done|]. cbn. case_match; [apply IH|done].
Qed.

Lemma digits_go (n : N) s : ∃ l, chars (pretty_N_go n s) = l ++ chars s
  ∧ digits 0 l = Some (Z.of_N n) ∧ ((0 < n)%N → l ≠ []).
Proof.
  revert s. induction (N.lt_wf_0 n) as [n _ IH]; intros s.
  assert (n = 0 ∨ 0 < n)%N as [->|Hn] by lia; [exists []; by rewrite pretty_N_go_0|].
  rewrite pretty_N_go_step by done.
  destruct (IH (n `div` 10)%N ltac:(by apply N.div_lt) (String (pretty_N_char (n `mod` 10)) s)) as (l & Hl & Hd & _).
  exists (l ++ [pretty_N_char (n `mod` 10)]). rewrite Hl. cbn [chars]. split; [by rewrite <- app_assoc|].
  split; [|by destruct l]. rewrite digits_app, Hd. cbn [mbind option_bind digits].
  pose proof (N.mod_lt n 10 ltac:(done)). rewrite pretty_N_char_code by done.
  replace (_ && _) with true by (generalize dependent (n `mod` 10)%N; intros; lia). f_equal.
  pose proof (N.div_mod n 10 ltac:(done)). rewrite N2Z.inj_div, N2Z.inj_mod.
  pose proof (Z.div_mod (Z.of_N n) 10 ltac:(lia)). lia.
Qed.

Lemma digits_pretty (n : N) : digits 0 (chars (pretty n)) = Some (Z.of_N n) ∧ chars (pretty n) ≠ [].
Proof.
  unfold pretty, pretty_N. case_decide as H; [by subst|].
  destruct (digits_go n "") as (l & -> & Hd & Hl). rewrite app_nil_r. split; [done|]. apply Hl. lia.
Qed.

Lemma Atoi_Itoa v : 0 <= v <= MaxInt → Atoi (Itoa v) = (v, true).
Proof.
  intros Hv. unfold Itoa. assert (∃ n, v = Z.of_N n) as [n ->] by (exists (Z.to_N v); lia).
  assert (pretty (Z.of_N n) = pretty n) as -> by (by destruct n).
  destruct (digits_pretty n) as [Hd Hne]. pose proof (digits_plain _ _ _ Hd) as Hp. unfold Atoi.
  destruct (chars (pretty n)) as [|a t] eqn:E; [done|]. inversion Hp as [|? ? Ha _]; subst.
  rewrite !decide_False by (intros ->; vm_compute in Ha; destruct Ha; congruence). rewrite Hd.
  repeat case_match; try done; unfold MaxInt, MinInt in *; lia.
Qed.

Lemma Itoa_plain v : 0 <= v <= MaxInt → Forall (λ a, plain a = true) (chars (Itoa v)).
Proof. intros H. eapply Atoi_plain. by apply Atoi_Itoa. Qed.
