(* ===== verification/NetIP.v ===== *)
(** * Addresses

    What the packet engine uses of package [net]: an IP is a slice of 4 or 16 bytes,
    nil is the empty list.  The text forms are the class [Net], of which the model
    needs that two addresses print the same only when they are the same address. *)

From Stdlib Require Import ZArith Lia Ascii.
From stdpp Require Import base list numbers strings.
From S2P Require Import Prelude GoString Text.

Local Open Scope Z_scope.

Definition v4_prefix : bytes := [0; 0; 0; 0; 0; 0; 0; 0; 0; 0; 255; 255].
Definition To4 (ip : bytes) : option bytes :=
  if len ip =? 4 then Some ip
  else if (len ip =? 16) && bool_decide (take 12 ip = v4_prefix) then Some (drop 12 ip)
  else None.
Definition To16 (ip : bytes) : option bytes :=
  if len ip =? 4 then Some (v4_prefix ++ ip) else if len ip =? 16 then Some ip else None.
Definition ip_valid (ip : bytes) : Prop := bytes_ok ip ∧ (len ip = 4 ∨ len ip = 16).

Definition IPv6loopback : bytes := [0; 0; 0; 0; 0; 0; 0; 0; 0; 0; 0; 0; 0; 0; 0; 1].
Definition IsLoopback (ip : bytes) : bool :=
  match To4 ip with
  | Some ip4 => get ip4 0 =? 127
  | None => bool_decide (ip = IPv6loopback)
  end.
Definition IsLinkLocalUnicast (ip : bytes) : bool :=
  match To4 ip with
  | Some ip4 => (get ip4 0 =? 169) && (get ip4 1 =? 254)
  | None => (len ip =? 16) && (get ip 0 =? 254) && (Z.land (get ip 1) 192 =? 128)
  end.
Definition IsPrivate (ip : bytes) : bool :=
  match To4 ip with
  | Some ip4 => (get ip4 0 =? 10) || ((get ip4 0 =? 172) && (Z.land (get ip4 1) 240 =? 16))
                || ((get ip4 0 =? 192) && (get ip4 1 =? 168))
  | None => (len ip =? 16) && (Z.land (get ip 0) 254 =? 252)
  end.

(** utils/filter.go *)
Definition IsPrivateIP (ip : bytes) : bool :=
  match To4 ip with
  | Some ip4 => (get ip4 0 =? 10)
                || ((get ip4 0 =? 172) && (16 <=? get ip4 1) && (get ip4 1 <=? 31))
                || ((get ip4 0 =? 192) && (get ip4 1 =? 168))
                || (get ip4 0 =? 127)
  | None => IsLoopback ip || IsLinkLocalUnicast ip || IsPrivate ip
  end.

Record IPNet := { n_ip : bytes; ones : Z }.
(** [IP.String], [ParseIP] and [ParseCIDR]. *)
Class Net := {
  ip_string : bytes → string; ParseIP : string → option bytes; ParseCIDR : string → option IPNet;
  ip_string_inj a b : ip_valid a → ip_valid b → ip_string a = ip_string b → To16 a = To16 b }.

(** ** A concrete [Net] *)

Lemma bytes_codes l m : bytes_ok l → bytes_ok m → map of_code l = map of_code m → l = m.
Proof.
  revert m. induction l as [|a l IH]; intros [|b m] Hl Hm E; try done. injection E as E1 E2.
  inversion Hl as [|? ? Ha Hl']; subst. inversion Hm as [|? ? Hb Hm']; subst. f_equal; [|by apply IH].
  rewrite <- (code_of_code a), <- (code_of_code b) by done. by rewrite E1.
Qed.

Program Definition net_demo : Net := {|
  ip_string ip := str (map of_code (default [] (To16 ip)));
  ParseIP s := Some (map code (chars s));
  ParseCIDR s := if bool_decide (s = "10.0.0.0/8") then Some {| n_ip := [10; 0; 0; 0]; ones := 8 |}
                 else if bool_decide (s = "10.1.0.0/16") then Some {| n_ip := [10; 1; 0; 0]; ones := 16 |} else None |}.
Next Obligation.
  intros a b [Ha La] [Hb Lb] E. apply (f_equal chars) in E. rewrite !chars_str in E.
  assert (∀ x, bytes_ok x → len x = 4 ∨ len x = 16 → ∃ y, To16 x = Some y ∧ bytes_ok y) as T.
  { intros x Hx [Hl|Hl]; unfold To16; rewrite Hl; cbn [Z.eqb Pos.eqb]; eexists; (split; [done|]); [|done].
    apply bytes_ok_app. split; [by apply bytes_okb_spec|done]. }
  destruct (T a Ha La) as (x & Ex & Hx), (T b Hb Lb) as (y & Ey & Hy). rewrite Ex, Ey in *. cbn in E.
  f_equal. by apply bytes_codes.
Qed.
