(* ===== verification/Udp.v ===== *)
(** * Fake and fragmented UDP packets

    src/src/sock/udp_ipv4.go, udp_ipv6.go (the builders), sock/quic_fake.go, and the
    QUIC injection of nfq/nfq.go and nfq_ipv6.go: fake datagrams, then the captured
    Initial packet in two IP fragments cut inside the server name. *)

From Stdlib Require Import ZArith Lia Ascii.
From stdpp Require Import base list numbers sets strings.
From S2P Require Import Prelude Config Payloads Checksum Fragment Fragment6 Segment Families Strategies Tls Quic NetIP Buffer.

Local Open Scope Z_scope.

(** ** Building datagrams *)

(** [id] is [utils.RandUint16]. *)
Definition BuildUDPPacketV4 (id : Z) (srcIP dstIP : bytes) (srcPort dstPort : Z) (payload : bytes)
    : go (option bytes) :=
  match To4 srcIP, To4 dstIP with
  | Some src, Some dst =>
      if 65535 - 28 <? len payload then Ret None else
      let total := 20 + 8 + len payload in
      let! pkt := make total in
      let! pkt := upd pkt 0 69 in
      let! pkt := put16 pkt 2 total in
      let! pkt := put16 pkt 4 id in
      let! pkt := upd pkt 8 64 in
      let! pkt := upd pkt 9 17 in
      let! pkt := copy_at pkt 12 16 src in
      let! pkt := copy_at pkt 16 20 dst in
      let! pkt := put16 pkt 20 srcPort in
      let! pkt := put16 pkt 22 dstPort in
      let! pkt := put16 pkt 24 (8 + len payload) in
      let! pkt := copy_from pkt 28 payload in
      let! pkt := on_slice FixIPv4Checksum pkt 0 20 in
      let! pkt := FixUDPChecksum pkt 20 in
      Ret (Some pkt)
  | _, _ => Ret None
  end.

Definition BuildUDPPacketV6 (srcIP dstIP : bytes) (srcPort dstPort : Z) (payload : bytes)
    : go (option bytes) :=
  match To16 srcIP, To16 dstIP, To4 srcIP, To4 dstIP with
  | Some src, Some dst, None, None =>
      if 65535 - 8 <? len payload then Ret None else
      let! pkt := make (40 + 8 + len payload) in
      let! pkt := upd pkt 0 96 in
      let! pkt := put16 pkt 4 (8 + len payload) in
      let! pkt := upd pkt 6 17 in
      let! pkt := upd pkt 7 64 in
      let! pkt := copy_at pkt 8 24 src in
      let! pkt := copy_at pkt 24 40 dst in
      let! pkt := put16 pkt 40 srcPort in
      let! pkt := put16 pkt 42 dstPort in
      let! pkt := put16 pkt 44 (8 + len payload) in
      let! pkt := copy_from pkt 48 payload in
      let! pkt := FixUDPChecksumV6 pkt in
      Ret (Some pkt)
  | _, _, _, _ => Ret None
  end.

Definition BuildFakeUDPFromOriginalV4 (orig : bytes) (fakeLen ttl : Z) (payload : bytes) : go (option bytes) :=
  if len orig <? 20 then Ret None else
  let! b0 := idx orig 0 in
  if negb (Z.shiftr b0 4 =? 4) then Ret None else
  let ihl := u8 (Z.shiftl (Z.land b0 15) 2) in
  if (ihl <? 20) || (len orig <? ihl + 8) then Ret None else
  let! out := make (20 + 8 + fakeLen) in
  let! hdr := slice orig 0 20 in
  let! out := copy_from out 0 hdr in
  let! b := idx out 0 in
  let! out := upd out 0 (Z.lor (Z.land b 240) 5) in
  let! out := upd out 8 ttl in
  let! id := be16 out 4 in
  let! out := put16 out 4 (id + 1) in
  let! out := upd out 6 0 in
  let! out := upd out 7 0 in
  let! out := put16 out 2 (20 + 8 + fakeLen) in
  let! udp := slice orig ihl (ihl + 8) in
  let! out := copy_from out 20 udp in
  let! out := put16 out (20 + 4) (8 + fakeLen) in
  let! out := (if 0 <? len payload then copy_at out 28 (28 + fakeLen) payload else Ret out) in
  let! out := on_slice FixIPv4Checksum out 0 20 in
  let! out := udpChecksumIPv4 out in
  Ret (Some out).

Definition BuildFakeUDPFromOriginalV6 (orig : bytes) (fakeLen hopLimit : Z) (payload : bytes) : go (option bytes) :=
  if len orig <? 48 then Ret None else
  let! b0 := idx orig 0 in
  if negb (Z.shiftr b0 4 =? 6) then Ret None else
  let ipv6HdrLen := 40 in
  if len orig <? ipv6HdrLen + 8 then Ret None else
  let! next := idx orig 6 in
  if negb (next =? 17) then Ret None else
  let! out := make (ipv6HdrLen + 8 + fakeLen) in
  let! hdr := slice orig 0 ipv6HdrLen in
  let! out := copy_from out 0 hdr in
  let! out := upd out 7 hopLimit in
  let! out := put16 out 4 (8 + fakeLen) in
  let! udp := slice orig ipv6HdrLen (ipv6HdrLen + 8) in
  let! out := copy_from out ipv6HdrLen udp in
  let! out := put16 out (ipv6HdrLen + 4) (8 + fakeLen) in
  let! out := (if 0 <? len payload
               then copy_at out (ipv6HdrLen + 8) (ipv6HdrLen + 8 + fakeLen) payload else Ret out) in
  let! out := udpChecksumIPv6 out in
  Ret (Some out).

Definition quicFakeHeaderLen : Z := 30.
Definition quicFakeMaxSize : Z := quicFakeHeaderLen + 0x3FFF - 4.

(** [reads i] is the [i]-th [crand.Read]: its bytes, or [None] for an error.  [None]
    is the nil slice. *)
Definition BuildQUICInitial (reads : Z → option (Z → Z)) (size : Z) : go (option bytes) :=
  if (size <? quicFakeHeaderLen) || (quicFakeMaxSize <? size) then Ret None else
  let! out := make size in
  let! out := upd out 0 0xC3 in
  let! out := upd out 1 0 in
  let! out := upd out 2 0 in
  let! out := upd out 3 0 in
  let! out := upd out 4 1 in
  let! out := upd out 5 8 in
  match reads 0 with
  | None => Ret None
  | Some dcid =>
      let! out := copy_at out 6 14 (random_bytes dcid 8) in
      let! out := upd out 14 8 in
      match reads 1 with
      | None => Ret None
      | Some scid =>
          let! out := copy_at out 15 23 (random_bytes scid 8) in
          let! out := upd out 23 0 in
          let! out := upd out 26 0 in
          let! out := upd out 27 0 in
          let! out := upd out 28 0 in
          let! out := upd out 29 0 in
          match (if quicFakeHeaderLen <? size then reads 2 else Some id) with
          | None => Ret None
          | Some body =>
              let! out := copy_from out quicFakeHeaderLen
                            (random_bytes body (Z.to_nat (size - quicFakeHeaderLen))) in
              let coveredLen := 4 + (size - quicFakeHeaderLen) in
              let! out := put16 out 24 (Z.lor 0x4000 (u16 coveredLen)) in
              Ret (Some out)
          end
      end
  end.

(** ** The injection *)

(** What dropAndInjectQUIC and dropAndInjectQUICV6 have of their own: the length of
    the IP header, the builder of fakes and the fragmenter. *)
Class Datagram := {
  dgram_hdr : bytes → go Z;
  dgram_fake : bytes → Z → Z → bytes → go (option bytes);
  dgram_fragment : Z → bytes → Z → go (option (list bytes)) }.

Definition Datagram4 : Datagram := {|
  dgram_hdr raw := let! b0 := idx raw 0 in Ret (u8 (Z.land b0 15 * 4));
  dgram_fake := BuildFakeUDPFromOriginalV4;
  dgram_fragment _ := IPv4FragmentUDP |}.
Definition Datagram6 : Datagram := {|
  dgram_hdr _ := Ret 40;
  dgram_fake := BuildFakeUDPFromOriginalV6;
  dgram_fragment := IPv6FragmentUDP |}.

(** The reads of the [i]-th fake, the draw of the delay and the fragment id. *)
Record quic_draws := { q_reads : Z → Z → option (Z → Z); q_delay : Z; q_id : Z }.

(** [fake[at] ^= 0xFF] for the two bytes of the UDP checksum. *)
Definition invert_udp_checksum (fake : bytes) (ipHdrLen : Z) : go bytes :=
  if ipHdrLen + 8 <=? len fake
  then
    let! x := idx fake (ipHdrLen + 6) in
    let! fake := upd fake (ipHdrLen + 6) (Z.lxor x 255) in
    let! y := idx fake (ipHdrLen + 7) in
    upd fake (ipHdrLen + 7) (Z.lxor y 255)
  else Ret fake.

Definition quic_payload (udp : UDPConfig) (reads : Z → option (Z → Z)) : go bytes :=
  if bool_decide (u_FakePayloadFile udp = FakePayloadAutoQUIC)
  then let! o := BuildQUICInitial reads (u_FakeLen udp) in Ret (default [] o)
  else Ret (u_FakePayloadData udp).

(** The loop over the fakes: [more] are still to be sent, the [i]-th is next. *)
Fixpoint quic_fakes `{Datagram} (cfg : SetConfig) (d : quic_draws) (raw : bytes) (seg2d : Z) (more : nat)
    (i : Z) : go (list action) :=
  match more with
  | O => Ret []
  | S more =>
      let udp := UDP cfg in
      let! payload := quic_payload udp (q_reads d i) in
      let! fake := dgram_fake raw (u_FakeLen udp) (FakingTTL (Faking cfg)) payload in
      let! acts :=
        (match fake with
         | None => Ret []
         | Some fake =>
             let! fake := (if bool_decide (u_FakingStrategy udp = "checksum"%string)
                           then let! h := dgram_hdr fake in invert_udp_checksum fake h
                           else Ret fake) in
             Ret (Send fake :: sleep_if seg2d)
         end) in
      let! rest := quic_fakes cfg d raw seg2d more (i + 1) in
      Ret (acts ++ rest)
  end.

Section inject.
Context (hp_encrypt : bytes → Z → bytes → bytes).
Context (initial_iv : bytes → Z → bytes).
Context (aead_open : bytes → Z → bytes → bytes → bytes → option bytes).

(** Where the QUIC payload is cut. *)
Definition quic_split (realPayload : bytes) : go Z :=
  let! (sniOff, sniLen) := LocateSNIOffset hp_encrypt initial_iv aead_open realPayload in
  Ret (if (0 <? sniOff) && (0 <? sniLen) then sniOff + Z.quot sniLen 2 else 24).

Definition dropAndInjectQUIC `{Datagram} (cfg : SetConfig) (d : quic_draws) (raw : bytes) : go (list action) :=
  let udp := UDP cfg in
  let seg2d := ResolveSeg2Delay (q_delay d) (u_Seg2Delay udp) (u_Seg2DelayMax udp) in
  if negb (bool_decide (u_Mode udp = "fake"%string)) then Ret [] else
  let! fakes := quic_fakes cfg d raw seg2d (Z.to_nat (u_FakeSeqLength udp)) 0 in
  let! ipHdrLen := dgram_hdr raw in
  let! realPayload := (if ipHdrLen + 8 <=? len raw then slice_from raw (ipHdrLen + 8) else Ret []) in
  let! quic := LooksLikeQUIC realPayload in
  if negb quic then Ret (fakes ++ [Send raw]) else
  let! splitPos := quic_split realPayload in
  let! frags := dgram_fragment (q_id d) raw splitPos in
  match frags with
  | None => Ret (fakes ++ [Send raw])
  | Some frags =>
      let! (f0, f1) := (match frags with f0 :: f1 :: _ => Ret (f0, f1) | _ => Panic end) in
      Ret (fakes ++ SendTwoSegments f0 f1 seg2d (ReverseOrder (Fragmentation cfg)))
  end.
End inject.

Definition dropAndInjectQUICV4 hp iv op := @dropAndInjectQUIC hp iv op Datagram4.
Definition dropAndInjectQUICV6 hp iv op := @dropAndInjectQUIC hp iv op Datagram6.

(** ** The receiver of datagrams *)

(** The datagram of [ttl] between the endpoints [addrs] (both addresses) and [ports]
    that carries [d], its UDP checksum apart. *)
Definition dgram4 (f : bytes) (ttl : Z) (addrs ports d : bytes) : Prop :=
  bytes_ok f ∧ len f = 28 + len d ∧ get f 0 = 69 ∧ get16 f 2 = len f ∧ get16 f 6 = 0 ∧ get f 8 = ttl
  ∧ get f 9 = 17 ∧ sub f 12 20 = addrs ∧ sub f 20 24 = ports ∧ get16 f 24 = 8 + len d
  ∧ sub f 28 (len f) = d ∧ sum_verifies (wsum (sub f 0 20)).
Definition dgram6 (f : bytes) (ttl : Z) (addrs ports d : bytes) : Prop :=
  bytes_ok f ∧ len f = 48 + len d ∧ Z.shiftr (get f 0) 4 = 6 ∧ get16 f 4 = len f - 40 ∧ get f 6 = 17
  ∧ get f 7 = ttl ∧ sub f 8 40 = addrs ∧ sub f 40 44 = ports ∧ get16 f 44 = 8 + len d
  ∧ sub f 48 (len f) = d.

Definition udp_sum4 (f : bytes) : Z := pseudo_sum4 f 17 (len f - 20) + wsum (sub f 20 (len f)).
Definition udp_sum6 (f : bytes) : Z := pseudo_sum6 f 17 (len f - 40) + wsum (sub f 40 (len f)).
(** A checksum of 0 says that there is none, which IPv6 does not accept (RFC 768,
    RFC 8200). *)
Definition accepts4 (f : bytes) : Prop := get16 f 26 = 0 ∨ sum_verifies (udp_sum4 f).
Definition accepts6 (f : bytes) : Prop := get16 f 46 ≠ 0 ∧ sum_verifies (udp_sum6 f).

(** [payload] cut or padded to [n] bytes. *)
Definition filled (payload : bytes) (n : Z) : bytes :=
  take (Z.to_nat n) payload ++ replicate (Z.to_nat (n - len payload)) 0.

Lemma len_filled payload n : 0 <= n → len (filled payload n) = n.
Proof. intros. unfold filled. len_simp. lia. Qed.
Lemma get_filled payload n k : 0 <= k < n → get (filled payload n) k = get payload k.
Proof.
  intros. unfold filled. rewrite get_app, get_take, get_replicate, length_take.
  zcases; try done; symmetry; apply get_over; zlia.
Qed.
Lemma filled_ok payload n : bytes_ok payload → bytes_ok (filled payload n).
Proof. intros. unfold filled. auto with b4. Qed.

(** What the checksum routines do to a datagram whose lengths are set. *)
Definition completes4 (fix_ : bytes → go bytes) : Prop := ∀ r,
  bytes_ok r → get r 0 = 69 → 28 <= len r <= 65535 → get16 r 24 = len r - 20 →
  wp (fix_ r) (λ f, rewrites r 26 f ∧ get16 f 26 ≠ 0 ∧ sum_verifies (udp_sum4 f)).
Definition completes6 (fix_ : bytes → go bytes) : Prop := ∀ r,
  bytes_ok r → 48 <= len r <= 65575 → get16 r 4 = len r - 40 → get16 r 44 = len r - 40 →
  wp (fix_ r) (λ f, rewrites r 46 f ∧ get16 f 46 ≠ 0 ∧ sum_verifies (udp_sum6 f)).

Lemma udpChecksumIPv4_completes : completes4 udpChecksumIPv4.
Proof.
  intros r Hok H0 Hl H24. pose proof (ihl4_69 r H0) as Hi.
  eapply wp_mono; [apply udpChecksumIPv4_ok; rewrite ?Hi; try done || lia|].
  - change (20 + 4) with 24. lia.
  - change (20 + 4) with 24. lia.
  - rewrite Hi. change (20 + 4) with 24. change (20 + 6) with 26. rewrite H24.
    intros f (Hr & Hn & Hs). pose proof Hr as (Hlf & _). split_and!; [done|done|].
    unfold udp_sum4. rewrite Hlf. by replace (20 + (len r - 20)) with (len r) in Hs by lia.
Qed.

Lemma FixUDPChecksum_completes : completes4 (λ p, FixUDPChecksum p 20).
Proof.
  intros r Hok H0 Hl H24. eapply wp_mono; [apply FixUDPChecksum_ok; [done|lia|lia]|].
  change (20 + 6) with 26. intros f (Hr & Hn & Hs). pose proof Hr as (Hlf & _). split_and!; [done|done|].
  unfold udp_sum4. by rewrite Hlf.
Qed.

Lemma udpChecksumIPv6_completes : completes6 udpChecksumIPv6.
Proof.
  intros r Hok Hl H4 H44. eapply wp_mono; [apply udpChecksumIPv6_ok; [done|lia|lia]|].
  intros f (Hr & Hn & Hs). pose proof Hr as (Hlf & _). split_and!; [done|done|].
  unfold udp_sum6. rewrite Hlf. rewrite H44 in Hs. by replace (40 + (len r - 40)) with (len r) in Hs by lia.
Qed.

Lemma FixUDPChecksumV6_completes : completes6 FixUDPChecksumV6.
Proof.
  intros r Hok Hl H4 H44. eapply wp_mono; [apply FixUDPChecksumV6_ok; [done|lia|lia]|].
  intros f (Hr & Hn & Hs). pose proof Hr as (Hlf & _). split_and!; [done|done|].
  unfold udp_sum6. rewrite Hlf. rewrite H4 in Hs. by replace (40 + (len r - 40)) with (len r) in Hs by lia.
Qed.

Section complete.
Context (fix_ : bytes → go bytes) (ttl : Z) (addrs ports d l : bytes).
Context (Hok : bytes_ok l) (Hports : len ports = 4).

(** The end of both IPv4 builders. *)
Lemma wp_complete4 : completes4 fix_ → len addrs = 8 → len l = 28 + len d → len l <= 65535 →
  get l 0 = 69 → get16 l 2 = len l → get l 6 = 0 → get l 7 = 0 → get l 8 = ttl → get l 9 = 17 →
  (∀ k, 0 <= k < 8 → get l (12 + k) = get addrs k) → (∀ k, 0 <= k < 4 → get l (20 + k) = get ports k) →
  get16 l 24 = 8 + len d → (∀ k, 0 <= k < len d → get l (28 + k) = get d k) →
  wp (let! out := on_slice FixIPv4Checksum l 0 20 in let! out := fix_ out in Ret (Some out))
    (λ o, ∃ f, o = Some f ∧ dgram4 f ttl addrs ports d ∧ get16 f 26 ≠ 0 ∧ sum_verifies (udp_sum4 f)).
Proof using Hok Hports.
  intros Hfix Ha Hl Hbig H0 H2 H6 H7 H8 H9 Hadr Hpo H24 Hd.
  wp_step. eapply wp_fix_header; [done|lia|by rewrite ihl4_69|lia|]. intros r (Hrl & Hrok & Hrk) Hsum.
  wp_step. eapply wp_mono.
  { apply Hfix; [done|by rewrite Hrk by lia|lia|]. rewrite (get16_eq r l 24 24), H24 by (apply Hrk; lia). lia. }
  intros f ((Hfl & Hfok & Hfk) & Hnz & Hs). apply wp_ret. exists f. split; [done|]. split; [|by split].
  unfold dgram4. assert (∀ k, k < 10 ∨ 12 <= k < 26 ∨ 28 <= k → get f k = get l k) as Hg by (intros; rewrite Hfk, Hrk by lia; done).
  split_and!; try done; try lia.
  - by rewrite Hg by lia.
  - rewrite (get16_eq f l 2 2) by (apply Hg; lia). lia.
  - unfold get16. rewrite !Hg, H6 by lia. change (6 + 1) with 7. by rewrite H7.
  - by rewrite Hg by lia.
  - by rewrite Hg by lia.
  - change 20 with (12 + 8). rewrite <- Ha. apply sub_is; [lia|lia|].
    intros k Hk. rewrite Hg by lia. apply Hadr. lia.
  - change 24 with (20 + 4). rewrite <- Hports. apply sub_is; [lia|lia|].
    intros k Hk. rewrite Hg by lia. apply Hpo. lia.
  - rewrite (get16_eq f l 24 24) by (apply Hg; lia). lia.
  - rewrite Hfl, Hrl, Hl. apply sub_is; [lia|lia|]. intros k Hk. rewrite Hg by lia. apply Hd. lia.
  - replace (sub f 0 20) with (sub r 0 20); [done|]. apply list_ext_get; [len_lia|].
    intros k Hk. rewrite len_sub in Hk by lia. rewrite !get_sub by lia. zcases. rewrite Hfk by lia. done.
Qed.

Lemma wp_complete6 : completes6 fix_ → len addrs = 32 → len l = 48 + len d → len l <= 65575 →
  Z.shiftr (get l 0) 4 = 6 → get16 l 4 = len l - 40 → get l 6 = 17 → get l 7 = ttl →
  (∀ k, 0 <= k < 32 → get l (8 + k) = get addrs k) → (∀ k, 0 <= k < 4 → get l (40 + k) = get ports k) →
  get16 l 44 = 8 + len d → (∀ k, 0 <= k < len d → get l (48 + k) = get d k) →
  wp (let! out := fix_ l in Ret (Some out))
    (λ o, ∃ f, o = Some f ∧ dgram6 f ttl addrs ports d ∧ accepts6 f).
Proof using Hok Hports.
  intros Hfix Ha Hl Hbig H0 H4 H6 H7 Hadr Hpo H44 Hd.
  wp_step. eapply wp_mono; [apply Hfix; try done; lia|].
  intros f ((Hfl & Hfok & Hfk) & Hnz & Hs). apply wp_ret. exists f. split; [done|]. split; [|by split].
  unfold dgram6. assert (∀ k, k < 46 ∨ 48 <= k → get f k = get l k) as Hg by (intros; rewrite Hfk by lia; done).
  split_and!; try done; try lia.
  - by rewrite Hg by lia.
  - rewrite (get16_eq f l 4 4) by (apply Hg; lia). lia.
  - by rewrite Hg by lia.
  - by rewrite Hg by lia.
  - change 40 with (8 + 32). rewrite <- Ha. apply sub_is; [lia|lia|].
    intros k Hk. rewrite Hg by lia. apply Hadr. lia.
  - change 44 with (40 + 4). rewrite <- Hports. apply sub_is; [lia|lia|].
    intros k Hk. rewrite Hg by lia. apply Hpo. lia.
  - rewrite (get16_eq f l 44 44) by (apply Hg; lia). lia.
  - rewrite Hfl, Hl. apply sub_is; [lia|lia|]. intros k Hk. rewrite Hg by lia. apply Hd. lia.
Qed.
End complete.

(** ** What the builders build *)

Definition ports_of (sport dport : Z) : bytes := bytes16 sport ++ bytes16 dport.

Lemma To4_len ip s : To4 ip = Some s → len s = 4.
Proof.
  unfold To4. case_if; [intros [= <-]; zlia|]. case_if; [|done]. intros [= <-]. len_simp. bprop.
  rewrite length_drop. lia.
Qed.
Lemma To16_len ip s : To16 ip = Some s → len s = 16.
Proof. unfold To16. case_if; [intros [= <-]; unfold v4_prefix; len_simp; bprop; cbn; lia|]. case_if; [|done]. intros [= <-]. zlia. Qed.
Lemma To4_ok ip s : bytes_ok ip → To4 ip = Some s → bytes_ok s.
Proof. unfold To4. intros H. case_if; [by intros [= <-]|]. case_if; [|done]. intros [= <-]. auto with b4. Qed.
Lemma To16_ok ip s : bytes_ok ip → To16 ip = Some s → bytes_ok s.
Proof.
  unfold To16. intros H. case_if; [intros [= <-]|case_if; [by intros [= <-]|done]].
  repeat (constructor; [unfold is_byte; lia|]). done.
Qed.

Lemma wp_BuildUDPPacketV4 id src dst s t sport dport payload :
  To4 src = Some s → To4 dst = Some t → bytes_ok src → bytes_ok dst → bytes_ok payload →
  0 <= sport < 65536 → 0 <= dport < 65536 → len payload <= 65507 →
  wp (BuildUDPPacketV4 id src dst sport dport payload) (λ o, ∃ f, o = Some f
    ∧ dgram4 f 64 (s ++ t) (ports_of sport dport) payload ∧ get16 f 26 ≠ 0 ∧ sum_verifies (udp_sum4 f)).
Proof.
  intros Es Et Hs Ht Hp Hsp Hdp Hl. unfold BuildUDPPacketV4. rewrite Es, Et.
  pose proof (To4_len _ _ Es) as Ls. pose proof (To4_len _ _ Et) as Lt.
  pose proof (To4_ok _ _ Hs Es). pose proof (To4_ok _ _ Ht Et).
  wp_step; [zlia|]. cbv zeta. do 12 wp_write.
  apply wp_complete4; try done; try lia; try exact FixUDPChecksum_completes; try (len_simp; lia).
  all: unfold ports_of; packet_field.
Qed.

Lemma wp_BuildUDPPacketV6 src dst sport dport payload :
  len src = 16 → len dst = 16 → To4 src = None → To4 dst = None → bytes_ok src → bytes_ok dst →
  bytes_ok payload → 0 <= sport < 65536 → 0 <= dport < 65536 → len payload <= 65527 →
  wp (BuildUDPPacketV6 src dst sport dport payload) (λ o, ∃ f, o = Some f
    ∧ dgram6 f 64 (src ++ dst) (ports_of sport dport) payload ∧ accepts6 f).
Proof.
  intros Ls Lt E4 E4' Hs Ht Hp Hsp Hdp Hl. unfold BuildUDPPacketV6, To16. rewrite Ls, Lt, E4, E4'.
  cbn [Z.eqb Pos.eqb]. wp_step; [zlia|]. do 11 wp_write.
  apply wp_complete6; try done; try lia; try exact FixUDPChecksumV6_completes; try (len_simp; lia).
  all: unfold ports_of; packet_field.
Qed.

(** The captured datagrams: those the fragmenters accept. *)
Definition captured_udp4 (p : bytes) : Prop :=
  bytes_ok p ∧ Z.shiftr (get p 0) 4 = 4 ∧ 20 <= ihl4 p ∧ ihl4 p + 8 <= len p ∧ get p 9 = 17 ∧ get16 p 2 = len p.
Definition captured_udp6 (p : bytes) : Prop :=
  bytes_ok p ∧ Z.shiftr (get p 0) 4 = 6 ∧ get p 6 = 17 ∧ 48 <= len p ∧ 40 + get16 p 4 = len p
  ∧ get16 p 4 <= 65528.

Lemma bare_first b : is_byte b → Z.shiftr b 4 = 4 → Z.lor (Z.land b 240) 5 = 69.
Proof.
  unfold is_byte. intros Hb H. rewrite Z.shiftr_div_pow2 in H by lia. change (2 ^ 4) with 16 in H.
  assert (b ∈ (λ k, 64 + Z.of_nat k) <$> seq 0 16) as Hin.
  { apply list_elem_of_fmap. exists (Z.to_nat (b - 64)). rewrite elem_of_seq. Z.div_mod_to_equations. lia. }
  cbn in Hin. repeat (apply elem_of_cons in Hin as [->|Hin]; [done|]). by apply elem_of_nil in Hin.
Qed.

(** The payload of a fake over the zeros of a new packet. *)
Lemma wp_fill l off n payload : bytes_ok l → bytes_ok payload → 0 <= off → 0 <= n → len l = off + n →
  (∀ k, off <= k < off + n → get l k = 0) →
  wp (if 0 <? len payload then copy_at l off (off + n) payload else Ret l)
    (λ q, len q = len l ∧ bytes_ok q
      ∧ ∀ k, get q k = if (off <=? k) && (k <? off + n) then get (filled payload n) (k - off) else get l k).
Proof.
  intros Hl Hp Ho Hn Hlen Hz. case_if; [apply wp_copy_at; [lia..|]|apply wp_ret]; split_and!; try done.
  - len_simp; lia.
  - auto with b4.
  - intros k. rewrite get_splice by len_lia. rewrite length_take. case_if.
    + rewrite get_take. case_if; [|zlia]. case_if; [|zlia]. rewrite get_filled by zlia. done.
    + case_if; [|done]. rewrite get_filled, Hz, get_over by zlia. done.
  - intros k. case_if; [|done]. rewrite get_filled, Hz, get_over by zlia. done.
Qed.

Lemma wp_BuildFakeV4 p n ttl payload : captured_udp4 p → 0 <= n <= 65507 → is_byte ttl → bytes_ok payload →
  wp (BuildFakeUDPFromOriginalV4 p n ttl payload) (λ o, ∃ f, o = Some f
    ∧ dgram4 f ttl (sub p 12 20) (sub p (ihl4 p) (ihl4 p + 4)) (filled payload n)
    ∧ get16 f 26 ≠ 0 ∧ sum_verifies (udp_sum4 f)).
Proof.
  intros (Hp & Hv & Hi & Hl & H9 & Ht) Hn Httl Hpl. unfold BuildFakeUDPFromOriginalV4.
  pose proof (ihl4_range p Hp) as [Hr _]. pose proof (version4_b0 p Hp Hv) as H0.
  wp_step; [zlia|]. do 2 wp_step. wp_step; [zlia|]. cbv zeta. rewrite u8_ihl4_shift by done.
  wp_step; [zlia|]. do 14 wp_write.
  wp_step. eapply wp_mono.
  { apply (wp_fill _ 28 n); [eassumption|done|lia|lia|lia|]. intros k Hk. readback; reflexivity. }
  intros q (Hql & Hqok & Hqg). assert (len (filled payload n) = n) as Hf by (apply len_filled; lia).
  assert (Z.lor (Z.land (get p 0) 240) 5 = 69) as H69 by (apply bare_first; [by apply bytes_ok_get|exact Hv]).
  apply wp_complete4; try done; try lia; try exact udpChecksumIPv4_completes; try (len_simp; lia).
  all: rewrite ?Hf; packet_field; done.
Qed.

Lemma wp_BuildFakeV6 p n ttl payload : captured_udp6 p → 0 <= n <= 65507 → is_byte ttl → bytes_ok payload →
  wp (BuildFakeUDPFromOriginalV6 p n ttl payload) (λ o, ∃ f, o = Some f
    ∧ dgram6 f ttl (sub p 8 40) (sub p 40 44) (filled payload n) ∧ accepts6 f).
Proof.
  intros (Hp & Hv & H6 & Hl & Ht & Hbig) Hn Httl Hpl. unfold BuildFakeUDPFromOriginalV6.
  cbv zeta. wp_step; [zlia|]. wp_write. wp_step; [zlia|]. wp_step; [zlia|]. wp_write. wp_step; [zlia|].
  do 8 wp_write. wp_step. eapply wp_mono.
  { apply (wp_fill _ (40 + 8) n); [eassumption|done|lia|lia|lia|]. intros k Hk. readback; reflexivity. }
  intros q (Hql & Hqok & Hqg). assert (len (filled payload n) = n) as Hf by (apply len_filled; lia).
  assert (get p 6 = 17) as H17 by (bprop; lia).
  apply wp_complete6; try done; try lia; try exact udpChecksumIPv6_completes; try (len_simp; lia).
  all: rewrite ?Hf; packet_field; done.
Qed.

(** ** Inverted checksums *)

(** A sum in which a word is replaced by its complement verifies only if the word
    was 0 or 0xffff. *)
Lemma inverted_sum (g : bytes) (i lo hi a b proto n : Z) (c := get16 g i) (f := splice g i (bytes16 (65535 - c))) :
  bytes_ok g → 0 <= lo → lo <= hi → hi <= i → 0 <= a → a <= i → i + 2 <= b → b <= len g → (i - a) mod 2 = 0 →
  0 < proto → 0 <= n → sum_verifies (wsum (sub g lo hi) + proto + n + wsum (sub g a b)) →
  (sum_verifies (wsum (sub f lo hi) + proto + n + wsum (sub f a b)) ↔ c = 0 ∨ c = 65535).
Proof.
  intros Hok ? ? ? ? ? ? ? Hev Hp Hn Hs. pose proof (get16_range g i Hok) as Hc. fold c in Hc.
  assert (splice g i (bytes16 c) = g) as Hg.
  { apply list_ext_get; [len_lia|]. intros k Hk. pose proof (bytes16_get16 g i Hok) as Hb. fold c in Hb.
    rewrite get_splice by len_lia. len_simp. case_if; [|done]. rewrite Hb, !get_cons, get_nil. zcases; f_equal; lia. }
  assert (sub f lo hi = sub g lo hi) as -> by (apply sub_splice_out; len_lia).
  pose proof (wsum_field g i c a b) as Hwg. rewrite Hg in Hwg. unfold f. rewrite wsum_field by (done || lia).
  rewrite Hwg in Hs by (done || lia). clear Hwg Hg.
  pose proof (wsum_bound (sub (splice g i (bytes16 0)) a b) ltac:(auto with b4)) as [HB _].
  pose proof (wsum_bound (sub g lo hi) ltac:(auto with b4)) as [HP _]. revert HB HP Hs.
  generalize (wsum (sub (splice g i (bytes16 0)) a b)), (wsum (sub g lo hi)). intros B P HB HP [_ Hs].
  unfold sum_verifies. split; [intros [_ Hm]|intros Hc0; split]; Z.div_mod_to_equations; lia.
Qed.

Lemma wp_invert_udp f h : bytes_ok f → 0 <= h → h + 8 <= len f →
  wp (invert_udp_checksum f h) (λ r, r = splice f (h + 6) (bytes16 (65535 - get16 f (h + 6)))).
Proof.
  intros Hok Hh Hl. unfold invert_udp_checksum. wp_step; [|zlia]. do 6 wp_step. apply wp_upd; [len_lia|].
  rewrite get_insert by lia. zcases.
  pose proof (bytes_ok_get f (h + 6) Hok) as H1. pose proof (bytes_ok_get f (h + 7) Hok) as H2.
  rewrite !lxor_255 by done. replace (h + 7) with (h + 6 + 1) in * by lia.
  rewrite insert2_splice by lia. f_equal. rewrite get16_val by done. unfold is_byte in *.
  unfold bytes16, u8. rewrite Z.shiftr_div_pow2 by lia. change (2 ^ 8) with 256.
  f_equal; [|f_equal]; Z.div_mod_to_equations; lia.
Qed.

Lemma dgram4_checksum f ttl addrs ports d v : dgram4 f ttl addrs ports d →
  dgram4 (splice f 26 (bytes16 v)) ttl addrs ports d.
Proof.
  intros (H1 & H2 & H3 & H4 & H5 & H6 & H7 & H8 & H9 & H10 & H11 & H12). set (g := splice _ _ _).
  assert (len g = len f) as Lg by (unfold g; len_lia).
  assert (∀ k, k < 26 ∨ 28 <= k → get g k = get f k) as Hg.
  { intros k Hk. unfold g. rewrite get_splice by len_lia. len_simp. case_if; [zlia|done]. }
  assert (∀ i j, 0 <= i → i <= j → j <= 26 ∨ 28 <= i ∧ j <= len f → sub g i j = sub f i j) as Hsub.
  { intros. unfold g. apply sub_splice_out; len_lia. }
  unfold dgram4. rewrite Lg, !Hg, !Hsub, (get16_eq g f 2 2), (get16_eq g f 6 6), (get16_eq g f 24 24)
    by (lia || (apply Hg; lia)). split_and!; try done. unfold g. auto with b4.
Qed.

Lemma dgram6_checksum f ttl addrs ports d v : dgram6 f ttl addrs ports d →
  dgram6 (splice f 46 (bytes16 v)) ttl addrs ports d.
Proof.
  intros (H1 & H2 & H3 & H4 & H5 & H6 & H7 & H8 & H9 & H10). set (g := splice _ _ _).
  assert (len g = len f) as Lg by (unfold g; len_lia).
  assert (∀ k, k < 46 ∨ 48 <= k → get g k = get f k) as Hg.
  { intros k Hk. unfold g. rewrite get_splice by len_lia. len_simp. case_if; [zlia|done]. }
  assert (∀ i j, 0 <= i → i <= j → j <= 46 ∨ 48 <= i ∧ j <= len f → sub g i j = sub f i j) as Hsub.
  { intros. unfold g. apply sub_splice_out; len_lia. }
  unfold dgram6. rewrite Lg, !Hg, !Hsub, (get16_eq g f 4 4), (get16_eq g f 44 44)
    by (lia || (apply Hg; lia)). split_and!; try done. unfold g. auto with b4.
Qed.

(** ** What the injection sends *)

(** The two families at the receiver.  [fate inverted f]: the receiver takes the fake
    [f] unless its checksum was inverted; an inverted one it takes over IPv4 when the
    result is 0, which says that there is no checksum. *)
Class DatagramLaws {D : Datagram} := {
  captured_udp : bytes → Prop;
  udp_at : bytes → Z;
  dgram : bytes → bytes → Z → bytes → Prop;
  fate : bool → bytes → Prop;
  reassembles : Z → bytes → list bytes → Prop;
  read_frag : bytes → frag;
  captured_law p : captured_udp p → bytes_ok p ∧ 0 <= udp_at p ∧ udp_at p + 8 <= len p ∧ dgram_hdr p = Ret (udp_at p);
  captured_short p : captured_udp p → len p <= 65575;
  fake_law p n ttl payload : captured_udp p → 0 <= n <= 65507 → is_byte ttl → bytes_ok payload →
    wp (dgram_fake p n ttl payload) (λ o, ∃ f, o = Some f ∧ dgram p f ttl (filled payload n) ∧ fate false f
      ∧ wp (let! h := dgram_hdr f in invert_udp_checksum f h)
          (λ g, dgram p g ttl (filled payload n) ∧ fate true g));
  fragment_law id p s : captured_udp p → 0 <= id < 4294967296 →
    wp (dgram_fragment id p s) (λ o, match o with
      | None => len p < udp_at p + 17
      | Some fs => ∃ f1 f2, fs = [f2; f1] ∧ reassembles id p [f1; f2] ∧ reassembles id p [f2; f1]
          ∧ f_data (read_frag f1) = sub p (udp_at p) (udp_at p + udp_cut s (len p - udp_at p - 8)) end) }.

#[export, refine] Instance Laws4 : @DatagramLaws Datagram4 := {|
  captured_udp := captured_udp4;
  udp_at := ihl4;
  dgram p f ttl d := dgram4 f ttl (sub p 12 20) (sub p (ihl4 p) (ihl4 p + 4)) d;
  fate inverted f := if inverted then accepts4 f ↔ get16 f 26 = 0 else accepts4 f;
  reassembles _ p fs := Forall (λ f, good_frag4 p f 20) fs
    ∧ reassemble 2 (map frag4 fs) 0 = Some (sub p (ihl4 p) (len p));
  read_frag := frag4 |}.
Proof.
  - intros p (Hp & _ & Hi & Hl & _). split_and!; try done; [lia|].
    cbn [dgram_hdr Datagram4]. rewrite idx_ret by lia. cbn [go_bind]. by rewrite u8_ihl4.
  - intros p (Hp & _ & _ & _ & _ & Ht). pose proof (get16_range p 2 Hp). lia.
  - intros p n ttl payload Hc Hn Ht Hpl. eapply wp_mono; [by apply wp_BuildFakeV4|].
    intros o (f & -> & Hd & Hnz & Hs). exists f. split; [done|]. split; [done|]. split; [by right|].
    pose proof Hd as (Hok & Hl & H0 & _). rewrite len_filled in Hl by lia.
    cbn [dgram_hdr Datagram4]. rewrite idx_ret by lia. cbn [go_bind]. rewrite H0. change (u8 (Z.land 69 15 * 4)) with 20.
    eapply wp_mono; [apply wp_invert_udp; [done|lia|lia]|]. change (20 + 6) with 26. intros g ->.
    split; [by apply dgram4_checksum|]. unfold accepts4.
    pose proof (get16_range f 26 Hok). rewrite get16_splice by (done || len_lia).
    pose proof (inverted_sum f 26 12 20 20 (len f) 17 (len f - 20) Hok) as Hinv.
    unfold udp_sum4, pseudo_sum4 in *. rewrite len_splice by len_lia.
    rewrite Hinv by (done || lia). lia.
  - intros id p s (Hp & Hv & Hi & Hl & H9 & Ht) _. cbn.
    eapply wp_mono; [apply IPv4FragmentUDP_reassembles; [done|lia]|].
    replace (Z.min (get16 p 2) (len p)) with (len p) by lia.
    intros [fs|]; [|lia]. intros (f1 & f2 & -> & G1 & G2 & R1 & R2 & Hcut). exists f1, f2. cbn [map]. split_and!; auto.
Defined.

#[export, refine] Instance Laws6 : @DatagramLaws Datagram6 := {|
  captured_udp := captured_udp6;
  udp_at _ := 40;
  dgram p f ttl d := dgram6 f ttl (sub p 8 40) (sub p 40 44) d;
  fate inverted f := if inverted then ¬ accepts6 f else accepts6 f;
  reassembles id p fs := Forall (λ f, good_frag6 p f 17 id) fs
    ∧ reassemble 2 (map frag6 fs) 0 = Some (sub p 40 (len p));
  read_frag := frag6 |}.
Proof.
  - intros p (Hp & _ & _ & Hl & _). split_and!; try done; lia.
  - intros p (_ & _ & _ & _ & Ht & Hmax). lia.
  - intros p n ttl payload Hc Hn Ht Hpl. eapply wp_mono; [by apply wp_BuildFakeV6|].
    intros o (f & -> & Hd & Hnz & Hs). exists f. split; [done|]. split; [done|]. split; [by split|].
    pose proof Hd as (Hok & Hl & _). rewrite len_filled in Hl by lia. cbn [go_bind dgram_hdr Datagram6].
    eapply wp_mono; [apply wp_invert_udp; [done|lia|lia]|]. change (40 + 6) with 46. intros g ->.
    split; [by apply dgram6_checksum|]. unfold accepts6.
    pose proof (get16_range f 46 Hok). rewrite get16_splice by (done || len_lia).
    pose proof (inverted_sum f 46 8 40 40 (len f) 17 (len f - 40) Hok) as Hinv.
    unfold udp_sum6, pseudo_sum6 in *. rewrite len_splice by len_lia.
    rewrite Hinv by (done || lia). lia.
  - intros id p s (Hp & Hv & H6 & Hl & Ht & Hbig) Hid. cbn.
    eapply wp_mono; [apply IPv6FragmentUDP_reassembles; [done|lia|lia]|]. rewrite Ht.
    intros [fs|].
    + intros (f1 & f2 & -> & G1 & G2 & R1 & R2 & Hcut). exists f1, f2. cbn [map]. split_and!; auto.
      etransitivity; [exact Hcut|]. do 3 f_equal. lia.
    + unfold plain6. intros Hn. destruct (decide (len p < 40 + 17)); [done|]. exfalso. apply Hn. split_and!; auto; lia.
Defined.

Section quic.
Context {D : Datagram} {L : DatagramLaws}.
Context (hp_encrypt : bytes → Z → bytes → bytes).
Context (initial_iv : bytes → Z → bytes).
Context (aead_open : bytes → Z → bytes → bytes → bytes → option bytes).
Context (Hsh : cipher_shape hp_encrypt initial_iv aead_open).
Implicit Types (p f : bytes) (cfg : SetConfig) (d : quic_draws).

Definition quic_of p : bytes := sub p (udp_at p + 8) (len p).

Definition quic_config cfg : Prop :=
  0 <= u_FakeLen (UDP cfg) <= 65507 ∧ is_byte (FakingTTL (Faking cfg)) ∧ bytes_ok (u_FakePayloadData (UDP cfg)).

(** A fake of [p]: a datagram of its flow with the configured TTL and size, and
    with the checksum that the strategy asks for. *)
Definition quic_fake cfg p f : Prop := ∃ payload,
  dgram p f (FakingTTL (Faking cfg)) (filled payload (u_FakeLen (UDP cfg)))
  ∧ fate (bool_decide (u_FakingStrategy (UDP cfg) = "checksum"%string)) f.

Lemma len_random_bytes rnd n : len (random_bytes rnd n) = Z.of_nat n.
Proof. unfold random_bytes. by rewrite length_map, length_seq. Qed.

(** The fake Initial packet: of the size asked for, taken for QUIC, with a length
    field that covers what follows it. *)
Lemma wp_BuildQUICInitial reads size :
  wp (BuildQUICInitial reads size) (λ o, match o with
    | None => size < 30 ∨ 16409 < size ∨ ∃ i, reads i = None
    | Some out => bytes_ok out ∧ len out = size ∧ LooksLikeQUIC out = Ret true ∧ IsInitial out = Ret true
        ∧ get out 5 = 8 ∧ get out 14 = 8 ∧ get out 23 = 0
        ∧ get16 out 24 = 16384 + (size - 26) end).
Proof using Type.
  clear Hsh L. unfold BuildQUICInitial, quicFakeMaxSize, quicFakeHeaderLen.
  wp_step; [apply wp_ret; zlia|]. do 7 wp_write. destruct (reads 0) as [dcid|] eqn:E0; [|apply wp_ret; eauto].
  pose proof (len_random_bytes dcid 8). do 2 wp_write.
  destruct (reads 1) as [scid|] eqn:E1; [|apply wp_ret; eauto]. pose proof (len_random_bytes scid 8). do 6 wp_write.
  destruct (if 30 <? size then reads 2 else Some id) as [body|] eqn:E2.
  2:{ apply wp_ret. revert E2. case_if; [eauto|done]. }
  pose proof (len_random_bytes body (Z.to_nat (size - 30))). bprop. do 2 wp_write.
  assert (Z.lor 16384 (u16 (4 + (size - 30))) = 16384 + (size - 26)) as Elen.
  { rewrite u16_small by lia. change 16384 with (Z.shiftl 1 14). rewrite lor_shiftl_add by (change (2 ^ 14) with 16384; lia).
    change (Z.shiftl 1 14) with 16384. change (2 ^ 14) with 16384. lia. }
  rewrite Elen in *. apply wp_ret. rename b15 into out.
  assert (get out 0 = 195 ∧ get out 1 = 0 ∧ get out 2 = 0 ∧ get out 3 = 0 ∧ get out 4 = 1 ∧ get out 5 = 8
    ∧ get out 14 = 8 ∧ get out 23 = 0) as (F0 & F1 & F2 & F3 & F4 & F5 & F14 & F23).
  { split_and!; packet_field. }
  split_and!; try done; try lia.
  - unfold LooksLikeQUIC. rewrite idx_ret by lia. cbn [go_bind]. rewrite F0. change (1 + 4) with 5.
    rewrite !idx_ret by lia. cbn [go_bind]. rewrite F5. change (5 + 1 + 8) with 14.
    rewrite idx_ret by lia. cbn [go_bind]. rewrite F14. zcases; try done; zlia.
  - unfold IsInitial, be32. rewrite idx_ret by lia. cbn [go_bind]. rewrite F0. unfold get32.
    change (1 + 1) with 2. change (1 + 2) with 3. change (1 + 3) with 4. rewrite F1, F2, F3, F4. zcases; try done; zlia.
  - packet_field.
Qed.

Lemma wp_quic_payload cfg reads : quic_config cfg → wp (quic_payload (UDP cfg) reads) bytes_ok.
Proof using Type.
  clear Hsh L. intros (_ & _ & Hp). unfold quic_payload. wp_step; [|by apply wp_ret].
  wp_step. eapply wp_mono; [apply wp_BuildQUICInitial|].
  intros [out|] H; apply wp_ret; [by destruct H|constructor].
Qed.

Lemma wp_quic_fakes cfg d p seg2d n i : captured_udp p → quic_config cfg →
  wp (quic_fakes cfg d p seg2d n i) (λ acts, length (sent acts) = n ∧ Forall (quic_fake cfg p) (sent acts)).
Proof using Type.
  clear Hsh. intros Hc Hcfg. pose proof Hcfg as (Hn & Ht & _). revert i.
  induction n as [|n IH]; intros i; cbn [quic_fakes]; [by apply wp_ret|].
  wp_step. eapply wp_mono; [by apply wp_quic_payload|]. intros payload Hp.
  wp_step. eapply wp_mono; [by apply fake_law|]. intros o (f & -> & Hd & Hf & Hinv).
  wp_step. wp_step. apply (wp_mono _ (quic_fake cfg p)).
  { case_if; [eapply wp_mono; [exact Hinv|]; intros g [Hg Hb]|apply wp_ret];
      exists payload; rewrite Heqb; done. }
  intros g Hg. wp_step. wp_step. eapply wp_mono; [apply IH|]. intros rest [Hl Hr]. apply wp_ret.
  change (Send g :: sleep_if seg2d) with ([Send g] ++ sleep_if seg2d). rewrite !sent_app, sent_sleep.
  cbn. split; [by rewrite Hl|by constructor].
Qed.

Lemma quic_slice p : captured_udp p →
  (if udp_at p + 8 <=? len p then slice_from p (udp_at p + 8) else Ret []) = Ret (quic_of p).
Proof using Type.
  clear Hsh. intros Hc. destruct (captured_law p Hc) as (_ & H0 & Hl & _). case_if; [|zlia].
  unfold slice_from. by apply slice_ret; lia.
Qed.

Lemma wp_LooksLikeQUIC b : bytes_ok b → wp (LooksLikeQUIC b) (λ _, True).
Proof using Type. intros Hok. unfold LooksLikeQUIC. repeat (wp_step; read_ranges Hok); done. Qed.

(** What replaces the packet: the packet, or two fragments of it. *)
Definition quic_delivered (d : quic_draws) (split : go Z) p (fs : list bytes) : Prop :=
  fs = [p] ∨ ∃ f1 f2 s, split = Ret s ∧ fs ≡ₚ [f1; f2] ∧ reassembles (q_id d) p fs
    ∧ f_data (read_frag f1) = sub p (udp_at p) (udp_at p + udp_cut s (len p - udp_at p - 8)).

Lemma wp_dropAndInjectQUIC cfg d p : captured_udp p → quic_config cfg → token_fits (quic_of p) →
  0 <= q_id d < 4294967296 → u_Mode (UDP cfg) = "fake"%string →
  wp (dropAndInjectQUIC hp_encrypt initial_iv aead_open cfg d p) (λ acts, ∃ fakes rest,
    acts = fakes ++ rest ∧ length (sent fakes) = Z.to_nat (u_FakeSeqLength (UDP cfg))
    ∧ Forall (quic_fake cfg p) (sent fakes)
    ∧ quic_delivered d (quic_split hp_encrypt initial_iv aead_open (quic_of p)) p (sent rest)).
Proof using Hsh.
  intros Hc Hcfg Htok Hid Hmode. unfold dropAndInjectQUIC. rewrite bool_decide_true by done. cbn [negb]. cbv zeta.
  destruct (captured_law p Hc) as (Hok & H0 & Hl & Hh).
  wp_step. eapply wp_mono; [by apply wp_quic_fakes|]. intros fakes [Hn Hf].
  rewrite Hh. cbn [go_bind]. rewrite quic_slice by done. cbn [go_bind].
  assert (bytes_ok (quic_of p)) as Hq by (unfold quic_of; auto with b4).
  assert (len (quic_of p) < 2 ^ 62) as Hshort
    by (pose proof (captured_short p Hc); unfold quic_of; rewrite len_sub by lia; lia).
  wp_step. eapply wp_mono; [by apply wp_LooksLikeQUIC|]. intros quic _.
  wp_step; [apply wp_ret; exists fakes, [Send p]; split_and!; try done; by left|].
  wp_step. eapply wp_mono.
  { apply (wp_self _ (λ _, True)). unfold quic_split. wp_step.
    eapply wp_mono; [by apply wp_LocateSNIOffset_any|]. intros [o n] _. by apply wp_ret. }
  intros s [_ Hs]. wp_step. eapply wp_mono; [by apply fragment_law|].
  intros [fs|] Hfr; [|apply wp_ret; exists fakes, [Send p]; split_and!; try done; by left].
  destruct Hfr as (f1 & f2 & -> & R1 & R2 & Hcut). cbn [go_bind]. apply wp_ret.
  exists fakes, (SendTwoSegments f2 f1 (ResolveSeg2Delay (q_delay d) (u_Seg2Delay (UDP cfg)) (u_Seg2DelayMax (UDP cfg)))
    (ReverseOrder (Fragmentation cfg))). split_and!; try done. right. exists f1, f2, s. split; [done|].
  rewrite sent_two_cases. destruct (ReverseOrder _); split_and!; done || apply perm_swap.
Qed.
End quic.

(** ** Where the server name is cut *)

Section name.
Context (hp_encrypt : bytes → Z → bytes → bytes).
Context (initial_iv : bytes → Z → bytes).
Context (aead_open : bytes → Z → bytes → bytes → bytes → option bytes).
Context (aead_seal : bytes → Z → bytes → bytes → bytes → bytes).

(** [cut_at] is the length of the part of the QUIC payload, of [n] bytes, that goes
    into the first fragment. *)
Definition cut_at (s n : Z) : Z := udp_cut s n - 8.

(** C27: A protected Initial packet whose ClientHello names the host is cut inside
    the encryption of the name when the name has at least 16 bytes.  A shorter name
    can stay whole: the fragment boundary is rounded down to a multiple of eight, and
    when that falls before the name the second fragment carries all of it. *)
Theorem quic_split_cuts_name ver first dcid scid kt token kl plen pn quiet k1 k2 h es1 es2 host rest :
  let plain := quiet ++ crypto_frame k1 k2 0 (enc_handshake h) ++ rest in
  let packet := seal_initial hp_encrypt initial_iv aead_seal ver first dcid scid kt token kl plen pn plain in
  cipher_laws hp_encrypt initial_iv aead_open aead_seal →
  sealed_ok ver first dcid scid kt token kl plen pn plain →
  Forall (λ x, x = 0 ∨ x = 1) quiet → (k1 < 4)%nat → (k2 < 4)%nat →
  len (enc_handshake h) < 2 ^ (8 * Z.of_nat (2 ^ k2) - 2) →
  hello_ok h → h_exts h = es1 ++ (0, enc_sni host) :: es2 → Forall (λ e, e.1 ≠ 0) es1 → 0 < len host →
  wp (quic_split hp_encrypt initial_iv aead_open packet) (λ s, ∃ o, sub plain o (o + len host) = host ∧
    let name := pn_off dcid scid kt token kl + len pn + o in
    (16 <= len host → name < cut_at s (len packet) < name + len host)
    ∧ (name mod 8 + len host / 2 < 8 → cut_at s (len packet) <= name)).
Proof.
  intros plain packet Hlaws Hok Hq Hk1 Hk2 Hlen Hh He Hne Hhost.
  unfold quic_split. wp_step. eapply wp_mono.
  { exact (wp_LocateSNIOffset_sealed hp_encrypt initial_iv aead_open aead_seal ver first dcid scid kt token kl plen
      pn quiet k1 k2 h es1 es2 host rest Hlaws Hok Hq Hk1 Hk2 Hlen Hh He Hne). }
  intros [off n] (o & -> & -> & Ho & Hn & Hsub). apply wp_ret. exists o. split; [exact Hsub|]. cbv zeta.
  pose proof (packet_len hp_encrypt initial_iv aead_open aead_seal Hlaws ver first dcid scid kt token kl plen pn plain Hok) as Hp.
  fold packet in Hp. rewrite (seal_len _ _ _ _ Hlaws) in Hp.
  assert (7 <= pn_off dcid scid kt token kl) as H7 by (unfold pn_off; lia). fold plain in Hn.
  assert (0 <= len pn) as Hpn by lia. set (name := _ + len pn + o). assert (name + len host <= len packet - 16) as Hfit by (unfold name; lia).
  assert (7 <= name) as H7' by (unfold name; lia). clearbody name.
  case_if; [|zlia]. rewrite Z.quot_div_nonneg by lia. unfold cut_at, udp_cut.
  assert (0 <= len host / 2 < len host) as Hhalf by (Z.div_mod_to_equations; lia).
  case_if; [zlia|]. split; Z.div_mod_to_equations; lia.
Qed.
End name.

(** C5: What the worker sends in place of a captured QUIC packet, for either IP version, in
    the mode "fake": the configured number of fakes, then the packet itself or two fragments
    that reassemble to it in the order they are sent, the first ending where the split position
    says.  A fake is a datagram of the packet's flow with the configured length and TTL and a
    checksum that verifies; under the strategy "checksum" that checksum is inverted, and a
    receiver rejects the fake over IPv6, while over IPv4 it accepts it in the one case that the
    inverted checksum is 0, which means that there is none.

    The packet is captured whole, and the token it declares ends within it ([token_fits]):
    otherwise looking for the split position panics (C31).  The settings are in range and the
    target has 64 bits. *)
Theorem dropAndInjectQUIC_delivers {D : Datagram} {L : DatagramLaws} hp_encrypt initial_iv aead_open cfg d p :
  cipher_shape hp_encrypt initial_iv aead_open → captured_udp p → quic_config cfg → token_fits (quic_of p) →
  0 <= q_id d < 4294967296 → u_Mode (UDP cfg) = "fake"%string →
  wp (dropAndInjectQUIC hp_encrypt initial_iv aead_open cfg d p) (λ acts, ∃ fakes rest,
    acts = fakes ++ rest ∧ length (sent fakes) = Z.to_nat (u_FakeSeqLength (UDP cfg))
    ∧ Forall (quic_fake cfg p) (sent fakes)
    ∧ quic_delivered d (quic_split hp_encrypt initial_iv aead_open (quic_of p)) p (sent rest)).
Proof. intros. by apply wp_dropAndInjectQUIC. Qed.

(** The fake Initial packet of [BuildQUICInitial] is one that [LooksLikeQUIC] and
    [IsInitial] recognise, with a length field that covers the rest of it. *)
Theorem BuildQUICInitial_recognised reads size :
  wp (BuildQUICInitial reads size) (λ o, match o with
    | None => size < 30 ∨ 16409 < size ∨ ∃ i, reads i = None
    | Some out => bytes_ok out ∧ len out = size ∧ LooksLikeQUIC out = Ret true ∧ IsInitial out = Ret true
        ∧ get out 5 = 8 ∧ get out 14 = 8 ∧ get out 23 = 0
        ∧ get16 out 24 = 16384 + (size - 26) end).
Proof. apply wp_BuildQUICInitial. Qed.

(** ** Witnesses *)

Definition quic_demo : bytes :=
  seal_initial Toy.hp Toy.iv Toy.seal versionV1 193 [1; 2; 3; 4] [9] 0 [7; 7] 1 300 [0; 5] Toy.plain.
Definition quic4_demo : bytes :=
  [69;0] ++ bytes16 (28 + len quic_demo) ++ [18;52;64;0; 64;17;0;0; 10;0;0;1; 10;0;0;2; 200;0; 1;187]
  ++ bytes16 (8 + len quic_demo) ++ [0; 0] ++ quic_demo.
Definition quic_draws_demo : quic_draws := {| q_reads _ _ := Some id; q_delay := 1; q_id := 9 |}.

Lemma quic_of_demo : @quic_of Datagram4 Laws4 quic4_demo = quic_demo.
Proof. reflexivity. Qed.

Lemma token_fits_demo : token_fits quic_demo.
Proof.
  unfold token_fits. cbv zeta. intros tlen n H _. vm_compute in H. injection H as <- <-. vmc.
Qed.

Lemma dropAndInjectQUIC_delivers_witness :
  wp (dropAndInjectQUICV4 Toy.hp Toy.iv Toy.open cfg_demo quic_draws_demo quic4_demo) (λ acts, ∃ fakes rest,
    acts = fakes ++ rest ∧ length (sent fakes) = 2%nat).
Proof.
  eapply wp_mono; [apply (@dropAndInjectQUIC_delivers Datagram4 Laws4 Toy.hp Toy.iv Toy.open cfg_demo
    quic_draws_demo quic4_demo)|].
  - exact Toy.shape.
  - split_and!; [by apply bytes_okb_spec|vmc..].
  - split; [vmc|split; [vmc|constructor]].
  - rewrite quic_of_demo. exact token_fits_demo.
  - vmc.
  - reflexivity.
  - intros acts (fakes & rest & -> & H & _). exists fakes, rest. split; [reflexivity|exact H].
Defined.

Lemma quic_split_cuts_name_witness :
  wp (quic_split Toy.hp Toy.iv Toy.open quic_demo) (λ s, ∃ o, sub Toy.plain o (o + 4) = [97; 46; 105; 111]).
Proof.
  eapply wp_mono; [apply (quic_split_cuts_name Toy.hp Toy.iv Toy.open Toy.seal versionV1 193
    [1; 2; 3; 4] [9] 0 [7; 7] 1 300 [0; 5] [0; 1; 0] 0 1 demo_hello [(2570, [0])]
    [(16, [0; 3; 2; 104; 50])] [97; 46; 105; 111] [0; 0])|].
  - exact Toy.laws.
  - exact Toy.sealed.
  - repeat constructor; lia.
  - lia.
  - lia.
  - vmc.
  - exact demo_hello_ok.
  - reflexivity.
  - repeat constructor; discriminate.
  - vmc.
  - intros s (o & H & _). exists o. exact H.
Defined.
