(* ===== verification/Rewrite.v ===== *)
(** * Rewriting the TCP options, and ICMP replies

    src/src/sock/sack.go ([StripSACKFromTCP], [StripSACKFromTCPv6]), tcp_md5.go
    ([AddTCPMD5Option]) and icmp.go.  A packet whose options are rewritten is a valid
    packet with the same header fields and the same data; stripping keeps exactly
    the options of another kind. *)

From Stdlib Require Import ZArith Lia Ascii.
From stdpp Require Import base list numbers sets strings.
From S2P Require Import Prelude Checksum Fragment Fragment6 Buffer Payloads Segment Families Mutation Strategies.

Local Open Scope Z_scope.

(** ** Stripping the SACK options *)

(** The options in [packet[i:optEnd]] that are not about SACK, appended to [newOpts]. *)
Fixpoint strip_loop (fuel : nat) (packet : bytes) (i optEnd : Z) (newOpts : bytes) : go bytes :=
  match fuel with
  | O => Spin
  | S f =>
      if i <? optEnd
      then
        let! kind := idx packet i in
        if kind =? 0 then Ret newOpts else
        if kind =? 1 then strip_loop f packet (i + 1) optEnd (newOpts ++ [1]) else
        if optEnd <=? i + 1 then Ret newOpts else
        let! length := idx packet (i + 1) in
        if (length <? 2) || (optEnd <? i + length) then Ret newOpts else
        let! newOpts :=
          (if negb (kind =? 4) && negb (kind =? 5)
           then let! o := slice packet i (i + length) in Ret (newOpts ++ o)
           else Ret newOpts) in
        strip_loop f packet (i + length) optEnd newOpts
      else Ret newOpts
  end.

(** [newOpts] padded with EOL to the header length [newTCPHdrLen]. *)
Definition pad_options (newOpts : bytes) (newTCPHdrLen : Z) : bytes :=
  newOpts ++ replicate (Z.to_nat (newTCPHdrLen - 20 - len newOpts)) 0.

Definition StripSACK `{Family} (packet : bytes) : go bytes :=
  let! (ipHdrLen, tcpHdrLen) := headers packet in
  if tcpHdrLen <=? 20 then Ret packet else
  let! newOpts := strip_loop (S (length packet)) packet (ipHdrLen + 20) (ipHdrLen + tcpHdrLen) [] in
  let newTCPHdrLen := andnot (20 + len newOpts + 3) 3 in
  let newOpts := pad_options newOpts newTCPHdrLen in
  let! newPkt := make (ipHdrLen + newTCPHdrLen + len packet - (ipHdrLen + tcpHdrLen)) in
  let! ip := slice packet 0 ipHdrLen in
  let! newPkt := copy_at newPkt 0 ipHdrLen ip in
  let! tcp := slice packet ipHdrLen (ipHdrLen + 20) in
  let! newPkt := copy_at newPkt ipHdrLen (ipHdrLen + 20) tcp in
  let! newPkt := copy_at newPkt (ipHdrLen + 20) (ipHdrLen + newTCPHdrLen) newOpts in
  let! data := slice_from packet (ipHdrLen + tcpHdrLen) in
  let! newPkt := copy_from newPkt (ipHdrLen + newTCPHdrLen) data in
  let! newPkt := upd newPkt (ipHdrLen + 12) (u8 (Z.shiftl (newTCPHdrLen / 4) 4)) in
  let! newPkt := set_len newPkt (len newPkt) in
  fix_segment newPkt ipHdrLen.

Definition StripSACKFromTCP := @StripSACK IPv4.
Definition StripSACKFromTCPv6 := @StripSACK IPv6.

(** ** Adding the MD5 option *)

(** [r] draws the signature. *)
Definition md5_option (r : Z → Z) : bytes := [1; 1; 19; 18] ++ random_bytes r 16.

Definition AddTCPMD5Option `{Family} (r : Z → Z) (packet : bytes) : go bytes :=
  let! ipHdrLen := ip_header_len packet is_v6 in
  if len packet <? ipHdrLen + 20 then Ret packet else
  let! d := idx packet (ipHdrLen + 12) in
  let tcpHdrLen := u8 (Z.shiftr d 4 * 4) in
  let payloadStart := ipHdrLen + tcpHdrLen in
  let newTCPHdrLen := tcpHdrLen + 20 in
  if 60 <? newTCPHdrLen then Ret packet else
  let! newPacket := make (len packet + 20) in
  let! ip := slice packet 0 ipHdrLen in
  let! newPacket := copy_at newPacket 0 ipHdrLen ip in
  let! tcp := slice packet ipHdrLen (ipHdrLen + 20) in
  let! newPacket := copy_at newPacket ipHdrLen (ipHdrLen + 20) tcp in
  let! newPacket :=
    (if 20 <? tcpHdrLen
     then
       let! opts := slice packet (ipHdrLen + 20) (ipHdrLen + tcpHdrLen) in
       copy_at newPacket (ipHdrLen + 20) (ipHdrLen + tcpHdrLen) opts
     else Ret newPacket) in
  let! newPacket := copy_at newPacket (ipHdrLen + tcpHdrLen) (ipHdrLen + tcpHdrLen + 20) (md5_option r) in
  let! newPacket :=
    (if payloadStart <? len packet
     then
       let! data := slice_from packet payloadStart in
       copy_from newPacket (ipHdrLen + newTCPHdrLen) data
     else Ret newPacket) in
  let! b := idx newPacket (ipHdrLen + 12) in
  let! newPacket := upd newPacket (ipHdrLen + 12) (Z.lor (u8 (Z.shiftl (newTCPHdrLen / 4) 4)) (Z.land b 15)) in
  let! newPacket := set_len newPacket (len newPacket) in
  fix_segment newPacket ipHdrLen.

(** ** ICMP replies *)

(** The end of both builders: the checksum over the message at [ipEnd], from [sum] on. *)
Definition icmp_checksum (pkt : bytes) (ipEnd sum : Z) : go bytes :=
  let! icmpData := slice_from pkt ipEnd in
  let! sum := sum_segment icmpData sum in
  let! sum := fold_carry 4 sum in
  put16 pkt (ipEnd + 2) (not16 sum).

(** A nil address has length 0; [None] is the nil packet. *)
Definition BuildICMPv4Reject (originalPacket clientIP serverIP : bytes) : go (option bytes) :=
  if (len originalPacket <? 20) || (len clientIP <? 4) || (len serverIP <? 4) then Ret None else
  let! b0 := idx originalPacket 0 in
  if negb (Z.shiftr b0 4 =? 4) then Ret None else
  let ihl := Z.land b0 15 * 4 in
  if (ihl <? 20) || (len originalPacket <? ihl) then Ret None else
  let quotedLen := ihl + 8 in
  let quotedLen := if len originalPacket <? quotedLen then len originalPacket else quotedLen in
  let icmpLen := 8 + quotedLen in
  let totalLen := 20 + icmpLen in
  let! pkt := make totalLen in
  let! pkt := upd pkt 0 69 in
  let! pkt := put16 pkt 2 totalLen in
  let! pkt := upd pkt 8 64 in
  let! pkt := upd pkt 9 1 in
  let! src := slice serverIP 0 4 in
  let! pkt := copy_at pkt 12 16 src in
  let! dst := slice clientIP 0 4 in
  let! pkt := copy_at pkt 16 20 dst in
  let ipEnd := 20 in
  let! pkt := upd pkt ipEnd 3 in
  let! pkt := upd pkt (ipEnd + 1) 3 in
  let! quoted := slice originalPacket 0 quotedLen in
  let! pkt := copy_from pkt (ipEnd + 8) quoted in
  let! pkt := icmp_checksum pkt ipEnd 0 in
  let! pkt := on_slice FixIPv4Checksum pkt 0 20 in
  Ret (Some pkt).

Definition BuildICMPv6Reject (originalPacket clientIP serverIP : bytes) : go (option bytes) :=
  if (len originalPacket <? 40) || (len clientIP <? 16) || (len serverIP <? 16) then Ret None else
  let! b0 := idx originalPacket 0 in
  if negb (Z.shiftr b0 4 =? 6) then Ret None else
  let quotedLen := len originalPacket in
  let quotedLen := if 1232 <? quotedLen then 1232 else quotedLen in
  let icmpLen := 8 + quotedLen in
  let totalLen := 40 + icmpLen in
  let! pkt := make totalLen in
  let! pkt := upd pkt 0 96 in
  let! pkt := put16 pkt 4 icmpLen in
  let! pkt := upd pkt 6 58 in
  let! pkt := upd pkt 7 64 in
  let! src := slice serverIP 0 16 in
  let! pkt := copy_at pkt 8 24 src in
  let! dst := slice clientIP 0 16 in
  let! pkt := copy_at pkt 24 40 dst in
  let ipEnd := 40 in
  let! pkt := upd pkt ipEnd 1 in
  let! pkt := upd pkt (ipEnd + 1) 4 in
  let! quoted := slice originalPacket 0 quotedLen in
  let! pkt := copy_from pkt (ipEnd + 8) quoted in
  let! sum := sum_words 9 serverIP 0 16 0 in
  let! sum := sum_words 9 clientIP 0 16 sum in
  let sum := u32 (sum + u32 icmpLen) in
  let sum := u32 (sum + 58) in
  let! pkt := icmp_checksum pkt ipEnd sum in
  Ret (Some pkt).

(** ** What is left of a packet with other options *)

(** Reading an option area as the receiver does (RFC 793): the options up to the end
    marker or the first malformed one. *)
Fixpoint read_options (fuel : nat) (area : bytes) : list bytes :=
  match fuel, area with
  | S f, kind :: rest =>
      if kind =? 0 then [] else
      if kind =? 1 then [1] :: read_options f rest else
      match rest with
      | n :: _ =>
          if (n <? 2) || (len area <? n) then []
          else take (Z.to_nat n) area :: read_options f (drop (Z.to_nat n) area)
      | [] => []
      end
  | _, _ => []
  end.
Definition options (area : bytes) : list bytes := read_options (length area) area.
Definition not_sack (o : bytes) : bool := negb (get o 0 =? 4) && negb (get o 0 =? 5).

Section rewrite.
Context {F : Family} {R : Receiver}.
Implicit Types (p l o f : bytes).

Definition option_area p : bytes := sub p (hdr p + 20) (off p).

(** [f] is [p] with the option area [o]. *)
Definition reopt p o f : Prop :=
  valid f ∧ captured f ∧ hdr f = hdr p ∧ off f = hdr p + 20 + len o
  ∧ option_area f = o ∧ payload_of f = payload_of p
  ∧ ∀ k, 0 <= k < hdr p + 20 → k ∉ ip_fields → k ≠ hdr p + 12 → k ≠ hdr p + 16 → k ≠ hdr p + 17 →
      get f k = get p k.

(** The same before lengths and checksums are set. *)
Definition reopt_draft p o l : Prop :=
  bytes_ok l ∧ len l = hdr p + 20 + len o + (len p - off p)
  ∧ Z.shiftr (get l (hdr p + 12)) 4 = 5 + len o / 4
  ∧ (∀ k, 0 <= k < hdr p + 20 → k ≠ hdr p + 12 → get l k = get p k)
  ∧ (∀ k, 0 <= k < len o → get l (hdr p + 20 + k) = get o k)
  ∧ (∀ k, 0 <= k < len p - off p → get l (hdr p + 20 + len o + k) = get p (off p + k)).

Definition options_fit p o : Prop :=
  len o mod 4 = 0 ∧ len o <= 40 ∧ hdr p + 20 + len o + (len p - off p) <= 65535 + len_base.

Lemma wp_reopt p o l : captured p → options_fit p o → reopt_draft p o l →
  wp (let! l := set_len l (len l) in fix_segment l (hdr p)) (reopt p o).
Proof using Type.
  intros Hc (Hm & H40 & Hfit) (Hok & Hl & Hd & Hh & Ho & Hp).
  pose proof (captured_range p Hc) as Hr. pose proof len_at_range as Hat. pose proof not_len as Hnl.
  pose proof Hc as (Hokp & Hhok & _ & Hlp & _).
  destruct (hdr_range p Hokp Hhok) as [Hhr Hbase].
  unfold set_len. apply wp_bind, wp_put16_w; [lia..|]. intros l1 (L1 & O1 & G1).
  specialize (O1 Hok ltac:(auto with b4)).
  assert (∀ k, k ∉ ip_fields → get l1 k = get l k) as G1'.
  { intros k Hk. rewrite G1. apply Hnl in Hk. zcases. done. }
  assert (get16 l1 len_at + len_base = len l1) as Ht1.
  { rewrite L1, (get16_bytes16 _ _ (len l - len_base)); [lia|lia|..]; rewrite G1, ?u16_small by lia; zcases;
      f_equal; lia. }
  destruct (hdr_stable p l1 Hhok) as [Hh1 Hhok1].
  { intros k Hk Hn Hne. rewrite G1' by done. apply Hh; lia. }
  eapply wp_mono; [rewrite <- Hh1; apply fix_segment_law; [done|done|lia|done]|].
  intros f (Lf & Of & Tf & Gf & Sf). rewrite Hh1 in Gf.
  assert (∀ k, k ∉ ip_fields → k ≠ hdr p + 16 → k ≠ hdr p + 17 → get f k = get l k) as G.
  { intros k Hk H6 H7. rewrite Gf by done. by apply G1'. }
  assert (∀ k, 12 <= k → k ≠ hdr p + 16 → k ≠ hdr p + 17 → get f k = get l k) as Ghi.
  { intros k Hk. apply G. by apply fields_high. }
  destruct (hdr_stable p f Hhok) as [Hhf Hhokf].
  { intros k Hk Hn Hne. rewrite G by (done || lia). apply Hh; lia. }
  assert (off f = hdr p + 20 + len o) as Hoff.
  { unfold off. rewrite Hhf, Ghi, Hd by lia. Z.div_mod_to_equations. lia. }
  assert (len f = hdr p + 20 + len o + (len p - off p)) as Hlf by lia.
  assert (total f = len f) as Htot by (unfold total; lia).
  split_and!; try done.
  - unfold captured. rewrite Hhf, Hoff. split_and!; [done|done|lia..].
  - unfold option_area. rewrite Hhf, Hoff. apply sub_is; [lia..|]. intros k Hk. rewrite Ghi by lia. by apply Ho.
  - unfold payload_of. rewrite Hoff, Hlf. apply list_ext_get; [len_simp; lia|]. intros k Hk.
    rewrite len_sub in Hk by lia. rewrite !get_sub by lia. zcases. rewrite Ghi by lia. apply Hp. lia.
  - intros k Hk Hn H2 H6 H7. rewrite G by done. apply Hh; lia.
Qed.
End rewrite.

(** ** Reading options back *)

Lemma sub_take_drop (l : bytes) (i j n : Z) : 0 <= i → 0 <= n → i + n <= j → j <= len l →
  take (Z.to_nat n) (sub l i j) = sub l i (i + n) ∧ drop (Z.to_nat n) (sub l i j) = sub l (i + n) j.
Proof.
  intros Hi Hn Hj Hl. split; apply list_ext_get.
  - rewrite length_take, !Nat2Z.inj_min. pose proof (len_sub l i j). pose proof (len_sub l i (i + n)). lia.
  - intros k Hk. rewrite length_take in Hk. rewrite get_take, !get_sub by lia. zcases; done.
  - rewrite length_drop. pose proof (len_sub l i j). pose proof (len_sub l (i + n) j). lia.
  - intros k Hk. rewrite length_drop in Hk. rewrite get_drop, !get_sub by lia.
    pose proof (len_sub l i j). zcases; try done. f_equal. lia.
Qed.

(** One well-formed option. *)
Definition option_ok (o : bytes) : Prop :=
  o = [1] ∨ ∃ kind n rest, o = kind :: n :: rest ∧ kind ≠ 0 ∧ kind ≠ 1 ∧ n = len o.

Lemma read_options_ok fuel area : Forall option_ok (read_options fuel area).
Proof.
  revert area. induction fuel as [|f IH]; intros area; [by constructor|]. cbn [read_options].
  destruct area as [|kind rest]; [by constructor|].
  destruct (kind =? 0) eqn:E0; [by constructor|].
  destruct (kind =? 1) eqn:E1; [constructor; [by left|apply IH]|].
  destruct rest as [|n rest]; [by constructor|].
  destruct (_ || _) eqn:E; [by constructor|]. bprop. constructor; [|apply IH]. right.
  destruct (Z.to_nat n) as [|[|m]] eqn:Em; [lia|lia|].
  exists kind, n, (take m rest). cbn [take]. split_and!; [done|lia|lia|].
  cbn [length] in *. rewrite length_take. lia.
Qed.

Lemma read_options_concat fuel os j : Forall option_ok os →
  (length (concat os) + j <= fuel)%nat → read_options fuel (concat os ++ replicate j 0) = os.
Proof.
  intros Hos. revert fuel. induction Hos as [|o os Ho Hos IH]; intros fuel Hf; cbn [concat app length] in *.
  - destruct fuel; [done|]. by destruct j.
  - rewrite length_app in Hf. rewrite <- app_assoc. destruct Ho as [->|(kind & n & rest & -> & H0 & H1 & Hn)].
    + destruct fuel as [|fuel]; cbn [length] in *; [lia|]. cbn [app read_options Z.eqb Pos.eqb]. f_equal. apply IH. lia.
    + set (tl := concat os ++ replicate j 0) in *. cbn [length] in *. destruct fuel as [|fuel]; [lia|].
      cbn [app read_options]. rewrite (proj2 (Z.eqb_neq _ _) H0), (proj2 (Z.eqb_neq _ _) H1).
      cbn [length]. rewrite length_app.
      assert ((n <? 2) || (Z.of_nat (S (S (length rest + length tl))) <? n) = false) as ->.
      { apply orb_false_intro; [apply Z.ltb_ge|apply Z.ltb_ge]; lia. }
      change (kind :: n :: rest ++ tl) with ((kind :: n :: rest) ++ tl).
      rewrite take_app_length', drop_app_length' by (cbn [length]; lia). f_equal. apply IH. lia.
Qed.

(** Fuel beyond the length of the area does not matter. *)
Lemma read_options_fuel f1 f2 area : (length area <= f1)%nat → (length area <= f2)%nat →
  read_options f1 area = read_options f2 area.
Proof.
  revert f2 area. induction f1 as [|f1 IH]; intros f2 area H1 H2.
  - destruct area; [|cbn in *; lia]. by destruct f2.
  - destruct area as [|kind rest]; [by destruct f2|]. destruct f2 as [|f2]; [cbn in *; lia|].
    cbn [read_options]. case_if; [done|]. cbn [length] in *. case_if; [f_equal; apply IH; lia|].
    destruct rest as [|n rest]; [done|]. case_if; [done|]. bprop. f_equal.
    apply IH; rewrite length_drop; cbn [length] in *; lia.
Qed.

Lemma wp_strip_loop (p : bytes) (e : Z) fuel n i acc : 0 <= i → e <= len p → Z.max 0 (e - i) < Z.of_nat fuel →
  e - i <= Z.of_nat n → bytes_ok p →
  wp (strip_loop fuel p i e acc) (λ r,
    r = acc ++ concat (filter not_sack (read_options n (sub p i e)))).
Proof.
  intros Hi He Hf Hn Hok. revert n i acc Hi Hf Hn. induction fuel as [|f IH]; intros n i acc Hi Hf Hn; [lia|].
  cbn [strip_loop]. wp_step.
  2:{ apply wp_ret. unfold sub. replace (Z.to_nat (e - i)) with 0%nat by zlia.
      destruct n; cbn; by rewrite app_nil_r. }
  bprop. destruct n as [|n]; [lia|]. do 2 wp_step. rewrite (sub_cons p i) by lia. cbn [read_options].
  wp_step; [apply wp_ret; cbn; by rewrite app_nil_r|].
  wp_step.
  { eapply wp_mono; [apply (IH n); zlia|]. intros r ->. rewrite filter_cons_True by done.
    cbn [concat]. by rewrite <- app_assoc. }
  wp_step.
  { apply wp_ret. replace (i + 1) with e by zlia. rewrite sub_nil. cbn. by rewrite app_nil_r. }
  bprop. do 2 wp_step. read_ranges Hok. rewrite (sub_cons p (i + 1)) by lia.
  set (k := get p i) in *. set (m := get p (i + 1)) in *.
  rewrite <- (sub_cons p (i + 1)) by lia. unfold k, m. rewrite <- (sub_cons p i) by lia. fold k m.
  rewrite len_sub by lia.
  replace (e - i <? m) with (e <? i + m) by (apply eq_true_iff_eq; rewrite !Z.ltb_lt; lia).
  wp_step; [apply wp_ret; cbn; by rewrite app_nil_r|]. bprop.
  destruct (sub_take_drop p i e m) as [-> ->]; [lia..|].
  assert (not_sack (sub p i (i + m)) = negb (k =? 4) && negb (k =? 5)) as Hk.
  { unfold not_sack. by rewrite (sub_cons p i) by lia. }
  rewrite <- Hk. wp_step. destruct (not_sack (sub p i (i + m))) eqn:Hs.
  - do 2 wp_step. apply wp_ret. eapply wp_mono; [apply (IH n); lia|]. intros r ->.
    rewrite filter_cons_True by (rewrite Hs; done). cbn [concat]. by rewrite <- app_assoc.
  - apply wp_ret. eapply wp_mono; [apply (IH n); lia|]. intros r ->.
    rewrite filter_cons_False; [done|rewrite Hs; by intros []].
Qed.

Lemma andnot3 (x : Z) : andnot x 3 = 4 * (x / 4).
Proof.
  change 3 with (Z.ones 2). rewrite Z.ldiff_ones_r, Z.shiftr_div_pow2, Z.shiftl_mul_pow2 by lia.
  change (2 ^ 2) with 4. lia.
Qed.

Lemma len_concat_filter (P : bytes → bool) os :
  (length (concat (filter P os)) <= length (concat os))%nat.
Proof.
  induction os as [|o os IH]; [done|]. rewrite filter_cons. case_decide; cbn [concat]; rewrite !length_app; lia.
Qed.
Lemma len_read_options fuel area : (length (concat (read_options fuel area)) <= length area)%nat.
Proof.
  revert area. induction fuel as [|f IH]; intros area; [cbn; lia|]. cbn [read_options].
  destruct area as [|kind rest]; [done|]. case_if; [cbn; lia|].
  case_if; [cbn [concat]; rewrite length_app; cbn [length]; specialize (IH rest); lia|].
  destruct rest as [|n rest]; [cbn; lia|]. case_if; [cbn; lia|]. bprop. cbn [concat].
  rewrite length_app, length_take. specialize (IH (drop (Z.to_nat n) (kind :: n :: rest))).
  rewrite length_drop in IH. lia.
Qed.
Lemma options_bytes fuel area : bytes_ok area → Forall bytes_ok (read_options fuel area).
Proof.
  revert area. induction fuel as [|f IH]; intros area Ha; [by constructor|]. cbn [read_options].
  destruct area as [|kind rest]; [by constructor|]. apply Forall_cons in Ha as [Hk0 Ha].
  case_if; [by constructor|]. case_if; [constructor; [by apply bytes_okb_spec|by apply IH]|].
  destruct rest as [|n rest]; [by constructor|]. case_if; [by constructor|].
  constructor; [by apply list.Forall_take, Forall_cons|]. apply IH. by apply list.Forall_drop, Forall_cons.
Qed.

Lemma options_padded os n : Forall option_ok os → 
  options (pad_options (concat os) n) = os.
Proof. intros. unfold options, pad_options. apply read_options_concat; [done|]. rewrite length_app, length_replicate. lia. Qed.

Lemma Forall_kept {A} (P : A → Prop) (f : A → bool) (l : list A) : Forall P l → Forall P (filter f l).
Proof. rewrite !Forall_forall. intros Hl x [_ Hx]%list_elem_of_filter. by apply Hl. Qed.

Section rewrite_laws.
Context {F : Family} {R : Receiver} {Rd : Reader}.
Implicit Types (p l o f : bytes).

Lemma option_area_ok p : captured p → bytes_ok (option_area p) ∧ len (option_area p) = off p - hdr p - 20 ∧ len (option_area p) <= 40.
Proof using Rd.
  intros Hc. pose proof (captured_range p Hc). pose proof Hc as (Hok & Hh & Ho & Hl & _).
  pose proof (nibble_range _ (bytes_ok_get p (hdr p + 12) Hok)).
  unfold option_area. split; [auto with b4|]. pose proof (hdr_range p Hok Hh). rewrite len_sub by lia.
  unfold off in *. lia.
Qed.

Lemma wp_StripSACK p : captured p →
  wp (StripSACK p) (λ f, (off p = hdr p + 20 ∧ f = p)
    ∨ ∃ o, reopt p o f ∧ options o = filter not_sack (options (option_area p))).
Proof using Rd.
  intros Hc. pose proof (captured_range p Hc) as Hr. pose proof Hc as (Hok & Hh & Ho & Hl & Hsz).
  destruct (option_area_ok p Hc) as (Hao & Hal & Ha40).
  unfold StripSACK. rewrite headers_law by done. cbn [go_bind].
  wp_step; [apply wp_ret; left; split; [zlia|done]|]. bprop.
  wp_step. rewrite Zplus_minus.
  eapply wp_mono; [apply (wp_strip_loop p (off p) _ (length (option_area p))); try done; lia|].
  intros new ->. cbn [app]. fold (option_area p). fold (options (option_area p)).
  set (os := filter not_sack (options (option_area p))).
  set (hl := andnot _ 3). set (o := pad_options _ hl).
  assert (len (concat os) <= len (option_area p)) as Hlo.
  { pose proof (len_concat_filter not_sack (options (option_area p))).
    pose proof (len_read_options (length (option_area p)) (option_area p)). unfold os, options in *. lia. }
  assert (hl = 20 + len o ∧ len o mod 4 = 0 ∧ len o <= off p - hdr p - 20) as (Hhl & Hm & H40).
  { unfold o, pad_options. len_simp. unfold hl. rewrite andnot3. 
    assert ((off p - hdr p) mod 4 = 0) by (unfold off; Z.div_mod_to_equations; lia).
    Z.div_mod_to_equations. lia. }
  assert (bytes_ok o) as Hoo.
  { assert (bytes_ok (concat os)) by (apply Forall_concat, Forall_kept, options_bytes; done).
    unfold o, pad_options. auto with b4. }
  assert (options o = os) as Hos.
  { apply options_padded. apply Forall_kept. apply read_options_ok. }
  clearbody hl o. 
  wp_write. wp_write. wp_write. wp_write. wp_write. wp_write. wp_write. wp_write. wp_write.
  eapply wp_mono; [apply (wp_reopt p o); [done| | ]|].
  - split_and!; try lia. 
  - unfold reopt_draft. split_and!.
    + done.
    + lia.
    + readback.
      rewrite u8_small; [|unfold is_byte; rewrite Z.shiftl_mul_pow2 by lia; Z.div_mod_to_equations; lia].
      rewrite Z.shiftr_shiftl_l by lia. rewrite Z.shiftl_0_r, Hhl. Z.div_mod_to_equations; lia.
    + intros k Hk Hk2. readback. all: f_equal; lia.
    + intros k Hk. readback. f_equal; lia.
    + intros k Hk. readback. f_equal; lia.
  - intros f Hf. right. by exists o.
Qed.

Lemma seq_no_reopt p o f : captured p → reopt p o f → seq_no f = seq_no p ∧ get f (hdr p + 13) = get p (hdr p + 13).
Proof.
  intros Hc (_ & _ & Hh & _ & _ & _ & Hg). pose proof (captured_range p Hc). pose proof fields_high.
  split; [|apply Hg; try lia; apply fields_high; lia].
  unfold seq_no. rewrite Hh. apply get32_eq. intros k Hk. apply Hg; [lia|apply fields_high; lia|lia..].
Qed.

Lemma wp_AddTCPMD5Option {Rw : Rewriter} r p : captured p → len p + 20 <= 65535 + len_base →
  wp (AddTCPMD5Option r p) (λ f,
    if 40 <? off p - hdr p then f = p else reopt p (option_area p ++ md5_option r) f).
Proof using Rd.
  intros Hc Hfit. pose proof (captured_range p Hc) as Hr. pose proof Hc as (Hok & Hh & Ho & Hl & Hsz).
  destruct (option_area_ok p Hc) as (Hao & Hal & Ha40).
  pose proof (nibble_range _ (bytes_ok_get p (hdr p + 12) Hok)) as Hn.
  assert (Z.shiftr (get p (hdr p + 12)) 4 * 4 = off p - hdr p) as Hoff by (unfold off; lia).
  assert (len (md5_option r) = 20) as Hm20 by (unfold md5_option; rewrite len_app, len_random; done).
  assert (bytes_ok (md5_option r)) as Hmok.
  { unfold md5_option. apply Forall_app; split; [by apply bytes_okb_spec|apply random_bytes_ok]. }
  unfold AddTCPMD5Option. rewrite ip_len by done. cbn [go_bind]. wp_step; [zlia|]. do 2 wp_step.
  rewrite u8_small by (unfold is_byte; lia). rewrite Hoff. cbv zeta.
  wp_step; [apply wp_ret; case_if; [done|zlia]|].
  destruct (40 <? off p - hdr p) eqn:E40; [zlia|]. bprop.
  wp_write. wp_write. wp_write. wp_write. wp_write.
  apply wp_bind, (wp_mono _ (λ r', written b1 (hdr p + 20) (off p - hdr p - 20) (λ k, get p k) r')).
  { wp_step.
    - wp_write. eapply wp_copy_w; [lia|len_lia|lia|]. rewrite len_sub by zlia.
      intros r' (L2 & O2 & G2). split_and!; [done| |].
      + intros. apply O2; [done|auto with b4].
      + intros k. rewrite G2. zcases; try done. readback. f_equal. lia.
    - apply wp_ret. split_and!; [done|done|]. intros k. zcases. done. }
  intros b2 (L2 & O2 & G2). specialize (O2 ltac:(done) ltac:(intros; by apply bytes_ok_get)).
  wp_write.
  apply wp_bind, (wp_mono _ (λ r', written b3 (off p + 20) (len p - off p) (λ k, get p (k - 20)) r')).
  { wp_step.
    - wp_write. replace (hdr p + (off p - hdr p)) with (off p) by lia.
      replace (hdr p + (off p - hdr p + 20)) with (off p + 20) by lia.
      eapply wp_copy_from_w; [lia|len_lia|]. rewrite len_sub by zlia.
      intros r' (L4 & O4 & G4). split_and!; [done| |].
      + intros. apply O4; [done|auto with b4].
      + intros k. rewrite G4. zcases; try done. readback. f_equal. lia.
    - apply wp_ret. split_and!; [done|done|]. intros k. zcases. done. }
  intros b4 (L4 & O4 & G4). specialize (O4 ltac:(done) ltac:(intros; by apply bytes_ok_get)).
  wp_write. wp_write.
  eapply wp_mono; [apply (wp_reopt p (option_area p ++ md5_option r)); [done| | ]|].
  - unfold options_fit. rewrite len_app, Hal, Hm20. split_and!; [|lia..].
    unfold off. Z.div_mod_to_equations. lia.
  - unfold reopt_draft. rewrite len_app, Hal, Hm20. split_and!.
    + done.
    + lia.
    + rewrite G5. test_step. rewrite Z.shiftr_lor, Z.shiftr_land. change (Z.shiftr 15 4) with 0.
      rewrite Z.land_0_r, Z.lor_0_r, u8_small;
        [|unfold is_byte; rewrite Z.shiftl_mul_pow2 by lia; Z.div_mod_to_equations; lia].
      rewrite Z.shiftr_shiftl_l, Z.shiftl_0_r by lia. Z.div_mod_to_equations; lia.
    + intros k Hk Hk2. readback. all: f_equal; lia.
    + intros k Hk. rewrite get_app, Hal. unfold option_area. readback. all: f_equal; lia.
    + intros k Hk. rewrite G5. zcases. rewrite G4. zcases. f_equal. lia.
  - intros f Hf. done.
Qed.

(** C36: [StripSACKFromTCP] keeps the options of a packet that are not about SACK, in
    their order, and nothing else: the result is the packet itself or a valid packet
    with the same data, sequence number and flags. *)
Theorem StripSACK_strips p : captured p → wp (StripSACK p) (λ f,
  captured f ∧ (f = p ∨ valid f)
  ∧ options (option_area f) = filter not_sack (options (option_area p))
  ∧ seq_no f = seq_no p ∧ payload_of f = payload_of p ∧ get f (hdr p + 13) = get p (hdr p + 13)).
Proof using Rd.
  intros Hc. eapply wp_mono; [by apply wp_StripSACK|]. intros f [[Ho ->]|(o & Hre & Hos)].
  - split_and!; try done; [by left|]. unfold option_area. rewrite Ho, sub_nil. done.
  - destruct (seq_no_reopt p o f Hc Hre) as [Hs Hf]. destruct Hre as (Hv & Hcf & _ & _ & Ha & Hp & _).
    rewrite Ha. split_and!; try done. by right.
Qed.
End rewrite_laws.

(** ** IPv6 extension headers *)

Lemma strip_loop_returns fuel p i e acc : Z.max 0 (e - i) < Z.of_nat fuel → bytes_ok p → strip_loop fuel p i e acc ≠ Spin.
Proof.
  revert i acc. induction fuel as [|f IH]; intros i acc Hf Hok; [lia|]. cbn [strip_loop].
  case_if; [|done]. bprop. unfold idx at 1. case_if; [|done]. cbn [go_bind].
  case_if; [done|]. case_if; [apply IH; [lia|done]|]. case_if; [done|].
  unfold idx. case_if; [|done]. cbn [go_bind]. case_if; [done|]. bprop.
  unfold slice. repeat case_if; cbn [go_bind]; try done; apply IH; first [done|lia].
Qed.

Lemma bind_panic {A B : Type} (m : go A) (f : A → go B) : m ≠ Spin → (∀ a, f a = Panic) → go_bind m f = Panic.
Proof. destruct m; simpl; auto. by intros []. Qed.

(** C37: [StripSACKFromTCPv6] reads the TCP header right behind the IPv6 header: when the
    header length it finds there points behind the packet, as it can for a packet
    with extension headers, the routine panics. *)
Theorem StripSACKFromTCPv6_panics (p : bytes) : bytes_ok p → 60 <= len p →
  len p < 40 + Z.shiftr (get p 52) 4 * 4 → StripSACKFromTCPv6 p = Panic.
Proof.
  intros Hok Hl Hb. pose proof (nibble_range _ (bytes_ok_get p 52 Hok)) as Hn.
  unfold StripSACKFromTCPv6, StripSACK. cbn [headers IPv6]. unfold header_lengthsV6.
  change (40 + 12) with 52. unfold idx. case_if; [|zlia]. cbn [go_bind].
  rewrite u8_small by (unfold is_byte; lia). case_if; [zlia|].
  apply bind_panic; [apply strip_loop_returns; [lia|done]|]. intros new. cbv zeta.
  assert (∀ n, make n ≠ Spin) as Hmk by (intros n; unfold make; by case_if).
  assert (∀ d i j s, copy_at d i j s ≠ Spin) as Hcp by (intros d i j s; unfold copy_at; by case_if).
  assert (∀ l i j, slice l i j ≠ Spin) as Hsl by (intros l i j; unfold slice; by case_if).
  do 6 (apply bind_panic; [auto|intros ?]).
  unfold slice_from, slice. case_if; [zlia|done].
Qed.

(** ** The ICMP replies *)

Lemma wp_icmp_checksum (pkt : bytes) (e sum : Z) : bytes_ok pkt → 0 <= e → e mod 2 = 0 → e + 8 <= len pkt <= 65535 →
  0 <= sum < 4000000 → get pkt (e + 2) = 0 → get pkt (e + 3) = 0 →
  wp (icmp_checksum pkt e sum) (λ f, rewrites pkt (e + 2) f
    ∧ sum_verifies (sum + wsum (sub f e (len f)))).
Proof.
  intros Hok He Hev Hl Hs H2 H3. unfold icmp_checksum. wp_write.
  pose proof (wsum_bound (sub pkt e (len pkt)) ltac:(auto with b4)) as Hb.
  rewrite len_sub in Hb by lia. wp_step.
  apply wp_sum_segment; [auto with b4|lia|lia|]. wp_step. 
  apply wp_fold_carry; [lia|]. intros r Hr1 Hr2 Hr3 Hr4. unfold put16. apply wp_copy_fit; [len_lia..|].
  rewrite not16_val, u16_small by lia.
  assert (splice pkt (e + 2) (bytes16 0) = pkt) as Hz.
  { apply list_ext_get; [len_lia|]. intros k Hk. rewrite get_splice by (len_simp; lia). len_simp. case_if; [|done].
    assert (k = e + 2 ∨ k = e + 3) as [->| ->] by zlia.
    - by rewrite Z.sub_diag, H2.
    - replace (e + 3 - (e + 2)) with 1 by lia. by rewrite H3. }
  split; [apply rewrites_splice; auto; lia|]. rewrite len_splice by (len_simp; lia).
  rewrite (wsum_field pkt (e + 2)), Hz by (auto; lia || (replace (e + 2 - e) with 2 by lia; done)).
  rewrite Z.add_assoc. apply checksum_completes; auto; lia.
Qed.

(** What an ICMP error quotes of a packet. *)
Definition quoted4 (p : bytes) : Z := Z.min (ihl4 p + 8) (len p).
Definition quoted6 (p : bytes) : Z := Z.min 1232 (len p).

(** [BuildICMPv4Reject] answers every IPv4 packet that holds its header with a valid
    ICMP message "port unreachable" (type 3, code 3) from the server to the client,
    which quotes the header and the first eight bytes of its data; it gives up on
    the others. *)
Theorem BuildICMPv4Reject_quotes (p client server : bytes) :
  bytes_ok p → bytes_ok client → bytes_ok server →
  wp (BuildICMPv4Reject p client server) (λ o,
    match o with
    | None => ¬ (20 <= ihl4 p <= len p ∧ Z.shiftr (get p 0) 4 = 4 ∧ 4 <= len client ∧ 4 <= len server)
    | Some f =>
        len f = 28 + quoted4 p ∧ get f 0 = 69 ∧ get16 f 2 = len f ∧ get f 9 = 1
        ∧ sub f 12 16 = sub server 0 4 ∧ sub f 16 20 = sub client 0 4
        ∧ get f 20 = 3 ∧ get f 21 = 3 ∧ sub f 28 (28 + quoted4 p) = sub p 0 (quoted4 p)
        ∧ sum_verifies (wsum (sub f 0 20)) ∧ sum_verifies (wsum (sub f 20 (len f)))
    end).
Proof.
  intros Hp Hc Hs. destruct (ihl4_range p Hp) as [Hih _]. unfold BuildICMPv4Reject.
  wp_step; [apply wp_ret; zlia|]. do 2 wp_step. wp_step; [apply wp_ret; zlia|]. bprop. fold (ihl4 p). cbv zeta.
  wp_step; [apply wp_ret; zlia|]. bprop.
  assert ((if len p <? ihl4 p + 8 then len p else ihl4 p + 8) = quoted4 p) as -> by (unfold quoted4; case_if; zlia).
  assert (20 <= quoted4 p <= 68 ∧ quoted4 p <= len p) as Hq by (unfold quoted4; lia).
  do 13 wp_write. wp_step.
  eapply wp_mono; [apply wp_icmp_checksum; [done|lia|done|lia|lia|..]|].
  { readback. done. }
  { readback. done. }
  intros g ((Lg & Og & Gg) & Sg). wp_step.
  match type of Lg with len g = len ?b => assert (∀ k, k < 22 ∨ 24 <= k → get g k = get b k) as Gg' end.
  { intros k Hk. apply Gg. lia. }
  assert (get g 0 = 69) as H69 by (rewrite Gg' by lia; readback; done).
  apply wp_fix_header; [done|lia|by rewrite ihl4_69|lia|].
  intros f (Lf & Of & Gf) Sf. apply wp_ret. split_and!.
  - lia.
  - rewrite Gf by lia. done.
  - apply get16_bytes16; [lia|..]; rewrite Gf, Gg' by lia; readback; rewrite u16_small by lia; do 2 f_equal; lia.
  - rewrite Gf, Gg' by lia. readback. done.
  - replace 16 with (12 + len (sub server 0 4)) by (len_simp; lia). apply sub_is; [lia|len_lia|].
    intros k Hk. rewrite len_sub in Hk by lia. rewrite Gf, Gg' by lia. readback. f_equal; lia.
  - replace 20 with (16 + len (sub client 0 4)) by (len_simp; lia). apply sub_is; [lia|len_lia|].
    intros k Hk. rewrite len_sub in Hk by lia. rewrite Gf, Gg' by lia. readback. f_equal; lia.
  - rewrite Gf, Gg' by lia. readback. done.
  - rewrite Gf, Gg' by lia. readback. done.
  - replace (28 + quoted4 p) with (28 + len (sub p 0 (quoted4 p))) by (len_simp; lia). apply sub_is; [lia|len_lia|].
    intros k Hk. rewrite len_sub in Hk by lia. rewrite Gf, Gg' by lia. readback. f_equal; lia.
  - done.
  - rewrite Z.add_0_l in Sg. replace (sub f 20 (len f)) with (sub g 20 (len g)); [done|].
    apply list_ext_get; [len_simp; lia|]. intros k Hk. rewrite len_sub in Hk by lia.
    rewrite !get_sub by lia. zcases; try done. rewrite Gf by lia. done.
Qed.

(** [BuildICMPv6Reject]: the same with "port unreachable" of ICMPv6 (type 1, code 4),
    which quotes as much of the packet as fits in 1280 bytes. *)
Theorem BuildICMPv6Reject_quotes (p client server : bytes) :
  bytes_ok p → bytes_ok client → bytes_ok server →
  wp (BuildICMPv6Reject p client server) (λ o,
    match o with
    | None => ¬ (40 <= len p ∧ Z.shiftr (get p 0) 4 = 6 ∧ 16 <= len client ∧ 16 <= len server)
    | Some f =>
        len f = 48 + quoted6 p ∧ get f 0 = 96 ∧ get16 f 4 = len f - 40 ∧ get f 6 = 58
        ∧ sub f 8 24 = sub server 0 16 ∧ sub f 24 40 = sub client 0 16
        ∧ get f 40 = 1 ∧ get f 41 = 4 ∧ sub f 48 (48 + quoted6 p) = sub p 0 (quoted6 p)
        ∧ sum_verifies (pseudo_sum6 f 58 (len f - 40) + wsum (sub f 40 (len f)))
    end).
Proof.
  intros Hp Hc Hs. unfold BuildICMPv6Reject.
  wp_step; [apply wp_ret; zlia|]. do 2 wp_step. wp_step; [apply wp_ret; zlia|]. bprop. cbv zeta.
  assert ((if 1232 <? len p then 1232 else len p) = quoted6 p) as -> by (unfold quoted6; case_if; zlia).
  assert (40 <= quoted6 p <= 1232 ∧ quoted6 p <= len p) as Hq by (unfold quoted6; lia).
  do 13 wp_write.
  pose proof (wsum_bound (sub server 0 16) ltac:(auto with b4)) as Hbs.
  pose proof (wsum_bound (sub client 0 16) ltac:(auto with b4)) as Hbc. rewrite !len_sub in Hbs, Hbc by lia.
  wp_step. apply (wp_sum_words _ _ _ 16); try done || lia.
  wp_step. apply (wp_sum_words _ _ _ 16); try done || lia. rewrite Z.add_0_l.
  rewrite (u32_small (8 + _)), (u32_small (_ + (8 + _))), u32_small by lia.
  wp_step. eapply wp_mono; [apply wp_icmp_checksum; [done|lia|done|lia|lia|..]|].
  { readback. done. }
  { readback. done. }
  intros f ((Lg & Og & Gg) & Sg). apply wp_ret.
  match type of Lg with len f = len ?b => assert (∀ k, k < 42 ∨ 44 <= k → get f k = get b k) as Gf end.
  { intros k Hk. apply Gg. lia. }
  assert (sub f 8 24 = sub server 0 16) as Hsrc.
  { replace 24 with (8 + len (sub server 0 16)) by (len_simp; lia). apply sub_is; [lia|len_lia|].
    intros k Hk. rewrite len_sub in Hk by lia. rewrite Gf by lia. readback. f_equal; lia. }
  assert (sub f 24 40 = sub client 0 16) as Hdst.
  { replace 40 with (24 + len (sub client 0 16)) by (len_simp; lia). apply sub_is; [lia|len_lia|].
    intros k Hk. rewrite len_sub in Hk by lia. rewrite Gf by lia. readback. f_equal; lia. }
  split_and!.
  - lia.
  - rewrite Gf by lia. readback. done.
  - apply get16_bytes16; [lia|..]; rewrite Gf by lia; readback; rewrite u16_small by lia; do 2 f_equal; lia.
  - rewrite Gf by lia. readback. done.
  - done.
  - done.
  - rewrite Gf by lia. readback. done.
  - rewrite Gf by lia. readback. done.
  - replace (48 + quoted6 p) with (48 + len (sub p 0 (quoted6 p))) by (len_simp; lia). apply sub_is; [lia|len_lia|].
    intros k Hk. rewrite len_sub in Hk by lia. rewrite Gf by lia. readback. f_equal; lia.
  - unfold pseudo_sum6. rewrite (sub_app f 8 24 40), Hsrc, Hdst by lia.
    rewrite wsum_app by (rewrite len_sub by lia; done).
    match type of Sg with sum_verifies ?x => match goal with |- sum_verifies ?y => replace y with x; [done|lia] end end.
Qed.

(** ** Witnesses *)

(** A segment with the options MSS, SACK-permitted and two NOPs. *)
Definition options_demo : bytes :=
  [69;0;0;52; 1;2;64;0; 64;6;0;0; 10;0;0;1; 93;184;216;34;
   200;1;1;187; 0;0;0;1; 0;0;0;2; 112;24;255;255; 9;9;0;0; 2;4;5;180; 4;2;1;1; 104;101;108;108].

Lemma StripSACK_strips_witness :
  wp (StripSACKFromTCP options_demo) (λ f, options (@option_area IPv4 _ f) = [[2;4;5;180]; [1]; [1]]).
Proof.
  eapply wp_mono; [apply (StripSACK_strips options_demo)|].
  - split; [by apply bytes_okb_spec|]. vmc.
  - intros f (_ & _ & -> & _). vmc.
Defined.

(** A segment behind an IPv6 options header, which the rest of the program accepts. *)
Definition extension_demo : bytes :=
  ip6_demo 60 [6;0;1;4;0;0;0;0; 200;1;1;187; 160;0;0;1; 0;0;0;2; 80;24;255;255; 9;9;0;0].

Lemma StripSACKFromTCPv6_panics_witness :
  (∃ pi, ExtractPacketInfoV6 extension_demo = Ret (Some pi)) ∧ StripSACKFromTCPv6 extension_demo = Panic.
Proof.
  split; [by eexists; vm_compute|].
  apply (StripSACKFromTCPv6_panics extension_demo); [by apply bytes_okb_spec|vmc|vmc].
Defined.

Lemma BuildICMPv4Reject_quotes_witness :
  wp (BuildICMPv4Reject options_demo [10;0;0;1] [93;184;216;34]) (λ o,
    match o with Some f => sum_verifies (wsum (sub f 20 (len f))) | None => False end).
Proof.
  eapply wp_mono; [apply (BuildICMPv4Reject_quotes options_demo [10;0;0;1] [93;184;216;34]); by apply bytes_okb_spec|].
  intros [f|]; [intros H; apply H|]. intros H. apply H. vmc.
Defined.

Lemma BuildICMPv6Reject_quotes_witness :
  wp (BuildICMPv6Reject extension_demo (replicate 16 1) (replicate 16 2)) (λ o,
    match o with Some f => len f = 116 | None => False end).
Proof.
  eapply wp_mono; [apply (BuildICMPv6Reject_quotes extension_demo (replicate 16 1) (replicate 16 2)); by apply bytes_okb_spec|].
  intros [f|]; [intros H; apply H|]. intros H. apply H. vmc.
Defined.
