(* ===== verification/Syn.v ===== *)
(** * Fakes for a SYN

    src/src/nfq/syn.go: the packets sent before the SYN of a connection.  One has a
    payload, a low TTL and a broken checksum; the other is a SYN of the past that
    carries an MD5 signature option. *)

From Stdlib Require Import ZArith Lia Ascii.
From stdpp Require Import base list numbers sets strings.
From S2P Require Import Prelude Config Payloads Checksum Fragment Buffer Segment Families Mutation Strategies FakeSni Rewrite.

Local Open Scope Z_scope.

(** What the strategy changes; a "pastseq" fake keeps the sequence number when that is
    not above the offset. *)
Definition syn_disguise `{Family} (cfg : SetConfig) (fakePkt : bytes) (ipHdrLen : Z) : go bytes :=
  let strategy := f_Strategy (Faking cfg) in
  let SeqOffset := SeqOffset (Faking cfg) in
  if bool_decide (strategy = "randseq"%string)
  then
    let! seq := be32 fakePkt (ipHdrLen + 4) in
    let seq := u32 (seq + u32 SeqOffset) in
    let seq := if SeqOffset =? 0 then u32 (seq + 100000) else seq in
    put32 fakePkt (ipHdrLen + 4) seq
  else if bool_decide (strategy = "pastseq"%string)
  then
    let! seq := be32 fakePkt (ipHdrLen + 4) in
    let offset := u32 SeqOffset in
    let offset := if offset =? 0 then 10000 else offset in
    let seq := if offset <? seq then u32 (seq - offset) else seq in
    put32 fakePkt (ipHdrLen + 4) seq
  else if bool_decide (strategy = "timestamp"%string)
  then
    let decrease := TimestampDecrease (Faking cfg) in
    let decrease := if decrease =? 0 then 600000 else decrease in
    let! (fakePkt, _) := DecreaseTCPTimestamp fakePkt decrease is_v6 in
    Ret fakePkt
  else Ret fakePkt.

(** The part of the payload that a fake SYN carries. *)
Definition syn_payload_len (cfg : SetConfig) (fakePayload : bytes) : Z :=
  let fakePayloadLen := SynFakeLen (TCP cfg) in
  if 0 <? fakePayloadLen
  then if len fakePayload <? fakePayloadLen then len fakePayload else fakePayloadLen
  else 0.

Definition syn_ttl (cfg : SetConfig) : Z :=
  let configTTL := SynTTL (TCP cfg) in
  if configTTL =? 0 then FakingTTL (Faking cfg) else configTTL.

Definition sendFakeSyn `{Family} (cfg : SetConfig) (r : draws) (raw : bytes) (ipHdrLen tcpHdrLen : Z)
    : go (list action) :=
  let fakePayload := GetPayload (Faking cfg) (r_payload r) in
  let fakePayloadLen := syn_payload_len cfg fakePayload in
  let totalLen := ipHdrLen + tcpHdrLen + fakePayloadLen in
  let! data := slice fakePayload 0 fakePayloadLen in
  let! fakePkt := new_segment raw (ipHdrLen + tcpHdrLen) data in
  let! fakePkt := put16 fakePkt len_at (if is_v6 then tcpHdrLen + fakePayloadLen else totalLen) in
  let! ttl := dynamicTTL raw is_v6 (syn_ttl cfg) in
  let! fakePkt := upd fakePkt ttl_at ttl in
  let! fakePkt := syn_disguise cfg fakePkt ipHdrLen in
  let! fakePkt := fix_segment fakePkt ipHdrLen in
  let! fakePkt := corruptTCPChecksum fakePkt ipHdrLen in
  Ret [Send fakePkt].

(** [fakeSyn] is a copy of [raw]; over IPv6 the option routine alone completes the
    checksum. *)
Definition sendFakeSynWithMD5 `{Family} (cfg : SetConfig) (r : draws) (raw : bytes) (ihl : Z)
    : go (list action) :=
  let fakeSyn := raw in
  let! ttl := dynamicTTL raw is_v6 (FakingTTL (Faking cfg)) in
  let! fakeSyn := upd fakeSyn ttl_at ttl in
  let! seq := be32 fakeSyn (ihl + 4) in
  let! fakeSyn := put32 fakeSyn (ihl + 4) (u32 (seq - 10000)) in
  let! fakeSyn := (if is_v6 then Ret fakeSyn else fix_segment fakeSyn ihl) in
  let! fakeSyn := AddTCPMD5Option (r_tls r) fakeSyn in
  Ret [Send fakeSyn].

Definition sendFakeSynV4 := @sendFakeSyn IPv4.
Definition sendFakeSynV6 := @sendFakeSyn IPv6.
Definition sendFakeSynWithMD5V4 := @sendFakeSynWithMD5 IPv4.
Definition sendFakeSynWithMD5V6 (cfg : SetConfig) (r : draws) (raw : bytes) :=
  @sendFakeSynWithMD5 IPv6 cfg r raw 40.

(** ** The fakes as packets of the connection *)

Section syn.
Context {F : Family} {R : Receiver} {Rd : Reader} {Rw : Rewriter}.
Implicit Types (p l d f g : bytes) (cfg : SetConfig) (r : draws).

(** The sequence number the strategy chooses. *)
Definition syn_seq cfg p : Z :=
  let strategy := f_Strategy (Faking cfg) in
  let offset := SeqOffset (Faking cfg) in
  if bool_decide (strategy = "randseq"%string)
  then u32 (seq_no p + (if offset =? 0 then 100000 else offset))
  else if bool_decide (strategy = "pastseq"%string)
  then
    let offset := if u32 offset =? 0 then 10000 else u32 offset in
    if offset <? seq_no p then seq_no p - offset else seq_no p
  else seq_no p.

(** A fake SYN: of [p]'s connection with a lower TTL, and but for its inverted TCP
    checksum valid; only the strategy "timestamp" changes the options. *)
Definition fake_syn cfg p d f : Prop := ∃ t p' g,
  1 <= t < 256 ∧ (1 < get p ttl_at → t < get p ttl_at)
  ∧ sibling (with_ttl p t) p' ∧ (f_Strategy (Faking cfg) ≠ "timestamp"%string → p' = with_ttl p t)
  ∧ seg_of p' (syn_seq cfg p) d g
  ∧ f = splice g (hdr p + 16) (bytes16 (65535 - get16 g (hdr p + 16))).

Lemma sibling_id p p' : captured p → sibling p p' → hdr p' = hdr p.
Proof. by intros _ (_ & H & _). Qed.

Lemma seq_ttl p t : captured p → 1 <= t < 256 → seq_no (with_ttl p t) = seq_no p.
Proof. intros Hc Ht. by destruct (sibling_ttl p t Hc Ht) as (_ & _ & _ & H & _). Qed.

Lemma wp_syn_disguise cfg p q d l : captured q → hdr q = hdr p → seq_no q = seq_no p →
  ready q (seq_no p) d l →
  wp (syn_disguise cfg l (hdr p)) (λ l', ∃ p', sibling q p'
    ∧ (f_Strategy (Faking cfg) ≠ "timestamp"%string → p' = q) ∧ ready p' (syn_seq cfg p) d l').
Proof using Rd Rw.
  intros Hc Hh Hs Hr. pose proof (captured_range q Hc). pose proof Hc as (Hok & _ & _ & Hl & _).
  pose proof Hr as [Hd _]. pose proof Hd as (Hokl & Hll & Hsq & _). pose proof (draft_seq _ _ _ _ Hd) as Hseq.
  rewrite Hh in Hseq. unfold syn_disguise, syn_seq. cbv zeta. set (st := f_Strategy (Faking cfg)).
  assert (∀ v, 0 <= v < 4294967296 → wp (put32 l (hdr p + 4) v) (λ l', ∃ p', sibling q p'
    ∧ (st ≠ "timestamp"%string → p' = q) ∧ ready p' v d l')) as Hw.
  { intros v Hv. rewrite <- Hh. eapply wp_mono; [by apply (wp_ready_seq _ _ _ _ v Hc Hr)|].
    intros l' Hl'. exists q. split_and!; [by apply sibling_refl|done|done]. }
  case_bool_decide as S1; [|case_bool_decide as S2; [|case_bool_decide as S3]].
  - do 2 wp_step. rewrite Hseq.
    assert ((if SeqOffset (Faking cfg) =? 0 then u32 (u32 (seq_no p + u32 (SeqOffset (Faking cfg))) + 100000)
             else u32 (seq_no p + u32 (SeqOffset (Faking cfg))))
            = u32 (seq_no p + (if SeqOffset (Faking cfg) =? 0 then 100000 else SeqOffset (Faking cfg)))) as ->.
    { destruct (SeqOffset (Faking cfg) =? 0) eqn:E; bprop.
      - rewrite E. change (u32 0) with 0. rewrite Z.add_0_r, (u32_small (seq_no p)) by lia. done.
      - apply u32_add_l. }
    apply Hw, u32_range.
  - do 2 wp_step. rewrite Hseq.
    match goal with |- wp (put32 _ _ ?v) _ => assert (v = syn_seq cfg p) as Hv end.
    { unfold syn_seq. cbv zeta. fold st. rewrite (bool_decide_eq_false_2 (st = _)), bool_decide_eq_true_2 by done.
      pose proof (u32_range (SeqOffset (Faking cfg))). repeat case_if; bprop; try lia; by rewrite u32_small by lia. }
    rewrite Hv. unfold syn_seq in *. cbv zeta in *. fold st in Hv |- *.
    rewrite (bool_decide_eq_false_2 (st = _)), bool_decide_eq_true_2 in Hv |- * by done.
    apply Hw. pose proof (u32_range (SeqOffset (Faking cfg))). repeat case_if; zlia.
  - wp_step. eapply wp_mono; [by apply (wp_Decrease q (seq_no p) d)|]. intros [l' b] (p' & Hsib & _ & Hr').
    apply wp_ret. exists p'. done.
  - exists q. split_and!; [by apply sibling_refl|done|done].
Qed.

Lemma ready_self p : captured p → total p = len p → ready p (seq_no p) (payload_of p) p.
Proof using Type.
  intros Hc Ht. pose proof (captured_range p Hc). pose proof Hc as (Hok & _ & _ & Hl & _).
  split; [|done]. unfold draft. rewrite payload_len by done. split_and!; try done; try lia.
  - by apply seq_no_range.
  - by apply seq_no_range.
  - intros k Hk. unfold seq_no. rewrite bytes32_get32 by (done || lia). done.
  - intros k Hk. unfold payload_of. rewrite get_sub by lia. zcases. done.
Qed.

Lemma sibling_hdr p t p' : captured p → 1 <= t < 256 → sibling (with_ttl p t) p' → hdr p' = hdr p.
Proof using Type. intros Hc Ht (_ & Hh & _). rewrite Hh. apply (captured_ttl p t Hc Ht). Qed.
End syn.

(** The length field of an IPv6 packet does not count the IPv6 header. *)
Class LengthBase {F : Family} {R : Receiver} :=
  base_law p : captured p → len_base = if is_v6 then hdr p else 0.
#[export] Instance LengthBase4 : @LengthBase IPv4 _.
Proof. done. Qed.
#[export] Instance LengthBase6 : @LengthBase IPv6 _.
Proof. done. Qed.

Section syn_laws.
Context {F : Family} {R : Receiver} {Rd : Reader} {Rw : Rewriter} {Lb : LengthBase}.
Implicit Types (p l d f g : bytes) (cfg : SetConfig) (r : draws).

(** What is assumed of the configuration. *)
Definition syn_ok cfg : Prop :=
  faking_ok (Faking cfg) ∧ is_byte (FakingTTL (Faking cfg)) ∧ is_byte (SynTTL (TCP cfg))
  ∧ len (PayloadData (Faking cfg)) <= 65000 ∧ len (CustomPayload (Faking cfg)) <= 65000.

(** The fake SYN has the configured prefix of the fake payload, a TTL below the SYN's
    and the sequence number of the strategy; but for the inverted TCP checksum it
    would be a valid segment. *)
Theorem sendFakeSyn_decoy cfg r p : captured p → syn_ok cfg →
  wp (sendFakeSyn cfg r p (hdr p) (off p - hdr p)) (λ acts, ∃ f,
    let payload := GetPayload (Faking cfg) (r_payload r) in
    acts = [Send f] ∧ fake_syn cfg p (take (Z.to_nat (SynFakeLen (TCP cfg))) payload) f).
Proof using Lb Rd Rw.
  intros Hc (Hfk & Httl & Hsttl & Hpd & Hcp). pose proof (captured_range p Hc) as Hr.
  pose proof Hc as (Hok & _ & _ & Hlp & _).
  unfold sendFakeSyn. cbv zeta. set (payload := GetPayload _ _).
  assert (bytes_ok payload ∧ len payload <= 65000) as [Hpok Hpl].
  { split; [by apply GetPayload_ok|]. unfold payload, GetPayload. repeat case_if; done || by rewrite len_random. }
  set (n := syn_payload_len cfg payload).
  assert (0 <= n <= len payload ∧ sub payload 0 n = take (Z.to_nat (SynFakeLen (TCP cfg))) payload) as [Hn Hsub].
  { unfold n, syn_payload_len. cbv zeta. unfold sub. repeat case_if; bprop; split; try lia;
      rewrite Z.sub_0_r, drop_0.
    - rewrite !take_ge by lia. done.
    - done.
    - rewrite (Z2Nat.nonpos (SynFakeLen (TCP cfg))) by lia. done. }
  rewrite Zplus_minus. wp_step. wp_step. rewrite Hsub.
  set (d := take _ payload) in *. assert (bytes_ok d) as Hd by (unfold d; auto with b4).
  assert (len d = n) as Hln by (rewrite <- Hsub, len_sub by lia; lia).
  wp_step. eapply wp_mono; [by apply (wp_new_segment p d Hc Hd)|]. intros l Hl.
  pose proof (base_law p Hc) as Hbase.
  wp_step. apply (wp_mono _ (ready p (seq_no p) d)).
  { pose proof Hl as (_ & Hll & _).
    replace (if is_v6 then off p - hdr p + n else off p + n) with (len l - len_base)
      by (rewrite Hbase; destruct is_v6; lia).
    change (wp (set_len l (len l)) (ready p (seq_no p) d)).
    apply wp_draft_len; [done|done|done|lia]. }
  intros l1 Hl1. wp_step.
  assert (is_byte (syn_ttl cfg)) as Hst by (unfold syn_ttl; by case_if).
  eapply wp_mono; [apply wp_dynamicTTL; [done|done|lia]|]. intros t (Ht & Hlt & _).
  destruct ttl_out as [_ Hat]. rewrite <- Hat in Hlt.
  wp_step. eapply wp_mono; [by apply (wp_ready_ttl p _ _ _ t Hc Hl1)|]. intros l2 Hl2.
  destruct (captured_ttl p t Hc Ht) as (Hct & Hht & Hot & _). pose proof (seq_ttl p t Hc Ht) as Hs.
  wp_step. eapply wp_mono; [apply (wp_syn_disguise cfg p (with_ttl p t) d l2); done|].
  intros l3 (p' & Hsib & Htm & Hl3). pose proof Hsib as (Hc' & Hh' & Ho' & _).
  assert (hdr p' = hdr p) as Hhp by congruence.
  wp_step. rewrite <- Hhp at 1. eapply wp_mono; [apply (wp_ready_fix p' (syn_seq cfg p) d l3 Hc' Hl3)|]. intros g Hg.
  destruct (seg_of_len _ _ _ _ Hg) as (Hgok & Hgl & _). pose proof (captured_range p' Hc') as Hr'.
  wp_step. eapply wp_mono; [apply (corrupt_splice g (hdr p)); [done|lia|lia]|]. intros f ->.
  apply wp_ret. eexists. split; [done|]. exists t, p', g. done.
Qed.

(** The fake SYN before its option is added. *)
Definition past_syn cfg p l : Prop := ∃ t,
  1 <= t < 256 ∧ (1 < get p ttl_at → t < get p ttl_at)
  ∧ ready (with_ttl p t) (u32 (seq_no p - 10000)) (payload_of p) l.

Lemma wp_past_syn cfg r p : captured p → total p = len p → is_byte (FakingTTL (Faking cfg)) →
  len p + 20 <= 65535 + len_base →
  wp (sendFakeSynWithMD5 cfg r p (hdr p)) (λ acts, ∃ f l,
    acts = [Send f] ∧ past_syn cfg p l
    ∧ if 40 <? off p - hdr p then f = l else reopt l (option_area l ++ md5_option (r_tls r)) f).
Proof using Rd Rw.
  intros Hc Htot Httl Hfit. pose proof (captured_range p Hc) as Hr.
  pose proof Hc as (Hok & _ & _ & Hlp & _). pose proof ttl_range as Htr.
  unfold sendFakeSynWithMD5. cbv zeta.
  wp_step. eapply wp_mono; [apply wp_dynamicTTL; [done|done|lia]|]. intros t (Ht & Hlt & _).
  destruct ttl_out as [Hout Hat]. rewrite <- Hat in Hlt.
  pose proof (ready_self p Hc Htot) as Hp.
  wp_step. eapply wp_mono; [by apply (wp_ready_ttl p _ _ _ t Hc Hp)|]. intros l1 Hl1.
  destruct (captured_ttl p t Hc Ht) as (Hct & Hht & Hot & Hlt'). pose proof (seq_ttl p t Hc Ht) as Hs.
  assert (len l1 = len p) as Hll1. { destruct Hl1 as [(_ & Hll & _) _]. rewrite payload_len in Hll by done. lia. }
  do 2 wp_step. wp_step. rewrite <- Hht at 1 2.
  eapply wp_mono; [apply (wp_ready_seq _ _ _ _ _ Hct Hl1), u32_range|]. intros l2 Hl2.
  pose proof Hl1 as [Hd1 _]. pose proof (draft_seq _ _ _ _ Hd1) as Hseq. rewrite Hseq in Hl2.
  set (sq := u32 (seq_no p - 10000)) in *. set (q := with_ttl p t) in *. set (d := payload_of p) in *.
  assert (0 <= sq < 4294967296) as Hsq by apply u32_range.
  wp_step. apply (wp_mono _ (ready q sq d)).
  { destruct is_v6; [by apply wp_ret|]. rewrite <- Hht at 1. eapply wp_mono; [apply (wp_ready_fix q sq d l2 Hct Hl2)|].
    intros g Hg. by apply seg_ready. }
  intros l3 Hl3. destruct (ready_captured q sq d l3 Hct Hl3) as (Hc3 & Hh3 & Ho3).
  pose proof Hl3 as [(_ & Hll3 & _) _]. rewrite Hot in Hll3. unfold d in Hll3. rewrite payload_len in Hll3 by done.
  wp_step. eapply wp_mono; [apply (wp_AddTCPMD5Option (r_tls r) l3 Hc3); lia|]. rewrite Ho3, Hh3, Hot, Hht.
  intros f Hf. apply wp_ret. exists f, l3. split_and!; [done| |done]. by exists t.
Qed.

(** With or without room for the option. *)
Lemma wp_sendFakeSynWithMD5_any cfg r p : captured p → total p = len p → is_byte (FakingTTL (Faking cfg)) →
  len p + 20 <= 65535 + len_base →
  wp (sendFakeSynWithMD5 cfg r p (hdr p)) (λ acts, ∃ f, acts = [Send f] ∧ captured f).
Proof using Rd Rw.
  intros Hc Htot Httl Hfit. eapply wp_mono; [by apply wp_past_syn|].
  intros acts (f & l & -> & (t & Ht & _ & Hl) & Hf). exists f. split; [done|].
  destruct (captured_ttl p t Hc Ht) as (Hct & _). destruct (ready_captured _ _ _ l Hct Hl) as (Hcl & _).
  destruct (40 <? off p - hdr p); [by subst|]. apply Hf.
Qed.

Lemma wp_sendFakeSynWithMD5 cfg r p : captured p → total p = len p → is_byte (FakingTTL (Faking cfg)) →
  off p - hdr p <= 40 → len p + 20 <= 65535 + len_base →
  wp (sendFakeSynWithMD5 cfg r p (hdr p)) (λ acts, ∃ f,
    acts = [Send f] ∧ valid f ∧ captured f ∧ hdr f = hdr p
    ∧ seq_no f = u32 (seq_no p - 10000) ∧ payload_of f = payload_of p
    ∧ option_area f = option_area p ++ md5_option (r_tls r)
    ∧ (1 < get p ttl_at → 1 <= get f ttl_at < get p ttl_at)).
Proof using Rd Rw.
  intros Hc Htot Httl Hopt Hfit. pose proof (captured_range p Hc) as Hr.
  pose proof Hc as (Hok & _ & _ & Hlp & _). pose proof ttl_range as Htr. destruct ttl_out as [Hout Hat].
  eapply wp_mono; [by apply wp_past_syn|].
  intros acts (f & l3 & -> & (t & Ht & Hlt & Hl3) & Hf). exists f. split; [done|].
  destruct (captured_ttl p t Hc Ht) as (Hct & Hht & Hot & Hlt'). pose proof (seq_ttl p t Hc Ht) as Hs.
  set (sq := u32 (seq_no p - 10000)) in *. set (q := with_ttl p t) in *. set (d := payload_of p) in *.
  assert (0 <= sq < 4294967296) as Hsq by apply u32_range.
  destruct (ready_captured q sq d l3 Hct Hl3) as (Hc3 & Hh3 & Ho3).
  pose proof Hl3 as [(_ & Hll3 & _) _]. rewrite Hot in Hll3. unfold d in Hll3. rewrite payload_len in Hll3 by done.
  destruct (40 <? off p - hdr p) eqn:E; [zlia|].
  destruct (seq_no_reopt l3 _ f Hc3 Hf) as [Hsf _]. destruct Hf as (Hv & Hcf & Hhf & _ & Ha & Hp' & Hg).
  assert (∀ k, 0 <= k < off p → k ∉ rewritten (hdr p) → get l3 k = get q k) as Hq.
  { intros k Hk Hn. apply (ready_header q sq d l3 k Hl3); [lia|]. by rewrite Hht. }
  split_and!; try done.
  - congruence.
  - rewrite Hsf. apply (ready_seq_no q sq d); done.
  - rewrite Hp'. destruct Hl3 as [(_ & Hlen & _ & _ & _ & _ & Hdat) _]. rewrite Hot in *.
    unfold payload_of at 1. rewrite Ho3. replace (len l3) with (off p + len d) by lia. apply sub_is; [lia|lia|done].
  - rewrite Ha. f_equal. unfold option_area. rewrite Hh3, Ho3, Hht, Hot. apply list_ext_get; [len_simp; lia|].
    intros k Hk. rewrite len_sub in Hk by lia. rewrite !get_sub by lia. zcases; try done.
    rewrite Hq; [|lia|]. { unfold q. rewrite ttl_get by done. case_if; [zlia|done]. }
    apply not_rewritten. split_and!; try lia. apply fields_high. lia.
  - intros Hp1. rewrite Hg; [|rewrite Hh3, Hht; lia|done|rewrite Hh3, Hht; lia..]. 
    rewrite Hq; [|lia|]. { unfold q. rewrite ttl_get by done. case_if; zlia. }
    apply not_rewritten. split_and!; [done|lia..].
Qed.

End syn_laws.

(** ** Witnesses *)

Lemma sendFakeSyn_decoy_witness :
  wp (sendFakeSynV6 (sni_cfg "pastseq") draws_demo packet6_demo 40 (off6 packet6_demo - 40)) (λ acts, ∃ f,
    acts = [Send f] ∧ @fake_syn IPv6 _ (sni_cfg "pastseq") packet6_demo [] f).
Proof.
  pose proof (@sendFakeSyn_decoy IPv6 _ _ _ _ (sni_cfg "pastseq") draws_demo packet6_demo captured6_demo) as H.
  specialize (H ltac:(split_and!; [split; constructor|vmc..])).
  change (@hdr IPv6 Receiver6 packet6_demo) with 40 in H. unfold sendFakeSynV6.
  eapply wp_mono; [exact H|]. intros acts (f & H1 & H2). exists f. split; [exact H1|].
  change (take (Z.to_nat (SynFakeLen (TCP (sni_cfg "pastseq")))) ?x) with (@nil Z) in H2. exact H2.
Defined.

