(* ===== verification/Incoming.v ===== *)
(** * Packets injected for incoming traffic

    The injections of src/src/nfq/inc.go, for both IP versions: fakes of the client's
    acknowledgement, and resets, FINs or bursts of both in the client's name, sent to
    the server when its packets arrive. *)

From Stdlib Require Import ZArith Lia Ascii.
From stdpp Require Import base list numbers sets strings.
From S2P Require Import Prelude Config Payloads Checksum Fragment Fragment6 Buffer Segment Families Strategies.

Local Open Scope Z_scope.

(** What one packet draws: the clock its id is taken from, the jitter of the sequence
    number, and the draws of [applyCorruption] in the order it makes them. *)
Record inc_draws := {
  i_now : Z; i_jitter : Z; i_pick : Z; i_seq : Z; i_ack : Z; i_sum1 : Z; i_sum2 : Z }.

(** ** Building a packet *)

Definition ip_len_of `{Family} : Z := if is_v6 then 40 else 20.
Definition addr_at `{Family} : Z := if is_v6 then 8 else 12.
Definition addr_len `{Family} : Z := if is_v6 then 16 else 4.

(** The IP header of a packet to the sender of [raw]. *)
Definition incoming_ip `{Family} (raw : bytes) (id ttl : Z) : go bytes :=
  if is_v6
  then
    let! pkt := make 60 in
    let! pkt := upd pkt 0 0x60 in
    let! pkt := put16 pkt 4 20 in
    let! pkt := upd pkt 6 6 in
    let! pkt := upd pkt 7 ttl in
    let! src := slice raw 24 40 in
    let! pkt := copy_at pkt 8 24 src in
    let! dst := slice raw 8 24 in
    copy_at pkt 24 40 dst
  else
    let! pkt := make 40 in
    let! pkt := upd pkt 0 0x45 in
    let! pkt := put16 pkt 2 40 in
    let! pkt := put16 pkt 4 id in
    let! pkt := upd pkt 8 ttl in
    let! pkt := upd pkt 9 6 in
    let! src := slice raw 16 20 in
    let! pkt := copy_at pkt 12 16 src in
    let! dst := slice raw 12 16 in
    copy_at pkt 16 20 dst.

(** [uint16(time.Now().UnixNano()&0xFFFF)+uint16(i)] *)
Definition incoming_id (d : inc_draws) (i : Z) : Z := u16 (u16 (Z.land (i_now d) 65535) + u16 i).

(** A packet without data that has one flag set. *)
Definition control_packet `{Family} (raw : bytes) (sport dport ack id ttl flag : Z) : go bytes :=
  let h := ip_len_of in
  let! pkt := incoming_ip raw id ttl in
  let! pkt := put16 pkt h dport in
  let! pkt := put16 pkt (h + 2) sport in
  let! pkt := put32 pkt (h + 4) ack in
  let! pkt := upd pkt (h + 12) 0x50 in
  let! pkt := upd pkt (h + 13) flag in
  fix_segment pkt h.

(** [n] packets for each count; [more] are left, the [i]-th is next. *)
Fixpoint control_packets `{Family} (raw : bytes) (sport dport ack ttl : Z) (flags : list Z)
    (draws : Z → inc_draws) (more : nat) (i : Z) : go (list action) :=
  match more with
  | O => Ret []
  | S more =>
      let! acts :=
        (fix each (flags : list Z) : go (list action) :=
           match flags with
           | [] => Ret []
           | flag :: flags =>
               let! pkt := control_packet raw sport dport ack (incoming_id (draws i) i) ttl flag in
               let! rest := each flags in
               Ret (Send pkt :: rest)
           end) flags in
      let! rest := control_packets raw sport dport ack ttl flags draws more (i + 1) in
      Ret (acts ++ rest)
  end.

(** The common body of the six injections of resets, FINs and bursts; over IPv6 the
    TCP header is looked for behind the IPv6 header. *)
Definition inject_flags `{Family} (cfg : SetConfig) (flags : list Z) (draws : Z → inc_draws)
    (raw : bytes) (ihl : Z) : go (list action) :=
  let inc := Incoming (TCP cfg) in
  let! tcp := slice_from raw ihl in
  let! sport := be16 tcp 0 in
  let! dport := be16 tcp 2 in
  let! ack := be32 tcp 8 in
  control_packets raw sport dport ack (in_FakeTTL inc) flags draws (Z.to_nat (in_FakeCount inc)) 0.

Definition InjectResetIncoming (cfg : SetConfig) (d : Z → inc_draws) (raw : bytes) (ihl : Z) :=
  @inject_flags IPv4 cfg [0x04] d raw ihl.
Definition InjectResetIncomingV6 (cfg : SetConfig) (d : Z → inc_draws) (raw : bytes) :=
  @inject_flags IPv6 cfg [0x04] d raw 40.
Definition InjectFinIncoming (cfg : SetConfig) (d : Z → inc_draws) (raw : bytes) (ihl : Z) :=
  @inject_flags IPv4 cfg [0x01] d raw ihl.
Definition InjectFinIncomingV6 (cfg : SetConfig) (d : Z → inc_draws) (raw : bytes) :=
  @inject_flags IPv6 cfg [0x01] d raw 40.
Definition InjectDesyncIncoming (cfg : SetConfig) (d : Z → inc_draws) (raw : bytes) (ihl : Z) :=
  @inject_flags IPv4 cfg [0x04; 0x01; 0x10] d raw ihl.
Definition InjectDesyncIncomingV6 (cfg : SetConfig) (d : Z → inc_draws) (raw : bytes) :=
  @inject_flags IPv6 cfg [0x04; 0x01; 0x10] d raw 40.

(** ** Corrupting a fake *)

Definition corruptionStrategies : list string := ["badsum"; "badseq"; "badack"; "all"]%string.

(** [v + uint32(rand.Intn(100000)+10000)] of the four bytes at [at_]. *)
Definition shift_field (fake : bytes) (at_ d : Z) : go bytes :=
  let! v := be32 fake at_ in
  put32 fake at_ (u32 (v + u32 (d mod 100000 + 10000))).
Definition xor_byte (fake : bytes) (at_ d : Z) : go bytes :=
  let! x := idx fake at_ in
  upd fake at_ (Z.lxor x (u8 (d mod 255 + 1))).
Definition fix_ip `{Family} (fake : bytes) (ihl : Z) : go bytes :=
  if is_v6 then Ret fake else on_slice FixIPv4Checksum fake 0 ihl.

(** [applyCorruption] and, with [ihl] 40, [applyCorruptionV6]. *)
Definition applyCorruption `{Family} (d : inc_draws) (fake : bytes) (ihl : Z) (strategy : string) : go bytes :=
  if len fake <? ihl + 18 then Ret fake else
  let strategy :=
    if bool_decide (strategy = "rand"%string)
    then default ""%string (corruptionStrategies !! Z.to_nat (i_pick d mod 4)) else strategy in
  if bool_decide (strategy = "badseq"%string)
  then let! fake := shift_field fake (ihl + 4) (i_seq d) in fix_segment fake ihl
  else if bool_decide (strategy = "badack"%string)
  then let! fake := shift_field fake (ihl + 8) (i_ack d) in fix_segment fake ihl
  else if bool_decide (strategy = "all"%string)
  then
    let! fake := shift_field fake (ihl + 4) (i_seq d) in
    let! fake := shift_field fake (ihl + 8) (i_ack d) in
    let! fake := fix_ip fake ihl in
    let! fake := xor_byte fake (ihl + 16) (i_sum1 d) in
    xor_byte fake (ihl + 17) (i_sum2 d)
  else
    let! fake := fix_ip fake ihl in
    let! fake := xor_byte fake (ihl + 16) (i_sum1 d) in
    xor_byte fake (ihl + 17) (i_sum2 d).

(** One acknowledgement in the client's name. *)
Definition fake_ack `{Family} (cfg : SetConfig) (d : inc_draws) (i : Z) (raw : bytes)
    (sport dport serverSeq serverAck payloadLen : Z) : go bytes :=
  let inc := Incoming (TCP cfg) in
  let h := ip_len_of in
  let! fake := incoming_ip raw (incoming_id d i) (in_FakeTTL inc) in
  let! fake := put16 fake h dport in
  let! fake := put16 fake (h + 2) sport in
  let! fake := put32 fake (h + 4) (u32 (serverAck + u32 (i_jitter d mod 1000))) in
  let! fake := put32 fake (h + 8) (u32 (serverSeq + u32 payloadLen)) in
  let! fake := upd fake (h + 12) 0x50 in
  let! fake := upd fake (h + 13) 0x10 in
  let! fake := put16 fake (h + 14) 65535 in
  applyCorruption d fake h (in_Strategy inc).

Fixpoint fake_acks `{Family} (cfg : SetConfig) (draws : Z → inc_draws) (raw : bytes)
    (sport dport serverSeq serverAck payloadLen : Z) (more : nat) (i : Z) : go (list action) :=
  match more with
  | O => Ret []
  | S more =>
      let! fake := fake_ack cfg (draws i) i raw sport dport serverSeq serverAck payloadLen in
      let! rest := fake_acks cfg draws raw sport dport serverSeq serverAck payloadLen more (i + 1) in
      Ret (Send fake :: rest)
  end.

Definition inject_fakes `{Family} (cfg : SetConfig) (draws : Z → inc_draws) (raw : bytes) (ihl : Z)
    : go (list action) :=
  if len raw <? ihl + 20 then Ret [] else
  let inc := Incoming (TCP cfg) in
  let! tcp := slice_from raw ihl in
  let! sport := be16 tcp 0 in
  let! dport := be16 tcp 2 in
  let! serverSeq := be32 tcp 4 in
  let! serverAck := be32 tcp 8 in
  let! d := idx tcp 12 in
  let tcpHdrLen := u8 (Z.shiftr d 4 * 4) in
  let payloadLen := len tcp - tcpHdrLen in
  fake_acks cfg draws raw sport dport serverSeq serverAck payloadLen (Z.to_nat (in_FakeCount inc)) 0.

Definition InjectFakeIncoming := @inject_fakes IPv4.
Definition InjectFakeIncomingV6 (cfg : SetConfig) (d : Z → inc_draws) (raw : bytes) :=
  @inject_fakes IPv6 cfg d raw 40.

(** ** The packets as answers *)

Section answers.
Context {F : Family} {R : Receiver}.
Implicit Types (raw l f : bytes).

(** [f] goes back to where [raw] came from: addresses and ports are exchanged; it has
    no options and no data. *)
Definition goes_back raw (ihl : Z) f : Prop :=
  bytes_ok f ∧ total f = len f ∧ hdr f = ip_len_of ∧ hdr_ok f ∧ len f = ip_len_of + 20 ∧ off f = len f
  ∧ sub f addr_at (addr_at + addr_len) = sub raw (addr_at + addr_len) (addr_at + 2 * addr_len)
  ∧ sub f (addr_at + addr_len) (addr_at + 2 * addr_len) = sub raw addr_at (addr_at + addr_len)
  ∧ get16 f ip_len_of = get16 raw (ihl + 2) ∧ get16 f (ip_len_of + 2) = get16 raw ihl.

(** A valid answer with one flag, the sequence number the server expects and [ttl]. *)
Definition control_answer raw (ihl ttl flag : Z) f : Prop :=
  goes_back raw ihl f ∧ sums_ok f ∧ get f ttl_at = ttl ∧ seq_no f = get32 raw (ihl + 8)
  ∧ get f (ip_len_of + 13) = flag.

(** The IP header, before ports and flags. *)
Definition ip_started raw (ttl : Z) l : Prop :=
  bytes_ok l ∧ len l = ip_len_of + 20 ∧ total l = len l ∧ hdr l = ip_len_of ∧ hdr_ok l
  ∧ get l ttl_at = ttl ∧ (∀ k, ip_len_of <= k → get l k = 0)
  ∧ sub l addr_at (addr_at + addr_len) = sub raw (addr_at + addr_len) (addr_at + 2 * addr_len)
  ∧ sub l (addr_at + addr_len) (addr_at + 2 * addr_len) = sub raw addr_at (addr_at + addr_len).
End answers.

Class Answers {F : Family} {R : Receiver} := {
  addr_out k : addr_at <= k → k ∉ ip_fields;
  ttl_addr : addr_at + 2 * addr_len = ip_len_of;
  wp_incoming_ip raw id ttl : bytes_ok raw → ip_len_of <= len raw → is_byte ttl →
    wp (incoming_ip raw id ttl) (ip_started raw ttl);
  fix_ip_law l : bytes_ok l → hdr_ok l → hdr l <= len l →
    wp (fix_ip l (hdr l)) (λ r, bytes_ok r ∧ len r = len l) }.

#[export] Instance Answers4 : @Answers IPv4 _.
Proof.
  split; [cbn; intros k Hk; set_solver by lia|done| |].
  2:{ cbn. intros l Hok Hh Hl. apply wp_fix_header; [done|lia|done|lia|]. intros r (Hlr & Hokr & _) _. done. }
  intros raw id ttl Hok Hl Ht. change (@ip_len_of IPv4) with 20 in Hl. unfold incoming_ip. cbn [is_v6 IPv4].
  do 10 wp_write. unfold ip_started.
  change (@ip_len_of IPv4) with 20. change (@addr_at IPv4) with 12. change (@addr_len IPv4) with 4. change (@ttl_at IPv4) with 8.
  znorm.
  assert (ihl4 b6 = 20) as Hh by (apply ihl4_69; readback; done).
  split_and!.
  - done.
  - lia.
  - unfold total. cbn [len_at len_base IPv4]. rewrite (get16_bytes16 b6 2 40); [lia|lia|readback; done..].
  - done.
  - cbn. lia.
  - readback. done.
  - intros k Hk. readback. done.
  - copied.
  - copied.
Qed.

#[export] Instance Answers6 : @Answers IPv6 _.
Proof.
  split; [cbn; intros k Hk; set_solver by lia|done| |].
  2:{ cbn. intros l Hok _ _. by apply wp_ret. }
  intros raw id ttl Hok Hl Ht. change (@ip_len_of IPv6) with 40 in Hl. unfold incoming_ip. cbn [is_v6 IPv6].
  do 9 wp_write. unfold ip_started.
  change (@ip_len_of IPv6) with 40. change (@addr_at IPv6) with 8. change (@addr_len IPv6) with 16. change (@ttl_at IPv6) with 7.
  znorm. split_and!.
  - done.
  - lia.
  - unfold total. cbn [len_at len_base IPv6]. rewrite (get16_bytes16 b5 4 20); [lia|lia|readback; done..].
  - done.
  - change (get b5 6 = 6). readback. done.
  - readback. done.
  - intros k Hk. readback. done.
  - copied.
  - copied.
Qed.

Section laws.
Context {F : Family} {R : Receiver} {A : Answers}.
Implicit Types (raw l f : bytes).

Lemma ip_len_cases : ip_len_of = 20 ∨ ip_len_of = 40.
Proof using Type. unfold ip_len_of. destruct is_v6; auto. Qed.

(** The TCP header leaves the IP header alone, and so does the completion of the
    checksums what lies behind its fields. *)
Lemma started_kept raw ttl l l' : ip_started raw ttl l → bytes_ok l' → len l' = len l →
  (∀ k, 0 <= k < ip_len_of → get l' k = get l k) →
  bytes_ok l' ∧ len l' = ip_len_of + 20 ∧ total l' = len l' ∧ hdr l' = ip_len_of ∧ hdr_ok l'
  ∧ get l' ttl_at = ttl
  ∧ sub l' addr_at (addr_at + addr_len) = sub raw (addr_at + addr_len) (addr_at + 2 * addr_len)
  ∧ sub l' (addr_at + addr_len) (addr_at + 2 * addr_len) = sub raw addr_at (addr_at + addr_len).
Proof using A.
  intros (Hok & Hl & Ht & Hh & Hhok & Httl & _ & Ha & Hb) Hok' Hl' Hg.
  pose proof ip_len_cases as Hc. pose proof ttl_addr as Hta. pose proof len_at_range. pose proof ttl_range.
  destruct (hdr_stable l l' Hhok) as [Hh' Hhok']; [intros; apply Hg; lia|].
  assert (0 < addr_at ∧ 0 < addr_len) as [Ha0 Ha1] by (unfold addr_at, addr_len; destruct is_v6; lia).
  split_and!; try done; try lia.
  - unfold total. rewrite (get16_eq l' l len_at len_at) by (apply Hg; lia). unfold total in Ht. lia.
  - rewrite Hg by lia. done.
  - rewrite <- Ha. apply list_ext_get; [len_simp; lia|]. intros k Hk. rewrite len_sub in Hk by lia.
    rewrite !get_sub by lia. zcases; try done. apply Hg. lia.
  - rewrite <- Hb. apply list_ext_get; [len_simp; lia|]. intros k Hk. rewrite len_sub in Hk by lia.
    rewrite !get_sub by lia. zcases; try done. apply Hg. lia.
Qed.

(** Completing a packet whose TCP header is written behind a started IP header. *)
Lemma wp_answer raw ihl ttl l l' flag sq : ip_started raw ttl l → bytes_ok l' → len l' = len l →
  (∀ k, 0 <= k < ip_len_of → get l' k = get l k) →
  get16 l' ip_len_of = get16 raw (ihl + 2) → get16 l' (ip_len_of + 2) = get16 raw ihl →
  get l' (ip_len_of + 12) = 0x50 → get32 l' (ip_len_of + 4) = sq → get l' (ip_len_of + 13) = flag →
  wp (fix_segment l' ip_len_of) (λ f, goes_back raw ihl f ∧ sums_ok f ∧ get f ttl_at = ttl
    ∧ seq_no f = sq ∧ get f (ip_len_of + 13) = flag ∧ get32 f (ip_len_of + 8) = get32 l' (ip_len_of + 8)).
Proof using A.
  intros Hs Hok' Hl' Hg Hp1 Hp2 Ho Hsq Hfl. pose proof ip_len_cases as Hc. pose proof ttl_addr as Hta.
  assert (0 < addr_at ∧ 0 < addr_len) as [Ha0 Ha1] by (unfold addr_at, addr_len; destruct is_v6; lia).
  destruct (started_kept raw ttl l l' Hs Hok' Hl' Hg) as (_ & Ll & Htot & Hh & Hhok & Httl & Ha & Hb).
  rewrite <- Hh at 1. eapply wp_mono; [apply fix_segment_law; [done|done|lia|unfold total in Htot; lia]|].
  intros f (Lf & Of & Tf & Gf & Sf). rewrite Hh in Gf. pose proof ttl_range. destruct ttl_out as [Hto _].
  assert (∀ k, 12 <= k → k ≠ ip_len_of + 16 → k ≠ ip_len_of + 17 → get f k = get l' k) as G12.
  { intros k Hk. apply Gf. by apply fields_high. }
  assert (∀ k, addr_at <= k → k < ip_len_of → get f k = get l' k) as Gad.
  { intros k Hk Hk2. apply Gf; [by apply addr_out|lia..]. }
  destruct (hdr_stable l' f Hhok) as [Hhf Hhokf]; [intros; apply Gf; [done|lia..]|].
  assert (total f = len f) as Htf by (unfold total in *; lia).
  assert (hdr f = ip_len_of) as Hhf' by congruence.
  assert (off f = ip_len_of + 20) as Hoff.
  { unfold off. rewrite Hhf', G12, Ho by lia. change (Z.shiftr 80 4) with 5. lia. }
  split_and!.
  - unfold goes_back. split_and!; try done; try lia.
    + rewrite <- Ha. apply list_ext_get; [len_simp; lia|]. intros k Hk. rewrite len_sub in Hk by lia.
      rewrite !get_sub by lia. zcases; try done. apply Gad; lia.
    + rewrite <- Hb. apply list_ext_get; [len_simp; lia|]. intros k Hk. rewrite len_sub in Hk by lia.
      rewrite !get_sub by lia. zcases; try done. apply Gad; lia.
    + rewrite <- Hp1. apply get16_eq; apply G12; lia.
    + rewrite <- Hp2. apply get16_eq; apply G12; lia.
  - done.
  - rewrite Gf by (done || lia). done.
  - unfold seq_no. rewrite Hhf', <- Hsq. apply get32_eq. intros k Hk. apply G12; lia.
  - rewrite G12 by lia. done.
  - apply get32_eq. intros k Hk. apply G12; lia.
Qed.

Lemma wp_control_packet raw ihl id ttl flag : bytes_ok raw → ip_len_of <= len raw → 0 <= ihl → ihl + 12 <= len raw →
  is_byte ttl → is_byte flag →
  wp (control_packet raw (get16 raw ihl) (get16 raw (ihl + 2)) (get32 raw (ihl + 8)) id ttl flag)
     (control_answer raw ihl ttl flag).
Proof using A.
  intros Hok Hl Hi Hl2 Ht Hf. unfold control_packet. cbv zeta.
  wp_step. eapply wp_mono; [by apply wp_incoming_ip|]. intros l Hs.
  pose proof Hs as (Okl & Ll & _ & Hhl & _ & _ & H0 & _). pose proof ip_len_cases as Hc.
  pose proof (get16_range raw ihl Hok). pose proof (get16_range raw (ihl + 2) Hok).
  pose proof (get32_range raw (ihl + 8) Hok).
  do 5 wp_write. 
  eapply wp_mono; [apply (wp_answer raw ihl ttl l b3 flag (get32 raw (ihl + 8))); try done|].
  - lia.
  - intros k Hk. readback. done.
  - apply get16_bytes16; [lia|..]; readback; rewrite ?u16_small by lia; f_equal; lia.
  - apply get16_bytes16; [lia|..]; readback; rewrite ?u16_small by lia; f_equal; lia.
  - readback. done.
  - apply get32_of_bytes32; [lia|]. intros k Hk. readback. rewrite u32_small by lia. f_equal; lia.
  - readback. done.
  - intros f (H3 & H4 & H5 & H6 & H7 & _). done.
Qed.

(** [acts] are [n] answers for each of the [flags], in their order. *)
Definition answered raw (ihl ttl : Z) (flags : list Z) (n : nat) (acts : list action) : Prop :=
  Forall2 (λ flag f, control_answer raw ihl ttl flag f) (concat (replicate n flags)) (sent acts).

Lemma wp_control_packets raw ihl ttl flags draws n i : bytes_ok raw → ip_len_of <= len raw → 0 <= ihl → ihl + 12 <= len raw →
  is_byte ttl → Forall is_byte flags →
  wp (control_packets raw (get16 raw ihl) (get16 raw (ihl + 2)) (get32 raw (ihl + 8)) ttl flags draws n i)
     (answered raw ihl ttl flags n).
Proof using A.
  intros Hok Hl Hi Hl2 Ht Hf. revert i. induction n as [|n IH]; intros i; cbn [control_packets].
  { apply wp_ret. constructor. }
  wp_step.
  apply (wp_mono _ (λ acts, Forall2 (λ flag f, control_answer raw ihl ttl flag f) flags (sent acts))).
  { clear IH. induction Hf as [|flag flags Hflag Hf IHf]; [apply wp_ret; constructor|].
    wp_step. eapply wp_mono; [by apply wp_control_packet|]. intros pkt Hp.
    wp_step. eapply wp_mono; [exact IHf|]. intros acts Ha. apply wp_ret. by constructor. }
  intros acts Ha. wp_step. eapply wp_mono; [apply IH|]. intros rest Hr. apply wp_ret.
  unfold answered. rewrite sent_app. cbn [replicate concat]. by apply Forall2_app.
Qed.

Lemma wp_inject_flags cfg flags draws raw ihl : bytes_ok raw → ip_len_of <= len raw → 0 <= ihl →
  ihl + 12 <= len raw → is_byte (in_FakeTTL (Incoming (TCP cfg))) → Forall is_byte flags →
  wp (inject_flags cfg flags draws raw ihl)
     (answered raw ihl (in_FakeTTL (Incoming (TCP cfg))) flags (Z.to_nat (in_FakeCount (Incoming (TCP cfg))))).
Proof using A.
  intros Hok Hl Hi Hl2 Ht Hf. unfold inject_flags. cbv zeta. wp_write.
  pose proof (len_sub raw ihl (len raw) ltac:(lia) ltac:(lia) ltac:(lia)) as Hls. do 3 wp_write.
  assert (∀ k, 0 <= k → k + 2 <= len raw - ihl → get16 (sub raw ihl (len raw)) k = get16 raw (ihl + k)) as H16.
  { intros k Hk Hk2. apply get16_eq; rewrite get_sub by lia; zcases. all: f_equal; lia. }
  rewrite !H16 by lia. rewrite Z.add_0_r.
  replace (get32 (sub raw ihl (len raw)) 8) with (get32 raw (ihl + 8)).
  2:{ apply get32_eq. intros k Hk. rewrite get_sub by lia. zcases. f_equal. lia. }
  by apply wp_control_packets.
Qed.

(** C39: The injections send, for every count, one valid packet per flag in the client's
    name: back to the server, with the sequence number it expects next, no data, and
    the configured TTL. *)
Theorem inject_flags_answers cfg flags draws raw ihl : bytes_ok raw → ip_len_of <= len raw → 0 <= ihl →
  ihl + 12 <= len raw → is_byte (in_FakeTTL (Incoming (TCP cfg))) → Forall is_byte flags →
  wp (inject_flags cfg flags draws raw ihl)
     (answered raw ihl (in_FakeTTL (Incoming (TCP cfg))) flags (Z.to_nat (in_FakeCount (Incoming (TCP cfg))))).
Proof using A. intros. by apply wp_inject_flags. Qed.

(** A fake acknowledgement with another sequence or acknowledgement number than the
    server expects next; [ack] is the acknowledgement of its data. *)
Definition fake_answer (strategy : string) raw (ihl ttl ack : Z) f : Prop :=
  goes_back raw ihl f ∧ sums_ok f ∧ get f ttl_at = ttl ∧ get f (ip_len_of + 13) = 0x10
  ∧ if bool_decide (strategy = "badseq"%string)
    then 10000 <= u32 (seq_no f - get32 raw (ihl + 8)) < 111000 ∧ get32 f (ip_len_of + 8) = ack
    else 0 <= u32 (seq_no f - get32 raw (ihl + 8)) < 1000 ∧ 10000 <= u32 (get32 f (ip_len_of + 8) - ack) < 110000.

Lemma u32_sub_of (x d : Z) : 0 <= d < 4294967296 → u32 (u32 (x + d) - x) = d.
Proof using Type. intros Hd. unfold u32. rewrite Zminus_mod_idemp_l. replace (x + d - x) with d by lia. by apply Z.mod_small. Qed.

Lemma wp_shift_field l at_ d v Q : 0 <= at_ → at_ + 4 <= len l → get32 l at_ = v →
  (∀ r, written l at_ 4 (λ k, get (bytes32 (u32 (v + (d mod 100000 + 10000)))) (k - at_)) r → Q r) →
  wp (shift_field l at_ d) Q.
Proof using Type.
  intros Ha Hl <- HQ. unfold shift_field. wp_write. apply wp_put32_w; [lia..|]. intros r Hr. apply HQ.
  pose proof (Z.mod_pos_bound d 100000 ltac:(lia)). rewrite (u32_small (d mod _ + _)) in Hr by lia.
  by rewrite (u32_small (u32 _)) in Hr by apply u32_range.
Qed.

Lemma wp_fake_ack cfg d i raw ihl payloadLen : bytes_ok raw → ip_len_of <= len raw → 0 <= ihl → ihl + 12 <= len raw →
  is_byte (in_FakeTTL (Incoming (TCP cfg))) → in_Strategy (Incoming (TCP cfg)) ∈ ["badseq"; "badack"]%string →
  wp (fake_ack cfg d i raw (get16 raw ihl) (get16 raw (ihl + 2)) (get32 raw (ihl + 4)) (get32 raw (ihl + 8)) payloadLen)
     (fake_answer (in_Strategy (Incoming (TCP cfg))) raw ihl (in_FakeTTL (Incoming (TCP cfg)))
        (u32 (get32 raw (ihl + 4) + payloadLen))).
Proof using A.
  intros Hok Hl Hi Hl2 Ht Hst. unfold fake_ack. cbv zeta. set (st := in_Strategy _) in *.
  wp_step. eapply wp_mono; [by apply wp_incoming_ip|]. intros l Hs.
  pose proof Hs as (Okl & Ll & _ & Hhl & _ & _ & H0 & _). pose proof ip_len_cases as Hc.
  pose proof (get16_range raw ihl Hok). pose proof (get16_range raw (ihl + 2) Hok).
  pose proof (get32_range raw (ihl + 8) Hok). pose proof (get32_range raw (ihl + 4) Hok).
  pose proof (Z.mod_pos_bound (i_jitter d) 1000 ltac:(lia)) as Hj. rewrite (u32_small (i_jitter d mod 1000)) by lia.
  rewrite u32_add_l. set (sq := u32 (get32 raw (ihl + 8) + _)). set (ack := u32 (get32 raw (ihl + 4) + payloadLen)).
  assert (0 <= sq < 4294967296 ∧ 0 <= ack < 4294967296) as [Hsq Hack] by (split; apply u32_range).
  do 7 wp_write. unfold applyCorruption. wp_step; [zlia|]. cbv zeta.
  rewrite !elem_of_cons, elem_of_nil in Hst. rewrite (bool_decide_eq_false_2 (st = "rand"%string)) by (intros ->; naive_solver).
  match goal with |- context [shift_field ?b _ _] => rename b into m end.
  assert (get32 m (ip_len_of + 4) = sq) as Hm1.
  { apply get32_of_bytes32; [done|]. intros k Hk. readback. rewrite u32_small by lia. f_equal; lia. }
  assert (get32 m (ip_len_of + 8) = ack) as Hm2.
  { apply get32_of_bytes32; [done|]. intros k Hk. readback. rewrite u32_small by lia. f_equal; lia. }
  pose proof (Z.mod_pos_bound (i_seq d) 100000 ltac:(lia)) as Hds.
  pose proof (Z.mod_pos_bound (i_ack d) 100000 ltac:(lia)) as Hda.
  assert (u32 (sq + (i_seq d mod 100000 + 10000))
    = u32 (get32 raw (ihl + 8) + (i_jitter d mod 1000 + (i_seq d mod 100000 + 10000)))) as Hshift.
  { unfold sq, u32. rewrite Zplus_mod_idemp_l. f_equal. lia. }
  case_bool_decide as Eseq; [|rewrite bool_decide_eq_true_2 by naive_solver]; wp_step.
  - eapply wp_shift_field; [lia|lia|exact Hm1|]. intros m' (Lm & Om & Gm).
    specialize (Om ltac:(done) ltac:(auto with b4)).
    eapply wp_mono; [apply (wp_answer raw ihl (in_FakeTTL (Incoming (TCP cfg))) l m' 0x10 (u32 (sq + (i_seq d mod 100000 + 10000)))); try done|].
    + lia.
    + intros k Hk. readback. done.
    + apply get16_bytes16; [lia|..]; readback; rewrite ?u16_small by lia; f_equal; lia.
    + apply get16_bytes16; [lia|..]; readback; rewrite ?u16_small by lia; f_equal; lia.
    + readback. done.
    + apply get32_of_bytes32; [apply u32_range|]. intros k Hk. rewrite Gm. zcases. f_equal; lia.
    + readback. done.
    + intros f (Hb & Hso & Httl & Hsf & Hfl & Haf). unfold fake_answer. rewrite bool_decide_eq_true_2 by done.
      split_and!; try done.
      * rewrite Hsf, Hshift, u32_sub_of by lia. lia.
      * rewrite Hsf, Hshift, u32_sub_of by lia. lia.
      * rewrite Haf, <- Hm2. apply get32_eq. intros k Hk. rewrite Gm. zcases. done.
  - eapply wp_shift_field; [lia|lia|exact Hm2|]. intros m' (Lm & Om & Gm).
    specialize (Om ltac:(done) ltac:(auto with b4)).
    eapply wp_mono; [apply (wp_answer raw ihl (in_FakeTTL (Incoming (TCP cfg))) l m' 0x10 sq); try done|].
    + lia.
    + intros k Hk. readback. done.
    + apply get16_bytes16; [lia|..]; readback; rewrite ?u16_small by lia; f_equal; lia.
    + apply get16_bytes16; [lia|..]; readback; rewrite ?u16_small by lia; f_equal; lia.
    + readback. done.
    + rewrite <- Hm1. apply get32_eq. intros k Hk. rewrite Gm. zcases. done.
    + readback. done.
    + intros f (Hb & Hso & Httl & Hsf & Hfl & Haf). unfold fake_answer. rewrite bool_decide_eq_false_2 by done.
      assert (get32 f (ip_len_of + 8) = u32 (ack + (i_ack d mod 100000 + 10000))) as Hack'.
      { rewrite Haf. apply get32_of_bytes32; [apply u32_range|]. intros k Hk. rewrite Gm. zcases. f_equal; lia. }
      split_and!; try done.
      * rewrite Hsf. unfold sq. rewrite u32_sub_of by lia. lia.
      * rewrite Hsf. unfold sq. rewrite u32_sub_of by lia. lia.
      * rewrite Hack', u32_sub_of by lia. lia.
      * rewrite Hack', u32_sub_of by lia. lia.
Qed.

(** C40: With the strategies "badseq" and "badack" each fake acknowledgement is a valid
    packet back to the server that lies outside what the server expects: its sequence
    number is at least 10000 ahead, or it acknowledges as much more than was sent. *)
Theorem inject_fakes_out_of_window cfg draws raw ihl (t := Z.shiftr (get raw (ihl + 12)) 4 * 4) :
  bytes_ok raw → ip_len_of <= len raw → 0 <= ihl →
  ihl + 20 <= len raw → is_byte (in_FakeTTL (Incoming (TCP cfg))) →
  in_Strategy (Incoming (TCP cfg)) ∈ ["badseq"; "badack"]%string →
  wp (inject_fakes cfg draws raw ihl) (λ acts,
    length (sent acts) = Z.to_nat (in_FakeCount (Incoming (TCP cfg)))
    ∧ Forall (fake_answer (in_Strategy (Incoming (TCP cfg))) raw ihl (in_FakeTTL (Incoming (TCP cfg)))
        (u32 (get32 raw (ihl + 4) + (len raw - ihl - t)))) (sent acts)).
Proof using A.
  intros Hok Hl Hi Hl2 Ht Hst. unfold inject_fakes. cbv zeta. wp_step; [zlia|]. wp_write.
  pose proof (len_sub raw ihl (len raw) ltac:(lia) ltac:(lia) ltac:(lia)) as Hls. do 5 wp_write.
  assert (∀ k, 0 <= k → k < len raw - ihl → get (sub raw ihl (len raw)) k = get raw (ihl + k)) as Hg.
  { intros k Hk Hk2. rewrite get_sub by lia. zcases. done. }
  assert (get16 (sub raw ihl (len raw)) 0 = get16 raw ihl) as -> by (apply get16_eq; rewrite Hg by lia; f_equal; lia).
  assert (get16 (sub raw ihl (len raw)) 2 = get16 raw (ihl + 2)) as -> by (apply get16_eq; rewrite Hg by lia; f_equal; lia).
  assert (get32 (sub raw ihl (len raw)) 4 = get32 raw (ihl + 4)) as -> by (apply get32_eq; intros; rewrite Hg by lia; f_equal; lia).
  assert (get32 (sub raw ihl (len raw)) 8 = get32 raw (ihl + 8)) as -> by (apply get32_eq; intros; rewrite Hg by lia; f_equal; lia).
  rewrite Hg by lia. pose proof (nibble_range _ (bytes_ok_get raw (ihl + 12) Hok)).
  rewrite u8_small by (unfold is_byte; lia). fold t. rewrite Hls.
  generalize 0 as i. induction (Z.to_nat _) as [|n IH]; intros i; cbn [fake_acks].
  { by apply wp_ret. }
  wp_step. eapply wp_mono; [apply wp_fake_ack; done || lia|]. intros f Hf.
  wp_step. eapply wp_mono; [apply IH|]. intros acts [Hn Ha]. apply wp_ret. split; [cbn; by f_equal|].
  by constructor.
Qed.
End laws.

(** ** Fakes of any strategy *)

Section any_strategy.
Context {F : Family} {R : Receiver} {A : Answers}.
Implicit Types (raw l f : bytes).

(** A packet with its IP header in place: its length fields say how long it is. *)
Definition framed (h : Z) l : Prop :=
  bytes_ok l ∧ hdr_ok l ∧ hdr l = h ∧ h + 20 <= len l ∧ total l = len l.

Lemma framed_kept h l r : framed h l → bytes_ok r → len r = len l → (∀ k, 0 <= k < h → get r k = get l k) → framed h r.
Proof using Type.
  intros (Hok & Hh & He & Hl & Ht) Hr Hlr Hg. pose proof (hdr_range l Hok Hh). pose proof len_at_range.
  destruct (hdr_stable l r Hh) as [H1 H2]; [intros; apply Hg; lia|].
  split_and!; try done; try lia. unfold total in *. rewrite (get16_eq r l len_at len_at) by (apply Hg; lia). lia.
Qed.

Lemma wp_xor_byte l at_ d : bytes_ok l → 0 <= at_ < len l →
  wp (xor_byte l at_ d) (λ r, bytes_ok r ∧ len r = len l).
Proof using Type.
  intros Hok Ha. unfold xor_byte. pose proof (bytes_ok_get l at_ Hok). do 2 wp_write. split; [|done]. apply O; [done|]. intros k _. apply is_byte_lxor; [done|]. auto with b4.
Qed.

Lemma wp_shift_any h l at_ d Q : framed h l → h <= at_ → at_ + 4 <= len l →
  (∀ r, framed h r → len r = len l → Q r) → wp (shift_field l at_ d) Q.
Proof using Type.
  intros Hf Ha Hl HQ. pose proof Hf as (Hok & Hh & He & _). pose proof (hdr_range l Hok Hh).
  eapply wp_shift_field; [lia|lia|reflexivity|]. intros r (Lr & Or & Gr). apply HQ; [|done].
  apply (framed_kept h l); [done| |done|intros k Hk; rewrite Gr; zcases; done].
  apply Or; [done|auto with b4].
Qed.

Lemma wp_bad_sum h l d1 d2 : framed h l →
  wp (let! l := fix_ip l h in let! l := xor_byte l (h + 16) d1 in xor_byte l (h + 17) d2)
     (λ r, bytes_ok r ∧ len r = len l).
Proof using A.
  intros (Hok & Hh & <- & Hl & _). pose proof (hdr_range l Hok Hh). wp_step.
  eapply wp_mono; [apply fix_ip_law; done || lia|]. intros r1 [H1 L1].
  wp_step. eapply wp_mono; [apply wp_xor_byte; [done|lia]|]. intros r2 [H2 L2].
  eapply wp_mono; [apply wp_xor_byte; [done|lia]|]. intros r3 [H3 L3]. split; [done|lia].
Qed.

Lemma wp_corrupted h l : framed h l → wp (fix_segment l h) (λ r, bytes_ok r ∧ len r = len l).
Proof using Type.
  intros (Hok & Hh & <- & Hl & Ht). eapply wp_mono; [apply fix_segment_law; done|]. intros r (? & ? & _). done.
Qed.

Lemma wp_applyCorruption h d l strategy : framed h l →
  wp (applyCorruption d l h strategy) (λ r, bytes_ok r ∧ len r = len l).
Proof using A.
  intros Hf. pose proof Hf as (Hok & Hh & He & Hl & _). unfold applyCorruption. cbv zeta.
  wp_step; [by apply wp_ret|]. set (st := if bool_decide (strategy = "rand"%string) then _ else _). clearbody st.
  repeat case_bool_decide.
  - wp_step. eapply wp_shift_any; [done|lia..|]. intros r Hr <-. by apply wp_corrupted.
  - wp_step. eapply wp_shift_any; [done|lia..|]. intros r Hr <-. by apply wp_corrupted.
  - wp_step. eapply wp_shift_any; [done|lia..|]. intros r1 Hr1 L1.
    wp_step. eapply wp_shift_any; [done|lia..|]. intros r2 Hr2 L2. rewrite <- L1, <- L2. by apply wp_bad_sum.
  - by apply wp_bad_sum.
Qed.

(** A fake has the two headers and nothing else, whatever its strategy. *)
Definition bare l : Prop := bytes_ok l ∧ len l = ip_len_of + 20.

Lemma wp_fake_ack_any cfg d i raw sport dport sq ack payloadLen : bytes_ok raw → ip_len_of <= len raw →
  is_byte (in_FakeTTL (Incoming (TCP cfg))) → 
  wp (fake_ack cfg d i raw sport dport sq ack payloadLen) bare.
Proof using A.
  intros Hok Hl Ht. unfold fake_ack. cbv zeta.
  wp_step. eapply wp_mono; [by apply wp_incoming_ip|]. intros l Hs.
  pose proof Hs as (Okl & Ll & Tl & Hhl & Hkl & _). pose proof ip_len_cases as Hc.
  do 7 wp_write.
  match goal with |- context [applyCorruption _ ?x _ _] => rename x into m end.
  eapply wp_mono; [apply wp_applyCorruption|].
  - apply (framed_kept _ l); [|done|lia|intros k Hk; readback; done]. split_and!; try done; lia.
  - intros r [Hr Lr]. split; [done|lia].
Qed.

(** The fakes of any strategy. *)
Lemma wp_inject_fakes cfg draws raw ihl : bytes_ok raw → ip_len_of <= len raw → 0 <= ihl →
  is_byte (in_FakeTTL (Incoming (TCP cfg))) →
  wp (inject_fakes cfg draws raw ihl) (λ acts, Forall bare (sent acts)).
Proof using A.
  intros Hok Hl Hi Ht. unfold inject_fakes. cbv zeta. wp_step; [apply wp_ret; constructor|]. bprop. wp_write.
  pose proof (len_sub raw ihl (len raw) ltac:(lia) ltac:(lia) ltac:(lia)) as Hls. do 5 wp_write.
  generalize (get16 (sub raw ihl (len raw)) 0) as sport. intros sport. generalize 0 as i. induction (Z.to_nat _) as [|n IH]; intros i; cbn [fake_acks].
  { apply wp_ret. constructor. }
  wp_step. eapply wp_mono; [by apply wp_fake_ack_any|]. intros f Hf.
  wp_step. eapply wp_mono; [apply IH|]. intros acts Ha. apply wp_ret. by constructor.
Qed.
End any_strategy.

(** ** Witnesses *)

(** The strategy "badsum" never completes the TCP checksum that it means to corrupt: it
    writes two random bytes, which can be the right ones. *)
Definition inc_cfg (strategy : string) : SetConfig :=
  set_demo {| t_ConnBytesLimit := 19; Seg2Delay := 0; Seg2DelayMax := 0; SynFake := false; SynFakeLen := 0; SynTTL := 7;
      t_DPortFilter := ""; DropSACK := false; Win := Win tcp_demo; Desync := Desync tcp_demo;
      Incoming := {| in_Mode := "fake"; in_Min := 14; in_Max := 14; in_FakeTTL := 7; in_FakeCount := 2;
        in_Strategy := strategy |};
      Duplicate := Duplicate tcp_demo; IPBlockDetect := IPBlockDetect tcp_demo;
      RSTProtection := RSTProtection tcp_demo |} udp_demo frag_demo faking_demo.
Definition draws_at (sum1 sum2 : Z) : inc_draws :=
  {| i_now := 1; i_jitter := 5; i_pick := 0; i_seq := 7; i_ack := 9; i_sum1 := sum1; i_sum2 := sum2 |}.

Theorem badsum_can_verify : ∃ draws f g,
  InjectFakeIncoming (inc_cfg "badsum") draws packet4_demo 20 = Ret [Send f; Send g] ∧ @valid IPv4 _ f.
Proof.
  exists (λ _, draws_at 164 247). eexists _, _. split; [vm_compute; reflexivity|].
  split; [by apply bytes_okb_spec|]. vmc.
Qed.

Lemma inject_flags_answers_witness :
  wp (InjectDesyncIncomingV6 (inc_cfg "badsum") (λ _, draws_at 1 2) packet6_demo) (λ acts, length (sent acts) = 6%nat).
Proof.
  pose proof (@inject_flags_answers IPv6 _ _ (inc_cfg "badsum") [0x04; 0x01; 0x10] (λ _, draws_at 1 2) packet6_demo 40) as H.
  unfold InjectDesyncIncomingV6. eapply wp_mono; [apply H|].
  - by apply bytes_okb_spec.
  - vmc.
  - vmc.
  - vmc.
  - vmc.
  - repeat constructor; lia.
  - intros acts Ha. apply Forall2_length in Ha. rewrite <- Ha. reflexivity.
Defined.

Lemma inject_fakes_out_of_window_witness :
  wp (InjectFakeIncoming (inc_cfg "badack") (λ _, draws_at 1 2) packet4_demo 20) (λ acts, length (sent acts) = 2%nat).
Proof.
  pose proof (@inject_fakes_out_of_window IPv4 _ _ (inc_cfg "badack") (λ _, draws_at 1 2) packet4_demo 20) as H.
  unfold InjectFakeIncoming. eapply wp_mono; [apply H|].
  - by apply bytes_okb_spec.
  - vmc.
  - vmc.
  - vmc.
  - vmc.
  - rewrite !elem_of_cons. right. left. reflexivity.
  - intros acts [Ha _]. exact Ha.
Defined.
