(* ===== verification/Dns.v ===== *)
(** * DNS messages

    src/src/dns/dns.go and query.go: the name of a query, the addresses of a response,
    the responses that block a name, and the queries the program sends; with the name
    parser of src/src/nfq/dns.go.  A name is the bytes of the Go string. *)

From Stdlib Require Import ZArith Lia Ascii.
From stdpp Require Import base list numbers strings.
From S2P Require Import Prelude Config GoString Text Fragment Buffer.

Local Open Scope Z_scope.

(** The Go string with these bytes. *)
Definition string_of (b : bytes) : string := str (map of_code b).

(** ** Reading *)

(** The labels from [pos] on, joined by dots behind [domain]. *)
Fixpoint query_loop (fuel : nat) (payload : bytes) (pos : Z) (domain : bytes) : go (option bytes) :=
  match fuel with
  | O => Spin
  | S f =>
      if pos <? len payload
      then
        let! length := idx payload pos in
        if length =? 0 then Ret (Some domain) else
        if len payload <? pos + 1 + length then Ret None else
        let domain := if 0 <? len domain then domain ++ [46] else domain in
        let! label := slice payload (pos + 1) (pos + 1 + length) in
        query_loop f payload (pos + (1 + length)) (domain ++ label)
      else Ret (Some domain)
  end.

(** [None]: the query has no name. *)
Definition ParseQueryDomain (payload : bytes) : go (option bytes) :=
  if len payload <? 12 then Ret None else
  let! o := query_loop (S (length payload)) payload 12 [] in
  match o with
  | None => Ret None
  | Some domain => if len domain =? 0 then Ret None else Ret (Some domain)
  end.

Definition ParseTransactionID (payload : bytes) : go (option Z) :=
  if len payload <? 2 then Ret None else
  let! id := be16 payload 0 in
  Ret (Some id).

(** [next] is where the name ends, which is behind the first pointer. *)
Fixpoint skip_loop (fuel : nat) (payload : bytes) (pos jumps : Z) (jumped : bool) (next : Z) : go (option Z) :=
  match fuel with
  | O => Spin
  | S f =>
      if len payload <=? pos then Ret None else
      let! l := idx payload pos in
      if l =? 0 then Ret (Some (if jumped then next else pos + 1)) else
      if Z.land l 192 =? 192
      then
        if len payload <=? pos + 1 then Ret None else
        let! w := be16 payload pos in
        let ptr := Z.land w 16383 in
        if len payload <=? ptr then Ret None else
        let next := if jumped then next else pos + 2 in
        let jumps := jumps + 1 in
        if 16 <? jumps then Ret None else skip_loop f payload ptr jumps true next
      else
        let pos := pos + 1 in
        if len payload <? pos + l then Ret None else
        let pos := pos + l in
        skip_loop f payload pos jumps jumped (if jumped then next else pos)
  end.

(** Sixteen jumps, and between two of them no byte is read twice. *)
Definition skip_fuel (payload : bytes) : nat := 18 * S (length payload).

Definition skipDNSName (payload : bytes) (start : Z) : go (option Z) :=
  if len payload <=? start then Ret None else skip_loop (skip_fuel payload) payload start 0 false start.

(** The end of [n] questions. *)
Fixpoint skip_questions (n : nat) (payload : bytes) (offset : Z) : go (option Z) :=
  match n with
  | O => Ret (Some offset)
  | S n =>
      let! o := skipDNSName payload offset in
      match o with
      | None => Ret None
      | Some next =>
          if len payload <? next + 4 then Ret None else skip_questions n payload (next + 4)
      end
  end.

(** The addresses of the next [n] answers. *)
Fixpoint answer_ips (n : nat) (payload : bytes) (offset : Z) : go (list bytes) :=
  match n with
  | O => Ret []
  | S n =>
      let! o := skipDNSName payload offset in
      match o with
      | None => Ret []
      | Some next =>
          if len payload <? next + 10 then Ret [] else
          let offset := next in
          let! typ := be16 payload offset in
          let offset := offset + 2 + 2 + 4 in
          let! rdLen := be16 payload offset in
          let offset := offset + 2 in
          if len payload <? offset + rdLen then Ret [] else
          let! ips :=
            (if (typ =? 1) && (rdLen =? 4)
             then let! ip := slice payload offset (offset + 4) in Ret [ip]
             else if (typ =? 28) && (rdLen =? 16)
             then let! ip := slice payload offset (offset + 16) in Ret [ip]
             else Ret []) in
          let! rest := answer_ips n payload (offset + rdLen) in
          Ret (ips ++ rest)
      end
  end.

Definition ParseResponseIPs (payload : bytes) : go (list bytes) :=
  if len payload <? 12 then Ret [] else
  let! qdCount := be16 payload 4 in
  let! anCount := be16 payload 6 in
  if anCount =? 0 then Ret [] else
  let! o := skip_questions (Z.to_nat qdCount) payload 12 in
  match o with
  | None => Ret []
  | Some offset => answer_ips (Z.to_nat anCount) payload offset
  end.

(** The labels that [parseDNSName] collects in at most [steps] steps. *)
Fixpoint name_loop (steps : nat) (msg : bytes) (i : Z) (labels : list bytes) : go (option (list bytes)) :=
  match steps with
  | O => Ret None
  | S steps =>
      if len msg <=? i then Ret None else
      let! l := idx msg i in
      if l =? 0 then Ret (Some labels) else
      if Z.land l 192 =? 192
      then
        if len msg <=? i + 1 then Ret None else
        let! x := idx msg (i + 1) in
        let ptr := Z.lor (Z.shiftl (Z.land l 63) 8) x in
        if len msg <=? ptr then Ret None else name_loop steps msg ptr labels
      else if len msg <? i + 1 + l then Ret None
      else
        let! label := slice msg (i + 1) (i + 1 + l) in
        name_loop steps msg (i + (1 + l)) (labels ++ [label])
  end.

(** [strings.Join(labels, ".")] *)
Fixpoint join_dots (labels : list bytes) : bytes :=
  match labels with
  | [] => []
  | [l] => l
  | l :: labels => l ++ 46 :: join_dots labels
  end.

Definition parseDNSName (msg : bytes) (offset : Z) : go (option bytes) :=
  if (offset <? 0) || (len msg <=? offset) then Ret None else
  let! o := name_loop 256 msg offset [] in
  match o with
  | None | Some [] => Ret None
  | Some labels => Ret (Some (join_dots labels))
  end.

(** ** Writing *)

(** [None] is the nil slice. *)
Definition BuildBlockResponse (query : bytes) : go (option bytes) :=
  if len query <? 12 then Ret None else
  let! o := skipDNSName query 12 in
  match o with
  | None => Ret None
  | Some qend =>
      if len query <? qend + 4 then Ret None else
      let questionEnd := qend + 4 in
      let! resp := make questionEnd in
      let! q := slice query 0 questionEnd in
      let! resp := copy_from resp 0 q in
      let! q2 := idx query 2 in
      let! resp := upd resp 2 (Z.lor 128 (Z.land q2 121)) in
      let! resp := upd resp 3 131 in
      let! resp := put16 resp 4 1 in
      let! resp := put16 resp 6 0 in
      let! resp := put16 resp 8 0 in
      let! resp := put16 resp 10 0 in
      Ret (Some resp)
  end.

Definition BuildServfailResponse (query : bytes) : go (option bytes) :=
  let! o := BuildBlockResponse query in
  match o with
  | None => Ret None
  | Some resp =>
      let! x := idx resp 3 in
      let! resp := upd resp 3 (Z.lor (Z.land x 240) 2) in
      Ret (Some resp)
  end.

(** [strings.TrimSuffix(s, ".")] *)
Definition trim_dot (s : string) : string :=
  match rev (chars s) with
  | a :: l => if decide (a = "."%char) then str (rev l) else s
  | [] => s
  end.

Definition query_label (label : string) : bytes :=
  if bool_decide (label = ""%string) then []
  else
    let label := string_bytes label in
    let label := if 63 <? len label then sub label 0 63 else label in
    u8 (len label) :: label.

Definition BuildQuery (domain : string) (txid qtype : Z) : bytes :=
  let domain := trim_dot (TrimSpace domain) in
  bytes16 (u16 txid) ++ bytes16 0x0100 ++ bytes16 1 ++ bytes16 0 ++ bytes16 0 ++ bytes16 0
  ++ (if bool_decide (domain = ""%string) then [] else concat (map query_label (Split domain ".")))
  ++ [0] ++ bytes16 (u16 qtype) ++ bytes16 1.

Definition BuildAQuery (domain : string) (txid : Z) : bytes := BuildQuery domain txid 1.

(** ** Names on the wire *)

Definition label_ok (l : bytes) : Prop := bytes_ok l ∧ 0 < len l <= 63.
Definition enc_label (l : bytes) : bytes := len l :: l.
Definition enc_name (ls : list bytes) : bytes := concat (map enc_label ls) ++ [0].

Lemma enc_name_cons l ls : enc_name (l :: ls) = len l :: l ++ enc_name ls.
Proof. unfold enc_name. cbn. by rewrite <- app_assoc. Qed.

Lemma enc_name_ok ls : Forall label_ok ls → bytes_ok (enc_name ls).
Proof.
  induction 1 as [|l ls [Hb Hl] H IH]; [by apply bytes_okb_spec|]. rewrite enc_name_cons.
  constructor; [unfold is_byte; lia|]. by apply Forall_app.
Qed.

(** A name at a place of a message. *)
Definition stands (msg : bytes) (i : Z) (x : bytes) : Prop := 0 <= i ∧ i + len x <= len msg ∧ sub msg i (i + len x) = x.

Lemma stands_get msg i x k : stands msg i x → 0 <= k < len x → get msg (i + k) = get x k.
Proof.
  intros (Hi & Hl & E) Hk. assert (get (sub msg i (i + len x)) k = get x k) as H by (by rewrite E).
  rewrite get_sub in H by lia. revert H. zcases. done.
Qed.

Lemma stands_app msg i x y : stands msg i (x ++ y) ↔ stands msg i x ∧ stands msg (i + len x) y.
Proof.
  unfold stands. rewrite len_app. split.
  - intros (Hi & Hl & E). split_and!; try lia.
    + apply sub_copied; [lia..|]. intros k Hk.
      assert (get (sub msg i (i + (len x + len y))) k = get (x ++ y) k) as H by (by rewrite E).
      rewrite get_sub, get_app in H by lia. revert H. zcases. done.
    + apply sub_copied; [lia..|]. intros k Hk.
      assert (get (sub msg i (i + (len x + len y))) (len x + k) = get (x ++ y) (len x + k)) as H by (by rewrite E).
      rewrite get_sub, get_app in H by lia. revert H. zcases. intros H. rewrite <- Z.add_assoc, H. f_equal. lia.
  - intros [(Hi & Hl & E1) (Hi2 & Hl2 & E2)]. split_and!; [lia..|].
    rewrite (sub_app msg i (i + len x)) by lia. rewrite E1, Z.add_assoc, E2. done.
Qed.

Lemma label_no_pointer l : 0 <= l <= 63 → (Z.land l 192 =? 192) = false.
Proof.
  intros Hl. rewrite <- (Z.mod_small l (2 ^ 6)) by lia. rewrite <- Z.land_ones, <- Z.land_assoc by lia.
  change (Z.land (Z.ones 6) 192) with 0. by rewrite Z.land_0_r.
Qed.

(** A label at a place: its length byte, its bytes and the rest of the name. *)
Lemma stands_cons msg i l ls : stands msg i (enc_name (l :: ls)) → Forall label_ok (l :: ls) →
  0 <= i ∧ i < len msg ∧ get msg i = len l ∧ i + 1 + len l <= len msg ∧ sub msg (i + 1) (i + 1 + len l) = l
  ∧ stands msg (i + (1 + len l)) (enc_name ls) ∧ 0 < len l <= 63.
Proof.
  intros H Hok. apply Forall_cons in Hok as [[_ Hl] _]. rewrite enc_name_cons in H.
  change (len l :: l ++ enc_name ls) with ([len l] ++ l ++ enc_name ls) in H.
  apply stands_app in H as [H1 [H2 H3]%stands_app].
  pose proof (stands_get msg i [len l] 0 H1 ltac:(done)) as Hg. rewrite Z.add_0_r in Hg.
  destruct H1 as (Hi & H1 & _). pose proof H2 as (_ & H2' & E2). change (len [len l]) with 1 in *.
  split_and!; try done; try lia. replace (i + (1 + len l)) with (i + 1 + len l) by lia. done.
Qed.

Lemma stands_nil msg i : stands msg i (enc_name []) → 0 <= i < len msg ∧ get msg i = 0.
Proof.
  intros H. pose proof (stands_get msg i [0] 0 H ltac:(done)) as Hg. rewrite Z.add_0_r in Hg.
  destruct H as (Hi & Hl & _). change (len (enc_name [])) with 1 in Hl. split; [lia|done].
Qed.

Lemma wp_skip_name msg ls fuel i j jumped next : Forall label_ok ls → stands msg i (enc_name ls) →
  (length ls < fuel)%nat →
  wp (skip_loop fuel msg i j jumped next) (λ o, o = Some (if jumped then next else i + len (enc_name ls))).
Proof.
  revert fuel i next. induction ls as [|l ls IH]; intros fuel i next Hok Hat Hf; (destruct fuel as [|fuel]; [lia|]); cbn [skip_loop].
  - destruct (stands_nil msg i Hat) as [Hi Hg]. wp_step; [zlia|]. do 2 wp_step. rewrite Hg. apply wp_ret. done.
  - destruct (stands_cons msg i l ls Hat Hok) as (Hi & Hil & Hg & Hl & Hs & Hat' & Hlen).
    wp_step; [zlia|]. do 2 wp_step. rewrite Hg. wp_step; [zlia|]. rewrite label_no_pointer by lia.
    wp_step; [zlia|]. rewrite <- Z.add_assoc.
    eapply wp_mono; [apply IH; [by apply Forall_cons in Hok as [_ ?]|done|cbn in Hf; lia]|].
    intros o ->. f_equal. rewrite enc_name_cons. destruct jumped; [done|]. cbn [length]. rewrite length_app. lia.
Qed.

Lemma name_length ls : Forall label_ok ls → (length ls < length (enc_name ls))%nat.
Proof.
  induction 1 as [|l ls [_ Hl] H IH]; [cbn; lia|]. rewrite enc_name_cons. cbn [length]. rewrite length_app. lia.
Qed.

Lemma wp_skipDNSName msg ls i : Forall label_ok ls → stands msg i (enc_name ls) →
  wp (skipDNSName msg i) (λ o, o = Some (i + len (enc_name ls))).
Proof.
  intros Hok Hat. pose proof (name_length ls Hok). pose proof Hat as (Hi & Hl & E).
  unfold skipDNSName. wp_step; [zlia|].
  eapply wp_mono; [apply (wp_skip_name msg ls); [done|done|unfold skip_fuel; lia]|]. intros o ->. done.
Qed.

(** A name that is a pointer to one. *)
Lemma wp_skipDNSName_pointer msg ls i : Forall label_ok ls → stands msg 12 (enc_name ls) →
  stands msg i [192; 12] → wp (skipDNSName msg i) (λ o, o = Some (i + 2)).
Proof.
  intros Hok Hat Hp. pose proof (name_length ls Hok).
  pose proof (stands_get msg i [192; 12] 0 Hp ltac:(done)) as G0. rewrite Z.add_0_r in G0.
  pose proof (stands_get msg i [192; 12] 1 Hp ltac:(done)) as G1.
  change (get [192; 12] 0) with 192 in G0. change (get [192; 12] 1) with 12 in G1.
  destruct Hp as (Hi & Hl & _). change (len [192; 12]) with 2 in Hl. pose proof Hat as (_ & Hl2 & _).
  unfold skipDNSName. wp_step; [zlia|]. unfold skip_fuel.
  destruct (18 * S (length msg))%nat as [|fuel] eqn:Ef; [lia|]. cbn [skip_loop].
  wp_step; [zlia|]. do 2 wp_step. rewrite G0. change (192 =? 0) with false. change (Z.land 192 192 =? 192) with true. cbv iota. wp_step; [zlia|].
  do 2 wp_step. unfold get16. rewrite G0, G1. change (Z.land (Z.lor (Z.shiftl 192 8) 12) 16383) with 12.
  wp_step; [zlia|]. change (16 <? 0 + 1) with false. cbv iota zeta.
  eapply wp_mono; [apply (wp_skip_name msg ls); [done|done|lia]|]. intros o ->. done.
Qed.

(** ** Reading a response *)

(** The walk over a name ends within its fuel, whatever the bytes, behind [start]. *)
Lemma wp_skip_loop payload fuel pos jumps jumped next start : bytes_ok payload → 0 <= start →
  0 <= pos → 0 <= jumps <= 16 → (jumped = true → start < next <= len payload) →
  (jumped = false → start <= pos) →
  (16 - jumps) * (len payload + 1) + Z.max 0 (len payload - pos) < Z.of_nat fuel →
  wp (skip_loop fuel payload pos jumps jumped next) (λ o, ∀ e, o = Some e → start < e <= len payload).
Proof.
  intros Hok Hs. revert pos jumps jumped next.
  induction fuel as [|fuel IH]; intros pos jumps jumped next Hp Hj Hn Hn' Hf; [nia|]. cbn [skip_loop].
  wp_step; [apply wp_ret; done|].
  assert (is_byte (get payload pos)) as Hb by (by apply bytes_ok_get). unfold is_byte in Hb.
  do 2 wp_step. wp_step.
  { apply wp_ret. intros e [= <-]. destruct jumped; [by apply Hn|]. specialize (Hn' eq_refl). zlia. }
  destruct (_ =? 192).
  - wp_step; [apply wp_ret; done|]. do 2 wp_step.
    assert (0 <= Z.land (get16 payload pos) 16383 < 16384).
    { change 16383 with (Z.ones 14). rewrite Z.land_ones by lia. apply Z.mod_pos_bound. done. }
    wp_step; [apply wp_ret; done|]. wp_step; [apply wp_ret; done|]. bprop.
    apply IH; [lia|lia| |done|nia]. intros _. destruct jumped; [by apply Hn|]. specialize (Hn' eq_refl). lia.
  - wp_step; [apply wp_ret; done|]. bprop. apply IH; [lia|lia|..].
    + intros ->. by apply Hn.
    + intros ->. specialize (Hn' eq_refl). lia.
    + nia.
Qed.

Lemma wp_skipDNSName_any payload start : bytes_ok payload → 0 <= start →
  wp (skipDNSName payload start) (λ o, ∀ e, o = Some e → start < e <= len payload).
Proof.
  intros Hok Hs. unfold skipDNSName. wp_step; [apply wp_ret; done|].
  apply wp_skip_loop; [done|done|done|lia|done|lia|]. unfold skip_fuel. zlia.
Qed.

Lemma wp_skip_questions_any n payload offset : bytes_ok payload → 0 <= offset →
  wp (skip_questions n payload offset) (λ o, ∀ e, o = Some e → 0 <= e).
Proof.
  intros Hok. revert offset. induction n as [|n IH]; intros offset Ho; cbn [skip_questions].
  { apply wp_ret. congruence. }
  apply wp_bind. eapply wp_mono; [by apply wp_skipDNSName_any|]. intros [e|] He; [|apply wp_ret; done].
  specialize (He e eq_refl). wp_step; [apply wp_ret; done|]. apply IH. lia.
Qed.

(** An address of a response: four or sixteen bytes of it. *)
Definition response_ip (payload ip : bytes) : Prop :=
  ∃ o, 0 <= o ∧ o + len ip <= len payload ∧ ip = sub payload o (o + len ip) ∧ (len ip = 4 ∨ len ip = 16).

Lemma wp_answer_ips_any n payload offset : bytes_ok payload → 0 <= offset →
  wp (answer_ips n payload offset) (λ ips, (length ips <= n)%nat ∧ Forall (response_ip payload) ips).
Proof.
  intros Hok. revert offset. induction n as [|n IH]; intros offset Ho; cbn [answer_ips]; [by apply wp_ret|].
  apply wp_bind. eapply wp_mono; [by apply wp_skipDNSName_any|]. intros [e|] He; [|apply wp_ret; split; [cbn; lia|done]].
  specialize (He e eq_refl). wp_step; [apply wp_ret; split; [cbn; lia|done]|]. bprop. do 4 wp_step.
  assert (0 <= get16 payload (e + 2 + 2 + 4) < 65536) as Hr by (apply get16_range; done).
  set (rd := get16 payload (e + 2 + 2 + 4)) in *.
  wp_step; [apply wp_ret; split; [cbn; lia|done]|]. bprop. apply wp_bind.
  assert (∀ k, (k = 4 ∨ k = 16) → rd = k →
    response_ip payload (sub payload (e + 2 + 2 + 4 + 2) (e + 2 + 2 + 4 + 2 + k))) as Hip.
  { intros k Hk Hrk. exists (e + 2 + 2 + 4 + 2). rewrite len_sub by lia.
    split_and!; [lia|lia|f_equal; lia|lia]. }
  eapply (wp_mono _ (λ ips, (length ips <= 1)%nat ∧ Forall (response_ip payload) ips)).
  - wp_step; [|wp_step; [|by apply wp_ret; split; [cbn; lia|]]].
    all: wp_step; wp_step; apply wp_ret; split; [cbn; lia|]; apply Forall_singleton, Hip; zlia.
  - intros ips [Hl Hf]. apply wp_bind. eapply wp_mono; [apply IH; lia|]. intros rest [Hl2 Hf2].
    apply wp_ret. rewrite length_app. split; [lia|]. by apply Forall_app.
Qed.

Lemma wp_ParseResponseIPs (payload : bytes) : bytes_ok payload →
  wp (ParseResponseIPs payload) (λ ips,
    Z.of_nat (length ips) <= get16 payload 6 ∧ Forall (response_ip payload) ips).
Proof.
  intros Hok. unfold ParseResponseIPs.
  assert (0 <= get16 payload 6 < 65536) as Hr by (apply get16_range; done).
  wp_step; [apply wp_ret; split; [cbn; lia|done]|]. bprop. do 4 wp_step.
  wp_step; [apply wp_ret; split; [cbn; lia|done]|]. apply wp_bind.
  eapply wp_mono; [apply wp_skip_questions_any; [done|lia]|]. intros [o|] Ho; [|apply wp_ret; split; [cbn; lia|done]].
  eapply wp_mono; [apply wp_answer_ips_any; [done|by apply Ho]|]. intros ips [Hl Hf]. split; [lia|done].
Qed.

(** C34: [ParseResponseIPs] reads any datagram, hostile ones with pointer loops included: it ends,
    it never panics, and what it gives is at most as many addresses as the header announces,
    each of them four or sixteen bytes of the datagram. *)
Theorem ParseResponseIPs_total (payload : bytes) : bytes_ok payload →
  wp (ParseResponseIPs payload) (λ ips,
    Z.of_nat (length ips) <= get16 payload 6 ∧ Forall (response_ip payload) ips).
Proof. intros. by apply wp_ParseResponseIPs. Qed.

(** ** Blocking a name *)

(** What answers a query with the header [h] and the question [q]: the same identifier,
    opcode and recursion bit, the response bit set, one question and no records. *)
Definition block_answer (rcode : Z) (h q : bytes) : bytes :=
  [get h 0; get h 1; Z.lor 128 (Z.land (get h 2) 121); rcode; 0; 1; 0; 0; 0; 0; 0; 0] ++ q.

(** A message with the header [h], the name [ls] of the question, and the rest [t]. *)
Lemma stands_question h ls t : len h = 12 → stands (h ++ enc_name ls ++ t) 12 (enc_name ls).
Proof.
  intros Hh. assert (stands (h ++ enc_name ls ++ t) 0 (h ++ enc_name ls ++ t)) as H.
  { split_and!; [lia|lia|apply sub_full]. }
  apply stands_app in H as [_ H]. rewrite Hh in H. by apply stands_app in H as [H _].
Qed.

Lemma wp_BuildBlockResponse h ls t rest : bytes_ok h → len h = 12 → Forall label_ok ls → len t = 4 →
  wp (BuildBlockResponse (h ++ enc_name ls ++ t ++ rest)) (λ o, o = Some (block_answer 131 h (enc_name ls ++ t))).
Proof.
  intros Hhok Hh Hls Ht. pose proof (stands_question h ls (t ++ rest) Hh) as Hat. set (query := h ++ _) in *.
  set (n := len (enc_name ls)).
  assert (len query = 12 + n + 4 + len rest) as Hq by (unfold query, n; rewrite !len_app; lia).
  assert (∀ k, 0 <= k < 12 + n + 4 → get query k = get (h ++ enc_name ls ++ t) k) as Hg.
  { intros k Hk. unfold query. rewrite !app_assoc, (get_app _ rest), <- !app_assoc, !len_app. unfold n in Hk. zcases. done. }
  clearbody query.
  unfold BuildBlockResponse. wp_step; [zlia|]. apply wp_bind.
  eapply wp_mono; [by apply wp_skipDNSName|]. intros o ->. change (len (enc_name ls)) with n.
  wp_step; [zlia|]. do 10 wp_write. apply wp_ret. f_equal. unfold block_answer.
  assert (len (enc_name ls ++ t) = n + 4) as Hqt by (unfold n; rewrite len_app; lia).
  apply list_ext_get; [rewrite len_app; cbn [length]; lia|].
  intros k Hk. rewrite get_app. change (len [_; _; _; _; _; _; _; _; _; _; _; _]) with 12. rewrite len_sub in * by lia.
  assert (k < 12 ∨ 12 <= k) as [H|H] by lia.
  - destruct (Z.ltb_spec k 12); [|lia].
    assert (k = 0 ∨ k = 1 ∨ k = 2 ∨ k = 3 ∨ k = 4 ∨ k = 5 ∨ k = 6 ∨ k = 7 ∨ k = 8 ∨ k = 9 ∨ k = 10 ∨ k = 11) as Hc by lia.
    destruct_or! Hc; subst k; readback; rewrite ?Hg, ?get_app, ?Hh by lia; try test_step; reflexivity.
  - destruct (Z.ltb_spec k 12); [lia|]. readback. all: try lia.
    all: rewrite Hg, !get_app, Hh by lia; zcases; f_equal; lia.
Qed.

(** [BuildBlockResponse] and [BuildServfailResponse], of a query with the header [h] and one
    question for the name [ls], whatever follows: NXDOMAIN and SERVFAIL, for the same
    identifier and the same question, without the records behind it. *)
Theorem BuildBlockResponse_answers (h : bytes) (ls : list bytes) (t rest : bytes) :
  bytes_ok h → len h = 12 → Forall label_ok ls → len t = 4 →
  let query := h ++ enc_name ls ++ t ++ rest in
  BuildBlockResponse query = Ret (Some (block_answer 131 h (enc_name ls ++ t)))
  ∧ BuildServfailResponse query = Ret (Some (block_answer 130 h (enc_name ls ++ t))).
Proof.
  intros Hok Hh Hls Ht. pose proof (wp_BuildBlockResponse h ls t rest Hok Hh Hls Ht) as H.
  apply wp_eq in H. split; [done|]. apply wp_eq. unfold BuildServfailResponse. rewrite H. cbn [go_bind].
  unfold block_answer. wp_run. apply wp_ret. do 2 f_equal.
Qed.

(** ** Any message *)

Section any_message.
Context (msg : bytes) (Hok : bytes_ok msg).

Lemma wp_query_loop_any fuel pos domain : 0 <= pos <= len msg → len msg - pos < Z.of_nat fuel →
  wp (query_loop fuel msg pos domain) (λ _, True).
Proof using Hok.
  revert pos domain. induction fuel as [|f IH]; intros pos domain Hp Hf; [lia|]. cbn [query_loop].
  pose proof (bytes_ok_get msg pos Hok) as Hg. unfold is_byte in Hg.
  wp_step; [|done]. do 2 wp_step. wp_step; [done|]. wp_step; [done|]. do 2 wp_step. apply IH; zlia.
Qed.

Lemma wp_ParseQueryDomain_any : wp (ParseQueryDomain msg) (λ _, True).
Proof using Hok.
  unfold ParseQueryDomain. wp_step; [done|]. wp_step. eapply wp_mono; [apply wp_query_loop_any; zlia|].
  intros [d|] _; [|done]. by wp_step.
Qed.

Lemma wp_ParseTransactionID_any : wp (ParseTransactionID msg) (λ _, True).
Proof using Hok. unfold ParseTransactionID. wp_step; [done|]. by do 2 wp_step. Qed.

Lemma wp_name_loop_any steps i labels : 0 <= i → wp (name_loop steps msg i labels) (λ _, True).
Proof using Hok.
  revert i labels. induction steps as [|n IH]; intros i labels Hi; [done|]. cbn [name_loop].
  pose proof (bytes_ok_get msg i Hok) as Hg. unfold is_byte in Hg.
  wp_step; [done|]. do 2 wp_step. wp_step; [done|]. wp_step.
  - wp_step; [done|]. do 2 wp_step. wp_step; [done|]. apply IH. apply Z.lor_nonneg. split.
    + apply Z.shiftl_nonneg, Z.land_nonneg. lia.
    + pose proof (bytes_ok_get msg (i + 1) Hok). unfold is_byte in *. lia.
  - wp_step; [done|]. do 2 wp_step. apply IH. lia.
Qed.

Lemma wp_parseDNSName_any offset : wp (parseDNSName msg offset) (λ _, True).
Proof using Hok.
  unfold parseDNSName. wp_step; [done|]. bprop. wp_step. eapply wp_mono; [apply wp_name_loop_any; lia|].
  by intros [[|l ls]|] _.
Qed.

(** A blocking response is as long as the question; without one there is none. *)
Lemma wp_BuildBlockResponse_any :
  wp (BuildBlockResponse msg) (λ o, ∀ x, o = Some x → bytes_ok x ∧ 12 < len x <= len msg).
Proof using Hok.
  unfold BuildBlockResponse. wp_step; [apply wp_ret; congruence|]. bprop. wp_step.
  eapply wp_mono; [apply wp_skipDNSName_any; [done|lia]|]. intros [q|] Hq; [|apply wp_ret; congruence].
  specialize (Hq q eq_refl). wp_step; [apply wp_ret; congruence|]. bprop.
  pose proof (bytes_ok_get msg 2 Hok) as Hg. unfold is_byte in Hg.
  do 10 wp_write. apply wp_ret. intros x [= <-]. split; [done|lia].
Qed.

Lemma wp_BuildServfailResponse_any :
  wp (BuildServfailResponse msg) (λ o, ∀ x, o = Some x → bytes_ok x ∧ 12 < len x <= len msg).
Proof using Hok.
  unfold BuildServfailResponse. wp_step. eapply wp_mono; [apply wp_BuildBlockResponse_any|].
  intros [x|] Hx; [|apply wp_ret; congruence]. destruct (Hx x eq_refl) as [Hxok Hl].
  pose proof (bytes_ok_get x 3 Hxok) as Hg. unfold is_byte in Hg.
  do 2 wp_write. apply wp_ret. intros y [= <-]. split; [done|lia].
Qed.
End any_message.

(** ** Asking for a name *)

Lemma string_bytes_chars s : string_bytes s = map code (chars s).
Proof. unfold string_bytes. apply map_ext. intros a. unfold code. by rewrite N_nat_Z || rewrite <- N_nat_Z. Qed.

Lemma string_bytes_nil s : string_bytes s = [] ↔ s = ""%string.
Proof.
  rewrite string_bytes_chars, <- string_eq_nil. split; [|by intros ->]. apply map_eq_nil.
Qed.

Lemma string_bytes_ok s : bytes_ok (string_bytes s).
Proof. rewrite string_bytes_chars. apply Forall_forall. intros x (a & -> & _)%list_elem_of_fmap. apply code_range. Qed.

Lemma join_bytes (ss : list string) : string_bytes (Join ss ".") = join_dots (map string_bytes ss).
Proof.
  unfold Join. rewrite string_bytes_chars, chars_str.
  induction ss as [|s [|s' ss] IH]; [done|cbn; by rewrite string_bytes_chars|].
  change (join_list "." (map chars (s :: s' :: ss)))
    with (chars s ++ "."%char :: join_list "." (map chars (s' :: ss))).
  change (join_dots (map string_bytes (s :: s' :: ss)))
    with (string_bytes s ++ 46 :: join_dots (map string_bytes (s' :: ss))).
  rewrite map_app, map_cons, IH. by rewrite string_bytes_chars.
Qed.

(** The labels of a host name: one to sixty-three bytes, none of them a dot. *)
Definition host_label (s : string) : Prop := 0 < len (string_bytes s) <= 63 ∧ "."%char ∉ chars s.

Lemma host_label_ok s : host_label s → label_ok (string_bytes s).
Proof. intros [H _]. split; [apply string_bytes_ok|done]. Qed.

Lemma query_label_enc s : host_label s → query_label s = enc_label (string_bytes s).
Proof.
  intros [H _]. unfold query_label. rewrite bool_decide_eq_false_2.
  - cbv zeta. zcases. unfold enc_label. rewrite u8_small; [done|unfold is_byte; lia].
  - intros ->. cbn in H. lia.
Qed.

Lemma join_last ss : ss ≠ [] → Forall host_label ss →
  ∃ pre a, chars (Join ss ".") = pre ++ [a] ∧ a ≠ "."%char.
Proof.
  intros Hne H. unfold Join. rewrite chars_str. induction H as [|s ss [Hs Hd] H IH]; [done|].
  destruct ss as [|s' ss].
  - cbn. destruct (exists_last (l := chars s)) as (pre & a & E).
    { intros E. rewrite string_bytes_chars, E in Hs. cbn in Hs. lia. }
    exists pre, a. split; [done|]. intros ->. apply Hd. rewrite E. apply elem_of_app. right. by apply list_elem_of_singleton.
  - destruct IH as (pre & a & E & Ha); [done|]. exists (chars s ++ "."%char :: pre), a. split; [|done].
    change (join_list "." (map chars (s :: s' :: ss)))
      with (chars s ++ "."%char :: join_list "." (map chars (s' :: ss))).
    rewrite E. by rewrite <- app_assoc.
Qed.

Lemma trim_dot_join ss : ss ≠ [] → Forall host_label ss → trim_dot (Join ss ".") = Join ss ".".
Proof.
  intros Hne H. destruct (join_last ss Hne H) as (pre & a & E & Ha). unfold trim_dot.
  rewrite E, rev_app_distr. cbn. by rewrite decide_False.
Qed.

(** The header of a query for one name. *)
Definition query_header (txid : Z) : bytes := bytes16 (u16 txid) ++ [1; 0; 0; 1; 0; 0; 0; 0; 0; 0].

Lemma BuildQuery_shape ss txid qtype : ss ≠ [] → Forall host_label ss →
  TrimSpace (Join ss ".") = Join ss "." →
  BuildQuery (Join ss ".") txid qtype
  = query_header txid ++ enc_name (map string_bytes ss) ++ bytes16 (u16 qtype) ++ [0; 1].
Proof.
  intros Hne H Ht. unfold BuildQuery. rewrite Ht, trim_dot_join by done.
  rewrite bool_decide_eq_false_2.
  - rewrite Split_Join; [|done|eapply Forall_impl; [done|by intros s [_ Hs]]].
    assert (map query_label ss = map enc_label (map string_bytes ss)) as ->.
    { rewrite map_map. apply map_ext_Forall. eapply Forall_impl; [done|]. apply query_label_enc. }
    unfold query_header, enc_name. by rewrite <- !app_assoc.
  - intros E. destruct (join_last ss Hne H) as (pre & a & E' & _). rewrite E in E'. by destruct pre.
Qed.

Lemma wp_query_loop msg ls fuel pos domain : Forall label_ok ls → stands msg pos (enc_name ls) →
  (length ls < fuel)%nat →
  wp (query_loop fuel msg pos domain)
    (λ o, o = Some (if 0 <? len domain then join_dots (domain :: ls) else join_dots ls)).
Proof.
  revert fuel pos domain. induction ls as [|l ls IH]; intros fuel pos domain Hok Hat Hf;
    (destruct fuel as [|fuel]; [lia|]); cbn [query_loop].
  - destruct (stands_nil msg pos Hat) as [Hi Hg]. wp_step; [|zlia]. do 2 wp_step. rewrite Hg. apply wp_ret.
    zcases; [done|]. bprop; destruct domain; [done|cbn [length] in *; lia].
  - destruct (stands_cons msg pos l ls Hat Hok) as (Hi & Hil & Hg & Hl & Hs & Hat' & Hlen).
    wp_step; [|zlia]. do 2 wp_step. rewrite Hg. wp_step; [zlia|]. wp_step; [zlia|]. do 2 wp_step. rewrite Hs.
    eapply wp_mono; [apply IH; [by apply Forall_cons in Hok as [_ ?]|done|cbn in Hf; lia]|].
    intros o ->. f_equal. rewrite !len_app. destruct (0 <? len domain) eqn:E.
    + rewrite len_app. zcases. destruct ls; cbn [join_dots app]; by rewrite <- !app_assoc.
    + zcases. bprop. destruct domain; [|cbn [length] in *; lia]. by destruct ls.
Qed.

Lemma wp_name_loop msg ls fuel i acc : Forall label_ok ls → stands msg i (enc_name ls) →
  (length ls < fuel)%nat → wp (name_loop fuel msg i acc) (λ o, o = Some (acc ++ ls)).
Proof.
  revert fuel i acc. induction ls as [|l ls IH]; intros fuel i acc Hok Hat Hf;
    (destruct fuel as [|fuel]; [lia|]); cbn [name_loop].
  - destruct (stands_nil msg i Hat) as [Hi Hg]. wp_step; [zlia|]. do 2 wp_step. rewrite Hg. apply wp_ret.
    by rewrite app_nil_r.
  - destruct (stands_cons msg i l ls Hat Hok) as (Hi & Hil & Hg & Hl & Hs & Hat' & Hlen).
    wp_step; [zlia|]. do 2 wp_step. rewrite Hg. wp_step; [zlia|]. rewrite label_no_pointer by lia.
    wp_step; [zlia|]. do 2 wp_step. rewrite Hs.
    eapply wp_mono; [apply IH; [by apply Forall_cons in Hok as [_ ?]|done|cbn in Hf; lia]|].
    intros o ->. by rewrite <- app_assoc.
Qed.

Lemma ParseQueryDomain_reads q ls : stands q 12 (enc_name ls) → Forall label_ok ls → ls ≠ [] →
  ParseQueryDomain q = Ret (Some (join_dots ls)).
Proof.
  intros Hat Hls Hne. pose proof Hat as (_ & Hl & _). pose proof (name_length _ Hls) as Hn.
  assert (0 < len (join_dots ls)) as Hj.
  { destruct ls as [|l ls']; [done|]. apply Forall_cons in Hls as [[_ Hll] _].
    destruct ls'; cbn [join_dots]; rewrite ?len_app; lia. }
  apply wp_eq. unfold ParseQueryDomain. wp_step; [zlia|]. apply wp_bind.
  eapply wp_mono; [apply (wp_query_loop q ls); [done|done|lia]|]. intros o ->. cbn [length Z.of_nat].
  change (0 <? Z.of_nat 0) with false. cbv iota. wp_step; [bprop; lia|]. by apply wp_ret.
Qed.

(** C17: The query for a name, back: [ParseQueryDomain] and [parseDNSName] read the name that
    [BuildQuery] was given, [ParseTransactionID] the identifier, and the name ends where the
    four bytes of type and class begin.  The name is any list of labels of one to sixty-three
    bytes without a dot, and without white space around the whole. *)
Theorem BuildQuery_roundtrip (ss : list string) (txid qtype : Z) :
  ss ≠ [] → Forall host_label ss → TrimSpace (Join ss ".") = Join ss "." → 0 <= txid < 65536 →
  let q := BuildQuery (Join ss ".") txid qtype in
  ParseQueryDomain q = Ret (Some (string_bytes (Join ss ".")))
  ∧ ParseTransactionID q = Ret (Some txid)
  ∧ skipDNSName q 12 = Ret (Some (len q - 4))
  ∧ ((length ss < 256)%nat → parseDNSName q 12 = Ret (Some (string_bytes (Join ss ".")))).
Proof.
  intros Hne H Ht Hid. cbv zeta. rewrite BuildQuery_shape by done.
  assert (Forall label_ok (map string_bytes ss)) as Hls.
  { apply Forall_fmap. eapply Forall_impl; [done|]. apply host_label_ok. }
  pose proof (stands_question (query_header txid) (map string_bytes ss) (bytes16 (u16 qtype) ++ [0; 1])
                eq_refl) as Hat.
  pose proof (name_length _ Hls) as Hn. rewrite join_bytes.
  assert (map string_bytes ss ≠ []) as Hmne by by destruct ss.
  set (ls := map string_bytes ss) in *.
  assert (len (query_header txid ++ enc_name ls ++ bytes16 (u16 qtype) ++ [0; 1]) = 12 + len (enc_name ls) + 4) as Hq.
  { rewrite !len_app. change (len (query_header txid)) with 12. change (len [0; 1]) with 2. rewrite len_bytes16. lia. }
  set (q := query_header txid ++ _) in *.
  split_and!.
  - by apply ParseQueryDomain_reads.
  - apply wp_eq. unfold ParseTransactionID. wp_step; [zlia|]. do 2 wp_step. apply wp_ret. f_equal.
    apply get16_bytes16; [done|..]; unfold q, query_header; rewrite (u16_small txid) by lia; reflexivity.
  - apply wp_eq. eapply wp_mono; [by apply wp_skipDNSName|]. intros o ->. f_equal. lia.
  - intros H256. apply wp_eq. unfold parseDNSName. wp_step; [zlia|]. apply wp_bind.
    eapply wp_mono; [apply (wp_name_loop q ls); [done|done|unfold ls; by rewrite length_map]|]. intros o ->.
    cbn [app]. destruct ls as [|l ls']; [done|]. by apply wp_ret.
Qed.

(** A resource record with a name that points at the question, its class and time to live. *)
Record rr := { rr_type : Z; rr_class : bytes; rr_data : bytes }.

Definition rr_ok (r : rr) : Prop := 0 <= rr_type r < 65536 ∧ len (rr_class r) = 6 ∧ len (rr_data r) < 65536.

Definition enc_rr (r : rr) : bytes :=
  [192; 12] ++ bytes16 (rr_type r) ++ rr_class r ++ bytes16 (len (rr_data r)) ++ rr_data r.

(** The address that a record stands for. *)
Definition rr_ips (r : rr) : list bytes :=
  if ((rr_type r =? 1) && (len (rr_data r) =? 4)) || ((rr_type r =? 28) && (len (rr_data r) =? 16))
  then [rr_data r] else [].

Lemma stands_16 msg i v : stands msg i (bytes16 v) → 0 <= v < 65536 →
  0 <= i ∧ i + 2 <= len msg ∧ get16 msg i = v.
Proof.
  intros H Hv. pose proof (stands_get msg i _ 0 H ltac:(rewrite len_bytes16; lia)) as H0.
  pose proof (stands_get msg i _ 1 H ltac:(rewrite len_bytes16; lia)) as H1. rewrite Z.add_0_r in H0.
  destruct H as (Hi & Hl & _). rewrite len_bytes16 in Hl. split_and!; [lia|lia|].
  by apply get16_bytes16.
Qed.

Lemma wp_answer_ips msg ls rs offset : Forall label_ok ls → stands msg 12 (enc_name ls) → Forall rr_ok rs →
  stands msg offset (concat (map enc_rr rs)) →
  wp (answer_ips (length rs) msg offset) (λ ips, ips = concat (map rr_ips rs)).
Proof.
  intros Hls Hat Hrs. revert offset.
  induction Hrs as [|r rs (Ht & Hc & Hd) Hrs IH]; intros offset Hst; [by apply wp_ret|].
  cbn [map concat] in Hst. apply stands_app in Hst as [Hr Hrest]. unfold enc_rr in Hr, Hrest.
  apply stands_app in Hr as [Hp Hr]. apply stands_app in Hr as [Hty Hr]. apply stands_app in Hr as [Hcl Hr].
  apply stands_app in Hr as [Hle Hda]. rewrite !len_app, !len_bytes16 in *. change (len [192; 12]) with 2 in *.
  apply stands_16 in Hty as (? & ? & Hty); [|done]. apply stands_16 in Hle as (? & ? & Hle); [|lia].
  pose proof Hda as (_ & Hdl & Hds). rewrite Hc in *.
  cbn [length answer_ips]. apply wp_bind. eapply wp_mono; [by apply (wp_skipDNSName_pointer msg ls)|].
  intros o ->. wp_step; [zlia|]. do 4 wp_step. rewrite Hty.
  replace (offset + 2 + 2 + 2 + 4) with (offset + 2 + 2 + 6) by lia. rewrite Hle.
  wp_step; [zlia|]. apply wp_bind.
  assert (∀ k, k = len (rr_data r) → sub msg (offset + 2 + 2 + 6 + 2) (offset + 2 + 2 + 6 + 2 + k) = rr_data r) as Hk.
  { by intros k ->. }
  eapply (wp_mono _ (λ ips, ips = rr_ips r)).
  - unfold rr_ips. destruct (rr_type r =? 1) eqn:E1, (len (rr_data r) =? 4) eqn:E4; cbn [andb orb].
    + wp_run. apply wp_ret. by rewrite Hk by zlia.
    + assert ((rr_type r =? 28) = false) as -> by zlia. by apply wp_ret.
    + assert ((len (rr_data r) =? 16) = false) as -> by zlia. rewrite andb_false_r. by apply wp_ret.
    + destruct (_ && _) eqn:E; [|by apply wp_ret]. wp_run. apply wp_ret. by rewrite Hk by zlia.
  - intros ips ->. apply wp_bind. eapply wp_mono; [apply IH|intros rest ->; by apply wp_ret].
    replace (offset + 2 + 2 + 6 + 2 + len (rr_data r)) with (offset + (2 + (2 + (6 + (2 + len (rr_data r)))))) by lia.
    done.
Qed.

(** A response to a question for [ls] with the records [rs]. *)
Definition response (h4 tail : bytes) (ls : list bytes) (t : bytes) (rs : list rr) : bytes :=
  (h4 ++ bytes16 1 ++ bytes16 (Z.of_nat (length rs)) ++ tail) ++ enc_name ls ++ t ++ concat (map enc_rr rs).

(** C24: [ParseResponseIPs] gives the data of the A and AAAA records of the answer, in order and
    each once, and nothing for records of other types or with data of another size; the names
    of the records are compression pointers at the question. *)
Theorem ParseResponseIPs_reads (h4 tail t : bytes) (ls : list bytes) (rs : list rr) :
  len h4 = 4 → len tail = 4 → len t = 4 → Forall label_ok ls → Forall rr_ok rs → Z.of_nat (length rs) < 65536 →
  ParseResponseIPs (response h4 tail ls t rs) = Ret (concat (map rr_ips rs)).
Proof.
  intros H4 Htl Ht Hls Hrs Hn. unfold response. set (h := h4 ++ _).
  assert (len h = 12) as Hh by (unfold h; rewrite !len_app, !len_bytes16; lia).
  pose proof (stands_question h ls (t ++ concat (map enc_rr rs)) Hh) as Hat.
  assert (stands (h ++ enc_name ls ++ t ++ concat (map enc_rr rs)) 0 (h ++ enc_name ls ++ t ++ concat (map enc_rr rs))) as Hall.
  { split_and!; [lia|lia|apply sub_full]. }
  set (msg := h ++ _) in *. unfold msg at 2 in Hall. apply stands_app in Hall as [Hhd Hall].
  unfold h in Hhd. apply stands_app in Hhd as [_ Hhd]. apply stands_app in Hhd as [Hqd Hhd].
  apply stands_app in Hhd as [Han _]. rewrite len_bytes16, H4 in *.
  apply stands_16 in Hqd as (_ & _ & Hqd); [|lia]. apply stands_16 in Han as (_ & _ & Han); [|lia].
  apply stands_app in Hall as [_ Hall]. apply stands_app in Hall as [Htt Hall]. rewrite Hh, Ht in *.
  pose proof Htt as (_ & Htl2 & _). rewrite Ht in Htl2.
  apply wp_eq. unfold ParseResponseIPs. pose proof (name_length ls Hls). wp_step; [zlia|]. do 4 wp_step.
  change (0 + 4) with 4 in Hqd. change (0 + 4 + 2) with 6 in Han. rewrite Hqd, Han.
  wp_step; [apply wp_ret; destruct rs; [done|cbn [length] in *; zlia]|].
  change (Z.to_nat 1) with 1%nat. cbn [skip_questions]. apply wp_bind, wp_bind.
  eapply wp_mono; [by apply wp_skipDNSName|]. intros o ->. wp_step; [zlia|]. apply wp_ret.
  rewrite Nat2Z.id. by apply (wp_answer_ips msg ls).
Qed.

(** ** Witnesses *)

Lemma BuildQuery_roundtrip_witness :
  ParseQueryDomain (BuildQuery "b4.example.org" 4660 28) = Ret (Some (string_bytes "b4.example.org")).
Proof.
  assert (Forall host_label ["b4"; "example"; "org"]%string) as H.
  { repeat constructor; try (by vm_compute); by apply (bool_decide_unpack _). }
  destruct (BuildQuery_roundtrip ["b4"; "example"; "org"] 4660 28 ltac:(done) H ltac:(by vm_compute) ltac:(lia))
    as [H1 _].
  exact H1.
Defined.

Lemma ya_ru : Forall label_ok (map string_bytes ["ya"; "ru"]%string).
Proof. repeat constructor; by vm_compute. Qed.

(** A name that points at itself. *)
Lemma ParseResponseIPs_total_witness :
  ParseResponseIPs (query_header 7 ++ [192; 12; 0; 1; 0; 1]) = Ret []
  ∧ wp (ParseResponseIPs ([0; 7; 129; 128; 0; 0; 0; 2; 0; 0; 0; 0] ++ [192; 12] ++ repeat 0 40)) (λ ips,
      Z.of_nat (length ips) <= 2).
Proof.
  split; [by vm_compute|].
  eapply wp_mono; [apply ParseResponseIPs_total; by apply bytes_okb_spec|].
  intros ips [H _]. exact H.
Defined.

Lemma ParseResponseIPs_reads_witness :
  ParseResponseIPs
    (response [0; 7; 129; 128] [0; 0; 0; 0] (map string_bytes ["ya"; "ru"]%string) [0; 1; 0; 1]
       [{| rr_type := 5; rr_class := [0; 1; 0; 0; 0; 60]; rr_data := [1; 97; 192; 12] |};
        {| rr_type := 1; rr_class := [0; 1; 0; 0; 0; 60]; rr_data := [5; 255; 255; 70] |};
        {| rr_type := 1; rr_class := [0; 1; 0; 0; 0; 60]; rr_data := [77; 88; 55; 60] |}])
  = Ret [[5; 255; 255; 70]; [77; 88; 55; 60]].
Proof.
  apply (ParseResponseIPs_reads [0; 7; 129; 128] [0; 0; 0; 0] [0; 1; 0; 1] (map string_bytes ["ya"; "ru"]%string)); try done.
  - apply ya_ru.
  - repeat constructor; by vm_compute.
Defined.

Lemma BuildBlockResponse_answers_witness :
  BuildServfailResponse (BuildQuery "ya.ru" 7 1)
  = Ret (Some (block_answer 130 (query_header 7) (enc_name (map string_bytes ["ya"; "ru"]%string) ++ [0; 1; 0; 1]))).
Proof.
  apply (BuildBlockResponse_answers (query_header 7) (map string_bytes ["ya"; "ru"]%string) [0; 1; 0; 1] []);
    [by apply bytes_okb_spec|done|apply ya_ru|done].
Defined.
