(* ===== verification/Ports.v ===== *)
(** * Port filters

    [utils.ValidatePorts], which normalises the port filter a user types, and the
    functions of config/methods.go that read the filters: the ranges a set matches,
    the ports the firewall queues and the map the packet handler looks a port up in.
    The theorems relate all of them to one meaning of a filter, [denotes]. *)

From Stdlib Require Import ZArith Lia Ascii Sorted.
From Stdlib Require Strings.String.
From stdpp Require Import base list numbers strings pretty sorting gmap sets.
From S2P Require Import Prelude Config GoString Text.

Local Open Scope Z_scope.

(** [sort.Slice]: it sorts the slice for the given [less], and need not be stable. *)
Class SortSlice := {
  sort_slice {A : Type} : (A → A → bool) → list A → list A;
  sort_slice_perm {A} (less : A → A → bool) (l : list A) : sort_slice less l ≡ₚ l;
  sort_slice_sorted {A} (less : A → A → bool) (key : A → Z) (l : list A) :
    (∀ x y, less x y = true ↔ key x < key y) → StronglySorted (λ x y, key x <= key y) (sort_slice less l) }.

(** ** utils/port.go *)

Definition valid_item (item : string) : option string :=
  let portRange := ReplaceAll (TrimSpace item) ":" "-" in
  if Contains portRange "-" then
    match Split portRange "-" with
    | [start; stop] =>
        let '(startPort, ok1) := Atoi (TrimSpace start) in
        let '(endPort, ok2) := Atoi (TrimSpace stop) in
        if negb ok1 || negb ok2 || (startPort <? 1) || (65535 <? startPort) || (endPort <? 1) || (65535 <? endPort)
        then None
        else if endPort <=? startPort then None
        else Some (Itoa startPort +:+ "-" +:+ Itoa endPort)
    | _ => None
    end
  else
    let port := TrimSpace portRange in
    let '(portNum, ok) := Atoi port in
    if negb ok || (portNum <? 1) || (65535 <? portNum) then None else Some port.
Definition ValidatePorts (ports : string) : string :=
  if bool_decide (ports = "") then "" else Join (omap valid_item (Split ports ",")) ",".

(** ** config/methods.go *)

Definition parsePortRangeStr (part : string) : option PortRange :=
  let part := TrimSpace part in
  if bool_decide (part = "") then None
  else if Contains part "-" then
    let '(lo, hi) := SplitN2 part "-" in
    let '(min, ok1) := Atoi lo in
    let '(max, ok2) := Atoi hi in
    if ok1 && ok2 && (1 <=? min) && (1 <=? max) && (min <=? max) && (min <=? 65535) && (max <=? 65535)
    then Some (u16 min, u16 max) else None
  else
    let '(port, ok) := Atoi part in
    if ok && (1 <=? port) && (port <=? 65535) then Some (u16 port, u16 port) else None.

Definition ranges_of (filter : string) : list PortRange :=
  if bool_decide (filter = "") then [] else omap parsePortRangeStr (Split filter ",").

Definition with_ranges (set : SetConfig) (tcp udp : list PortRange) : SetConfig :=
  {| Id := Id set; Name := Name set; TCP := TCP set; UDP := UDP set; Fragmentation := Fragmentation set;
     Faking := Faking set; Targets := Targets set; Enabled := Enabled set; DNS := DNS set; TCPPortRanges := tcp;
     UDPPortRanges := udp; Routing := Routing set; Escalate := Escalate set; MSSClamp := MSSClamp set |}.
Definition with_sets (cfg : Config) (sets : list SetConfig) : Config :=
  {| Queue := Queue cfg; System := System cfg; Sets := sets; tcpPortMap := tcpPortMap cfg;
     ConfigPath := ConfigPath cfg |}.
Definition with_portmap (cfg : Config) (m : option (gset Z)) : Config :=
  {| Queue := Queue cfg; System := System cfg; Sets := Sets cfg; tcpPortMap := m; ConfigPath := ConfigPath cfg |}.

Definition BuildSetPortRanges (cfg : Config) : Config :=
  with_sets cfg (map (λ set, with_ranges set (ranges_of (t_DPortFilter (TCP set))) (ranges_of (u_DPortFilter (UDP set))))
    (Sets cfg)).

(** [last.end + 1] is a 64-bit addition. *)
Definition i64 (z : Z) : Z := (z + 9223372036854775808) mod 18446744073709551616 - 9223372036854775808.

Definition port_token (p : string) : option (Z * Z) :=
  let p := TrimSpace p in
  if bool_decide (p = "") then None
  else let p := ReplaceAll p ":" "-" in
  if Contains p "-" then
    match Split p "-" with
    | [x; y] =>
        let start := fst (Atoi x) in let stop := fst (Atoi y) in
        if (0 <? start) && (0 <? stop) && (start <=? stop) then Some (start, stop) else None
    | _ => None
    end
  else let port := fst (Atoi p) in if 0 <? port then Some (port, port) else None.

Fixpoint merge_ranges (last : Z * Z) (ranges : list (Z * Z)) : list (Z * Z) :=
  match ranges with
  | [] => [last]
  | cur :: rest =>
      if fst cur <=? i64 (snd last + 1)
      then merge_ranges (fst last, if snd last <? snd cur then snd cur else snd last) rest
      else last :: merge_ranges cur rest
  end.
Definition format_range (r : Z * Z) : string :=
  if fst r =? snd r then Itoa (fst r) else Itoa (fst r) +:+ "-" +:+ Itoa (snd r).
Definition mergeAndNormalizePorts `{SortSlice} (ports : list string) : list string :=
  match sort_slice (λ a b : Z * Z, fst a <? fst b) (omap port_token ports) with
  | [] => []
  | first :: rest => map format_range (merge_ranges first rest)
  end.

(** [sort.Strings] of the keys of a map. *)
Definition sorted_keys (m : gset string) : list string := merge_sort String.le (elements m).

Definition add_ports (m : gset string) (filter : string) : gset string :=
  foldl (λ m p, let p := TrimSpace p in if bool_decide (p = "") then m else {[p]} ∪ m) m (Split filter ",").
Definition collect_ports (filter : SetConfig → string) (sets : list SetConfig) : gset string :=
  foldl (λ m set, if negb (Enabled set) || bool_decide (filter set = "") then m else add_ports m (filter set))
    {["443"%string]} sets.
Definition CollectTCPPorts `{SortSlice} (cfg : Config) : list string :=
  mergeAndNormalizePorts (sorted_keys (collect_ports (λ set, t_DPortFilter (TCP set)) (Sets cfg))).
Definition CollectUDPPorts `{SortSlice} (cfg : Config) : list string :=
  mergeAndNormalizePorts (sorted_keys (collect_ports (λ set, u_DPortFilter (UDP set)) (Sets cfg))).

(** The ports of one entry.  [for i := start; i <= end; i++] never ends when [end] is
    the largest int: then there is no result. *)
Definition port_entry (p : string) : option (list Z) :=
  let p := TrimSpace p in
  if Contains p "-" then
    match Split p "-" with
    | [x; y] =>
        let start := fst (Atoi x) in let stop := fst (Atoi y) in
        if (start <=? stop) && (stop =? MaxInt) then None
        else Some (map u16 (seqZ start (stop - start + 1)))
    | _ => Some []
    end
  else let port := fst (Atoi p) in Some (if 0 <? port then [u16 port] else []).
Definition BuildTCPPortMap `{SortSlice} (cfg : Config) : option Config :=
  entries ← mapM port_entry (CollectTCPPorts cfg);
  Some (with_portmap cfg (Some (list_to_set (concat entries)))).

Definition IsTCPPort (cfg : Config) (port : Z) : bool :=
  match tcpPortMap cfg with None => port =? 443 | Some m => bool_decide (port ∈ m) end.

(** The end of [Validate]: the filters are normalised, then the map and the ranges of
    the sets are built from them. *)
Definition with_filters (set : SetConfig) (tcp udp : string) : SetConfig :=
  {| Id := Id set; Name := Name set; Fragmentation := Fragmentation set; Faking := Faking set;
     TCP := {| t_ConnBytesLimit := t_ConnBytesLimit (TCP set); Seg2Delay := Seg2Delay (TCP set);
       Seg2DelayMax := Seg2DelayMax (TCP set); SynFake := SynFake (TCP set); SynFakeLen := SynFakeLen (TCP set);
       SynTTL := SynTTL (TCP set); DropSACK := DropSACK (TCP set); t_DPortFilter := tcp;
       Incoming := Incoming (TCP set); Desync := Desync (TCP set); Win := Win (TCP set);
       Duplicate := Duplicate (TCP set); IPBlockDetect := IPBlockDetect (TCP set);
       RSTProtection := RSTProtection (TCP set) |};
     UDP := {| u_Mode := u_Mode (UDP set); u_FakeSeqLength := u_FakeSeqLength (UDP set);
       u_FakeLen := u_FakeLen (UDP set); u_FakingStrategy := u_FakingStrategy (UDP set);
       u_FakePayloadFile := u_FakePayloadFile (UDP set); u_FakePayloadData := u_FakePayloadData (UDP set);
       u_DPortFilter := udp; u_FilterQUIC := u_FilterQUIC (UDP set); u_FilterSTUN := u_FilterSTUN (UDP set);
       u_ConnBytesLimit := u_ConnBytesLimit (UDP set); u_Seg2Delay := u_Seg2Delay (UDP set);
       u_Seg2DelayMax := u_Seg2DelayMax (UDP set) |};
     Targets := Targets set; Enabled := Enabled set; DNS := DNS set; TCPPortRanges := TCPPortRanges set;
     UDPPortRanges := UDPPortRanges set; Routing := Routing set; Escalate := Escalate set; MSSClamp := MSSClamp set |}.
Definition validate_filters (set : SetConfig) : SetConfig :=
  with_filters set (ValidatePorts (t_DPortFilter (TCP set))) (ValidatePorts (u_DPortFilter (UDP set))).
Definition validate_ports `{SortSlice} (cfg : Config) : option Config :=
  cfg ← BuildTCPPortMap (with_sets cfg (map validate_filters (Sets cfg)));
  Some (BuildSetPortRanges cfg).

(** ** The meaning of a filter *)

(** One item of a filter covers the port [p]: it is a number, or two numbers in order
    with '-' or ':' between them, with spaces anywhere around the numbers. *)
Definition covers (item : string) (p : Z) : Prop :=
  let t := TrimSpace item in
  (Atoi t = (p, true) ∧ 1 <= p <= 65535)
  ∨ ∃ x y lo hi c, (c = "-" ∨ c = ":")%char ∧ chars t = chars x ++ (c :: chars y)
      ∧ Atoi (TrimSpace x) = (lo, true) ∧ Atoi (TrimSpace y) = (hi, true) ∧ 1 <= lo < hi ∧ hi <= 65535
      ∧ lo <= p <= hi.
Definition denotes (filter : string) (p : Z) : Prop := ∃ item, item ∈ Split filter "," ∧ covers item p.

(** ** Trimming keeps what is not a space *)

Definition space_bytes : list ascii := concat space_runes.

Lemma trim_go_keeps runes (bs : list ascii) k l a :
  Forall (λ r, Forall (.∈ bs) r) runes → Forall (.∈ bs) (take k l) → a ∈ l → a ∉ bs → a ∈ trim_go runes k l.
Proof.
  intros Hr. revert k. induction l as [|b l IH]; intros k Hk Hin Ha; [done|]. cbn [trim_go].
  assert (∀ k, Forall (.∈ bs) (take (S k) (b :: l)) → a ∈ trim_go runes k l) as Hskip.
  { intros k' F. cbn in F. inversion F; subst. apply IH; [done| |done].
    apply elem_of_cons in Hin as [->|]; done. }
  destruct k as [|k]; [|by apply Hskip].
  destruct (space_width runes (b :: l)) as [|k] eqn:E; [done|]. apply Hskip. unfold space_width in E.
  destruct (List.find _ _) as [r|] eqn:F; [|done]. apply List.find_some in F as [Hin' Hp].
  apply bool_decide_eq_true in Hp. destruct Hp as [r' Hp]. rewrite Hp, <- E, take_app_length.
  rewrite Forall_forall in Hr. apply Hr. by apply list_elem_of_In.
Qed.

Lemma elem_of_rev {A} (a : A) l : a ∈ rev l ↔ a ∈ l.
Proof. by rewrite !list_elem_of_In, <- in_rev. Qed.

Lemma TrimSpace_keeps s a : a ∈ chars s → a ∉ space_bytes → a ∈ chars (TrimSpace s).
Proof.
  intros H Ha. unfold TrimSpace, trim_right, trim_left. rewrite chars_str, elem_of_rev.
  apply (trim_go_keeps _ space_bytes); [|by constructor| |done].
  - apply (bool_decide_unpack _). by vm_compute.
  - rewrite elem_of_rev. apply (trim_go_keeps _ space_bytes); [|by constructor|done|done].
    apply (bool_decide_unpack _). by vm_compute.
Qed.

(** ** Items in normal form *)

(** The normal form [t] of an item, and the range it stands for. *)
Definition normal (t : string) (r : Z * Z) : Prop :=
  (t = Itoa (fst r) +:+ "-" +:+ Itoa (snd r) ∧ 1 <= fst r < snd r ∧ snd r <= 65535)
  ∨ (Atoi t = (fst r, true) ∧ fst r = snd r ∧ 1 <= fst r <= 65535).

Lemma Atoi_range v : 1 <= v <= 65535 → Atoi (Itoa v) = (v, true).
Proof. intros. apply Atoi_Itoa. unfold MaxInt. lia. Qed.

Lemma range_chars lo hi :
  chars (Itoa lo +:+ "-" +:+ Itoa hi) = chars (Itoa lo) ++ ("-"%char :: chars (Itoa hi)).
Proof. by rewrite !chars_app. Qed.

Lemma normal_plain t r : normal t r → Forall (λ a, plain a = true) (chars t) ∧ t ≠ "".
Proof.
  intros [(-> & H1 & H2)|(H & _)].
  - rewrite range_chars. split.
    + rewrite Forall_app, Forall_cons. split_and!; [|done|]; apply Itoa_plain; unfold MaxInt; lia.
    + intros E%string_eq_nil. rewrite range_chars in E. by destruct (chars (Itoa (fst r))).
  - apply Atoi_plain in H as [? H]. split; [done|]. by intros ->.
Qed.

Lemma normal_trim t r : normal t r → TrimSpace t = t.
Proof. intros H. apply TrimSpace_plain. by eapply normal_plain. Qed.
Lemma normal_free t r a : normal t r → plain a = false → a ∉ chars t.
Proof. intros [F _]%normal_plain Ha Hin. rewrite Forall_forall in F. apply F in Hin. congruence. Qed.

Lemma range_split lo hi : 1 <= lo <= 65535 → 1 <= hi <= 65535 →
  let t := Itoa lo +:+ "-" +:+ Itoa hi in
  Contains t "-" = true ∧ Split t "-" = [Itoa lo; Itoa hi] ∧ SplitN2 t "-" = (Itoa lo, Itoa hi).
Proof.
  intros Hlo Hhi. cbv zeta.
  pose proof (Atoi_no_dash _ _ (Atoi_range lo Hlo) ltac:(lia)).
  pose proof (Atoi_no_dash _ _ (Atoi_range hi Hhi) ltac:(lia)).
  split_and!.
  - apply Contains_spec. rewrite range_chars. set_solver.
  - apply Split_two. by rewrite range_chars.
  - apply SplitN2_two; [by rewrite range_chars|done].
Qed.

Lemma number_dash t v : Atoi t = (v, true) → 1 <= v → Contains t "-" = false.
Proof. intros H Hv. apply bool_decide_eq_false. by eapply Atoi_no_dash. Qed.

Lemma normal_parse t r : normal t r → parsePortRangeStr t = Some r.
Proof.
  intros H. unfold parsePortRangeStr. rewrite (normal_trim _ _ H).
  rewrite bool_decide_false by (by eapply normal_plain). destruct r as [lo hi].
  destruct H as [(-> & H1 & H2)|(H & H1 & H2)]; cbn [fst snd] in *.
  - destruct (range_split lo hi) as (-> & _ & ->); [lia..|]. rewrite !Atoi_range by lia.
    replace (_ && _) with true by lia. by rewrite !u16_small by lia.
  - rewrite (number_dash _ _ H) by lia. rewrite H. replace (_ && _) with true by lia.
    rewrite u16_small by lia. congruence.
Qed.

Lemma normal_token t r : normal t r → port_token t = Some r.
Proof.
  intros H. unfold port_token. rewrite (normal_trim _ _ H).
  rewrite bool_decide_false by (by eapply normal_plain). cbv zeta.
  rewrite ReplaceAll_free by (by eapply normal_free). destruct r as [lo hi].
  destruct H as [(-> & H1 & H2)|(H & H1 & H2)]; cbn [fst snd] in *.
  - destruct (range_split lo hi) as (-> & -> & _); [lia..|]. rewrite !Atoi_range by lia. cbn [fst].
    by replace (_ && _) with true by lia.
  - rewrite (number_dash _ _ H) by lia. rewrite H. cbn [fst]. replace (0 <? lo) with true by lia. congruence.
Qed.

Lemma normal_valid t r : normal t r → valid_item t = Some t.
Proof.
  intros H. unfold valid_item. rewrite (normal_trim _ _ H).
  rewrite ReplaceAll_free by (by eapply normal_free). destruct r as [lo hi].
  destruct H as [(-> & H1 & H2)|(H & H1 & H2)]; cbn [fst snd] in *.
  - destruct (range_split lo hi) as (-> & -> & _); [lia..|].
    rewrite !TrimSpace_plain by (apply Itoa_plain; unfold MaxInt; lia). rewrite !Atoi_range by lia.
    replace (_ || _) with false by lia. by replace (hi <=? lo) with false by lia.
  - rewrite (number_dash _ _ H) by lia. rewrite TrimSpace_plain by (eapply Atoi_plain; exact H). rewrite H.
    by replace (_ || _) with false by lia.
Qed.

(** ** Validation of an item *)

Lemma plain_keeps s v a : Atoi (TrimSpace s) = (v, true) → plain a = false → a ∉ space_bytes → a ∉ chars s.
Proof. intros H Ha Hs Hin. eapply Atoi_no_char; [exact H|exact Ha|]. by apply TrimSpace_keeps. Qed.
Lemma dash_keeps s v : Atoi (TrimSpace s) = (v, true) → 1 <= v → "-"%char ∉ chars s.
Proof.
  intros H Hv Hin. eapply Atoi_no_dash; [exact H|exact Hv|]. apply TrimSpace_keeps; [done|].
  apply (bool_decide_unpack _). by vm_compute.
Qed.

(** The item with its colons written as dashes. *)
Lemma chars_replace s a b : chars (ReplaceAll s a b) = map (λ c, if decide (c = a) then b else c) (chars s).
Proof. apply chars_str. Qed.

Lemma replace_range t x y lo hi c :
  (c = "-" ∨ c = ":")%char → chars t = chars x ++ (c :: chars y) →
  Atoi (TrimSpace x) = (lo, true) → Atoi (TrimSpace y) = (hi, true) → 1 <= lo → 1 <= hi →
  Split (ReplaceAll t ":" "-") "-" = [x; y].
Proof.
  intros Hc Ht Hx Hy Hlo Hhi. apply Split_two. rewrite chars_replace, Ht, map_app. cbn [map].
  assert (∀ s v, Atoi (TrimSpace s) = (v, true) →
    map (λ c, if decide (c = ":"%char) then "-"%char else c) (chars s) = chars s) as Hm.
  { intros s v Hs. rewrite <- chars_replace, ReplaceAll_free; [done|].
    eapply plain_keeps; [exact Hs|done|]. apply (bool_decide_unpack _). by vm_compute. }
  rewrite (Hm _ _ Hx), (Hm _ _ Hy). split_and!; [|by eapply dash_keeps..].
  by destruct Hc as [-> | ->].
Qed.

Lemma replace_range_inv t x y :
  Split (ReplaceAll t ":" "-") "-" = [x; y] →
  ∃ x' c y', (c = "-" ∨ c = ":")%char ∧ chars t = chars x' ++ (c :: chars y')
    ∧ x = ReplaceAll x' ":" "-" ∧ y = ReplaceAll y' ":" "-".
Proof.
  intros (Ht & Hx & Hy)%Split_two. rewrite chars_replace in Ht.
  apply map_eq_app in Ht as (l1 & l2 & -> & Hl1 & Hl2). apply map_eq_cons in Hl2 as (c & l3 & -> & Hc & Hl3).
  exists (str l1), c, (str l3). rewrite !chars_str. split_and!; [|done|..].
  - case_decide; auto.
  - apply chars_inj. by rewrite chars_replace, chars_str.
  - apply chars_inj. by rewrite chars_replace, chars_str.
Qed.

(** A number read from a string with dashes for colons is read from the string. *)
Lemma replace_number x v : Atoi (TrimSpace (ReplaceAll x ":" "-")) = (v, true) → 1 <= v →
  ReplaceAll x ":" "-" = x.
Proof.
  intros H Hv. apply ReplaceAll_free. intros Hin. apply (dash_keeps _ _ H Hv). rewrite chars_replace.
  apply list_elem_of_In, in_map_iff. exists ":"%char. split; [done|]. by apply list_elem_of_In.
Qed.

Lemma valid_item_spec item :
  match valid_item item with
  | Some t => ∃ r, normal t r ∧ ∀ p, covers item p ↔ fst r <= p <= snd r
  | None => ∀ p, ¬ covers item p
  end.
Proof.
  unfold valid_item, covers. pose proof (TrimSpace_idem item) as Hidem. set (t := TrimSpace item) in *. clearbody t.
  destruct (Contains (ReplaceAll t ":" "-") "-") eqn:Ec.
  - (* two numbers *)
    assert (∀ p, ¬ (Atoi t = (p, true) ∧ 1 <= p <= 65535)) as Hnum.
    { intros p [Hp Hr]. rewrite ReplaceAll_free in Ec by (by eapply Atoi_no_char).
      rewrite (number_dash _ _ Hp) in Ec by lia. done. }
    assert (∀ x y, Split (ReplaceAll t ":" "-") "-" = [x; y] → ∀ x' y' lo hi c,
      (c = "-" ∨ c = ":")%char → chars t = chars x' ++ (c :: chars y') → Atoi (TrimSpace x') = (lo, true) →
      Atoi (TrimSpace y') = (hi, true) → 1 <= lo < hi → x' = x ∧ y' = y) as Huniq.
    { intros x y Hs x' y' lo hi c Hc Ht Hx Hy Hr.
      assert (Split (ReplaceAll t ":" "-") "-" = [x'; y']) as E by (eapply replace_range; eauto; lia). rewrite Hs in E. by simplify_eq. }
    destruct (Split _ _) as [|x [|y [|? ?]]] eqn:Es;
      try (intros p [Hp|(x' & y' & lo & hi & c & Hc & Ht & Hx & Hy & H1 & H2 & H3)]; [by eapply Hnum|];
           rewrite (replace_range t x' y' lo hi c) in Es by (done || lia); done).
    specialize (Huniq x y eq_refl).
    destruct (Atoi (TrimSpace x)) as [lo ok1] eqn:Ex, (Atoi (TrimSpace y)) as [hi ok2] eqn:Ey.
    destruct (_ || _) eqn:Ev; [|destruct (hi <=? lo) eqn:El].
    1, 2: intros p [Hp|(x' & y' & lo' & hi' & c & Hc & Ht & Hx & Hy & H1 & H2 & H3)]; [by eapply Hnum|];
      destruct (Huniq x' y' lo' hi' c) as [-> ->]; [done..|];
      rewrite Hx in Ex; rewrite Hy in Ey; simplify_eq; lia.
    assert (ok1 = true ∧ ok2 = true) as [-> ->] by (destruct ok1, ok2; done).
    apply replace_range_inv in Es as (x' & c & y' & Hc & Ht & Hx & Hy). subst x y.
    pose proof (replace_number x' lo Ex ltac:(lia)) as Ex'. pose proof (replace_number y' hi Ey ltac:(lia)) as Ey'.
    rewrite Ex', Ey' in Huniq. rewrite Ex' in Ex. rewrite Ey' in Ey.
    exists (lo, hi). cbn [fst snd]. split; [left; cbn [fst snd]; split; [done|lia]|]. intros p. split.
    + intros [Hp|(x & y & lo' & hi' & d & Hd & Ht' & Hx & Hy & H1 & H2 & H3)]; [by destruct (Hnum p)|].
      destruct (Huniq x y lo' hi' d) as [-> ->]; [done..|].
      rewrite Hx in Ex. rewrite Hy in Ey. simplify_eq. lia.
    + intros Hp. right. exists x', y', lo, hi, c. split_and!; (done || lia).
  - (* one number *)
    assert (":"%char ∉ chars t) as Hcol.
    { intros Hin. apply bool_decide_eq_false in Ec. apply Ec. rewrite chars_replace.
      apply list_elem_of_In, in_map_iff. exists ":"%char. split; [done|]. by apply list_elem_of_In. }
    rewrite ReplaceAll_free in * by done. rewrite Hidem.
    assert (∀ p, ¬ ∃ x y lo hi c, (c = "-" ∨ c = ":")%char ∧ chars t = chars x ++ (c :: chars y)
      ∧ Atoi (TrimSpace x) = (lo, true) ∧ Atoi (TrimSpace y) = (hi, true) ∧ 1 <= lo < hi ∧ hi <= 65535
      ∧ lo <= p <= hi) as Hrange.
    { intros p (x & y & lo & hi & c & Hc & Ht & _). apply bool_decide_eq_false in Ec. rewrite Ht in Ec, Hcol.
      destruct Hc as [-> | ->]; set_solver. }
    destruct (Atoi t) as [n ok] eqn:En. destruct (_ || _) eqn:Ev.
    + intros p [[Hp Hr]|H]; [|by eapply Hrange]. simplify_eq. lia.
    + assert (ok = true) as -> by (by destruct ok). exists (n, n). cbn [fst snd]. split; [right; cbn; auto with lia|].
      intros p. split; [intros [[Hp Hr]|H]; [simplify_eq; lia|by destruct (Hrange p)]|].
      intros. left. assert (p = n) as -> by lia. auto with lia.
Qed.

(** ** Validation of a filter *)

(** The ranges of the items that are valid. *)
Definition item_range (item : string) : option (Z * Z) := valid_item item ≫= parsePortRangeStr.

Lemma item_range_spec item :
  match item_range item with
  | Some r => (1 <= fst r <= snd r ∧ snd r <= 65535) ∧ ∀ p, covers item p ↔ fst r <= p <= snd r
  | None => ∀ p, ¬ covers item p
  end.
Proof.
  unfold item_range. pose proof (valid_item_spec item) as H. destruct (valid_item item) as [t|]; [|done].
  destruct H as (r & Hn & Hc). cbn [mbind option_bind]. rewrite (normal_parse t r Hn). split; [|done].
  destruct Hn as [(_ & ? & ?)|(_ & ? & ?)]; lia.
Qed.

Lemma denotes_ranges filter p :
  denotes filter p ↔ ∃ r, r ∈ omap item_range (Split filter ",") ∧ fst r <= p <= snd r.
Proof.
  split.
  - intros (item & Hin & Hc). pose proof (item_range_spec item) as H.
    destruct (item_range item) as [r|] eqn:E; [|by destruct (H p)].
    exists r. rewrite list_elem_of_omap. split; [by exists item|]. by apply H.
  - intros (r & (item & Hin & E)%list_elem_of_omap & Hr). exists item. split; [done|].
    pose proof (item_range_spec item) as H. rewrite E in H. by apply H.
Qed.

Lemma valid_items_normal items : ∃ rs, Forall2 normal (omap valid_item items) rs ∧ omap item_range items = rs.
Proof.
  induction items as [|item items (rs & Hf & IH)]; [by exists []|].
  pose proof (valid_item_spec item) as H. cbn. unfold item_range at 1.
  destruct (valid_item item) as [t|]; cbn [mbind option_bind]; [|by exists rs].
  destruct H as (r & Hn & _). exists (r :: rs). rewrite (normal_parse t r Hn), IH. split; [by constructor|done].
Qed.

Lemma Split_empty a : Split "" a = [""%string].
Proof. done. Qed.

(** The items of a validated filter are the valid items of the filter. *)
Lemma ValidatePorts_items filter :
  (ValidatePorts filter = "" ∧ omap valid_item (Split filter ",") = [])
  ∨ (Split (ValidatePorts filter) "," = omap valid_item (Split filter ",") ∧ ValidatePorts filter ≠ "").
Proof.
  unfold ValidatePorts. case_bool_decide as E; [subst; by left|].
  destruct (valid_items_normal (Split filter ",")) as (rs & Hf & _).
  destruct (omap valid_item (Split filter ",")) as [|t ts] eqn:Eo; [by left|]. right.
  assert (Split (Join (t :: ts) ",") "," = t :: ts) as Hs.
  { apply Split_Join; [done|]. eapply Forall2_Forall_l; [exact Hf|]. apply Forall_true.
    intros r t' Hn. by eapply normal_free. }
  split; [done|]. intros Hj. rewrite Hj in Hs. inversion Hf; subst. apply normal_plain in H1 as [_ H1].
  cbn in Hs. by simplify_eq.
Qed.

(** The ranges that the sets store are those of the items. *)
Lemma ranges_of_ValidatePorts filter : ranges_of (ValidatePorts filter) = omap item_range (Split filter ",").
Proof.
  destruct (valid_items_normal (Split filter ",")) as (rs & Hf & Hrs). rewrite Hrs. unfold ranges_of.
  destruct (ValidatePorts_items filter) as [[-> Hi]|[Hi Hne]]; rewrite Hi in *.
  - by inversion Hf.
  - rewrite bool_decide_false by done. clear -Hf. induction Hf as [|t r ts rs Hn Hf IH]; [done|].
    cbn. by rewrite (normal_parse t r Hn), IH.
Qed.

(** ** Collecting the ports *)

Lemma add_ports_elem m filter x :
  x ∈ add_ports m filter ↔ x ∈ m ∨ ∃ p, p ∈ Split filter "," ∧ x = TrimSpace p ∧ x ≠ "".
Proof.
  unfold add_ports. generalize (Split filter ","). intros items. revert m.
  induction items as [|p items IH]; intros m; cbn [foldl]; [set_solver|]. rewrite IH. cbv zeta.
  case_bool_decide; set_solver.
Qed.

Lemma collect_ports_elem filter sets x :
  x ∈ collect_ports filter sets ↔
  x = "443"%string ∨ ∃ set p, set ∈ sets ∧ Enabled set = true ∧ p ∈ Split (filter set) "," ∧ x = TrimSpace p ∧ x ≠ "".
Proof.
  unfold collect_ports.
  assert (∀ m : gset string, x ∈ foldl (λ m set, if negb (Enabled set) || bool_decide (filter set = "") then m
      else add_ports m (filter set)) m sets ↔ x ∈ m ∨ ∃ set p, set ∈ sets ∧ Enabled set = true
      ∧ p ∈ Split (filter set) "," ∧ x = TrimSpace p ∧ x ≠ "") as H; [|rewrite H, elem_of_singleton; done].
  induction sets as [|set sets IH]; intros m; cbn [foldl]; [set_solver|]. rewrite IH.
  destruct (Enabled set) eqn:E; cbn [negb orb]; [case_bool_decide as Ef|].
  - split; [set_solver|]. intros [|(s & p & Hs & He & Hp & -> & Hne)]; [by left|].
    apply elem_of_cons in Hs as [->|]; [|set_solver]. rewrite Ef, Split_empty in Hp.
    apply list_elem_of_singleton in Hp as ->. done.
  - rewrite add_ports_elem. split.
    + intros [[|(p & Hp & -> & Hne)]|(s & p & Hs & He & H)]; [by left|right..].
      * exists set, p. split_and!; [by left|done..].
      * exists s, p. split; [by right|done].
    + intros [|(s & p & Hs & He & Hp & Hx)]; [by left; left|].
      apply elem_of_cons in Hs as [->|]; [left; right|right]; eauto 6.
  - split; [intros [|(s & p & Hs & H)]; [by left|right; exists s, p; split; [by right|done]]|].
    intros [|(s & p & Hs & He & H)]; [by left|].
    apply elem_of_cons in Hs as [->|]; [congruence|right]. eauto.
Qed.

(** ** Merging *)

Definition inside (r : Z * Z) (p : Z) : Prop := fst r <= p <= snd r.
Definition port_range (r : Z * Z) : Prop := 1 <= fst r <= snd r ∧ snd r <= 65535.

Lemma i64_small z : MinInt <= z <= MaxInt → i64 z = z.
Proof. unfold i64, MinInt, MaxInt. intros. rewrite Z.mod_small; lia. Qed.

Lemma merge_ranges_spec last rs :
  port_range last → Forall port_range rs → StronglySorted (λ a b : Z * Z, fst a <= fst b) (last :: rs) →
  let ms := merge_ranges last rs in
  (∀ p, (∃ r, r ∈ ms ∧ inside r p) ↔ inside last p ∨ ∃ r, r ∈ rs ∧ inside r p)
  ∧ StronglySorted (λ a b, snd a + 1 < fst b) ms
  ∧ Forall (λ r, port_range r ∧ fst last <= fst r) ms.
Proof.
  revert last. induction rs as [|cur rs IH]; intros last Hl Hrs Hs; cbn [merge_ranges].
  - split; [|split; [constructor; constructor|constructor; [split; [done|lia]|constructor]]].
    intros p. setoid_rewrite list_elem_of_singleton. split; [intros (r & -> & H); by left|].
    intros [H|(r & Hr & _)]; [by exists last|set_solver].
  - inversion Hrs as [|? ? Hc Hrs']; subst. inversion Hs as [|? ? Hs' Hf]; subst.
    inversion Hf as [|? ? Hlc Hf']; subst. inversion Hs' as [|? ? Hs2 Hfc]; subst.
    unfold port_range in Hl, Hc. rewrite i64_small by (unfold MinInt, MaxInt; lia).
    destruct (fst cur <=? snd last + 1) eqn:E.
    + set (hi := if snd last <? snd cur then snd cur else snd last).
      assert (hi = Z.max (snd last) (snd cur)) as Hhi by (unfold hi; destruct (snd last <? snd cur) eqn:?; lia).
      destruct (IH (fst last, hi)) as (H1 & H2 & H3); [unfold port_range; cbn; lia|done|by constructor|].
      split_and!; [|done|done]. intros p. rewrite H1. unfold inside in *. cbn [fst snd]. split.
      * intros [H|(r & Hr & H)]; [|right; exists r; set_solver].
        assert (fst last <= p <= snd last ∨ fst cur <= p <= snd cur) as [?|?] by lia; [by left|right].
        exists cur. set_solver.
      * intros [H|(r & [-> |Hr]%elem_of_cons & H)]; [left; lia|left; lia|right; by exists r].
    + destruct (IH cur) as (H1 & H2 & H3); [done..|]. split_and!.
      * intros p. split.
        -- intros (r & [-> |Hr]%elem_of_cons & H); [by left|right].
           destruct (proj1 (H1 p) (ex_intro _ r (conj Hr H))) as [?|(r' & ? & ?)]; [exists cur|exists r']; set_solver.
        -- intros [H|(r & Hr & H)]; [exists last; set_solver|].
           destruct (proj2 (H1 p)) as (r' & ? & ?); [|exists r'; set_solver].
           apply elem_of_cons in Hr as [->|]; [by left|right; by exists r].
      * constructor; [done|]. eapply Forall_impl; [exact H3|]. cbv beta. intros. lia.
      * constructor; [split; [done|lia]|]. eapply Forall_impl; [exact H3|]. cbv beta. intros r [? ?]. split; [done|lia].
Qed.

Section pipeline.
Context `{SortSlice}.

(** The ranges [mergeAndNormalizePorts] prints: they are apart from each other, in
    order, and cover the ports of the tokens. *)
Lemma mergeAndNormalizePorts_spec ports :
  Forall port_range (omap port_token ports) →
  ∃ ms, mergeAndNormalizePorts ports = map format_range ms ∧ Forall port_range ms
    ∧ StronglySorted (λ a b, snd a + 1 < fst b) ms
    ∧ ∀ p, (∃ r, r ∈ ms ∧ inside r p) ↔ ∃ r, r ∈ omap port_token ports ∧ inside r p.
Proof.
  intros Hok. unfold mergeAndNormalizePorts.
  pose proof (sort_slice_perm (λ a b : Z * Z, fst a <? fst b) (omap port_token ports)) as Hp.
  pose proof (sort_slice_sorted (λ a b : Z * Z, fst a <? fst b) fst (omap port_token ports)
    ltac:(intros; apply Z.ltb_lt)) as Hs.
  destruct (sort_slice _ _) as [|r rs].
  - exists []. split_and!; [done|constructor..|]. intros p. by setoid_rewrite <- Hp.
  - rewrite <- Hp in Hok. inversion Hok; subst.
    destruct (merge_ranges_spec r rs) as (Hc & Hsep & Hf); [done..|]. exists (merge_ranges r rs).
    split_and!; [done|eapply Forall_impl; [exact Hf|]; by intros ? []|done|].
    intros p. rewrite Hc. setoid_rewrite <- Hp. setoid_rewrite elem_of_cons. naive_solver.
Qed.

Lemma port_entry_range r : port_range r → ∃ l, port_entry (format_range r) = Some l ∧ ∀ p, p ∈ l ↔ inside r p.
Proof.
  destruct r as [lo hi]. unfold port_range, format_range, port_entry, inside. cbn [fst snd]. intros Hr.
  destruct (lo =? hi) eqn:E.
  - assert (hi = lo) as -> by lia. rewrite TrimSpace_plain by (apply Itoa_plain; unfold MaxInt; lia).
    rewrite (number_dash _ lo) by (solve [apply Atoi_range; lia] || lia). rewrite Atoi_range by lia. cbn [fst].
    replace (0 <? lo) with true by lia. exists [u16 lo]. split; [done|]. intros p. rewrite u16_small by lia.
    rewrite list_elem_of_singleton. lia.
  - assert (normal (Itoa lo +:+ "-" +:+ Itoa hi) (lo, hi)) as Hn by (left; cbn; split; [done|lia]).
    rewrite (normal_trim _ _ Hn). destruct (range_split lo hi) as (-> & -> & _); [lia..|].
    rewrite !Atoi_range by lia. cbn [fst]. replace (_ && _) with false by (unfold MaxInt; lia).
    eexists. split; [done|]. intros p. rewrite list_elem_of_In, in_map_iff. split.
    + intros (q & <- & Hq). apply list_elem_of_In, elem_of_seqZ in Hq. rewrite u16_small; lia.
    + intros Hp. exists p. rewrite u16_small by lia. split; [done|]. apply list_elem_of_In, elem_of_seqZ. lia.
Qed.

Lemma port_entries ms : Forall port_range ms → ∃ entries, mapM port_entry (map format_range ms) = Some entries
  ∧ ∀ p, p ∈ concat entries ↔ ∃ r, r ∈ ms ∧ inside r p.
Proof.
  induction ms as [|r ms IH]; intros Hf; [exists []; split; [done|]; intros p; set_solver|].
  inversion Hf; subst. destruct IH as (es & He & Hin); [done|]. destruct (port_entry_range r) as (l & Hl & Hp); [done|].
  exists (l :: es). cbn [map mapM]. rewrite Hl. cbn [mbind option_bind]. rewrite He. split; [done|].
  intros p. cbn [concat]. rewrite elem_of_app, Hin, Hp. set_solver.
Qed.

(** ** The ports of validated sets *)

(** The tokens of validated filters are normal items. *)
Lemma validated_token filter p : p ∈ Split (ValidatePorts filter) "," → TrimSpace p ≠ "" →
  ∃ r item, normal (TrimSpace p) r ∧ item ∈ Split filter "," ∧ valid_item item = Some (TrimSpace p).
Proof.
  intros Hp Hne. destruct (ValidatePorts_items filter) as [[Hv _]|[Hv _]].
  - rewrite Hv, Split_empty in Hp. apply list_elem_of_singleton in Hp as ->. done.
  - rewrite Hv in Hp. apply list_elem_of_omap in Hp as (item & Hin & Ht). pose proof (valid_item_spec item) as Hi.
    rewrite Ht in Hi. destruct Hi as (r & Hn & _). exists r, item. by rewrite (normal_trim _ _ Hn).
Qed.

Lemma normal_443 : normal "443" (443, 443).
Proof. right. split; [by vm_compute|]. cbn. lia. Qed.

Lemma collect_validated (f : SetConfig → string) (sets : list SetConfig) :
  let ports := sorted_keys (collect_ports (λ set, ValidatePorts (f set)) sets) in
  Forall port_range (omap port_token ports)
  ∧ ∀ p, (∃ r, r ∈ omap port_token ports ∧ inside r p) ↔
         p = 443 ∨ ∃ set, set ∈ sets ∧ Enabled set = true ∧ denotes (f set) p.
Proof.
  cbv zeta. set (ports := sorted_keys _).
  assert (∀ x, x ∈ ports ↔ x ∈ collect_ports (λ set, ValidatePorts (f set)) sets) as Hports.
  { intros x. unfold ports, sorted_keys. rewrite merge_sort_Permutation. apply elem_of_elements. }
  assert (∀ x, x ∈ ports → ∃ r, normal x r ∧ (r = (443, 443) ∧ x = "443"%string ∨
    ∃ set, set ∈ sets ∧ Enabled set = true ∧ r ∈ omap item_range (Split (f set) ","))) as Hn.
  { intros x [->|(set & p & Hset & He & Hp & -> & Hne)]%Hports%collect_ports_elem.
    - exists (443, 443). split; [exact normal_443|]. by left.
    - destruct (validated_token _ _ Hp Hne) as (r & item & Hr & Hin & Hv). exists r. split; [done|]. right.
      exists set. split_and!; [done..|]. apply list_elem_of_omap. exists item. split; [done|].
      unfold item_range. rewrite Hv. by apply normal_parse. }
  split.
  - apply Forall_forall. intros r (x & Hx & Ht)%list_elem_of_omap. destruct (Hn x Hx) as (r' & Hr & _).
    rewrite (normal_token x r' Hr) in Ht. simplify_eq. unfold port_range.
    destruct Hr as [(_ & ? & ?)|(_ & ? & ?)]; lia.
  - intros p. split.
    + intros (r & (x & Hx & Ht)%list_elem_of_omap & Hp). destruct (Hn x Hx) as (r' & Hr & H').
      rewrite (normal_token x r' Hr) in Ht. simplify_eq. destruct H' as [[-> _]|(set & Hs & He & Hin)].
      * left. unfold inside in Hp. cbn in Hp. lia.
      * right. exists set. split_and!; [done..|]. apply denotes_ranges. by exists r.
    + intros [->|(set & Hs & He & Hd)].
      * exists (443, 443). split; [|unfold inside; cbn; lia]. apply list_elem_of_omap. exists "443"%string.
        split; [apply Hports, collect_ports_elem; by left|]. apply normal_token, normal_443.
      * apply denotes_ranges in Hd as (r & (item & Hin & Hi)%list_elem_of_omap & Hp). exists r. split; [|done].
        pose proof (valid_item_spec item) as Hv. unfold item_range in Hi.
        destruct (valid_item item) as [t|] eqn:Et; [|done]. destruct Hv as (r' & Hr & _). cbn in Hi.
        rewrite (normal_parse t r' Hr) in Hi. simplify_eq. apply list_elem_of_omap. exists t.
        split; [|by apply normal_token]. apply Hports, collect_ports_elem. right. exists set, t.
        pose proof (normal_plain _ _ Hr) as [_ Hne].
        split_and!; [done..| |by rewrite (normal_trim _ _ Hr)|done].
        destruct (ValidatePorts_items (f set)) as [[_ Ho]|[-> _]].
        -- exfalso. assert (t ∈ omap valid_item (Split (f set) ",")) as Ho' by (apply list_elem_of_omap; by exists item).
           rewrite Ho in Ho'. set_solver.
        -- apply list_elem_of_omap. by exists item.
Qed.

(** ** The filters of a configuration after validation *)

Lemma wp_collect f sets :
  ∃ ms, mergeAndNormalizePorts (sorted_keys (collect_ports (λ set, ValidatePorts (f set)) sets)) = map format_range ms
    ∧ Forall port_range ms ∧ StronglySorted (λ a b, snd a + 1 < fst b) ms
    ∧ ∀ p, (∃ r, r ∈ ms ∧ inside r p) ↔ p = 443 ∨ ∃ set, set ∈ sets ∧ Enabled set = true ∧ denotes (f set) p.
Proof.
  destruct (collect_validated f sets) as [Hok Hp].
  destruct (mergeAndNormalizePorts_spec _ Hok) as (ms & H1 & H2 & H3 & H4).
  exists ms. split_and!; [done..|]. intros p. by rewrite H4, Hp.
Qed.

Lemma collect_ports_map f g h sets :
  (∀ set, f (h set) = g set) → (∀ set, Enabled (h set) = Enabled set) →
  collect_ports f (map h sets) = collect_ports g sets.
Proof.
  intros Hf He. unfold collect_ports. generalize ({["443"%string]} : gset string). induction sets as [|set sets IH]; [done|].
  intros m. cbn [map foldl]. by rewrite Hf, He, IH.
Qed.

Lemma matches_ranges filter p :
  bool_decide (ranges_of (ValidatePorts filter) = []) || existsb (port_in p) (ranges_of (ValidatePorts filter)) = true
  ↔ (∀ q, ¬ denotes filter q) ∨ denotes filter p.
Proof.
  rewrite ranges_of_ValidatePorts, orb_true_iff, bool_decide_eq_true, existsb_exists.
  setoid_rewrite denotes_ranges. set (rs := omap item_range _). split.
  - intros [E|(r & Hin & Hr)]; [left; intros q (r & Hr & _); rewrite E in Hr; set_solver|right].
    exists r. split; [by apply list_elem_of_In|]. unfold port_in in Hr. lia.
  - intros [Hno|(r & Hin & Hr)].
    + left. destruct rs as [|r rs'] eqn:E; [done|]. exfalso. apply (Hno (fst r)). exists r. split; [by left|].
      assert (r ∈ omap item_range (Split filter ",")) as Hr by (fold rs; rewrite E; by left).
      apply list_elem_of_omap in Hr as (item & _ & Hi). pose proof (item_range_spec item) as H'. rewrite Hi in H'. lia.
    + right. exists r. split; [by apply list_elem_of_In|]. unfold port_in. lia.
Qed.
End pipeline.

(** C7: However a user writes the port filters, [Validate] builds the map of TCP ports,
    and afterwards the port handler queues and looks up exactly port 443 and the ports
    the filters of the enabled sets denote; and every set matches exactly the ports its
    own filter denotes, or every port when the filter denotes none. *)
Theorem validate_ports_meaning `{SortSlice} (cfg : Config) :
  ∃ cfg', validate_ports cfg = Some cfg'
    ∧ (∀ p, 0 <= p < 65536 → IsTCPPort cfg' p = true ↔
         p = 443 ∨ ∃ set, set ∈ Sets cfg ∧ Enabled set = true ∧ denotes (t_DPortFilter (TCP set)) p)
    ∧ Forall2 (λ set set', ∀ p,
         (MatchesTCPDPort set' p = true ↔
            (∀ q, ¬ denotes (t_DPortFilter (TCP set)) q) ∨ denotes (t_DPortFilter (TCP set)) p)
         ∧ (MatchesUDPDPort set' p = true ↔
            (∀ q, ¬ denotes (u_DPortFilter (UDP set)) q) ∨ denotes (u_DPortFilter (UDP set)) p))
        (Sets cfg) (Sets cfg').
Proof.
  destruct (wp_collect (λ set, t_DPortFilter (TCP set)) (Sets cfg)) as (ms & Hm & Hok & _ & Hp).
  destruct (port_entries ms Hok) as (es & He & Hes).
  assert (CollectTCPPorts (with_sets cfg (map validate_filters (Sets cfg))) = map format_range ms) as Hc.
  { unfold CollectTCPPorts. rewrite <- Hm. f_equal. f_equal. by apply collect_ports_map. }
  unfold validate_ports, BuildTCPPortMap. rewrite Hc, He. cbn [mbind option_bind]. eexists. split; [done|]. split.
  - intros p Hr. unfold IsTCPPort. cbn. rewrite bool_decide_eq_true, elem_of_list_to_set, Hes. apply Hp.
  - cbn. rewrite map_map. clear. induction (Sets cfg) as [|set sets IH]; constructor; [|done].
    intros p. split; apply matches_ranges.
Qed.

(** The ports the firewall rules are built from are printed as ranges in order, with
    a gap between any two of them, each inside 1..65535, and they are port 443 and the
    ports the filters denote. *)
Theorem CollectPorts_canonical `{SortSlice} (cfg : Config) :
  let cfg' := with_sets cfg (map validate_filters (Sets cfg)) in
  ∃ tcp udp, CollectTCPPorts cfg' = map format_range tcp ∧ CollectUDPPorts cfg' = map format_range udp
    ∧ Forall port_range (tcp ++ udp)
    ∧ StronglySorted (λ a b, snd a + 1 < fst b) tcp ∧ StronglySorted (λ a b, snd a + 1 < fst b) udp
    ∧ (∀ p, (∃ r, r ∈ tcp ∧ inside r p) ↔
         p = 443 ∨ ∃ set, set ∈ Sets cfg ∧ Enabled set = true ∧ denotes (t_DPortFilter (TCP set)) p)
    ∧ (∀ p, (∃ r, r ∈ udp ∧ inside r p) ↔
         p = 443 ∨ ∃ set, set ∈ Sets cfg ∧ Enabled set = true ∧ denotes (u_DPortFilter (UDP set)) p).
Proof.
  destruct (wp_collect (λ set, t_DPortFilter (TCP set)) (Sets cfg)) as (tcp & Ht & Htok & Hts & Htp).
  destruct (wp_collect (λ set, u_DPortFilter (UDP set)) (Sets cfg)) as (udp & Hu & Huok & Hus & Hup).
  exists tcp, udp. unfold CollectTCPPorts, CollectUDPPorts. rewrite <- Ht, <- Hu.
  split; [f_equal; f_equal; by apply collect_ports_map|]. split; [f_equal; f_equal; by apply collect_ports_map|].
  split; [by apply Forall_app|]. done.
Qed.

(** Validating a filter a second time changes nothing. *)
Theorem ValidatePorts_idem (filter : string) : ValidatePorts (ValidatePorts filter) = ValidatePorts filter.
Proof.
  destruct (ValidatePorts_items filter) as [[-> _]|[Hi Hne]]; [done|].
  destruct (valid_items_normal (Split filter ",")) as (rs & Hf & _).
  unfold ValidatePorts at 1. rewrite bool_decide_false by done. rewrite Hi.
  assert (omap valid_item (omap valid_item (Split filter ",")) = omap valid_item (Split filter ",")) as ->.
  { clear -Hf. induction Hf as [|t r ts rs Hn Hf IH]; [done|]. cbn. by rewrite (normal_valid t r Hn), IH. }
  unfold ValidatePorts in *. by case_bool_decide.
Qed.

Lemma StronglySorted_weaken {A} (R S : A → A → Prop) l :
  (∀ x y, R x y → S x y) → StronglySorted R l → StronglySorted S l.
Proof. intros H. induction 1; constructor; [done|]. eapply Forall_impl; [done|]. apply H. Qed.

(** [merge_sort] is a [sort.Slice]. *)
Definition not_after {A} (less : A → A → bool) (x y : A) : Prop := less y x = false.
#[export] Instance not_after_dec {A} (less : A → A → bool) : RelDecision (not_after less).
Proof. unfold RelDecision, not_after. apply _. Defined.
#[export] Program Instance merge_slices : SortSlice := {|
  sort_slice A less l := merge_sort (not_after less) l;
|}.
Next Obligation. intros A less l. apply merge_sort_Permutation. Qed.
Next Obligation.
  intros A less key l Hk.
  assert (∀ x y, not_after less x y ↔ key x <= key y) as Hle.
  { intros x y. unfold not_after. rewrite <- not_true_iff_false, Hk. lia. }
  assert (StronglySorted (not_after less) (merge_sort (not_after less) l)) as Hs.
  { apply StronglySorted_merge_sort.
    - intros x y z H1 H2. rewrite Hle in *. lia.
    - intros x y. rewrite !Hle. lia. }
  eapply StronglySorted_weaken; [|exact Hs]. apply Hle.
Qed.

Definition filter_demo : string := "  80, 8080 :8090,443,8085-9000, abc, 5-5, 70000,+22 ".
Example ValidatePorts_demo : ValidatePorts filter_demo = "80,8080-8090,443,8085-9000,+22".
Proof. vm_compute. reflexivity. Qed.
Example CollectTCPPorts_demo :
  let set := with_filters DefaultSetConfig (ValidatePorts filter_demo) "" in
  mergeAndNormalizePorts (sorted_keys (collect_ports (λ set, t_DPortFilter (TCP set)) [set]))
  = ["22"; "80"; "443"; "8080-9000"]%string.
Proof. vm_compute. reflexivity. Qed.
