(* ===== verification/Escalate.v ===== *)
(** * Escalation between sets

    [GetSetById] and [sanitizeEscalation] of config/methods.go: a set can name the set
    that takes over when a destination stays blocked, and validation removes the
    references that are dangling or close a cycle.  A pointer to a set is its index in
    [c.Sets]; the map [byID] keeps the last index of an Id. *)

From Stdlib Require Import ZArith Lia.
From stdpp Require Import base list numbers strings gmap sets.
From S2P Require Import Prelude Config Ports.

Local Open Scope Z_scope.

Definition GetSetById (cfg : Config) (id : string) : option SetConfig :=
  List.find (λ set, bool_decide (Id set = id)) (Sets cfg).

Definition with_to (set : SetConfig) (to : string) : SetConfig :=
  {| Id := Id set; Name := Name set; TCP := TCP set; UDP := UDP set; Fragmentation := Fragmentation set;
     Faking := Faking set; Targets := Targets set; Enabled := Enabled set; DNS := DNS set;
     TCPPortRanges := TCPPortRanges set; UDPPortRanges := UDPPortRanges set; Routing := Routing set;
     MSSClamp := MSSClamp set;
     Escalate := {| To := to; RstThreshold := RstThreshold (Escalate set);
       RstWindowSec := RstWindowSec (Escalate set); TtlSec := TtlSec (Escalate set) |} |}.
Definition to (set : SetConfig) : string := To (Escalate set).

(** ** The program *)

Fixpoint index_ids (i : nat) (sets : list SetConfig) (m : gmap string nat) : gmap string nat :=
  match sets with
  | [] => m
  | s :: sets => index_ids (S i) sets (if bool_decide (Id s = "") then m else <[Id s := i]> m)
  end.
Definition by_id (sets : list SetConfig) : gmap string nat := index_ids 0 sets ∅.

(** The first loop: a reference to the set itself, to no set or to a disabled one goes. *)
Definition drop_dangling (sets : list SetConfig) (s : SetConfig) : SetConfig :=
  if bool_decide (to s = "") then s
  else if bool_decide (to s = Id s) then with_to s ""
  else match by_id sets !! to s ≫= (λ i, sets !! i) with
       | None => with_to s ""
       | Some target => if Enabled target then s else with_to s ""
       end.

(** The walk from one set along the references, until it meets an Id it has seen.
    [None] when the fuel runs out. *)
Fixpoint walk (fuel : nat) (ids : gmap string nat) (seen : gset string) (cur : nat) (sets : list SetConfig) :
    option (list SetConfig) :=
  match fuel with
  | O => None
  | S fuel =>
      match sets !! cur with
      | None => Some sets
      | Some c =>
          if bool_decide (to c = "") then Some sets
          else if bool_decide (to c ∈ seen) then Some (<[cur := with_to c ""]> sets)
          else match ids !! to c with
               | None => Some sets
               | Some next => walk fuel ids ({[to c]} ∪ seen) next sets
               end
      end
  end.
Fixpoint break_cycles (fuel : nat) (ids : gmap string nat) (todo : list nat) (sets : list SetConfig) :
    option (list SetConfig) :=
  match todo with
  | [] => Some sets
  | i :: todo =>
      sets ← match sets !! i with
             | Some s => if bool_decide (to s = "") then Some sets else walk fuel ids {[Id s]} i sets
             | None => Some sets
             end;
      break_cycles fuel ids todo sets
  end.
Definition sanitizeEscalation (cfg : Config) : option Config :=
  let ids := by_id (Sets cfg) in
  sets ← break_cycles (S (size ids)) ids (seq 0 (length (Sets cfg))) (map (drop_dangling (Sets cfg)) (Sets cfg));
  Some (with_sets cfg sets).

(** ** The map of Ids *)

Lemma index_ids_lookup i sets m id j :
  index_ids i sets m !! id = Some j →
  (∃ k s, j = (i + k)%nat ∧ sets !! k = Some s ∧ Id s = id) ∨ m !! id = Some j.
Proof.
  revert i m. induction sets as [|s sets IH]; intros i m H; cbn in H; [by right|].
  apply IH in H as [(k & s' & -> & Hk & Hid)|H].
  - left. exists (S k), s'. split_and!; [lia|done..].
  - case_bool_decide; [by right|]. destruct (decide (Id s = id)) as [<-|Hne].
    + rewrite lookup_insert_eq in H. simplify_eq. left. exists 0%nat, s. split_and!; [lia|done..].
    + rewrite lookup_insert_ne in H by done. by right.
Qed.

Lemma by_id_lookup sets id j : by_id sets !! id = Some j → ∃ s, sets !! j = Some s ∧ Id s = id.
Proof.
  intros [(k & s & -> & Hk & Hid)|H]%index_ids_lookup; [by exists s|]. by rewrite lookup_empty in H.
Qed.

Lemma index_ids_keeps i sets m id : (∀ s, s ∈ sets → Id s ≠ id) → index_ids i sets m !! id = m !! id.
Proof.
  revert i m. induction sets as [|s sets IH]; intros i m H; [done|]. cbn. rewrite IH by set_solver.
  case_bool_decide; [done|]. apply lookup_insert_ne. apply H. by left.
Qed.

Lemma index_ids_in i sets m k s :
  NoDup (map Id sets) → sets !! k = Some s → Id s ≠ "" → index_ids i sets m !! Id s = Some (i + k)%nat.
Proof.
  revert i m k. induction sets as [|s' sets IH]; intros i m k Hnd Hk Hne; [done|]. cbn.
  inversion Hnd as [|? ? Hnot Hnd']; subst. destruct k as [|k]; cbn in Hk.
  - simplify_eq. rewrite index_ids_keeps.
    + rewrite bool_decide_false by done. rewrite lookup_insert_eq. f_equal. lia.
    + intros s' Hs Heq. apply Hnot. rewrite <- Heq. apply list_elem_of_fmap. eauto.
  - rewrite (IH (S i) _ k) by done. f_equal. lia.
Qed.

(** ** Escalation as a step between sets *)

(** The set a set escalates to. *)
Definition next (ids : gmap string nat) (sets : list SetConfig) (i : nat) : option nat :=
  s ← sets !! i; if bool_decide (to s = "") then None else ids !! to s.
Fixpoint follow (ids : gmap string nat) (sets : list SetConfig) (n i : nat) : option nat :=
  match n with O => Some i | S n => j ← next ids sets i; follow ids sets n j end.

(** The escalation from [i] comes to an end. *)
Inductive ends (ids : gmap string nat) (sets : list SetConfig) : nat → Prop :=
  | ends_stop i : next ids sets i = None → ends ids sets i
  | ends_step i j : next ids sets i = Some j → ends ids sets j → ends ids sets i.

(** [sets'] is [sets] with some references cleared. *)
Definition cleared (sets sets' : list SetConfig) : Prop := Forall2 (λ s s', s' = s ∨ s' = with_to s "") sets sets'.

#[export] Instance cleared_refl : Reflexive cleared.
Proof. intros sets. apply Forall2_same_length_lookup. naive_solver. Qed.
Lemma with_to_twice s a b : with_to (with_to s a) b = with_to s b.
Proof. done. Qed.
#[export] Instance cleared_trans : Transitive cleared.
Proof.
  intros s1 s2 s3 H1. revert s3. induction H1 as [|s s' l l' Hs Hl IH]; intros s3 H2; inversion H2; subst; constructor.
  - naive_solver.
  - by apply IH.
Qed.
Lemma cleared_insert sets i s : sets !! i = Some s → cleared sets (<[i := with_to s ""]> sets).
Proof.
  intros Hi. apply Forall2_same_length_lookup. split; [by rewrite length_insert|]. intros j x y Hx Hy.
  destruct (decide (i = j)) as [<-|Hne].
  - rewrite list_lookup_insert_eq in Hy by (by eapply lookup_lt_Some). naive_solver.
  - rewrite list_lookup_insert_ne in Hy by done. naive_solver.
Qed.

Lemma cleared_next ids sets sets' i : cleared sets sets' →
  next ids sets' i = next ids sets i ∨ next ids sets' i = None.
Proof.
  intros H. unfold next. pose proof (proj1 (Forall2_lookup _ _ _) H i) as L.
  destruct L as [s s' [->| ->]|]; [by left|by right|by left].
Qed.

Lemma cleared_ends ids sets sets' i : cleared sets sets' → ends ids sets i → ends ids sets' i.
Proof.
  intros Hc. induction 1 as [i Hn|i j Hn _ IH]; destruct (cleared_next ids sets sets' i Hc) as [E|E].
  - apply ends_stop. congruence.
  - by apply ends_stop.
  - eapply ends_step; [rewrite E; exact Hn|done].
  - by apply ends_stop.
Qed.

(** ** The walk *)

Lemma walk_spec fuel ids seen cur sets sets' :
  walk fuel ids seen cur sets = Some sets' → cleared sets sets' ∧ ends ids sets' cur.
Proof.
  revert seen cur sets. induction fuel as [|fuel IH]; intros seen cur sets H; [done|]. cbn [walk] in H.
  destruct (sets !! cur) as [c|] eqn:Ec; [|simplify_eq; split; [done|apply ends_stop; unfold next; by rewrite Ec]].
  case_bool_decide as Eto.
  { simplify_eq. split; [done|]. apply ends_stop. unfold next. rewrite Ec. cbn. by rewrite bool_decide_true. }
  case_bool_decide as Es.
  { simplify_eq. split; [by apply cleared_insert|]. apply ends_stop. unfold next.
    by rewrite list_lookup_insert_eq by (by eapply lookup_lt_Some). }
  assert (next ids sets cur = ids !! to c) as Hn by (unfold next; rewrite Ec; cbn; by rewrite bool_decide_false).
  destruct (ids !! to c) as [j|] eqn:Ej; [|simplify_eq; split; [done|by apply ends_stop]].
  apply IH in H as [Hc He]. split; [done|].
  destruct (cleared_next ids sets sets' cur Hc) as [E|E]; [|by apply ends_stop].
  eapply ends_step; [|exact He]. congruence.
Qed.

(** Every step of a walk adds an Id of the map to the ones seen. *)
Lemma walk_total fuel ids seen cur sets :
  (size (dom ids ∖ seen) < fuel)%nat → ∃ sets', walk fuel ids seen cur sets = Some sets'.
Proof.
  revert seen cur. induction fuel as [|fuel IH]; intros seen cur H; [lia|]. cbn [walk].
  destruct (sets !! cur) as [c|]; [|eauto]. repeat (case_bool_decide; [eauto|]).
  destruct (ids !! to c) as [j|] eqn:Ej; [|eauto]. apply IH.
  assert (size (dom ids ∖ ({[to c]} ∪ seen)) < size (dom ids ∖ seen))%nat; [|lia].
  apply subset_size. apply strict_spec_alt. split; [set_solver|]. intros E.
  assert (to c ∈ dom ids) by (by apply elem_of_dom_2 in Ej). set_solver.
Qed.

Lemma break_cycles_spec fuel ids todo sets :
  (size ids < fuel)%nat →
  ∃ sets', break_cycles fuel ids todo sets = Some sets' ∧ cleared sets sets'
    ∧ ∀ i, i ∈ todo ∨ ends ids sets i → ends ids sets' i.
Proof.
  intros Hf. revert sets. induction todo as [|i todo IH]; intros sets.
  { exists sets. split_and!; [done..|]. intros i [Hi|Hi]; [set_solver|done]. }
  cbn [break_cycles].
  assert (∃ sets1, (match sets !! i with
    | Some s => if bool_decide (to s = "") then Some sets else walk fuel ids {[Id s]} i sets
    | None => Some sets end) = Some sets1 ∧ cleared sets sets1 ∧ ends ids sets1 i) as (sets1 & -> & Hc & He).
  { destruct (sets !! i) as [s|] eqn:E; [|exists sets; split_and!; [done..|]; apply ends_stop; unfold next; by rewrite E].
    case_bool_decide as Et; [exists sets; split_and!; [done..|]; apply ends_stop; unfold next; rewrite E; cbn; by rewrite bool_decide_true|].
    destruct (walk_total fuel ids {[Id s]} i sets) as [sets1 Hw].
    { assert (size (dom ids ∖ {[Id s]}) <= size (dom ids))%nat by (apply subseteq_size; set_solver).
      rewrite size_dom in *. lia. }
    exists sets1. split; [done|]. by eapply walk_spec. }
  cbn [mbind option_bind]. destruct (IH sets1) as (sets' & -> & Hc' & He'). exists sets'. split; [done|].
  split; [by etransitivity|]. intros j [[->|Hj]%elem_of_cons|Hj].
  - apply He'. by right.
  - apply He'. by left.
  - apply He'. right. by eapply cleared_ends.
Qed.

(** ** Cycles *)

Section graph.
Context (ids : gmap string nat) (sets : list SetConfig).

Lemma follow_add a b i : follow ids sets (a + b) i = follow ids sets a i ≫= follow ids sets b.
Proof.
  revert i. induction a as [|a IH]; intros i; [done|]. cbn. destruct (next ids sets i); [apply IH|done].
Qed.

Lemma ends_acyclic i : ends ids sets i → ∀ n, follow ids sets (S n) i ≠ Some i.
Proof.
  induction 1 as [i Hn|i j Hn _ IH]; intros n H; cbn in H; rewrite Hn in H; [done|].
  apply (IH n). replace (S n) with (n + 1)%nat by lia. rewrite follow_add.
  cbn [mbind option_bind] in H. rewrite H. cbn. by rewrite Hn.
Qed.

Lemma ends_follow i n j : ends ids sets i → follow ids sets n i = Some j → ends ids sets j.
Proof.
  revert i. induction n as [|n IH]; intros i He H; cbn in H; [by simplify_eq|].
  destruct (next ids sets i) as [k|] eqn:Hn; [|done]. apply (IH k); [|done].
  inversion He; congruence.
Qed.

(** Within as many steps as there are sets the escalation ends. *)
Lemma ends_bound i :
  (∀ id j, ids !! id = Some j → (j < length sets)%nat) → (i < length sets)%nat →
  ends ids sets i → follow ids sets (length sets) i = None.
Proof.
  intros Hids Hi He. destruct (follow ids sets (length sets) i) as [j|] eqn:Ef; [exfalso|done].
  assert (∀ n, (n <= length sets)%nat → ∃ j, follow ids sets n i = Some j ∧ (j < length sets)%nat) as Hall.
  { intros n Hn. replace (length sets) with (n + (length sets - n))%nat in Ef by lia. rewrite follow_add in Ef.
    destruct (follow ids sets n i) as [k|] eqn:Ek; [|done]. exists k. split; [done|].
    destruct n as [|n]; [cbn in Ek; by simplify_eq|].
    replace (S n) with (n + 1)%nat in Ek by lia. rewrite follow_add in Ek.
    destruct (follow ids sets n i) as [m|]; [|done]. cbn in Ek. unfold next in Ek.
    destruct (sets !! m) as [s|]; [|done]. cbn in Ek. case_bool_decide; [done|].
    destruct (ids !! to s) eqn:E; [|done]. cbn in Ek. simplify_eq. by eapply Hids. }
  set (l := map (λ n, default 0%nat (follow ids sets n i)) (seq 0 (S (length sets)))).
  assert (NoDup l) as Hnd.
  { apply NoDup_alt. intros a b x Ha Hb. unfold l in *.
    assert (∀ a, map (λ n, default 0%nat (follow ids sets n i)) (seq 0 (S (length sets))) !! a = Some x →
      (a <= length sets)%nat ∧ follow ids sets a i = Some x) as Hx.
    { intros c Hc. apply list_lookup_fmap_Some in Hc as (n & -> & [-> Hn]%lookup_seq).
      split; [lia|]. destruct (Hall (0 + c)%nat) as (k & Hk & _); [lia|]. cbn in *. by rewrite Hk. }
    apply Hx in Ha as [Ha Hxa], Hb as [Hb Hxb].
    assert (∀ a b, (a < b)%nat → follow ids sets a i = Some x → follow ids sets b i = Some x → False) as Hlt.
    { intros c d Hcd Hc Hd. replace d with (c + S (d - c - 1))%nat in Hd by lia. rewrite follow_add, Hc in Hd.
      eapply (ends_acyclic x); [by eapply ends_follow|]. exact Hd. }
    destruct (Nat.lt_trichotomy a b) as [?|[?|?]]; [by destruct (Hlt a b)|done|by destruct (Hlt b a)]. }
  assert (length l <= length (seq 0 (length sets)))%nat as Hle.
  { apply submseteq_length, NoDup_submseteq; [done|]. intros x Hx. apply list_elem_of_In, in_map_iff in Hx as (n & <- & Hn).
    apply in_seq in Hn. destruct (Hall n) as (k & -> & Hk); [lia|]. cbn. apply elem_of_seq. lia. }
  unfold l in Hle. rewrite length_map, !length_seq in Hle. lia.
Qed.
End graph.

(** A walk only clears a reference that closes a cycle. *)
Lemma walk_keeps fuel ids seen cur sets sets' :
  (∀ i s, sets !! i = Some s → to s ≠ "" → is_Some (ids !! to s)) →
  (∀ id k, id ∈ seen → ids !! id = Some k → ∃ n, follow ids sets n k = Some cur) →
  walk fuel ids seen cur sets = Some sets' → ∀ i, ends ids sets i → sets' !! i = sets !! i.
Proof.
  intros Hto. revert seen cur. induction fuel as [|fuel IH]; intros seen cur Hseen H i He; [done|]. cbn [walk] in H.
  destruct (sets !! cur) as [c|] eqn:Ec; [|by simplify_eq]. case_bool_decide as Et; [by simplify_eq|].
  destruct (Hto cur c Ec Et) as [k Hk].
  assert (next ids sets cur = Some k) as Hn by (unfold next; rewrite Ec; cbn; by rewrite bool_decide_false).
  case_bool_decide as Es.
  - simplify_eq. destruct (decide (cur = i)) as [<-|Hne]; [|by rewrite list_lookup_insert_ne].
    destruct (Hseen _ _ Es Hk) as [n Hf]. exfalso. eapply (ends_acyclic ids sets cur He n).
    cbn. by rewrite Hn.
  - rewrite Hk in H. eapply IH; [|exact H|done]. intros id m Hid Hm.
    apply elem_of_union in Hid as [->%elem_of_singleton|Hid].
    + assert (m = k) as -> by congruence. by exists 0%nat.
    + destruct (Hseen _ _ Hid Hm) as [n Hf]. exists (n + 1)%nat. rewrite follow_add, Hf. cbn. by rewrite Hn.
Qed.

Lemma break_cycles_keeps fuel ids todo sets sets' :
  (∀ i s, sets !! i = Some s → to s ≠ "" → is_Some (ids !! to s)) →
  (∀ i s k, sets !! i = Some s → ids !! Id s = Some k → k = i) →
  break_cycles fuel ids todo sets = Some sets' → ∀ i, ends ids sets i → sets' !! i = sets !! i.
Proof.
  revert sets. induction todo as [|j todo IH]; intros sets Hto Hid H i He; cbn [break_cycles] in H; [by simplify_eq|].
  set (m := match sets !! j with Some s => _ | None => _ end) in H.
  assert (∀ sets1, m = Some sets1 → cleared sets sets1 ∧ ∀ i, ends ids sets i → sets1 !! i = sets !! i) as Hm.
  { intros sets1. unfold m. destruct (sets !! j) as [s|] eqn:Ej; [|intros; by simplify_eq].
    case_bool_decide; [intros; by simplify_eq|]. intros Hw. split; [by eapply walk_spec|].
    eapply walk_keeps; [exact Hto| |exact Hw]. intros id k ->%elem_of_singleton Hk.
    exists 0%nat. cbn. f_equal. by eapply Hid. }
  destruct m as [sets1|]; [|done]. destruct (Hm sets1 eq_refl) as [Hc Hk]. cbn [mbind option_bind] in H.
  pose proof (proj1 (Forall2_lookup _ _ _) Hc) as L.
  transitivity (sets1 !! i); [|by apply Hk]. eapply IH; [..|exact H|by eapply cleared_ends].
  - intros k s Hs Ht. specialize (L k). rewrite Hs in L. inversion L as [s' ? [->| ->]|]; subst; [|done].
    by eapply (Hto k).
  - intros k s m' Hs. specialize (L k). rewrite Hs in L. inversion L as [s' ? [->| ->]|]; subst; intros Hm';
      (eapply (Hid k); [by symmetry|exact Hm']).
Qed.

(** ** Chains of sets *)

Definition escalates_to (cfg : Config) (s : SetConfig) : option SetConfig :=
  if bool_decide (to s = "") then None else GetSetById cfg (to s).
(** The set reached from [s] after [n] escalations. *)
Fixpoint chain (cfg : Config) (n : nat) (s : SetConfig) : option SetConfig :=
  match n with O => Some s | S n => t ← escalates_to cfg s; chain cfg n t end.
(** A reference that the first loop keeps. *)
Definition proper (cfg : Config) (s : SetConfig) : Prop :=
  to s = "" ∨ ∃ t, escalates_to cfg s = Some t ∧ Enabled t = true ∧ Id t ≠ Id s.

Lemma find_unique sets j s : NoDup (map Id sets) → sets !! j = Some s →
  List.find (λ set, bool_decide (Id set = Id s)) sets = Some s.
Proof.
  revert j. induction sets as [|s' sets IH]; intros j Hnd Hj; [done|]. inversion Hnd as [|? ? Hnot Hnd']; subst.
  cbn. destruct j as [|j]; cbn in Hj; [simplify_eq; by rewrite bool_decide_true|].
  rewrite bool_decide_false; [by eapply IH|]. intros E. apply Hnot. rewrite E. apply list_elem_of_fmap.
  exists s. split; [done|]. by eapply list_elem_of_lookup_2.
Qed.

Lemma GetSetById_by_id cfg id : NoDup (map Id (Sets cfg)) → id ≠ "" →
  GetSetById cfg id = by_id (Sets cfg) !! id ≫= (λ j, Sets cfg !! j).
Proof.
  intros Hnd Hne. unfold GetSetById. destruct (by_id (Sets cfg) !! id) as [j|] eqn:E.
  - apply by_id_lookup in E as (s & Hs & <-). cbn. rewrite Hs. by eapply find_unique.
  - cbn. destruct (List.find _ _) as [s|] eqn:F; [|done]. exfalso.
    apply List.find_some in F as [Hin Hid]. apply bool_decide_eq_true in Hid. subst.
    apply list_elem_of_In, list_elem_of_lookup in Hin as [k Hk].
    unfold by_id in E. by rewrite (index_ids_in 0 _ _ k s) in E.
Qed.

Lemma escalates_next cfg i s : NoDup (map Id (Sets cfg)) → Sets cfg !! i = Some s →
  escalates_to cfg s = next (by_id (Sets cfg)) (Sets cfg) i ≫= (λ j, Sets cfg !! j).
Proof.
  intros Hnd Hs. unfold escalates_to, next. rewrite Hs. cbn. case_bool_decide; [done|]. by apply GetSetById_by_id.
Qed.

Lemma chain_follow cfg n i s : NoDup (map Id (Sets cfg)) → Sets cfg !! i = Some s →
  chain cfg n s = follow (by_id (Sets cfg)) (Sets cfg) n i ≫= (λ j, Sets cfg !! j).
Proof.
  intros Hnd. revert i s. induction n as [|n IH]; intros i s Hs; [cbn; by rewrite Hs|]. cbn [chain follow].
  rewrite (escalates_next cfg i s) by done.
  destruct (next _ _ i) as [j|] eqn:Hn; [|done]. cbn. destruct (Sets cfg !! j) as [t|] eqn:Ht; [by apply IH|exfalso].
  unfold next in Hn. rewrite Hs in Hn. cbn in Hn. case_bool_decide; [done|].
  apply by_id_lookup in Hn as (t & Ht' & _). congruence.
Qed.

(** The map of Ids depends on the Ids only. *)
Lemma index_ids_map i sets sets' m : map Id sets = map Id sets' → index_ids i sets m = index_ids i sets' m.
Proof.
  revert i m sets'. induction sets as [|s sets IH]; intros i m [|s' sets'] H; try done. cbn in *.
  injection H as Hid H. rewrite Hid. by apply IH.
Qed.
Lemma cleared_ids sets sets' : cleared sets sets' → map Id sets' = map Id sets.
Proof. induction 1 as [|s s' l l' [->| ->] _ IH]; cbn; [done|by f_equal..]. Qed.

Lemma drop_dangling_cleared sets0 sets : cleared sets (map (drop_dangling sets0) sets).
Proof.
  induction sets as [|s sets IH]; constructor; [|done]. unfold drop_dangling. repeat case_match; auto.
Qed.

(** What the first loop leaves. *)
Lemma drop_dangling_kept sets s : to (drop_dangling sets s) ≠ "" →
  drop_dangling sets s = s ∧ ∃ j t, by_id sets !! to s = Some j ∧ sets !! j = Some t ∧ Enabled t = true ∧ to s ≠ Id s.
Proof.
  unfold drop_dangling. do 2 (case_bool_decide; [done|]).
  destruct (by_id sets !! to s) as [j|]; cbn [mbind option_bind]; [|done].
  destruct (sets !! j) as [t|] eqn:Et; [|done]. destruct (Enabled t) eqn:Ee; [|done]. intros _.
  split; [done|]. exists j, t. done.
Qed.

Lemma cleared_enabled sets sets' i s' : cleared sets sets' → sets' !! i = Some s' →
  ∃ s, sets !! i = Some s ∧ Id s' = Id s ∧ Enabled s' = Enabled s ∧ (to s' = "" ∨ s' = s).
Proof.
  intros H Hs. pose proof (proj1 (Forall2_lookup _ _ _) H i) as L. rewrite Hs in L.
  inversion L as [s ? [->| ->]|]; subst; eauto 8.
Qed.

Lemma sanitize_spec cfg :
  ∃ cfg', sanitizeEscalation cfg = Some cfg' ∧ cleared (map (drop_dangling (Sets cfg)) (Sets cfg)) (Sets cfg')
    ∧ by_id (Sets cfg') = by_id (Sets cfg) ∧ map Id (Sets cfg') = map Id (Sets cfg)
    ∧ ∀ i, (i < length (Sets cfg))%nat → ends (by_id (Sets cfg)) (Sets cfg') i.
Proof.
  unfold sanitizeEscalation. set (ids := by_id (Sets cfg)). set (sets0 := map _ (Sets cfg)).
  destruct (break_cycles_spec (S (size ids)) ids (seq 0 (length (Sets cfg))) sets0) as (sets' & -> & Hc & He); [lia|].
  assert (map Id sets' = map Id (Sets cfg)) as Hids.
  { apply cleared_ids. etransitivity; [|exact Hc]. apply drop_dangling_cleared. }
  exists (with_sets cfg sets'). split; [done|]. cbn. split_and!; [done|by apply index_ids_map|done|].
  intros i Hi. apply He. left. apply elem_of_seq. lia.
Qed.

(** C8: Validation leaves no endless escalation.  When the Ids of the sets are different,
    sanitizing succeeds and only clears references; every reference that is left names
    another, enabled set; and from every set repeated escalation ends before as many
    steps as there are sets. *)
Theorem sanitizeEscalation_chains_end (cfg : Config) :
  NoDup (map Id (Sets cfg)) →
  ∃ cfg', sanitizeEscalation cfg = Some cfg' ∧ cleared (Sets cfg) (Sets cfg')
    ∧ ∀ s, s ∈ Sets cfg' → proper cfg' s ∧ chain cfg' (length (Sets cfg)) s = None.
Proof.
  intros Hnd. destruct (sanitize_spec cfg) as (cfg' & H & Hc & Hb & Hids & He). exists cfg'.
  pose proof (drop_dangling_cleared (Sets cfg) (Sets cfg)) as Hd.
  split; [done|]. split; [by etransitivity|]. intros s' [i Hi]%list_elem_of_lookup.
  assert (NoDup (map Id (Sets cfg'))) as Hnd' by (by rewrite Hids).
  assert (length (Sets cfg') = length (Sets cfg)) as Hlen.
  { pose proof (f_equal length Hids) as E. by rewrite !length_map in E. }
  pose proof (lookup_lt_Some _ _ _ Hi) as Hlt. split.
  - destruct (decide (to s' = "")) as [|Hto]; [by left|right].
    destruct (cleared_enabled _ _ _ _ Hc Hi) as (s & Hs & _ & _ & [?| ->]); [done|].
    apply list_lookup_fmap_Some in Hs as (s0 & -> & Hs0).
    destruct (drop_dangling_kept _ _ Hto) as (Heq & j & t & Hj & Ht & Het & Hne). rewrite Heq in *.
    assert (is_Some (Sets cfg' !! j)) as [t' Ht'] by (apply lookup_lt_is_Some; rewrite Hlen; by eapply lookup_lt_Some).
    assert (cleared (Sets cfg) (Sets cfg')) as Hcc by (by etransitivity).
    destruct (cleared_enabled _ _ _ _ Hcc Ht') as (t0 & Ht0 & Hid0 & Hen0 & _). simplify_eq.
    exists t'. rewrite (escalates_next cfg' i) by done. unfold next. rewrite Hi. cbn.
    rewrite bool_decide_false, Hb, Hj by done. cbn. split_and!; [done|by rewrite Hen0|].
    rewrite Hid0. apply by_id_lookup in Hj as (t1 & Ht1 & Hid1). congruence.
  - rewrite (chain_follow cfg' _ i) by done. rewrite <- Hlen, ends_bound; [done| |done|].
    + intros id j Hj. apply by_id_lookup in Hj as (t & Ht & _). by eapply lookup_lt_Some.
    + rewrite Hb. apply He. by rewrite <- Hlen.
Qed.

Lemma chain_ends cfg i s n : NoDup (map Id (Sets cfg)) → Sets cfg !! i = Some s → chain cfg n s = None →
  ends (by_id (Sets cfg)) (Sets cfg) i.
Proof.
  intros Hnd Hs H. rewrite (chain_follow cfg n i s) in H by done. clear Hs.
  revert i H. induction n as [|n IH]; intros i H; cbn in H.
  - apply ends_stop. unfold next. by rewrite H.
  - destruct (next _ _ i) as [j|] eqn:Hn; [|by apply ends_stop]. eapply ends_step; [exact Hn|by apply IH].
Qed.

Lemma proper_kept cfg s : NoDup (map Id (Sets cfg)) → proper cfg s → drop_dangling (Sets cfg) s = s.
Proof.
  intros Hnd [Ht|(t & Ht & He & Hid)]; unfold drop_dangling; [by rewrite bool_decide_true|].
  unfold escalates_to in Ht. case_bool_decide as Hto; [done|].
  unfold GetSetById in Ht. pose proof Ht as [_ Hti]%List.find_some. apply bool_decide_eq_true in Hti.
  rewrite bool_decide_false by congruence. fold (GetSetById cfg (to s)) in Ht.
  rewrite GetSetById_by_id in Ht by done. rewrite Ht. by rewrite He.
Qed.

(** Sanitizing clears no reference without need: a configuration whose references
    all name another, enabled set and whose escalations all end stays as it is - so
    sanitizing a second time changes nothing. *)
Theorem sanitizeEscalation_fixpoint (cfg : Config) :
  NoDup (map Id (Sets cfg)) →
  (∀ s, s ∈ Sets cfg → proper cfg s ∧ ∃ n, chain cfg n s = None) →
  ∃ cfg', sanitizeEscalation cfg = Some cfg' ∧ Sets cfg' = Sets cfg.
Proof.
  intros Hnd Hp. unfold sanitizeEscalation.
  assert (map (drop_dangling (Sets cfg)) (Sets cfg) = Sets cfg) as ->.
  { rewrite <- (map_id (Sets cfg)) at 3. apply map_ext_in. intros s Hs. apply proper_kept; [done|].
    apply Hp. by apply list_elem_of_In. }
  destruct (break_cycles_spec (S (size (by_id (Sets cfg)))) (by_id (Sets cfg)) (seq 0 (length (Sets cfg))) (Sets cfg))
    as (sets' & H & Hc & _); [lia|]. rewrite H. exists (with_sets cfg sets'). split; [done|]. cbn.
  pose proof (cleared_ids _ _ Hc) as Hids. apply list_eq. intros i.
  destruct (Sets cfg !! i) as [s|] eqn:Hs.
  - rewrite <- Hs. eapply break_cycles_keeps; [| |exact H|].
    + intros j t Ht Hto. destruct (Hp t) as [[?|(u & Hu & _)] _]; [by eapply list_elem_of_lookup_2|done|].
      unfold escalates_to in Hu. rewrite bool_decide_false, GetSetById_by_id in Hu by done.
      destruct (by_id (Sets cfg) !! to t); [done|by inversion Hu].
    + intros j t k Ht Hk. destruct (decide (Id t = "")) as [E|Hne].
      * rewrite E in Hk. apply by_id_lookup in Hk as (u & Hu & Hid).
        eapply NoDup_lookup; [exact Hnd|apply list_lookup_fmap_Some..]; [by exists u|exists t; split; [congruence|done]].
      * unfold by_id in Hk. rewrite (index_ids_in 0 _ _ j t) in Hk by done. by simplify_eq.
    + destruct (Hp s) as [_ [n Hn]]; [by eapply list_elem_of_lookup_2|]. by eapply chain_ends.
  - apply lookup_ge_None. apply lookup_ge_None in Hs. pose proof (f_equal length Hids) as E. rewrite !length_map in E. lia.
Qed.

(** ** Concrete sets *)

Definition set_named (id to : string) : SetConfig :=
  let s := with_to DefaultSetConfig to in
  {| Id := id; Name := id; TCP := TCP s; UDP := UDP s; Fragmentation := Fragmentation s; Faking := Faking s;
     Targets := Targets s; Enabled := Enabled s; DNS := DNS s; TCPPortRanges := []; UDPPortRanges := [];
     Routing := Routing s; Escalate := Escalate s; MSSClamp := MSSClamp s |}.
Definition config_of (sets : list SetConfig) : Config := {|
  Queue := {| q_Mode := ""; StartNum := 537; Threads := 4; Mark := 32768; TCPConnBytesLimit := 19;
    UDPConnBytesLimit := 8; Interfaces := []; Devices := []; q_MSSClamp := {| mss_Enabled := false; mss_Size := 88 |};
    IsDiscovery := false; IPv4Enabled := true; IPv6Enabled := false |};
  System := {| WebServer := {| web_Port := 7000; TLSCert := ""; TLSKey := ""; IsEnabled := true |};
    Socks5 := {| s5_Enabled := false; s5_Port := 1080 |};
    MTProto := {| mt_Enabled := false; mt_Port := 3128; MaxConnections := 0; TCPUserTimeoutSec := 0;
      IdleTimeoutSec := 0; UpstreamMode := "auto"; WSEndpointHost := "" |};
    MemoryLimit := ""; GeoSitePath := ""; GeoIpPath := ""; Directory := "/var/log/b4"; Masquerade := false;
    DiscoveryFlowMark' := 0; DiscoveryInjectedMark' := 0 |};
  Sets := sets; tcpPortMap := None; ConfigPath := "" |}.

(** Two sets with the same Id defeat the sanitizing, which never checks that Ids are
    different: it follows the last set of an Id, the packet handler the first.  Here every
    chain the handler follows from the first two sets goes on for ever. *)
Theorem sanitizeEscalation_duplicate_ids :
  let sets := [set_named "a" "b"; set_named "b" "a"; set_named "a" ""; set_named "b" ""]%string in
  sanitizeEscalation (config_of sets) = Some (config_of sets)
  ∧ ∀ n, ∃ s, chain (config_of sets) n (set_named "a" "b") = Some s ∧ to s ≠ "".
Proof.
  cbv zeta. split; [by vm_compute|]. set (cfg := config_of _).
  assert (escalates_to cfg (set_named "a" "b") = Some (set_named "b" "a")) as Ha by by vm_compute.
  assert (escalates_to cfg (set_named "b" "a") = Some (set_named "a" "b")) as Hb by by vm_compute.
  clearbody cfg.
  assert (∀ n, (∃ s, chain cfg n (set_named "a" "b") = Some s ∧ to s ≠ "")
             ∧ (∃ s, chain cfg n (set_named "b" "a") = Some s ∧ to s ≠ "")) as H; [|apply H].
  induction n as [|n [IH1 IH2]]; [split; eexists; done|]. cbn [chain]. by rewrite Ha, Hb.
Qed.

Definition chain_demo : Config :=
  config_of [set_named "a" "b"; set_named "b" "c"; set_named "c" "a"; set_named "d" "x"; set_named "e" "a"]%string.
Lemma NoDup_demo : NoDup (map Id (Sets chain_demo)).
Proof. apply (bool_decide_unpack _). by vm_compute. Qed.
Lemma sanitizeEscalation_chains_end_witness :
  ∃ cfg', sanitizeEscalation chain_demo = Some cfg' ∧ cleared (Sets chain_demo) (Sets cfg')
    ∧ ∀ s, s ∈ Sets cfg' → proper cfg' s ∧ chain cfg' (length (Sets chain_demo)) s = None.
Proof. apply (sanitizeEscalation_chains_end chain_demo). exact NoDup_demo. Defined.
Example sanitizeEscalation_demo :
  map to ∘ Sets <$> sanitizeEscalation chain_demo = Some ["b"; "c"; ""; ""; "a"]%string.
Proof. by vm_compute. Qed.

Definition line_demo : Config := config_of [set_named "a" "b"; set_named "b" ""; set_named "c" "b"]%string.
Lemma sanitizeEscalation_fixpoint_witness :
  ∃ cfg', sanitizeEscalation line_demo = Some cfg' ∧ Sets cfg' = Sets line_demo.
Proof.
  apply (sanitizeEscalation_fixpoint line_demo); [apply (bool_decide_unpack _); by vm_compute|].
  intros s Hs. cbn in Hs. rewrite !elem_of_cons, elem_of_nil in Hs.
  destruct Hs as [->|[->|[->|[]]]].
  - split; [right; exists (set_named "b" ""); by vm_compute|by exists 2%nat].
  - split; [by left|by exists 1%nat].
  - split; [right; exists (set_named "b" ""); by vm_compute|by exists 2%nat].
Defined.
