(* ===== verification/Lru.v ===== *)
(** * Caches with least-recently-used eviction

    The map and the [container/list] that sni/match.go keeps for each of its caches.  An
    entry's list element is named by its key, which is the value it holds; [order] is the
    list from the front.  A cache is described by [recent]: the keys used last, without
    repetitions, as many as the limit allows. *)

From Stdlib Require Import ZArith Lia.
From stdpp Require Import base list numbers strings gmap sets fin_maps.
From S2P Require Import Prelude.

Local Open Scope Z_scope.

Record lru (V : Type) := { entries : gmap string V; order : list string }.
Arguments entries {V} _.
Arguments order {V} _.
Arguments Build_lru {V} _ _.

Section lru.
Context {V : Type}.
Implicit Types (c : lru V) (k : string).

Definition lru_empty : lru V := {| entries := ∅; order := [] |}.
Definition to_front k (l : list string) : list string := k :: filter (λ x, x ≠ k) l.
#[global] Arguments to_front : simpl never.
(** [MoveToFront] of the element of [k]. *)
Definition lru_touch k c : lru V := {| entries := entries c; order := to_front k (order c) |}.
Definition lru_set k v c : lru V := {| entries := <[k := v]> (entries c); order := to_front k (order c) |}.
(** Drop the entry at the back of a full cache, then push a new one to the front. *)
Definition lru_add (limit : Z) k v c : lru V :=
  let c := if limit <=? Z.of_nat (size (entries c)) then
             match last (order c) with
             | Some oldest => {| entries := delete oldest (entries c); order := take (length (order c) - 1) (order c) |}
             | None => c
             end
           else c in
  {| entries := <[k := v]> (entries c); order := k :: order c |}.
Definition lru_drop k c : lru V := {| entries := delete k (entries c); order := filter (λ x, x ≠ k) (order c) |}.

(** The list and the map agree, and there are no more entries than the limit. *)
Record lru_ok (limit : Z) c : Prop := {
  lru_nodup : NoDup (order c);
  lru_dom : list_to_set (order c) =@{gset string} dom (entries c);
  lru_size : Z.of_nat (length (order c)) <= limit }.

Lemma lru_length limit c : lru_ok limit c → length (order c) = size (entries c).
Proof. intros []. rewrite <- size_dom, <- lru_dom0. by rewrite size_list_to_set. Qed.

Lemma lru_in limit c k : lru_ok limit c → k ∈ order c ↔ is_Some (entries c !! k).
Proof. intros []. rewrite <- elem_of_dom, <- lru_dom0. by rewrite elem_of_list_to_set. Qed.

Lemma lru_empty_ok limit : 0 <= limit → lru_ok limit lru_empty.
Proof. split; cbn; [constructor|by rewrite dom_empty_L|lia]. Qed.

Lemma to_front_perm k l : NoDup l → k ∈ l → to_front k l ≡ₚ l.
Proof.
  intros Hn Hk. apply NoDup_Permutation; [|done|].
  - constructor; [rewrite list_elem_of_filter; naive_solver|by apply NoDup_filter].
  - intros x. unfold to_front. rewrite elem_of_cons, list_elem_of_filter.
    destruct (decide (x = k)); naive_solver.
Qed.
Lemma to_front_new k l : k ∉ l → to_front k l = k :: l.
Proof.
  intros Hk. unfold to_front. f_equal. induction l as [|a l IH]; [done|]. rewrite not_elem_of_cons in Hk.
  destruct Hk as [Ha Hl]. rewrite filter_cons_True by done. by rewrite IH.
Qed.

Lemma lru_touch_ok limit k c : lru_ok limit c → k ∈ order c → lru_ok limit (lru_touch k c).
Proof.
  intros [Hn Hd Hs] Hk. pose proof (to_front_perm k (order c) Hn Hk) as P. split; cbn.
  - by rewrite P.
  - rewrite <- Hd. apply set_eq. intros x. by rewrite !elem_of_list_to_set, P.
  - by rewrite P.
Qed.

Lemma lru_set_ok limit k v c : lru_ok limit c → k ∈ order c → lru_ok limit (lru_set k v c).
Proof.
  intros H Hk. destruct (lru_touch_ok limit k c H Hk) as [Hn Hd Hs]. split; cbn in *; [done| |done].
  rewrite Hd, dom_insert_L. pose proof (proj1 (lru_in limit c k H) Hk). 
  assert (k ∈ dom (entries c)) by (by apply elem_of_dom). set_solver.
Qed.

Lemma take_snoc_last (l : list string) o : last l = Some o → l = take (length l - 1) l ++ [o].
Proof.
  intros H. apply last_Some in H as [l' ->]. rewrite length_app. cbn. rewrite Nat.add_sub. by rewrite take_app_length.
Qed.

(** Adding a key that is not there. *)
Lemma lru_add_spec limit k v c : 0 < limit → lru_ok limit c → k ∉ order c →
  lru_ok limit (lru_add limit k v c) ∧ order (lru_add limit k v c) = take (Z.to_nat limit) (to_front k (order c))
  ∧ entries (lru_add limit k v c) !! k = Some v
  ∧ ∀ x v', x ≠ k → entries (lru_add limit k v c) !! x = Some v' → entries c !! x = Some v'.
Proof.
  intros Hl Hok Hk. pose proof (lru_length limit c Hok) as Hlen. pose proof Hok as [Hn Hd Hs].
  rewrite to_front_new by done. unfold lru_add. rewrite <- Hlen.
  destruct (limit <=? Z.of_nat (length (order c))) eqn:E.
  - destruct (last (order c)) as [o|] eqn:El.
    2: { apply last_None in El. rewrite El in E. apply Z.leb_le in E. cbn in E. lia. }
    pose proof (take_snoc_last _ _ El) as Ho. set (l' := take (length (order c) - 1) (order c)) in *.
    assert (length l' = length (order c) - 1)%nat as Hl' by (unfold l'; rewrite length_take; lia).
    assert (NoDup l' ∧ o ∉ l') as [Hnl Hol].
    { rewrite Ho in Hn. apply NoDup_app in Hn as (? & Hx & _). split; [done|]. intros Hin. apply (Hx o Hin). set_solver. }
    assert ((k ∉ l') ∧ k ≠ o) as [Hkl Hko] by (rewrite Ho in Hk; set_solver).
    cbn [entries order]. split_and!.
    + split; cbn [entries order].
      * by constructor.
      * rewrite dom_insert_L, dom_delete_L, <- Hd. cbn. rewrite Ho. rewrite list_to_set_app_L. cbn. set_solver.
      * cbn. lia.
    + replace (Z.to_nat limit) with (S (length l')) by lia. cbn [take]. f_equal. rewrite Ho. by rewrite take_app_length.
    + cbn [entries]. by rewrite lookup_insert_eq.
    + intros x v' Hx. cbn [entries]. rewrite lookup_insert_ne by done. by intros [_ ?]%lookup_delete_Some.
  - split_and!.
    + split; cbn [entries order]; [by constructor| |cbn; lia]. rewrite dom_insert_L, <- Hd. by cbn.
    + cbn. rewrite take_ge; [done|]. cbn. lia.
    + cbn [entries]. by rewrite lookup_insert_eq.
    + intros x v' Hx. cbn [entries]. by rewrite lookup_insert_ne.
Qed.

Lemma lru_drop_ok limit k c : lru_ok limit c → lru_ok limit (lru_drop k c).
Proof.
  intros [Hn Hd Hs]. split; cbn.
  - by apply NoDup_filter.
  - rewrite dom_delete_L, <- Hd. apply set_eq. intros x.
    rewrite elem_of_list_to_set, list_elem_of_filter, elem_of_difference, elem_of_list_to_set. set_solver.
  - pose proof (length_filter (λ x, x ≠ k) (order c)). lia.
Qed.

(** ** The keys used last *)

(** The first occurrences, in order; a history has its last use in front. *)
Fixpoint distinct (hs : list string) : list string :=
  match hs with [] => [] | h :: hs => to_front h (distinct hs) end.
Definition recent (limit : Z) (hs : list string) : list string := take (Z.to_nat limit) (distinct hs).

Lemma distinct_nodup hs : NoDup (distinct hs).
Proof.
  induction hs as [|h hs IH]; cbn; [constructor|].
  constructor; [rewrite list_elem_of_filter; naive_solver|by apply NoDup_filter].
Qed.
Lemma distinct_elem hs x : x ∈ distinct hs ↔ x ∈ hs.
Proof.
  induction hs as [|h hs IH]; cbn; [done|]. unfold to_front. rewrite !elem_of_cons, list_elem_of_filter, IH.
  destruct (decide (x = h)); naive_solver.
Qed.

Lemma take_to_front n k l : NoDup l → take n (to_front k l) = take n (to_front k (take n l)).
Proof.
  intros Hn. destruct n as [|n]; [done|]. unfold to_front. cbn [take]. f_equal.
  rewrite <- (take_drop (S n) l) at 1. rewrite filter_app. set (f := filter (λ x, x ≠ k)).
  destruct (decide (k ∈ take (S n) l)) as [Hk|Hk].
  - destruct (decide (length l <= S n)%nat) as [Hle|Hgt].
    { rewrite (drop_ge l) by lia. change (f []) with (@nil string). by rewrite app_nil_r. }
    assert (length (to_front k (take (S n) l)) = S n) as Hlen.
    { rewrite (to_front_perm k (take (S n) l)); [rewrite length_take; lia|eapply sublist_NoDup; [exact Hn|apply sublist_take]|done]. }
    unfold to_front in Hlen. cbn in Hlen. apply eq_add_S in Hlen. fold f in Hlen. cbn in Hlen.
    rewrite take_app_le by (unfold f in *; cbn in *; lia). done.
  - pose proof (to_front_new k _ Hk) as E. unfold to_front in E. injection E as E. fold f in E. rewrite E.
    rewrite take_take, Nat.min_l by lia.
    destruct (decide (length l <= n)%nat) as [Hle|Hgt].
    + rewrite (drop_ge l) by lia. cbn. rewrite app_nil_r, (take_ge l (S n)) by lia. done.
    + rewrite take_app_le by (rewrite length_take; lia). rewrite take_take, Nat.min_l by lia. done.
Qed.

Lemma recent_cons limit h hs : recent limit (h :: hs) = take (Z.to_nat limit) (to_front h (recent limit hs)).
Proof. unfold recent. cbn [distinct]. apply take_to_front, distinct_nodup. Qed.
End lru.
