(* ===== verification/Match.v ===== *)
(** * Matching of domains and addresses

    sni/match.go: the matcher built from the sets of the configuration, with its caches.
    [rules] holds what [NewSuffixSet] fixes, [SuffixSet] the rules and the caches.  The
    methods here are what a call does with no other in between, composed of the accesses
    to the shared state - a locked section each, or, in [matchRegex], which holds no
    mutex, an atomic operation - that Overlap.v interleaves.  Parameters are the Unicode tables, the regular
    expressions of package regexp, the text forms of addresses of package net and the
    CIDR trie of the package cidranger. *)

From Stdlib Require Import ZArith Lia Ascii Sorted.
From Stdlib Require Strings.String.
From stdpp Require Import base list numbers strings gmap sets sorting.
From S2P Require Import Prelude Config GoString Text NetIP Ports Lru.

Local Open Scope Z_scope.

Class Regexp := { regex : Type; Compile : string → option regex; MatchString : regex → string → bool }.

(** ** Addresses *)

Record ipRange := { ipNet : IPNet; ip_set : SetConfig }.
(** The CIDR trie; an address in 4 bytes and the same in 16 are in the same networks. *)
Class Ranger := {
  ranger : Type; NewRanger : ranger; Insert : ranger → ipRange → ranger;
  ContainingNetworks : ranger → bytes → option (list ipRange);
  ContainingNetworks_To16 r a b : To16 a = To16 b → ContainingNetworks r a = ContainingNetworks r b }.

(** ** State *)

Definition result : Type := bool * option SetConfig.
Record learnedIPEntry := { l_domain : string; l_set : SetConfig; learnedAt : Z }.

Record rules `{Regexp, Ranger} := {
  sets : gmap string SetConfig; multiSets : gmap string (list SetConfig); regexes : list (regex * SetConfig);
  ipRanger : ranger; udpPortRanges : list (Z * Z * SetConfig); tcpPortRanges : list (Z * Z * SetConfig) }.
Record SuffixSet `{Regexp, Ranger} := {
  r : rules; regexCache : gmap string result; regexCacheSize : Z;
  ipCache : lru result; domainCache : lru result; learnedIPCache : lru learnedIPEntry }.

Definition ipCacheLimit : Z := 2000.
Definition domainCacheLimit : Z := 2000.
Definition learnedIPCacheLimit : Z := 5000.
Definition regexCacheLimit : Z := 2000.
(** 10 minutes, in nanoseconds. *)
Definition learnedIPTTL : Z := 600000000000.

Section matcher.
Context {Un : Unicode} {Rx : Regexp} {Nt : Net} {Rg : Ranger} {Srt : SortSlice}.
Implicit Types (s : SuffixSet) (ru : rules).

Definition with_regexCache s c n : SuffixSet :=
  {| r := r s; regexCache := c; regexCacheSize := n; ipCache := ipCache s; domainCache := domainCache s;
     learnedIPCache := learnedIPCache s |}.
Definition with_ipCache s c : SuffixSet :=
  {| r := r s; regexCache := regexCache s; regexCacheSize := regexCacheSize s; ipCache := c;
     domainCache := domainCache s; learnedIPCache := learnedIPCache s |}.
Definition with_domainCache s c : SuffixSet :=
  {| r := r s; regexCache := regexCache s; regexCacheSize := regexCacheSize s; ipCache := ipCache s;
     domainCache := c; learnedIPCache := learnedIPCache s |}.
Definition with_learned s c : SuffixSet :=
  {| r := r s; regexCache := regexCache s; regexCacheSize := regexCacheSize s; ipCache := ipCache s;
     domainCache := domainCache s; learnedIPCache := c |}.

(** ** Building the rules *)

Definition parsePortRange (part : string) : option (Z * Z) :=
  let part := TrimSpace part in
  if bool_decide (part = "") then None
  else if Contains part "-" then
    let '(lo, hi) := SplitN2 part "-" in
    let '(min, ok1) := Atoi lo in
    let '(max, ok2) := Atoi hi in
    if ok1 && ok2 && (0 <=? min) && (0 <=? max) && (min <=? max) then Some (min, max) else None
  else
    let '(port, ok) := Atoi part in
    if ok && (0 <=? port) then Some (port, port) else None.

Definition add_domain (set : SetConfig) (st : rules * gset string) (d : string) : rules * gset string :=
  let '(ru, seenRegexes) := st in
  let d := ToLower (TrimSpace d) in
  if bool_decide (d = "") then st
  else if HasPrefix d "regexp:" then
    let pattern := TrimPrefix d "regexp:" in
    if bool_decide (pattern ∈ seenRegexes) then st
    else match Compile pattern with
         | Some re =>
             ({| sets := sets ru; multiSets := multiSets ru; regexes := regexes ru ++ [(re, set)];
                 ipRanger := ipRanger ru; udpPortRanges := udpPortRanges ru; tcpPortRanges := tcpPortRanges ru |},
              {[pattern]} ∪ seenRegexes)
         | None => st
         end
  else
    let d := TrimRight d "." in
    ({| multiSets := <[d := default [] (multiSets ru !! d) ++ [set]]> (multiSets ru);
        sets := match sets ru !! d with Some _ => sets ru | None => <[d := set]> (sets ru) end;
        regexes := regexes ru; ipRanger := ipRanger ru; udpPortRanges := udpPortRanges ru;
        tcpPortRanges := tcpPortRanges ru |}, seenRegexes).

Definition parse_network (ipStr : string) : option IPNet :=
  if Contains ipStr "/" then ParseCIDR ipStr
  else match ParseIP ipStr with
       | Some ip => match To4 ip with
                    | Some _ => ParseCIDR (ipStr +:+ "/32")
                    | None => ParseCIDR (ipStr +:+ "/128")
                    end
       | None => None
       end.
Definition add_ip (set : SetConfig) ru (ipStr : string) : rules :=
  let ipStr := TrimSpace ipStr in
  if bool_decide (ipStr = "") then ru
  else match parse_network ipStr with
       | Some net =>
           {| sets := sets ru; multiSets := multiSets ru; regexes := regexes ru;
              ipRanger := Insert (ipRanger ru) {| ipNet := net; ip_set := set |};
              udpPortRanges := udpPortRanges ru; tcpPortRanges := tcpPortRanges ru |}
       | None => ru
       end.

Definition port_ranges (set : SetConfig) (filter : string) : list (Z * Z * SetConfig) :=
  if bool_decide (filter = "") then []
  else omap (λ part, (λ pr, (pr, set)) <$> parsePortRange part) (Split filter ",").
Definition add_ports (set : SetConfig) ru : rules :=
  {| sets := sets ru; multiSets := multiSets ru; regexes := regexes ru; ipRanger := ipRanger ru;
     udpPortRanges := udpPortRanges ru ++ port_ranges set (u_DPortFilter (UDP set));
     tcpPortRanges := tcpPortRanges ru ++ port_ranges set (t_DPortFilter (TCP set)) |}.

Definition add_set (st : rules * gset string) (set : SetConfig) : rules * gset string :=
  if negb (Enabled set) then st
  else
    let '(ru, seen) := foldl (add_domain set) st (DomainsToMatch (Targets set)) in
    (add_ports set (foldl (add_ip set) ru (IpsToMatch (Targets set))), seen).

Definition no_rules : rules :=
  {| sets := ∅; multiSets := ∅; regexes := []; ipRanger := NewRanger; udpPortRanges := []; tcpPortRanges := [] |}.
Definition build_rules (cfgs : list SetConfig) : rules := fst (foldl add_set (no_rules, ∅) cfgs).
Definition NewSuffixSet (cfgs : list SetConfig) : SuffixSet :=
  {| r := build_rules cfgs; regexCache := ∅; regexCacheSize := 0; ipCache := lru_empty; domainCache := lru_empty;
     learnedIPCache := lru_empty |}.

(** ** Ports *)

Definition match_port (ranges : list (Z * Z * SetConfig)) (port : Z) : result :=
  match List.find (λ x, negb (HasIPOrDomainTargets (snd x)) && port_in port (fst x)) ranges with
  | Some x => (true, Some (snd x))
  | None => (false, None)
  end.
Definition MatchUDPPort s (dport : Z) : result := match_port (udpPortRanges (r s)) dport.
Definition MatchTCPPort s (dport : Z) : result := match_port (tcpPortRanges (r s)) dport.

(** ** Domains *)

(** The value of the first of the names after the dots of [host] that the map holds. *)
Fixpoint lookup_parents {A} (m : gmap string A) (host : list ascii) : option A :=
  match host with
  | [] => None
  | a :: remaining =>
      if decide (a = "."%char)
      then match m !! str remaining with Some x => Some x | None => lookup_parents m remaining end
      else lookup_parents m remaining
  end.
Definition lookup_suffix {A} (m : gmap string A) (host : string) : option A :=
  match m !! host with Some x => Some x | None => lookup_parents m (chars host) end.
Definition found (o : option SetConfig) : result :=
  match o with Some set => (true, Some set) | None => (false, None) end.

(** The locked section of a hit, which finds nothing when the entry was evicted since the
    look that hit, and the one of a miss. *)
Definition domain_take s (host : string) : option (SuffixSet * result) :=
  match entries (domainCache s) !! host with
  | Some entry => Some (with_domainCache s (lru_touch host (domainCache s)), entry)
  | None => None
  end.
Definition domain_put s (host : string) (res : result) : SuffixSet * result :=
  match entries (domainCache s) !! host with
  | Some existing => (with_domainCache s (lru_touch host (domainCache s)), existing)
  | None => (with_domainCache s (lru_add domainCacheLimit host res (domainCache s)), res)
  end.
Definition matchDomain s (host : string) : SuffixSet * result :=
  match domain_take s host with
  | Some hit => hit
  | None => domain_put s host (found (lookup_suffix (sets (r s)) host))
  end.

Definition find_regex (rs : list (regex * SetConfig)) (host : string) : option SetConfig :=
  snd <$> List.find (λ x, MatchString (fst x) host) rs.
(** The atomic operations on the [sync.Map] and on the [int32] counter beside it. *)
Definition regex_load s (host : string) : option result := regexCache s !! host.
Definition regex_room s : bool := regexCacheSize s <? regexCacheLimit.
Definition regex_store s (host : string) (res : result) : SuffixSet :=
  with_regexCache s (<[host := res]> (regexCache s)) (regexCacheSize s).
Definition regex_add s : SuffixSet := with_regexCache s (regexCache s) (regexCacheSize s + 1).
Definition matchRegex s (host : string) : SuffixSet * result :=
  match regex_load s host with
  | Some entry => (s, entry)
  | None =>
      let res := found (find_regex (regexes (r s)) host) in
      if regex_room s then (regex_add (regex_store s host res), res) else (s, res)
  end.

Definition no_domains ru : bool := bool_decide (sets ru = ∅) && bool_decide (length (regexes ru) = 0%nat).
Definition MatchSNI s (host : string) : SuffixSet * result :=
  if no_domains (r s) || bool_decide (host = "") then (s, (false, None))
  else
    let lower := ToLower host in
    let '(s, (matched, set)) := matchDomain s lower in
    if matched then (s, (true, set))
    else if bool_decide (length (regexes (r s)) = 0%nat) then (s, (false, None))
    else matchRegex s lower.

(** ** Addresses *)

Definition sortEntriesBySpecificity (entries : list ipRange) : list ipRange :=
  sort_slice (λ i j, ones (ipNet j) <? ones (ipNet i)) entries.
Definition cacheIPResult s (ipStr : string) (res : result) : SuffixSet :=
  with_ipCache s match entries (ipCache s) !! ipStr with
                 | Some _ => lru_touch ipStr (ipCache s)
                 | None => lru_add ipCacheLimit ipStr res (ipCache s)
                 end.
Definition lookup_ip ru (ip : bytes) : option SetConfig :=
  match ContainingNetworks (ipRanger ru) ip with
  | None | Some [] => None
  | Some entries =>
      let entries := if (1 <? len entries) then sortEntriesBySpecificity entries else entries in
      ip_set <$> head entries
  end.
(** The locked section of a hit, as for domains. *)
Definition ip_take s (ipStr : string) : option (SuffixSet * result) :=
  match entries (ipCache s) !! ipStr with
  | Some entry => Some (with_ipCache s (lru_touch ipStr (ipCache s)), entry)
  | None => None
  end.
Definition MatchIP s (ip : bytes) : SuffixSet * result :=
  if bool_decide (ip = []) then (s, (false, None))
  else
    let ipStr := ip_string ip in
    match ip_take s ipStr with
    | Some hit => hit
    | None => let res := found (lookup_ip (r s) ip) in (cacheIPResult s ipStr res, res)
    end.

(** ** Candidates *)

Definition setMatchesSource (set : SetConfig) (srcMAC : string) : bool :=
  let devices := SourceDevices (Targets set) in
  let exclude := SourceDevicesExclude (Targets set) in
  if bool_decide (devices = []) then true
  else if bool_decide (srcMAC = "") then exclude
  else if existsb (λ mac, EqualFold mac srcMAC) devices then negb exclude
  else exclude.
Definition has_devices (set : SetConfig) : bool := negb (bool_decide (SourceDevices (Targets set) = [])).
Definition matches_versions (set : SetConfig) (tlsVersion ipVersion : Z) : bool :=
  MatchesTLSVersion set tlsVersion && MatchesIPVersion set ipVersion.

(** The two loops of [selectSetBySourceAndTLS]. *)
Definition select_once (candidates : list SetConfig) (srcMAC : string) (tlsVersion ipVersion : Z) : option SetConfig :=
  match List.find (λ set, has_devices set && setMatchesSource set srcMAC && matches_versions set tlsVersion ipVersion)
          candidates with
  | Some set => Some set
  | None => List.find (λ set, negb (has_devices set) && matches_versions set tlsVersion ipVersion) candidates
  end.
Definition selectSetBySourceAndTLS (candidates : list SetConfig) (srcMAC : string) (tlsVersion ipVersion : Z) : result :=
  found match select_once candidates srcMAC tlsVersion ipVersion with
        | Some set => Some set
        | None => if negb (tlsVersion =? 0) || negb (ipVersion =? 0) then select_once candidates srcMAC 0 0 else None
        end.

Definition findDomainCandidates ru (host : string) : list SetConfig := default [] (lookup_suffix (multiSets ru) host).
Definition matchRegexWithSourceTLS ru (host srcMAC : string) (tlsVersion ipVersion : Z) : result :=
  selectSetBySourceAndTLS (map snd (filter (λ x, MatchString (fst x) host = true) (regexes ru))) srcMAC
    tlsVersion ipVersion.
Definition MatchSNIWithSourceTLS s (host srcMAC : string) (tlsVersion ipVersion : Z) : result :=
  if no_domains (r s) || bool_decide (host = "") then (false, None)
  else
    let lower := ToLower host in
    let '(matched, set) := selectSetBySourceAndTLS (findDomainCandidates (r s) lower) srcMAC tlsVersion ipVersion in
    if matched then (true, set)
    else if bool_decide (length (regexes (r s)) = 0%nat) then (false, None)
    else matchRegexWithSourceTLS (r s) lower srcMAC tlsVersion ipVersion.

Definition MatchSNIWithSource s (host srcMAC : string) : result := MatchSNIWithSourceTLS s host srcMAC 0 0.

Definition ipVersionOf (ip : bytes) : Z :=
  if bool_decide (ip = []) then 0 else match To4 ip with Some _ => 4 | None => 6 end.
Definition MatchIPWithSource s (ip : bytes) (srcMAC : string) : result :=
  if bool_decide (ip = []) then (false, None)
  else match ContainingNetworks (ipRanger (r s)) ip with
       | None => (false, None)
       | Some entries => selectSetBySourceAndTLS (map ip_set (sortEntriesBySpecificity entries)) srcMAC 0 (ipVersionOf ip)
       end.

(** ** Addresses learned from connections *)

Definition LearnIPToDomain s (ip : bytes) (domain : string) (set : option SetConfig) (now : Z) : SuffixSet :=
  match set with
  | None => s
  | Some set =>
      if bool_decide (ip = []) || bool_decide (domain = "") || DomainOnly (Targets set) then s
      else
        let ipStr := ip_string ip in
        let entry := {| l_domain := domain; l_set := set; learnedAt := now |} in
        with_learned s match entries (learnedIPCache s) !! ipStr with
                       | Some _ => lru_set ipStr entry (learnedIPCache s)
                       | None => lru_add learnedIPCacheLimit ipStr entry (learnedIPCache s)
                       end
  end.

(** The entry was used at the time [now]. *)
Definition refresh s (ipStr : string) (entry : learnedIPEntry) (now : Z) : SuffixSet :=
  with_learned s (lru_set ipStr {| l_domain := l_domain entry; l_set := l_set entry; learnedAt := now |}
    (learnedIPCache s)).

(** [now1] is the clock that decides the age, [now2] the one the entry is stamped with. *)
Definition MatchLearnedIP s (ip : bytes) (now1 now2 : Z) : SuffixSet * (result * string) :=
  let none := ((false, None), ""%string) in
  if bool_decide (ip = []) then (s, none)
  else
    let ipStr := ip_string ip in
    match entries (learnedIPCache s) !! ipStr with
    | None => (s, none)
    | Some entry =>
        if DomainOnly (Targets (l_set entry)) then (s, none)
        else if learnedIPTTL <? now1 - learnedAt entry
        then (with_learned s (lru_drop ipStr (learnedIPCache s)), none)
        else (refresh s ipStr entry now2, ((true, Some (l_set entry)), l_domain entry))
    end.

Definition MatchLearnedIPWithSource s (ip : bytes) (srcMAC : string) (now1 now2 : Z) : SuffixSet * (result * string) :=
  let none := ((false, None), ""%string) in
  if bool_decide (ip = []) then (s, none)
  else
    let ipStr := ip_string ip in
    match entries (learnedIPCache s) !! ipStr with
    | None => (s, none)
    | Some entry =>
        if DomainOnly (Targets (l_set entry)) then (s, none)
        else if learnedIPTTL <? now1 - learnedAt entry
        then (with_learned s (lru_drop ipStr (learnedIPCache s)), none)
        else if negb (setMatchesSource (l_set entry) srcMAC) then
          let '(matched, altSet) := MatchSNIWithSourceTLS s (l_domain entry) srcMAC 0 (ipVersionOf ip) in
          if matched then (refresh s ipStr entry now2, ((true, altSet), l_domain entry)) else (s, none)
        else (refresh s ipStr entry now2, ((true, Some (l_set entry)), l_domain entry))
    end.

(** The entries of the old cache that are young enough are learned again by the new
    matcher, for the sets that match their domains now.  [iter] is the old cache in the
    order in which Go visits the map, [now2] the clock when an entry is learned. *)
Fixpoint transfer s (todo : list (string * learnedIPEntry)) (now : string → Z) : SuffixSet :=
  match todo with
  | [] => s
  | (ipStr, e) :: todo =>
      let '(s, (matched, newSet)) := MatchSNI s (l_domain e) in
      let s := if matched then match ParseIP ipStr with
                               | Some ip => LearnIPToDomain s ip (l_domain e) newSet (now ipStr)
                               | None => s
                               end
               else s in
      transfer s todo now
  end.
Definition TransferLearnedIPs s (iter : list (string * learnedIPEntry)) (now1 : Z) (now2 : string → Z) :
    SuffixSet :=
  transfer s (filter (λ x, (now1 - learnedAt (snd x) <=? learnedIPTTL) = true) iter) now2.

(** ** The answers without caches *)

Definition ref_domain ru (host : string) : result := found (lookup_suffix (sets ru) host).
Definition ref_regex ru (host : string) : result := found (find_regex (regexes ru) host).
Definition ref_sni ru (host : string) : result :=
  if no_domains ru || bool_decide (host = "") then (false, None)
  else if fst (ref_domain ru (ToLower host)) then ref_domain ru (ToLower host)
  else ref_regex ru (ToLower host).
Definition ref_ip ru (ip : bytes) : result := if bool_decide (ip = []) then (false, None) else found (lookup_ip ru ip).

(** What every state of a matcher satisfies: the caches are in order and hold the answers
    for their keys; a set that only matches by domain is never learned. *)
Record matcher_ok s : Prop := {
  domains_lru : lru_ok domainCacheLimit (domainCache s);
  domains_ok h e : entries (domainCache s) !! h = Some e → e = ref_domain (r s) h;
  regex_ok h e : regexCache s !! h = Some e → e = ref_regex (r s) h;
  ips_lru : lru_ok ipCacheLimit (ipCache s);
  ips_ok k e : entries (ipCache s) !! k = Some e → ∃ ip, ip_valid ip ∧ ip_string ip = k ∧ e = found (lookup_ip (r s) ip);
  learned_lru : lru_ok learnedIPCacheLimit (learnedIPCache s);
  learned_ok k e : entries (learnedIPCache s) !! k = Some e → DomainOnly (Targets (l_set e)) = false }.

Lemma NewSuffixSet_ok cfgs : matcher_ok (NewSuffixSet cfgs).
Proof.
  split; cbn; try (by apply lru_empty_ok); intros ? ?; by rewrite lookup_empty.
Qed.

Lemma domain_put_ok s host : matcher_ok s →
  let '(s', res) := domain_put s host (found (lookup_suffix (sets (r s)) host)) in
  matcher_ok s' ∧ r s' = r s ∧ regexCache s' = regexCache s ∧ ipCache s' = ipCache s
  ∧ learnedIPCache s' = learnedIPCache s ∧ res = ref_domain (r s) host
  ∧ order (domainCache s') = take (Z.to_nat domainCacheLimit) (to_front host (order (domainCache s))).
Proof.
  intros Hok. pose proof Hok as [Hl Hd Hr Hil Hi Hll Hle]. unfold domain_put.
  destruct (entries (domainCache s) !! host) as [e|] eqn:E.
  - assert (host ∈ order (domainCache s)) as Hin by (apply (lru_in _ _ _ Hl); by exists e).
    split_and!; try done; [split; cbn; try done; by apply lru_touch_ok|by apply Hd|].
    cbn. rewrite take_ge; [done|]. rewrite to_front_perm by (done || apply Hl).
    destruct Hl. lia.
  - assert (host ∉ order (domainCache s)) as Hin.
    { intros Hin%(lru_in _ _ _ Hl). rewrite E in Hin. by inversion Hin. }
    destruct (lru_add_spec domainCacheLimit host (ref_domain (r s) host) (domainCache s) ltac:(done) Hl Hin)
      as (H1 & H2 & H3 & H4).
    split_and!; try done. split; cbn; try done. intros h e' He.
    destruct (decide (h = host)) as [->|Hne]; [apply (inj Some); etransitivity; [symmetry; exact He|exact H3]|]. eapply Hd, H4; done.
Qed.

(** Both locked sections leave what a whole lookup leaves. *)
Lemma domain_take_put s host res hit : domain_take s host = Some hit → domain_put s host res = hit.
Proof. unfold domain_take, domain_put. by destruct (entries _ !! host); intros [= <-]. Qed.
Lemma matchDomain_put s host : matchDomain s host = domain_put s host (found (lookup_suffix (sets (r s)) host)).
Proof. unfold matchDomain. destruct (domain_take s host) eqn:E; [|done]. by rewrite (domain_take_put _ _ _ _ E). Qed.

Lemma matchDomain_ok s host : matcher_ok s →
  let '(s', res) := matchDomain s host in
  matcher_ok s' ∧ r s' = r s ∧ regexCache s' = regexCache s ∧ ipCache s' = ipCache s
  ∧ learnedIPCache s' = learnedIPCache s ∧ res = ref_domain (r s) host
  ∧ order (domainCache s') = take (Z.to_nat domainCacheLimit) (to_front host (order (domainCache s))).
Proof. rewrite matchDomain_put. apply domain_put_ok. Qed.

Lemma regex_store_ok s host : matcher_ok s → matcher_ok (regex_store s host (ref_regex (r s) host)).
Proof.
  intros [Hl Hd Hr Hil Hi Hll Hle]. split; cbn; try done. intros h e.
  intros [[<- <-]|[_ He]]%lookup_insert_Some; [done|by apply Hr].
Qed.
Lemma regex_add_ok s : matcher_ok s → matcher_ok (regex_add s).
Proof. intros []. by split. Qed.

Lemma matchRegex_ok s host : matcher_ok s →
  let '(s', res) := matchRegex s host in
  matcher_ok s' ∧ r s' = r s ∧ domainCache s' = domainCache s ∧ ipCache s' = ipCache s
  ∧ learnedIPCache s' = learnedIPCache s ∧ res = ref_regex (r s) host.
Proof.
  intros Hok. unfold matchRegex, regex_load.
  destruct (regexCache s !! host) as [e|] eqn:E; [split_and!; try done; by apply (regex_ok s Hok)|].
  destruct (regex_room s); [|done]. split_and!; try done. by apply regex_add_ok, regex_store_ok.
Qed.

(** One lookup of a name: the answer is the one without caches. *)
Lemma MatchSNI_ok s host : matcher_ok s →
  let '(s', res) := MatchSNI s host in
  matcher_ok s' ∧ r s' = r s ∧ ipCache s' = ipCache s ∧ learnedIPCache s' = learnedIPCache s
  ∧ res = ref_sni (r s) host
  ∧ order (domainCache s') = if no_domains (r s) || bool_decide (host = "") then order (domainCache s)
      else take (Z.to_nat domainCacheLimit) (to_front (ToLower host) (order (domainCache s))).
Proof.
  intros Hok. unfold MatchSNI, ref_sni. destruct (_ || _); [done|].
  pose proof (matchDomain_ok s (ToLower host) Hok) as H'.
  destruct (matchDomain s (ToLower host)) as [s1 [matched set]].
  destruct H' as (Hok1 & Hr & Hrc & Hi & Hle & Hres & Ho). rewrite <- Hres. cbn [fst].
  destruct matched; [done|]. rewrite Hr.
  case_bool_decide as E.
  - split_and!; try done. unfold ref_regex, find_regex.
    by destruct (regexes (r s)).
  - pose proof (matchRegex_ok s1 (ToLower host) Hok1) as H'.
    destruct (matchRegex s1 (ToLower host)) as [s2 res]. destruct H' as (Hok2 & Hr2 & Hd2 & Hi2 & Hl2 & ->).
    rewrite Hr2, Hr, Hd2, Hi2, Hl2. done.
Qed.

Lemma lookup_ip_same ru a b : ip_valid a → ip_valid b → ip_string a = ip_string b → lookup_ip ru a = lookup_ip ru b.
Proof.
  intros Ha Hb E. unfold lookup_ip. by rewrite (ContainingNetworks_To16 _ a b (ip_string_inj a b Ha Hb E)).
Qed.

Lemma ip_take_ok s ip : matcher_ok s → ip_valid ip →
  match ip_take s (ip_string ip) with
  | Some (s', res) =>
      matcher_ok s' ∧ r s' = r s ∧ domainCache s' = domainCache s ∧ learnedIPCache s' = learnedIPCache s
      ∧ res = found (lookup_ip (r s) ip)
      ∧ order (ipCache s') = take (Z.to_nat ipCacheLimit) (to_front (ip_string ip) (order (ipCache s)))
  | None => entries (ipCache s) !! ip_string ip = None
  end.
Proof.
  intros Hok Hip. pose proof Hok as [Hl Hd Hr Hil Hi Hll Hle]. unfold ip_take.
  destruct (entries (ipCache s) !! ip_string ip) as [e|] eqn:E; [|done].
  assert (ip_string ip ∈ order (ipCache s)) as Hin by (apply (lru_in _ _ _ Hil); by exists e).
  split_and!; try done.
  - split; cbn; try done. by apply lru_touch_ok.
  - destruct (Hi _ _ E) as (ip' & Hv & Hs & ->). f_equal. by apply lookup_ip_same.
  - cbn. rewrite take_ge; [done|]. rewrite to_front_perm by (done || apply Hil). destruct Hil. lia.
Qed.

Lemma cacheIPResult_ok s ip : matcher_ok s → ip_valid ip →
  let s' := cacheIPResult s (ip_string ip) (found (lookup_ip (r s) ip)) in
  matcher_ok s' ∧ r s' = r s ∧ domainCache s' = domainCache s ∧ learnedIPCache s' = learnedIPCache s
  ∧ order (ipCache s') = take (Z.to_nat ipCacheLimit) (to_front (ip_string ip) (order (ipCache s))).
Proof.
  intros Hok Hip. pose proof (ip_take_ok s ip Hok Hip) as Ht. unfold ip_take in Ht. unfold cacheIPResult.
  destruct (entries (ipCache s) !! ip_string ip) as [e|] eqn:E; [tauto|].
  pose proof Hok as [Hl Hd Hr Hil Hi Hll Hle].
  assert (ip_string ip ∉ order (ipCache s)) as Hin.
  { intros Hin%(lru_in _ _ _ Hil). rewrite E in Hin. by inversion Hin. }
  destruct (lru_add_spec ipCacheLimit (ip_string ip) (found (lookup_ip (r s) ip)) (ipCache s) ltac:(done) Hil Hin)
    as (H1 & H2 & H3 & H4).
  split_and!; try done. split; cbn; try done. intros h e' He.
  destruct (decide (h = ip_string ip)) as [->|Hne]; [exists ip; split_and!; [done..|]; apply (inj Some); etransitivity; [symmetry; exact He|exact H3]|].
  eapply Hi, H4; done.
Qed.

Lemma MatchIP_ok s ip : matcher_ok s → ip_valid ip →
  let '(s', res) := MatchIP s ip in
  matcher_ok s' ∧ r s' = r s ∧ domainCache s' = domainCache s ∧ learnedIPCache s' = learnedIPCache s
  ∧ res = ref_ip (r s) ip
  ∧ order (ipCache s') = take (Z.to_nat ipCacheLimit) (to_front (ip_string ip) (order (ipCache s))).
Proof.
  intros Hok Hip. unfold MatchIP, ref_ip. rewrite bool_decide_false by (intros ->; destruct Hip as [_ []]; done).
  pose proof (ip_take_ok s ip Hok Hip) as Ht. destruct (ip_take s (ip_string ip)) as [[s' res]|]; [done|].
  destruct (cacheIPResult_ok s ip Hok Hip) as (? & ? & ? & ? & ?). done.
Qed.

Lemma with_learned_ok s c : matcher_ok s → lru_ok learnedIPCacheLimit c →
  (∀ k e, entries c !! k = Some e → DomainOnly (Targets (l_set e)) = false) → matcher_ok (with_learned s c).
Proof. intros [] Hc He. by split. Qed.

Lemma LearnIPToDomain_ok s ip domain set now : matcher_ok s → matcher_ok (LearnIPToDomain s ip domain set now).
Proof.
  intros Hok. pose proof Hok as [_ _ _ _ _ Hll Hle]. unfold LearnIPToDomain.
  destruct set as [set|]; [|done]. destruct (_ || _) eqn:E; [done|].
  assert (DomainOnly (Targets set) = false) as Hdo by (destruct (DomainOnly (Targets set)); [|done]; by rewrite orb_true_r in E).
  cbv zeta. set (entry := {| l_domain := domain |}).
  destruct (entries (learnedIPCache s) !! ip_string ip) as [e|] eqn:El.
  - apply with_learned_ok; [done|apply lru_set_ok; [done|apply (lru_in _ _ _ Hll); by exists e]|].
    intros k e'. cbn. intros [[<- <-]|[_ ?]]%lookup_insert_Some; [done|by eapply Hle].
  - assert (ip_string ip ∉ order (learnedIPCache s)) as Hin.
    { intros Hin%(lru_in _ _ _ Hll). rewrite El in Hin. by inversion Hin. }
    destruct (lru_add_spec learnedIPCacheLimit (ip_string ip) entry (learnedIPCache s) ltac:(done) Hll Hin)
      as (H1 & H2 & H3 & H4).
    apply with_learned_ok; [done..|]. intros k e' He. destruct (decide (k = ip_string ip)) as [->|Hne].
    + assert (Some e' = Some entry) as [= ->] by (etransitivity; [symmetry; exact He|exact H3]). done.
    + eapply Hle, H4; done.
Qed.

Lemma refresh_ok s k e now : matcher_ok s → entries (learnedIPCache s) !! k = Some e →
  matcher_ok (refresh s k e now).
Proof.
  intros Hok He. pose proof Hok as [_ _ _ _ _ Hll Hle]. apply with_learned_ok; [done| |].
  - apply lru_set_ok; [done|]. apply (lru_in _ _ _ Hll). by exists e.
  - intros k' e'. cbn. intros [[_ <-]|[_ ?]]%lookup_insert_Some; [exact (Hle k e He)|by eapply Hle].
Qed.
Lemma drop_learned_ok s k : matcher_ok s → matcher_ok (with_learned s (lru_drop k (learnedIPCache s))).
Proof.
  intros Hok. pose proof Hok as [_ _ _ _ _ Hll Hle]. apply with_learned_ok; [done|by apply lru_drop_ok|].
  intros k' e'. cbn. intros [_ ?]%lookup_delete_Some. by eapply Hle.
Qed.
Lemma MatchLearnedIP_ok s ip now1 now2 : matcher_ok s → matcher_ok (fst (MatchLearnedIP s ip now1 now2)).
Proof.
  intros Hok. unfold MatchLearnedIP. repeat case_match; cbn; auto using drop_learned_ok, refresh_ok.
Qed.
Lemma MatchLearnedIPWithSource_ok s ip mac now1 now2 : matcher_ok s →
  matcher_ok (fst (MatchLearnedIPWithSource s ip mac now1 now2)).
Proof.
  intros Hok. unfold MatchLearnedIPWithSource. repeat case_match; cbn; auto using drop_learned_ok, refresh_ok.
Qed.

Lemma transfer_ok s todo now : matcher_ok s → matcher_ok (transfer s todo now).
Proof.
  revert s. induction todo as [|[k e] todo IH]; intros s Hok; [done|]. cbn [transfer].
  pose proof (MatchSNI_ok s (l_domain e) Hok) as Hm. destruct (MatchSNI s (l_domain e)) as [s1 [matched newSet]].
  destruct Hm as (Hok1 & _). apply IH. repeat case_match; auto using LearnIPToDomain_ok.
Qed.

(** ** Histories *)

(** The calls that change a matcher; the others only read it. *)
Inductive call :=
  | CMatchSNI (host : string)
  | CMatchIP (ip : bytes)
  | CLearn (ip : bytes) (domain : string) (set : option SetConfig) (now : Z)
  | CMatchLearned (ip : bytes) (now1 now2 : Z)
  | CMatchLearnedSource (ip : bytes) (mac : string) (now1 now2 : Z).
Definition do_call s (c : call) : SuffixSet :=
  match c with
  | CMatchSNI host => fst (MatchSNI s host)
  | CMatchIP ip => fst (MatchIP s ip)
  | CLearn ip domain set now => LearnIPToDomain s ip domain set now
  | CMatchLearned ip now1 now2 => fst (MatchLearnedIP s ip now1 now2)
  | CMatchLearnedSource ip mac now1 now2 => fst (MatchLearnedIPWithSource s ip mac now1 now2)
  end.
Definition call_ok (c : call) : Prop := match c with CMatchIP ip => ip_valid ip | _ => True end.
(** The calls of a history, the last one first. *)
Fixpoint after (s : SuffixSet) (calls : list call) : SuffixSet :=
  match calls with [] => s | c :: calls => do_call (after s calls) c end.

(** The names and the addresses a history looks up. *)
Definition looked_up ru (c : call) : option string :=
  match c with
  | CMatchSNI host => if no_domains ru || bool_decide (host = "") then None else Some (ToLower host)
  | _ => None
  end.
Definition ip_looked_up (c : call) : option string :=
  match c with CMatchIP ip => Some (ip_string ip) | _ => None end.

Lemma learn_same s ip domain set now : r (LearnIPToDomain s ip domain set now) = r s
  ∧ domainCache (LearnIPToDomain s ip domain set now) = domainCache s
  ∧ ipCache (LearnIPToDomain s ip domain set now) = ipCache s.
Proof. unfold LearnIPToDomain. repeat case_match; done. Qed.
Lemma matchlearned_same s ip mac now1 now2 :
  let s1 := fst (MatchLearnedIP s ip now1 now2) in let s2 := fst (MatchLearnedIPWithSource s ip mac now1 now2) in
  (r s1 = r s ∧ domainCache s1 = domainCache s ∧ ipCache s1 = ipCache s)
  ∧ (r s2 = r s ∧ domainCache s2 = domainCache s ∧ ipCache s2 = ipCache s).
Proof. cbv zeta. unfold MatchLearnedIP, MatchLearnedIPWithSource. split; repeat case_match; done. Qed.

Lemma after_ok cfgs calls : Forall call_ok calls →
  let s := after (NewSuffixSet cfgs) calls in
  matcher_ok s ∧ r s = build_rules cfgs
  ∧ order (domainCache s) = recent domainCacheLimit (omap (looked_up (build_rules cfgs)) calls)
  ∧ order (ipCache s) = recent ipCacheLimit (omap ip_looked_up calls).
Proof.
  cbv zeta. induction calls as [|c calls IH]; intros Hc.
  { split; [apply NewSuffixSet_ok|]. done. }
  inversion Hc as [|? ? Hc1 Hc2]; subst. destruct (IH Hc2) as (Hok & Hr & Hd & Hi). cbn [after].
  set (s := after _ calls) in *. destruct c as [host|ip|ip domain set now|ip now1 now2|ip mac now1 now2]; cbn [do_call].
  - pose proof (MatchSNI_ok s host Hok) as Hm. destruct (MatchSNI s host) as [s' res].
    destruct Hm as (Hok' & Hr' & Hi' & _ & _ & Ho). cbn [fst]. rewrite Hr' in *. rewrite Hi', Ho, Hr.
    cbn [omap list_omap looked_up ip_looked_up]. split_and!; [done..| |done].
    clear Ho. destruct (no_domains (build_rules cfgs) || _); [exact Hd|]. rewrite recent_cons. by rewrite Hd.
  - pose proof (MatchIP_ok s ip Hok Hc1) as Hm. destruct (MatchIP s ip) as [s' res].
    destruct Hm as (Hok' & Hr' & Hd' & _ & _ & Ho). cbn [fst]. rewrite Hr', Hd', Ho.
    cbn [omap list_omap looked_up ip_looked_up]. split_and!; [done..|]. rewrite recent_cons. by rewrite Hi.
  - pose proof (learn_same s ip domain set now) as (-> & -> & ->).
    split_and!; [by apply LearnIPToDomain_ok|done..].
  - pose proof (matchlearned_same s ip "" now1 now2) as [(E1 & E2 & E3) _]. rewrite E1, E2, E3.
    split_and!; [by apply MatchLearnedIP_ok|done..].
  - pose proof (matchlearned_same s ip mac now1 now2) as [_ (E1 & E2 & E3)]. rewrite E1, E2, E3.
    split_and!; [by apply MatchLearnedIPWithSource_ok|done..].
Qed.

(** ** The suffix that matches *)

(** A listed name covers the host when it is the host or follows one of its dots. *)
Definition suffix_of (d host : string) : Prop := d = host ∨ ∃ pre, chars host = pre ++ ("."%char :: chars d).

Lemma suffix_length d host : suffix_of d host → (length (chars d) <= length (chars host))%nat.
Proof. intros [->|[pre ->]]; [done|]. rewrite length_app. cbn. lia. Qed.

Lemma suffix_unique d d' host : suffix_of d host → suffix_of d' host → length (chars d) = length (chars d') → d = d'.
Proof.
  assert (∀ d host, suffix_of d host → ∃ pre, chars host = pre ++ chars d) as S.
  { intros x h [->|[pre E]]; [by exists []|]. exists (pre ++ ["."%char]). by rewrite <- app_assoc. }
  intros [p1 E1]%S [p2 E2]%S Hl. apply chars_inj. rewrite E1 in E2.
  assert (length p1 = length p2) as Hp.
  { apply (f_equal length) in E2. rewrite !length_app in E2. lia. }
  by apply app_inj_1 in E2 as [_ ?].
Qed.

Lemma lookup_parents_spec {A} (m : gmap string A) (host : list ascii) :
  match lookup_parents m host with
  | Some x => ∃ d pre, host = pre ++ ("."%char :: chars d) ∧ m !! d = Some x
      ∧ ∀ d' pre', host = pre' ++ ("."%char :: chars d') → is_Some (m !! d') → (length (chars d') <= length (chars d))%nat
  | None => ∀ d pre, host = pre ++ ("."%char :: chars d) → m !! d = None
  end.
Proof.
  induction host as [|a l IH]; cbn [lookup_parents]; [by intros d []|].
  assert (∀ d pre, a :: l = pre ++ ("."%char :: chars d) →
    (pre = [] ∧ a = "."%char ∧ l = chars d) ∨ ∃ pre', l = pre' ++ ("."%char :: chars d)) as Hsplit.
  { intros d [|b pre] E; cbn in E; injection E as -> E; [by left|right; by exists pre]. }
  destruct (decide (a = "."%char)) as [->|Ha].
  - destruct (m !! str l) as [x|] eqn:E.
    + exists (str l), []. rewrite chars_str. split_and!; [done..|].
      intros d' pre' [(_ & _ & ->)|[p ->]]%Hsplit _; [done|]. rewrite length_app. cbn. lia.
    + destruct (lookup_parents m l) as [x|].
      * destruct IH as (d & pre & El & Hd & Hmax). exists d, ("."%char :: pre). split_and!; [by rewrite El|done|].
        intros d' pre' [(_ & _ & ->)|[p Ep]]%Hsplit Hd'; [|by eapply Hmax].
        rewrite str_chars in E. rewrite E in Hd'. by inversion Hd'.
      * intros d pre [(_ & _ & ->)|[p Ep]]%Hsplit; [by rewrite str_chars in E|by eapply IH].
  - destruct (lookup_parents m l) as [x|].
    + destruct IH as (d & pre & El & Hd & Hmax). exists d, (a :: pre). split_and!; [by rewrite El|done|].
      intros d' pre' [(_ & ? & _)|[p Ep]]%Hsplit Hd'; [done|by eapply Hmax].
    + intros d pre [(_ & ? & _)|[p Ep]]%Hsplit; [done|by eapply IH].
Qed.

(** [lookup_suffix] finds the longest name of the map that covers the host. *)
Lemma lookup_suffix_spec {A} (m : gmap string A) (host : string) :
  match lookup_suffix m host with
  | Some x => ∃ d, suffix_of d host ∧ m !! d = Some x
      ∧ ∀ d', suffix_of d' host → is_Some (m !! d') → (length (chars d') <= length (chars d))%nat
  | None => ∀ d, suffix_of d host → m !! d = None
  end.
Proof.
  unfold lookup_suffix. destruct (m !! host) as [x|] eqn:E.
  - exists host. split_and!; [by left|done|]. intros d' Hd' _. by apply suffix_length.
  - pose proof (lookup_parents_spec m (chars host)) as Hp. destruct (lookup_parents m (chars host)) as [x|].
    + destruct Hp as (d & pre & Ed & Hd & Hmax). exists d. split_and!; [right; by exists pre|done|].
      intros d' [->|[pre' E']] Hs; [rewrite E in Hs; by inversion Hs|by eapply Hmax].
    + intros d [->|[pre Ep]]; [done|by eapply Hp].
Qed.

(** ** What the sets list *)

Definition norm_domain (d : string) : option string :=
  let d := ToLower (TrimSpace d) in
  if bool_decide (d = "") || HasPrefix d "regexp:" then None else Some (TrimRight d ".").
Definition domain_names (set : SetConfig) : list string := omap norm_domain (DomainsToMatch (Targets set)).
Definition lists (d : string) (set : SetConfig) : list SetConfig :=
  if Enabled set then map (λ _, set) (filter (λ x, x = d) (domain_names set)) else [].
(** The enabled sets that list [d], in the order of the configuration. *)
Definition listers (cfgs : list SetConfig) (d : string) : list SetConfig := concat (map (lists d) cfgs).

Definition holds_names ru (acc : string → list SetConfig) : Prop :=
  ∀ d, default [] (multiSets ru !! d) = acc d ∧ multiSets ru !! d ≠ Some [] ∧ sets ru !! d = head (acc d).

Lemma add_domain_names set ru seen d acc : holds_names ru acc →
  holds_names (fst (add_domain set (ru, seen) d))
    (λ x, acc x ++ if bool_decide (norm_domain d = Some x) then [set] else []).
Proof.
  intros Hn. unfold add_domain, norm_domain. set (y := ToLower (TrimSpace d)).
  assert (∀ ru', multiSets ru' = multiSets ru → sets ru' = sets ru → norm_domain d = None →
    holds_names ru' (λ x, acc x ++ if bool_decide (@None string = Some x) then [set] else [])) as Hsame.
  { intros ru' E1 E2 _ x. rewrite bool_decide_false by done. rewrite app_nil_r, E1, E2. apply Hn. }
  unfold norm_domain in Hsame. fold y in Hsame.
  case_bool_decide as Ey; cbn [orb]; [by apply Hsame|].
  destruct (HasPrefix y "regexp:"); cbn [orb] in *.
  - case_bool_decide; [by apply Hsame|]. destruct (Compile _); by apply Hsame.
  - intros x. destruct (Hn x) as (H1 & H2 & H3). cbn [fst multiSets sets]. set (k := TrimRight y ".").
    destruct (decide (x = k)) as [->|Hne].
    + rewrite bool_decide_true by done. rewrite lookup_insert_eq. cbn [default from_option id]. rewrite H1.
      split_and!; [done|by destruct (acc k)|].
      destruct (sets ru !! k) as [v|] eqn:E.
      * rewrite E. destruct (acc k); [done|by simplify_eq/=].
      * rewrite lookup_insert_eq. destruct (acc k); [done|by simplify_eq/=].
    + rewrite bool_decide_false by congruence. rewrite app_nil_r, lookup_insert_ne by congruence.
      split_and!; [done..|]. destruct (sets ru !! k); [done|]. by rewrite lookup_insert_ne by congruence.
Qed.

Lemma holds_names_ext ru acc acc' : (∀ d, acc d = acc' d) → holds_names ru acc → holds_names ru acc'.
Proof. intros E Hn d. rewrite <- E. apply Hn. Qed.

Lemma add_domains_names set ds ru seen acc : holds_names ru acc →
  holds_names (fst (foldl (add_domain set) (ru, seen) ds))
    (λ x, acc x ++ map (λ _, set) (filter (λ y, y = x) (omap norm_domain ds))).
Proof.
  revert ru seen acc. induction ds as [|d ds IH]; intros ru seen acc Hn; cbn [foldl].
  - eapply holds_names_ext; [|exact Hn]. intros x. cbn. by rewrite app_nil_r.
  - pose proof (add_domain_names set ru seen d acc Hn) as Hd.
    destruct (add_domain set (ru, seen) d) as [ru1 seen1]. specialize (IH ru1 seen1 _ Hd).
    eapply holds_names_ext; [|exact IH]. intros x. cbn beta. rewrite <- app_assoc. f_equal.
    cbn [omap list_omap]. destruct (norm_domain d) as [y|]; [|by rewrite bool_decide_false].
    rewrite filter_cons. destruct (decide (y = x)) as [->|]; [by rewrite bool_decide_true|by rewrite bool_decide_false by congruence].
Qed.

Lemma add_ips_names set ips ru acc : holds_names ru acc → holds_names (foldl (add_ip set) ru ips) acc.
Proof.
  revert ru. induction ips as [|ip ips IH]; intros ru Hn; [done|]. cbn [foldl]. apply IH.
  unfold add_ip. repeat case_match; done.
Qed.

Lemma build_rules_names cfgs d :
  default [] (multiSets (build_rules cfgs) !! d) = listers cfgs d
  ∧ multiSets (build_rules cfgs) !! d ≠ Some [] ∧ sets (build_rules cfgs) !! d = head (listers cfgs d).
Proof.
  unfold build_rules, listers.
  assert (∀ cfgs ru seen acc, holds_names ru acc →
    holds_names (fst (foldl add_set (ru, seen) cfgs)) (λ d, acc d ++ concat (map (lists d) cfgs))) as Hf.
  { clear. induction cfgs as [|set cfgs IH]; intros ru seen acc Hn; cbn [foldl].
    - eapply holds_names_ext; [|exact Hn]. intros x. cbn. by rewrite app_nil_r.
    - unfold add_set at 2. destruct (Enabled set) eqn:E; cbn [negb].
      + pose proof (add_domains_names set (DomainsToMatch (Targets set)) ru seen acc Hn) as Hd.
        destruct (foldl _ (ru, seen) _) as [ru1 seen1]. cbn [fst] in Hd.
        assert (holds_names (add_ports set (foldl (add_ip set) ru1 (IpsToMatch (Targets set))))
          (λ x, acc x ++ map (λ _, set) (filter (λ y, y = x) (domain_names set)))) as Hd2.
        { pose proof (add_ips_names set (IpsToMatch (Targets set)) ru1 _ Hd) as Hi. intros x. apply Hi. }
        eapply holds_names_ext; [|apply (IH _ seen1 _ Hd2)]. intros x. cbn [map concat].
        assert (lists x set = map (λ _, set) (filter (λ y, y = x) (domain_names set))) as -> by (unfold lists; by rewrite E).
        by rewrite <- app_assoc.
      + eapply holds_names_ext; [|apply (IH ru seen acc Hn)]. intros x. cbn [map concat].
        assert (lists x set = []) as -> by (unfold lists; by rewrite E). done. }
  apply (Hf cfgs no_rules ∅ (λ _, [])). intros x. cbn. by rewrite !lookup_empty.
Qed.

(** The set of the longest listed name that covers a host. *)
Lemma ref_domain_longest cfgs host :
  (∀ d set, suffix_of d host → head (listers cfgs d) = Some set →
     (∀ d', suffix_of d' host → listers cfgs d' ≠ [] → (length (chars d') <= length (chars d))%nat) →
     ref_domain (build_rules cfgs) host = (true, Some set))
  ∧ ((∀ d, suffix_of d host → listers cfgs d = []) → ref_domain (build_rules cfgs) host = (false, None)).
Proof.
  unfold ref_domain. pose proof (lookup_suffix_spec (sets (build_rules cfgs)) host) as Hs.
  assert (∀ d, is_Some (sets (build_rules cfgs) !! d) ↔ listers cfgs d ≠ []) as Hd.
  { intros d. destruct (build_rules_names cfgs d) as (_ & _ & ->). destruct (listers cfgs d); cbn; split; try done. }
  destruct (lookup_suffix _ host) as [x|]; cbn [found]; split.
  - intros d set Hsuf Hset Hmax. destruct Hs as (d1 & Hs1 & Hm1 & Hmax1).
    assert (d = d1) as <-.
    { apply (suffix_unique _ _ host); [done..|]. apply Nat.le_antisymm.
      - apply Hmax1; [done|]. apply Hd. by destruct (listers cfgs d).
      - apply Hmax; [done|]. apply Hd. by exists x. }
    destruct (build_rules_names cfgs d) as (_ & _ & E). congruence.
  - intros Hno. destruct Hs as (d1 & Hs1 & Hm1 & _). assert (listers cfgs d1 ≠ []) as Hl by (apply Hd; by exists x).
    by rewrite Hno in Hl.
  - intros d set Hsuf Hset _. pose proof (Hs d Hsuf) as E.
    destruct (build_rules_names cfgs d) as (_ & _ & E'). congruence.
  - done.
Qed.

(** ** The selection among candidates *)

Lemma find_some_in {A} (f : A → bool) l x : List.find f l = Some x → x ∈ l ∧ f x = true.
Proof. intros [Hin Hf]%List.find_some. split; [by apply list_elem_of_In|done]. Qed.
Lemma find_none_in {A} (f : A → bool) l x : List.find f l = None → x ∈ l → f x = false.
Proof. intros H Hx. eapply List.find_none; [done|]. by apply list_elem_of_In. Qed.

(** A set without devices matches every source. *)
Lemma no_devices_source set mac : has_devices set = false → setMatchesSource set mac = true.
Proof. unfold has_devices, setMatchesSource. by destruct (bool_decide _). Qed.

Lemma matches_versions_any set tls ip : matches_versions set tls ip = true → matches_versions set 0 0 = true.
Proof.
  unfold matches_versions, MatchesTLSVersion, MatchesIPVersion. cbn [Z.eqb orb].
  repeat case_match; try done; by rewrite ?andb_false_r.
Qed.

Lemma select_once_spec cands mac tls ip :
  match select_once cands mac tls ip with
  | Some set => set ∈ cands ∧ setMatchesSource set mac = true ∧ matches_versions set tls ip = true
      ∧ (has_devices set = false → ∀ c, c ∈ cands → has_devices c = true →
           setMatchesSource c mac = true → matches_versions c tls ip = false)
  | None => ∀ c, c ∈ cands → setMatchesSource c mac = true → matches_versions c tls ip = false
  end.
Proof.
  unfold select_once. destruct (List.find _ cands) as [set|] eqn:E.
  - apply find_some_in in E as [Hin Hf]. apply andb_prop in Hf as [Hf Hv]. apply andb_prop in Hf as [Hd Hs].
    split_and!; [done..|congruence].
  - assert (∀ c, c ∈ cands → has_devices c = true → setMatchesSource c mac = true → matches_versions c tls ip = false) as Hno.
    { intros c Hc Hd Hs. pose proof (find_none_in _ _ c E Hc) as Hf. cbn in Hf. by rewrite Hd, Hs in Hf. }
    destruct (List.find (λ set, negb (has_devices set) && matches_versions set tls ip) cands) as [set|] eqn:E2.
    + apply find_some_in in E2 as [Hin Hf]. apply andb_prop in Hf as [Hd Hv]. apply negb_true_iff in Hd.
      split_and!; [done|by apply no_devices_source|done|done].
    + intros c Hc Hs. destruct (has_devices c) eqn:Hd; [by apply Hno|].
      pose proof (find_none_in _ _ c E2 Hc) as Hf. cbn in Hf. by rewrite Hd in Hf.
Qed.

Lemma selectSetBySourceAndTLS_cands cands mac tls ip set :
  snd (selectSetBySourceAndTLS cands mac tls ip) = Some set → set ∈ cands.
Proof.
  unfold selectSetBySourceAndTLS. pose proof (select_once_spec cands mac tls ip) as H1.
  pose proof (select_once_spec cands mac 0 0) as H0.
  destruct (select_once cands mac tls ip) as [x|]; [intros [= ->]; apply H1|].
  destruct (_ || _); [|done]. destruct (select_once cands mac 0 0) as [x|]; [intros [= ->]; apply H0|done].
Qed.

(** ** Learned addresses *)

Lemma learned_lookup s ip domain set now : matcher_ok s → ip ≠ [] → domain ≠ "" → DomainOnly (Targets set) = false →
  entries (learnedIPCache (LearnIPToDomain s ip domain (Some set) now)) !! ip_string ip
  = Some {| l_domain := domain; l_set := set; learnedAt := now |}.
Proof.
  intros Hok Hip Hdom Hdo. pose proof (learned_lru s Hok) as Hll. unfold LearnIPToDomain.
  rewrite !bool_decide_false, Hdo by done. cbn [orb]. cbv zeta. set (entry := {| l_domain := domain |}).
  destruct (entries (learnedIPCache s) !! ip_string ip) as [e|] eqn:El.
  - cbn. by rewrite lookup_insert_eq.
  - assert (ip_string ip ∉ order (learnedIPCache s)) as Hin.
    { intros Hin%(lru_in _ _ _ Hll). rewrite El in Hin. by inversion Hin. }
    by destruct (lru_add_spec learnedIPCacheLimit (ip_string ip) entry (learnedIPCache s) ltac:(done) Hll Hin)
      as (_ & _ & ? & _).
Qed.

(** Every learned set is the one its domain matches under the rules. *)
Definition learned_current s : Prop :=
  ∀ k e, entries (learnedIPCache s) !! k = Some e → ref_sni (r s) (l_domain e) = (true, Some (l_set e)).

Lemma learn_current s ip domain set now : matcher_ok s → learned_current s →
  ref_sni (r s) domain = (true, set) → learned_current (LearnIPToDomain s ip domain set now).
Proof.
  intros Hok Hc Hset. pose proof (learned_lru s Hok) as Hll. unfold LearnIPToDomain.
  destruct set as [set|]; [|done]. destruct (_ || _); [done|]. cbv zeta. set (entry := {| l_domain := domain |}).
  destruct (entries (learnedIPCache s) !! ip_string ip) as [e0|] eqn:El; intros k e; cbn [r with_learned learnedIPCache].
  - cbn. intros [[_ <-]|[_ ?]]%lookup_insert_Some; [done|by eapply Hc].
  - assert (ip_string ip ∉ order (learnedIPCache s)) as Hin.
    { intros Hin%(lru_in _ _ _ Hll). rewrite El in Hin. by inversion Hin. }
    destruct (lru_add_spec learnedIPCacheLimit (ip_string ip) entry (learnedIPCache s) ltac:(done) Hll Hin)
      as (_ & _ & H3 & H4).
    intros He. destruct (decide (k = ip_string ip)) as [->|Hne]; [|by eapply Hc, H4].
    rewrite H3 in He. by simplify_eq.
Qed.

Lemma transfer_current s todo now : matcher_ok s → learned_current s →
  matcher_ok (transfer s todo now) ∧ learned_current (transfer s todo now) ∧ r (transfer s todo now) = r s.
Proof.
  revert s. induction todo as [|[k e] todo IH]; intros s Hok Hc; [done|]. cbn [transfer].
  pose proof (MatchSNI_ok s (l_domain e) Hok) as Hm. destruct (MatchSNI s (l_domain e)) as [s1 [matched newSet]].
  destruct Hm as (Hok1 & Hr1 & _ & Hl1 & Hres & _).
  assert (learned_current s1) as Hc1 by (intros k' e'; rewrite Hr1, Hl1; apply Hc).
  set (s2 := if matched then _ else s1).
  assert (matcher_ok s2 ∧ learned_current s2 ∧ r s2 = r s1) as (Hok2 & Hc2 & Hr2).
  { unfold s2. destruct matched; [|done]. destruct (ParseIP k) as [ip|]; [|done].
    split_and!; [by apply LearnIPToDomain_ok|apply learn_current; [done..|by rewrite Hr1]|apply learn_same]. }
  destruct (IH s2 Hok2 Hc2) as (? & ? & ->). by rewrite Hr2, Hr1.
Qed.
End matcher.

Section properties.
Context {Un : Unicode} {Rx : Regexp} {Nt : Net} {Rg : Ranger} {Srt : SortSlice}.

(** C6: A name matches the first enabled set that lists the longest name covering it -
    the name itself or one of its parent domains, letters of any case - and only when no
    listed name covers it do the regular expressions decide.  The answer does not depend
    on what was looked up before: whatever the history of the matcher and the state of its
    caches, it is the answer of the rules. *)
Theorem MatchSNI_longest (cfgs : list SetConfig) (calls : list call) (host : string) :
  Forall call_ok calls → host ≠ "" →
  let s := after (NewSuffixSet cfgs) calls in
  let res := snd (MatchSNI s host) in
  res = ref_sni (build_rules cfgs) host
  ∧ (∀ d set, suffix_of d (ToLower host) → head (listers cfgs d) = Some set →
       (∀ d', suffix_of d' (ToLower host) → listers cfgs d' ≠ [] → (length (chars d') <= length (chars d))%nat) →
       res = (true, Some set))
  ∧ ((∀ d, suffix_of d (ToLower host) → listers cfgs d = []) →
       res = ref_regex (build_rules cfgs) (ToLower host)).
Proof.
  cbv zeta. intros Hc Hh. destruct (after_ok cfgs calls Hc) as (Hok & Hr & _ & _).
  pose proof (MatchSNI_ok _ host Hok) as Hm. destruct (MatchSNI _ host) as [s' res].
  destruct Hm as (_ & _ & _ & _ & -> & _). rewrite Hr. cbn [snd]. split; [done|].
  destruct (ref_domain_longest cfgs (ToLower host)) as [H1 H2]. unfold ref_sni. rewrite (bool_decide_false (host = "")) by done.
  rewrite orb_false_r. split.
  - intros d set Hd Hset Hmax. rewrite (H1 d set Hd Hset Hmax). cbn [fst].
    unfold no_domains. rewrite bool_decide_false; [done|]. intros E.
    destruct (build_rules_names cfgs d) as (_ & _ & E'). rewrite E, lookup_empty in E'. congruence.
  - intros Hno. rewrite (H2 Hno). cbn [fst]. unfold no_domains. case_bool_decide; [|done]. case_bool_decide as E; [|done].
    cbn. unfold ref_regex, find_regex. by destruct (regexes _).
Qed.

(** C35: An address matches a set of the most specific network that contains it, whatever
    was looked up before; it matches none when the trie returns no network. *)
Theorem MatchIP_most_specific (cfgs : list SetConfig) (calls : list call) (ip : bytes) :
  Forall call_ok calls → ip_valid ip →
  let res := snd (MatchIP (after (NewSuffixSet cfgs) calls) ip) in
  match ContainingNetworks (ipRanger (build_rules cfgs)) ip with
  | None | Some [] => res = (false, None)
  | Some es => ∃ e, e ∈ es ∧ res = (true, Some (ip_set e)) ∧ ∀ e', e' ∈ es → ones (ipNet e') <= ones (ipNet e)
  end.
Proof.
  cbv zeta. intros Hc Hip. destruct (after_ok cfgs calls Hc) as (Hok & Hr & _ & _).
  pose proof (MatchIP_ok _ ip Hok Hip) as Hm. destruct (MatchIP _ ip) as [s' res].
  destruct Hm as (_ & _ & _ & _ & -> & _). rewrite Hr. cbn [snd]. unfold ref_ip, lookup_ip.
  rewrite bool_decide_false by (intros ->; destruct Hip as [_ []]; done).
  destruct (ContainingNetworks _ ip) as [[|e0 [|e1 es]]|]; [done| |cbn [ip_set]|done].
  - exists e0. cbn. split_and!; [by left|done|]. intros e' He'. apply list_elem_of_singleton in He' as ->. done.
  - set (l := e0 :: e1 :: es). replace (1 <? len l) with true by (symmetry; apply Z.ltb_lt; unfold l; cbn [length]; lia).
    unfold sortEntriesBySpecificity. set (less := λ i j : ipRange, _).
    pose proof (sort_slice_perm less l) as Hp.
    assert (∀ x y, less x y = true ↔ - ones (ipNet x) < - ones (ipNet y)) as Hless
      by (intros x y; unfold less; rewrite Z.ltb_lt; lia).
    pose proof (sort_slice_sorted less (λ e, - ones (ipNet e)) l Hless) as Hs.
    destruct (sort_slice less l) as [|e l'] eqn:El.
    { apply Permutation_nil_l in Hp. done. }
    exists e. cbn. split_and!; [rewrite <- Hp; by left|done|]. intros e' He'. rewrite <- Hp in He'.
    inversion Hs as [|? ? _ Hf]; subst. apply elem_of_cons in He' as [->|He']; [done|].
    rewrite Forall_forall in Hf. specialize (Hf e' He'). cbn in Hf. lia.
Qed.

(** Among candidate sets one is chosen exactly when some candidate accepts the source
    device with any TLS and IP version; the chosen one accepts the source; it accepts the
    versions of the connection if any candidate for this source does; and a set without
    devices is only chosen when no set that names devices fits as well. *)
Theorem selectSetBySourceAndTLS_spec (cands : list SetConfig) (mac : string) (tls ip : Z) :
  match selectSetBySourceAndTLS cands mac tls ip with
  | (true, Some set) =>
      set ∈ cands ∧ setMatchesSource set mac = true ∧ matches_versions set 0 0 = true
      ∧ ((∃ c, c ∈ cands ∧ setMatchesSource c mac = true ∧ matches_versions c tls ip = true) →
           matches_versions set tls ip = true)
      ∧ (has_devices set = false → ∀ c, c ∈ cands → has_devices c = true → setMatchesSource c mac = true →
           matches_versions c tls ip = false)
  | (false, None) => ∀ c, c ∈ cands → setMatchesSource c mac = true → matches_versions c 0 0 = false
  | _ => False
  end.
Proof.
  unfold selectSetBySourceAndTLS. pose proof (select_once_spec cands mac tls ip) as H1.
  pose proof (select_once_spec cands mac 0 0) as H0.
  destruct (select_once cands mac tls ip) as [set|]; cbn [found].
  - destruct H1 as (Hin & Hs & Hv & Hd). split_and!; [done..|by eapply matches_versions_any|done|done].
  - destruct (negb (tls =? 0) || negb (ip =? 0)) eqn:E.
    + destruct (select_once cands mac 0 0) as [set|]; cbn [found]; [|done].
      destruct H0 as (Hin & Hs & Hv & Hd). split_and!; [done..| |].
      * intros (c & Hc & Hsc & Hvc). by rewrite H1 in Hvc.
      * intros _ c Hc _ Hsc. by apply H1.
    + cbn [found]. assert (tls = 0 ∧ ip = 0) as [-> ->] by lia. done.
Qed.

(** An address learned for a domain matches the set it was learned with for ten
    minutes, and not afterwards; a match starts the ten minutes again. *)
Theorem LearnIPToDomain_matches (cfgs : list SetConfig) (calls : list call) (ip : bytes) (domain : string)
    (set : SetConfig) (t now1 now2 : Z) :
  Forall call_ok calls → ip ≠ [] → domain ≠ "" → DomainOnly (Targets set) = false →
  let s := LearnIPToDomain (after (NewSuffixSet cfgs) calls) ip domain (Some set) t in
  let '(s', res) := MatchLearnedIP s ip now1 now2 in
  (now1 - t <= learnedIPTTL →
     res = ((true, Some set), domain)
     ∧ ∀ now3 now4, snd (MatchLearnedIP s' ip now3 now4) =
         if learnedIPTTL <? now3 - now2 then ((false, None), ""%string) else ((true, Some set), domain))
  ∧ (learnedIPTTL < now1 - t →
     res = ((false, None), ""%string)
     ∧ ∀ now3 now4, snd (MatchLearnedIP s' ip now3 now4) = ((false, None), ""%string)).
Proof.
  cbv zeta. intros Hc Hip Hdom Hdo. destruct (after_ok cfgs calls Hc) as (Hok & _).
  pose proof (learned_lookup _ ip domain set t Hok Hip Hdom Hdo) as Hl.
  set (s := LearnIPToDomain _ _ _ _ _) in *. unfold MatchLearnedIP at 1. rewrite bool_decide_false by done.
  rewrite Hl. cbn [l_set l_domain learnedAt]. rewrite Hdo.
  destruct (learnedIPTTL <? now1 - t) eqn:E; (split; intros Ht; [try lia|try lia]).
  - split; [done|]. intros now3 now4. unfold MatchLearnedIP. rewrite bool_decide_false by done.
    cbn. by rewrite lookup_delete_eq.
  - split; [done|]. intros now3 now4. unfold MatchLearnedIP. rewrite bool_decide_false by done.
    cbn. rewrite lookup_insert_eq. cbn. rewrite Hdo. by destruct (learnedIPTTL <? now3 - now2).
Qed.

(** After the sets were changed, the addresses taken over from the old matcher match
    the sets that the new rules give their domains: no set of the old configuration
    survives in the new matcher. *)
Theorem TransferLearnedIPs_current (cfgs : list SetConfig) (iter : list (string * learnedIPEntry)) now1 now2 :
  let s := TransferLearnedIPs (NewSuffixSet cfgs) iter now1 now2 in
  map_Forall (λ _ e, ref_sni (build_rules cfgs) (l_domain e) = (true, Some (l_set e))) (entries (learnedIPCache s)).
Proof using Srt.
  cbv zeta. unfold TransferLearnedIPs, map_Forall. set (todo := filter _ iter).
  destruct (transfer_current (NewSuffixSet cfgs) todo now2) as (_ & Hc & Hr).
  - apply NewSuffixSet_ok.
  - intros k e. cbn. by rewrite lookup_empty.
  - intros k e He. pose proof (Hc k e He) as E. by rewrite Hr in E.
Qed.

Lemma regexp_prefix p : let d := ("regexp:" +:+ p)%string in
  d ≠ "" ∧ HasPrefix d "regexp:" = true ∧ TrimPrefix d "regexp:" = p.
Proof.
  cbv zeta. assert (HasPrefix ("regexp:" +:+ p) "regexp:" = true) as E.
  { apply bool_decide_eq_true. rewrite chars_app. by eexists. }
  split_and!; [done|done|]. unfold TrimPrefix. rewrite E, chars_app. apply str_chars.
Qed.

(** Two sets with the same regular expression - for two devices, say - share one
    entry, which belongs to the first set: the second set never matches by it, while for
    a plain name both would be candidates.  The expression that is compiled is the one
    typed, in lower case. *)
Theorem NewSuffixSet_shared_regex (s1 s2 : SetConfig) (d p : string) (re : regex) :
  Enabled s1 = true → Enabled s2 = true → DomainsToMatch (Targets s1) = [d] → DomainsToMatch (Targets s2) = [d] →
  ToLower (TrimSpace d) = ("regexp:" +:+ p)%string → Compile p = Some re → s1 ≠ s2 →
  regexes (build_rules [s1; s2]) = [(re, s1)]
  ∧ ∀ host mac tls ip, snd (MatchSNIWithSourceTLS (NewSuffixSet [s1; s2]) host mac tls ip) ≠ Some s2.
Proof using Nt.
  intros He1 He2 Hd1 Hd2 Hp Hre Hne. destruct (regexp_prefix p) as (P1 & P2 & P3).
  assert (∀ set ru ips, regexes (add_ports set (foldl (add_ip set) ru ips)) = regexes ru) as Hsame.
  { intros set ru ips. revert ru. induction ips as [|i ips IH]; intros ru; [done|]. cbn [foldl].
    change (regexes (add_ports set ?x)) with (regexes x) in IH |- *. rewrite IH. unfold add_ip. by repeat case_match. }
  assert (regexes (build_rules [s1; s2]) = [(re, s1)]) as Hr.
  { unfold build_rules. cbn [foldl]. unfold add_set. rewrite He1, He2. cbn [negb]. rewrite Hd1, Hd2. cbn [foldl].
    unfold add_domain at 2. rewrite Hp, (bool_decide_false (_ = "")), P2, P3, bool_decide_false, Hre by (done || set_solver).
    unfold add_domain. rewrite Hp, (bool_decide_false (_ = "")), P2, P3, bool_decide_true by (done || set_solver).
    cbn [fst]. by rewrite !Hsame. }
  split; [done|]. intros host mac tls ip. unfold MatchSNIWithSourceTLS. cbn [r NewSuffixSet].
  destruct (_ || _); [done|]. unfold findDomainCandidates.
  assert (∀ h, lookup_suffix (multiSets (build_rules [s1; s2])) h = None) as Hnone.
  { intros h. pose proof (lookup_suffix_spec (multiSets (build_rules [s1; s2])) h) as Hs.
    destruct (lookup_suffix _ h) as [l|]; [|done]. destruct Hs as (d' & _ & Hl & _).
    destruct (build_rules_names [s1; s2] d') as (E1 & E2 & _). rewrite Hl in E1, E2. cbn in E1. subst l. exfalso. apply E2. f_equal.
    unfold listers, lists, domain_names. cbn. rewrite He1, He2, Hd1, Hd2. cbn. unfold norm_domain.
    rewrite Hp, bool_decide_false, P2 by done. done. }
  rewrite Hnone. cbn [default from_option].
  change (selectSetBySourceAndTLS [] mac tls ip) with (found (if negb (tls =? 0) || negb (ip =? 0) then None else None)).
  replace (found _) with (@pair bool (option SetConfig) false None) by (by destruct (_ || _)).
  case_bool_decide; [done|]. unfold matchRegexWithSourceTLS.
  pose proof (selectSetBySourceAndTLS_cands (map snd (filter (λ x, MatchString (fst x) (ToLower host) = true)
    (regexes (build_rules [s1; s2])))) mac tls ip) as Hs.
  intros Heq. apply Hs in Heq. rewrite Hr, filter_cons in Heq.
  case_decide; cbn in Heq; [apply list_elem_of_singleton in Heq|apply elem_of_nil in Heq]; done.
Qed.
End properties.

(** ** Concrete parameters *)

#[local] Instance unicode_demo : Unicode := {| lower_runes s := s; upper_runes s := s; fold_runes s t := bool_decide (s = t) |}.
(** An "expression" matches the one host it spells. *)
#[local] Instance regexp_demo : Regexp := {| regex := string; Compile p := Some p; MatchString p h := bool_decide (p = h) |}.

#[local] Existing Instance net_demo.

Definition contains_demo (e : ipRange) (ip : bytes) : bool :=
  match To16 (n_ip (ipNet e)), To16 ip with
  | Some a, Some b => bool_decide (take (Z.to_nat (12 + ones (ipNet e) / 8)) a = take (Z.to_nat (12 + ones (ipNet e) / 8)) b)
  | _, _ => false
  end.
#[local] Program Instance ranger_demo : Ranger := {|
  ranger := list ipRange; NewRanger := []; Insert r e := r ++ [e];
  ContainingNetworks r ip := Some (filter (λ e, contains_demo e ip = true) r) |}.
Next Obligation. intros r a b E. cbn. unfold contains_demo. by rewrite E. Qed.

Definition target_set (id : string) (domains ips : list string) : SetConfig :=
  {| Id := id; Name := id; TCP := TCP DefaultSetConfig; UDP := UDP DefaultSetConfig;
     Fragmentation := Fragmentation DefaultSetConfig; Faking := Faking DefaultSetConfig; Enabled := true;
     DNS := DNS DefaultSetConfig; TCPPortRanges := []; UDPPortRanges := []; Routing := Routing DefaultSetConfig;
     Escalate := Escalate DefaultSetConfig; MSSClamp := MSSClamp DefaultSetConfig;
     Targets := {| SNIDomains := domains; IPs := ips; GeoSiteCategories := []; GeoIpCategories := [];
       SourceDevices := []; SourceDevicesExclude := false; DomainOnly := false; TLSVersion := ""; IPVersion := "";
       DomainsToMatch := domains; IpsToMatch := ips |} |}.
Definition match_demo : list SetConfig :=
  [target_set "wide" [" Example.com. "] ["10.0.0.0/8"]; target_set "narrow" ["video.example.com"; "regexp:YA.ru"] ["10.1.0.0/16"]]%string.
Definition calls_demo : list call := [CMatchSNI "a.example.com"; CMatchIP [10; 1; 2; 3]; CMatchSNI "x.org"]%string.
Lemma calls_demo_ok : Forall call_ok calls_demo.
Proof. repeat constructor; try done. Qed.

Example MatchSNI_demo :
  map (λ h, Id <$> snd (snd (MatchSNI (after (NewSuffixSet match_demo) calls_demo) h)))
    ["EXAMPLE.com"; "a.b.example.com"; "eu.video.example.com"; "badexample.com"; "ya.ru"]%string
  = [Some "wide"; Some "wide"; Some "narrow"; None; Some "narrow"]%string.
Proof. by vm_compute. Qed.

Lemma MatchSNI_longest_witness :
  let s := after (NewSuffixSet match_demo) calls_demo in
  let res := snd (MatchSNI s "eu.Video.example.com") in
  res = ref_sni (build_rules match_demo) "eu.Video.example.com" ∧ res = (true, match_demo !! 1%nat).
Proof.
  destruct (MatchSNI_longest match_demo calls_demo "eu.Video.example.com" calls_demo_ok ltac:(done)) as (H1 & _).
  split; [exact H1|]. by vm_compute.
Defined.
Definition net_of (ip : bytes) (n : Z) (set : option SetConfig) : ipRange :=
  {| ipNet := {| n_ip := ip; ones := n |}; ip_set := default DefaultSetConfig set |}.
Lemma MatchIP_most_specific_witness :
  let es := [net_of [10; 0; 0; 0] 8 (match_demo !! 0%nat); net_of [10; 1; 0; 0] 16 (match_demo !! 1%nat)] in
  ∃ e, e ∈ es ∧ snd (MatchIP (after (NewSuffixSet match_demo) calls_demo) [10; 1; 9; 9]) = (true, Some (ip_set e))
    ∧ ∀ e', e' ∈ es → ones (ipNet e') <= ones (ipNet e).
Proof.
  intros es.
  assert (ContainingNetworks (ipRanger (build_rules match_demo)) [10; 1; 9; 9] = Some es) as E by (vm_compute; reflexivity).
  pose proof (MatchIP_most_specific match_demo calls_demo [10; 1; 9; 9] calls_demo_ok
    ltac:(split; [by apply bytes_okb_spec|by left])) as H. cbv zeta in H. rewrite E in H. exact H.
Defined.
Lemma LearnIPToDomain_matches_witness :
  let ip := [10; 1; 9; 9] in let set := target_set "wide" [] [] in
  let s := LearnIPToDomain (after (NewSuffixSet match_demo) calls_demo) ip "example.com" (Some set) 5 in
  let '(s', res) := MatchLearnedIP s ip 100 101 in
  (100 - 5 <= learnedIPTTL →
     res = ((true, Some set), "example.com"%string)
     ∧ ∀ now3 now4, snd (MatchLearnedIP s' ip now3 now4) =
         if learnedIPTTL <? now3 - 101 then ((false, None), ""%string) else ((true, Some set), "example.com"%string))
  ∧ (learnedIPTTL < 100 - 5 →
     res = ((false, None), ""%string)
     ∧ ∀ now3 now4, snd (MatchLearnedIP s' ip now3 now4) = ((false, None), ""%string)).
Proof.
  apply (LearnIPToDomain_matches match_demo calls_demo [10; 1; 9; 9] "example.com" (target_set "wide" [] []) 5 100 101
    calls_demo_ok); done.
Defined.
Lemma NewSuffixSet_shared_regex_witness :
  let s1 := target_set "a" ["regexp:Ya.ru"] [] in let s2 := target_set "b" ["regexp:Ya.ru"] [] in
  regexes (build_rules [s1; s2]) = [("ya.ru"%string, s1)]
  ∧ ∀ host mac tls ip, snd (MatchSNIWithSourceTLS (NewSuffixSet [s1; s2]) host mac tls ip) ≠ Some s2.
Proof.
  apply (NewSuffixSet_shared_regex (Rx:=regexp_demo) (target_set "a" ["regexp:Ya.ru"] []) (target_set "b" ["regexp:Ya.ru"] [])
    "regexp:Ya.ru" "ya.ru" "ya.ru"%string); try done.
Defined.
