(* ===== verification/Overlap.v ===== *)
(** * Lookups that overlap

    sni/match.go has no lock around a whole lookup: a call of [MatchSNI] or [MatchIP] is a
    sequence of locked sections on the caches and, in [matchRegex], of atomic operations
    that no mutex holds together.  Here each running call is a [phase], the part of the
    method still to be done; [next_access] is its next access to the shared [SuffixSet]; and
    [run] interleaves the accesses of calls running in any number of goroutines, as an
    explicit sequence of events.  [call_alone] ties a call that runs with no other in
    between to the methods of Match.v.  The data race on the fields of a learned entry
    that is read after its lock was released is not modelled. *)

From Stdlib Require Import ZArith Lia.
From Stdlib Require Strings.String.
From stdpp Require Import base list numbers strings gmap sets.
From S2P Require Import Prelude Config GoString Text NetIP Ports Lru Match.

Local Open Scope Z_scope.

Definition reply : Type := result * string.

(** What is left of a call.  [mac] tells [MatchLearnedIPWithSource] from [MatchLearnedIP]. *)
Inductive phase :=
  | DomainLook (host : string) | DomainHit (host : string) | DomainMiss (host : string)
  | RegexLoad (host : string) | RegexCheck (host : string) (res : result)
  | RegexStore (host : string) (res : result) | RegexAdd (res : result)
  | IPLook (ip : bytes) | IPHit (ip : bytes) | IPMiss (ip : bytes)
  | Learn (ip : bytes) (domain : string) (set : option SetConfig) (now : Z)
  | LearnedLook (ip : bytes) (mac : option string) (now1 now2 : Z)
  | LearnedLock (ip : bytes) (mac : option string) (now1 now2 : Z)
  | Done (a : reply).

Definition no_match : reply := ((false, None), ""%string).

Section overlap.
Context {Un : Unicode} {Rx : Regexp} {Nt : Net} {Rg : Ranger} {Srt : SortSlice}.
Implicit Types (s : SuffixSet) (ru : rules) (p : phase) (c : call).

(** ** Steps *)

(** The part of a method before its first access to the caches. *)
Definition first_phase ru c : phase :=
  match c with
  | CMatchSNI host => if no_domains ru || bool_decide (host = "") then Done no_match else DomainLook (ToLower host)
  | CMatchIP ip => if bool_decide (ip = []) then Done no_match else IPLook ip
  | CLearn ip domain set now => Learn ip domain set now
  | CMatchLearned ip now1 now2 => if bool_decide (ip = []) then Done no_match else LearnedLook ip None now1 now2
  | CMatchLearnedSource ip mac now1 now2 =>
      if bool_decide (ip = []) then Done no_match else LearnedLook ip (Some mac) now1 now2
  end.

Definition learned_match s ip (mac : option string) now1 now2 : SuffixSet * reply :=
  match mac with
  | None => MatchLearnedIP s ip now1 now2
  | Some mac => MatchLearnedIPWithSource s ip mac now1 now2
  end.

(** After [matchDomain], in [MatchSNI]. *)
Definition after_domain ru (host : string) (res : result) : phase :=
  if fst res then Done ((true, snd res), ""%string)
  else if bool_decide (length (regexes ru) = 0%nat) then Done no_match else RegexLoad host.

Definition next_access s p : SuffixSet * phase :=
  match p with
  | DomainLook host =>
      (s, match entries (domainCache s) !! host with Some _ => DomainHit host | None => DomainMiss host end)
  | DomainHit host =>
      match domain_take s host with
      | Some (s', res) => (s', after_domain (r s) host res)
      | None => (s, DomainMiss host)
      end
  | DomainMiss host =>
      let '(s', res) := domain_put s host (found (lookup_suffix (sets (r s)) host)) in
      (s', after_domain (r s) host res)
  | RegexLoad host =>
      (s, match regex_load s host with
          | Some entry => Done (entry, ""%string)
          | None => RegexCheck host (found (find_regex (regexes (r s)) host))
          end)
  | RegexCheck host res => (s, if regex_room s then RegexStore host res else Done (res, ""%string))
  | RegexStore host res => (regex_store s host res, RegexAdd res)
  | RegexAdd res => (regex_add s, Done (res, ""%string))
  | IPLook ip =>
      (s, match entries (ipCache s) !! ip_string ip with Some _ => IPHit ip | None => IPMiss ip end)
  | IPHit ip =>
      match ip_take s (ip_string ip) with
      | Some (s', res) => (s', Done (res, ""%string))
      | None => (s, IPMiss ip)
      end
  | IPMiss ip =>
      let res := found (lookup_ip (r s) ip) in (cacheIPResult s (ip_string ip) res, Done (res, ""%string))
  | Learn ip domain set now => (LearnIPToDomain s ip domain set now, Done no_match)
  | LearnedLook ip mac now1 now2 =>
      (s, match entries (learnedIPCache s) !! ip_string ip with
          | Some entry => if DomainOnly (Targets (l_set entry)) then Done no_match else LearnedLock ip mac now1 now2
          | None => Done no_match
          end)
  | LearnedLock ip mac now1 now2 => let '(s', a) := learned_match s ip mac now1 now2 in (s', Done a)
  | Done a => (s, p)
  end.

(** The key that the step uses in the cache of names, or of addresses. *)
Definition name_used s p : option string :=
  match p with
  | DomainHit host => match domain_take s host with Some _ => Some host | None => None end
  | DomainMiss host => Some host
  | _ => None
  end.
Definition address_used s p : option string :=
  match p with
  | IPHit ip => match ip_take s (ip_string ip) with Some _ => Some (ip_string ip) | None => None end
  | IPMiss ip => Some (ip_string ip)
  | _ => None
  end.

(** ** Interleavings *)

(** A goroutine is free or runs a call.  [names] and [addresses] are the keys used in the
    caches, the last one first, and [answered] the calls that returned. *)
Record system := {
  shared : SuffixSet; slots : list (option (call * phase)); names : list string; addresses : list string;
  answered : list (call * reply) }.
Definition init (cfgs : list SetConfig) (goroutines : nat) : system :=
  {| shared := NewSuffixSet cfgs; slots := replicate goroutines None; names := []; addresses := []; answered := [] |}.

(** Goroutine [t] calls a method, makes its next access, or returns. *)
Inductive event := ECall (t : nat) (c : call) | EStep (t : nat).
Definition step (y : system) (e : event) : system :=
  match e with
  | ECall t c =>
      match slots y !! t with
      | Some None => {| shared := shared y; slots := <[t := Some (c, first_phase (r (shared y)) c)]> (slots y);
                        names := names y; addresses := addresses y; answered := answered y |}
      | _ => y
      end
  | EStep t =>
      match slots y !! t with
      | Some (Some (c, Done a)) =>
          {| shared := shared y; slots := <[t := None]> (slots y); names := names y; addresses := addresses y;
             answered := (c, a) :: answered y |}
      | Some (Some (c, p)) =>
          {| shared := fst (next_access (shared y) p); slots := <[t := Some (c, snd (next_access (shared y) p))]> (slots y);
             names := option_list (name_used (shared y) p) ++ names y;
             addresses := option_list (address_used (shared y) p) ++ addresses y; answered := answered y |}
      | _ => y
      end
  end.
Definition run (y : system) (es : list event) : system := foldl step y es.
Definition event_ok (e : event) : Prop := match e with ECall _ c => call_ok c | EStep _ => True end.
Definition idle (y : system) : Prop := Forall (λ x, x = None) (slots y).

(** ** A call that runs alone *)

Fixpoint solo (n : nat) s p : SuffixSet * phase :=
  match n with O => (s, p) | S n => let '(s', p') := next_access s p in solo n s' p' end.

Definition call_answer s c : reply :=
  match c with
  | CMatchSNI host => (snd (MatchSNI s host), ""%string)
  | CMatchIP ip => (snd (MatchIP s ip), ""%string)
  | CLearn _ _ _ _ => no_match
  | CMatchLearned ip now1 now2 => snd (MatchLearnedIP s ip now1 now2)
  | CMatchLearnedSource ip mac now1 now2 => snd (MatchLearnedIPWithSource s ip mac now1 now2)
  end.

Lemma solo_done n s a : solo n s (Done a) = (s, Done a).
Proof. by induction n. Qed.

Lemma solo_regex n s host : solo (4 + n) s (RegexLoad host) = (fst (matchRegex s host), Done (snd (matchRegex s host), ""%string)).
Proof.
  cbn [solo Nat.add next_access]. unfold matchRegex. destruct (regex_load s host); [apply solo_done|].
  cbn [next_access]. destruct (regex_room s); cbn [next_access fst snd]; apply solo_done.
Qed.

(** With no other call in between, the steps of a call are the method of Match.v. *)
Theorem call_alone s c : solo 7 s (first_phase (r s) c) = (do_call s c, Done (call_answer s c)).
Proof.
  destruct c as [host|ip|ip domain set now|ip now1 now2|ip mac now1 now2]; cbn [first_phase do_call call_answer].
  - unfold MatchSNI. destruct (_ || _); [apply solo_done|].
    set (h := ToLower host). change 7%nat with (3 + 4)%nat.
    assert (∀ n s' res, r s' = r s → solo (4 + n) s' (after_domain (r s) h res)
      = (let '(s2, a) := let '(matched, set) := res in
            if matched then (s', (true, set))
            else if bool_decide (length (regexes (r s')) = 0%nat) then (s', (false, None)) else matchRegex s' h in
         (s2, Done (a, ""%string)))) as Hafter.
    { intros n s' [matched set] Hr. unfold after_domain. rewrite Hr. destruct matched; [apply solo_done|].
      cbn [fst]. case_bool_decide; [apply solo_done|]. rewrite solo_regex. by destruct (matchRegex s' h). }
    cbn [solo Nat.add next_access]. unfold matchDomain, domain_take.
    destruct (entries (domainCache s) !! h) as [e|] eqn:E; cbn [next_access]; unfold domain_take, domain_put; rewrite E.
    + pose proof (Hafter 1%nat (with_domainCache s (lru_touch h (domainCache s))) e eq_refl) as Ha.
      change (4 + 1)%nat with 5%nat in Ha. cbn [solo] in Ha |- *. rewrite Ha. by destruct (let '(_, _) := e in _).
    + set (s' := with_domainCache s _). set (res := found _).
      pose proof (Hafter 1%nat s' res eq_refl) as Ha.
      change (4 + 1)%nat with 5%nat in Ha. cbn [solo] in Ha |- *. rewrite Ha. by destruct (let '(_, _) := res in _).
  - unfold MatchIP. case_bool_decide; [apply solo_done|]. cbn [solo next_access]. unfold ip_take.
    destruct (entries (ipCache s) !! ip_string ip) as [e|] eqn:E; cbn [next_access]; unfold ip_take; [rewrite E|]; done.
  - done.
  - unfold MatchLearnedIP. case_bool_decide as Ei; [apply solo_done|]. cbn [solo next_access].
    destruct (entries (learnedIPCache s) !! ip_string ip) as [e|] eqn:E; [|done].
    destruct (DomainOnly (Targets (l_set e))) eqn:Hd; [done|]. cbn [next_access learned_match]. unfold MatchLearnedIP.
    rewrite bool_decide_false, E, Hd by done. by destruct (_ <? _).
  - unfold MatchLearnedIPWithSource. case_bool_decide as Ei; [apply solo_done|]. cbn [solo next_access].
    destruct (entries (learnedIPCache s) !! ip_string ip) as [e|] eqn:E; [|done].
    destruct (DomainOnly (Targets (l_set e))) eqn:Hd; [done|]. cbn [next_access learned_match].
    unfold MatchLearnedIPWithSource. rewrite bool_decide_false, E, Hd by done. destruct (_ <? _); [done|].
    destruct (negb _); [|done]. destruct (MatchSNIWithSourceTLS _ _ _ _ _) as [[] ?]; done.
Qed.

(** ** Termination *)

(** A bound on the steps left.  No step waits for another call: the sections are short
    and a mutex is held inside one step only. *)
Definition steps_left p : nat :=
  match p with
  | DomainLook _ => 8 | DomainHit _ => 7 | DomainMiss _ => 6 | RegexLoad _ => 5 | RegexCheck _ _ => 4
  | RegexStore _ _ => 3 | RegexAdd _ => 2 | IPLook _ => 4 | IPHit _ => 3 | IPMiss _ => 2 | Learn _ _ _ _ => 2
  | LearnedLook _ _ _ _ => 3 | LearnedLock _ _ _ _ => 2 | Done _ => 1
  end.
Lemma after_domain_left ru host res : (steps_left (after_domain ru host res) <= 5)%nat.
Proof. unfold after_domain. repeat case_match; cbn; lia. Qed.
Lemma access_left s p : steps_left p ≠ 1%nat → (steps_left (snd (next_access s p)) < steps_left p)%nat.
Proof.
  destruct p; cbn [steps_left next_access]; intros ?; repeat case_match; cbn [snd steps_left]; try lia;
    match goal with |- context [after_domain ?ru ?h ?x] => pose proof (after_domain_left ru h x) end; lia.
Qed.

(** ** What a running call keeps *)

(** The answer of the method under the rules alone; nothing is said of the answers that
    come from learned addresses. *)
Definition right_answer ru c (a : reply) : Prop :=
  match c with
  | CMatchSNI host => a = (ref_sni ru host, ""%string)
  | CMatchIP ip => a = (ref_ip ru ip, ""%string)
  | _ => True
  end.
Definition sni_from ru (host : string) : result :=
  if fst (ref_domain ru host) then ref_domain ru host else ref_regex ru host.

(** The keys a running call has used in the cache of names, and of addresses. *)
Definition names_of ru c p : list string :=
  match p with DomainLook _ | DomainHit _ | DomainMiss _ => [] | _ => option_list (looked_up ru c) end.
Definition addresses_of c p : list string :=
  match p with IPLook _ | IPHit _ | IPMiss _ => [] | _ => option_list (ip_looked_up c) end.

(** A running call is about the arguments it was made with and will give the right answer. *)
Definition thread_ok ru c p : Prop :=
  match p with
  | DomainLook h | DomainHit h | DomainMiss h =>
      looked_up ru c = Some h ∧ right_answer ru c (sni_from ru h, ""%string) ∧ ip_looked_up c = None
  | RegexLoad h => right_answer ru c (ref_regex ru h, ""%string)
  | RegexCheck h res | RegexStore h res => res = ref_regex ru h ∧ right_answer ru c (res, ""%string)
  | RegexAdd res => right_answer ru c (res, ""%string)
  | IPLook ip | IPHit ip | IPMiss ip => c = CMatchIP ip ∧ ip_valid ip
  | Learn _ _ _ _ | LearnedLook _ _ _ _ | LearnedLock _ _ _ _ => ∀ a, right_answer ru c a
  | Done a => right_answer ru c a
  end.

Lemma ref_regex_empty ru host : length (regexes ru) = 0%nat → ref_regex ru host = (false, None).
Proof. unfold ref_regex, find_regex. by destruct (regexes ru). Qed.

Lemma begin_ok ru c : call_ok c → thread_ok ru c (first_phase ru c)
  ∧ names_of ru c (first_phase ru c) = [] ∧ addresses_of c (first_phase ru c) = [].
Proof.
  destruct c as [host|ip|ip domain set now|ip now1 now2|ip mac now1 now2]; cbn [first_phase call_ok]; intros Hc.
  - destruct (no_domains ru || bool_decide (host = "")) eqn:E; cbn [thread_ok right_answer names_of addresses_of looked_up ip_looked_up].
    + unfold ref_sni. by rewrite E.
    + unfold ref_sni, sni_from. by rewrite E.
  - rewrite bool_decide_false by (intros ->; destruct Hc as [_ []]; done). done.
  - done.
  - by case_bool_decide.
  - by case_bool_decide.
Qed.

Lemma after_domain_ok ru c host :
  looked_up ru c = Some host → right_answer ru c (sni_from ru host, ""%string) → ip_looked_up c = None →
  let p := after_domain ru host (ref_domain ru host) in
  thread_ok ru c p ∧ names_of ru c p = [host] ∧ addresses_of c p = [].
Proof.
  intros Hl Hr Hi. unfold after_domain, sni_from in *. cbv zeta.
  assert (fst (ref_domain ru host) = true → ref_domain ru host = (true, snd (ref_domain ru host))) as Hm
    by (destruct (ref_domain ru host); cbn; by intros ->).
  destruct (fst (ref_domain ru host)); [rewrite <- Hm by done|case_bool_decide as E];
    cbn [thread_ok names_of addresses_of]; rewrite Hl, Hi; split_and!; try done.
  unfold no_match. by rewrite ref_regex_empty in Hr.
Qed.

Definition used (limit : Z) (k : option string) (l : list string) : list string :=
  match k with Some k => take (Z.to_nat limit) (to_front k l) | None => l end.

Lemma learned_match_same s ip mac now1 now2 : let s' := fst (learned_match s ip mac now1 now2) in
  r s' = r s ∧ domainCache s' = domainCache s ∧ ipCache s' = ipCache s.
Proof. destruct (matchlearned_same s ip (default "" mac) now1 now2) as [H1 H2]. by destruct mac. Qed.

(** One step keeps the caches in order and the call on its way to the right answer. *)
Lemma access_ok s c p : matcher_ok s → thread_ok (r s) c p →
  let '(s', p') := next_access s p in
  (matcher_ok s' ∧ r s' = r s ∧ thread_ok (r s) c p')
  ∧ order (domainCache s') = used domainCacheLimit (name_used s p) (order (domainCache s))
  ∧ order (ipCache s') = used ipCacheLimit (address_used s p) (order (ipCache s))
  ∧ names_of (r s) c p' = option_list (name_used s p) ++ names_of (r s) c p
  ∧ addresses_of c p' = option_list (address_used s p) ++ addresses_of c p.
Proof.
  intros Hok Ht. destruct p as [h|h|h|h|h res|h res|res|ip|ip|ip|ip d set now|ip mac n1 n2|ip mac n1 n2|a];
    cbn [next_access thread_ok name_used address_used used option_list app] in *.
  - by destruct (entries _ !! h).
  - destruct Ht as (H1 & H2 & H3). pose proof (domain_put_ok s h Hok) as Hp.
    destruct (domain_take s h) as [hit|] eqn:E; [|done]. rewrite (domain_take_put _ _ _ _ E) in Hp.
    destruct hit as [s' res]. destruct Hp as (? & ? & ? & Hi & ? & -> & ?).
    destruct (after_domain_ok (r s) c h H1 H2 H3) as (? & ? & ?). cbn [addresses_of] in *. rewrite Hi, H3. done.
  - destruct Ht as (H1 & H2 & H3). pose proof (domain_put_ok s h Hok) as Hp.
    destruct (domain_put _ _ _) as [s' res]. destruct Hp as (? & ? & ? & Hi & ? & -> & ?).
    destruct (after_domain_ok (r s) c h H1 H2 H3) as (? & ? & ?). cbn [addresses_of] in *. rewrite Hi, H3. done.
  - unfold regex_load. destruct (regexCache s !! h) as [e|] eqn:E; [|done].
    split; [|done]. split_and!; [done..|]. cbn. by rewrite (regex_ok s Hok h e E).
  - by destruct (regex_room s), Ht.
  - destruct Ht as [-> Ht]. split; [|done]. by split; [apply regex_store_ok|].
  - split; [|done]. by split; [apply regex_add_ok|].
  - by destruct (entries _ !! ip_string ip).
  - destruct Ht as [-> Hip]. pose proof (ip_take_ok s ip Hok Hip) as Hp.
    destruct (ip_take s (ip_string ip)) as [[s' res]|]; [|done]. destruct Hp as (? & ? & Hd & ? & -> & ?).
    split; [|by rewrite Hd]. split_and!; [done..|]. cbn. unfold ref_ip. by rewrite bool_decide_false by (intros ->; destruct Hip as [_ []]; done).
  - destruct Ht as [-> Hip]. destruct (cacheIPResult_ok s ip Hok Hip) as (? & ? & Hd & ? & ?).
    split; [|by rewrite Hd]. split_and!; [done..|]. cbn. unfold ref_ip. by rewrite bool_decide_false by (intros ->; destruct Hip as [_ []]; done).
  - destruct (learn_same s ip d set now) as (? & Hd & Hi). rewrite Hd, Hi. split_and!; first [done|by apply LearnIPToDomain_ok|apply Ht].
  - repeat case_match; split_and!; first [done|apply Ht].
  - destruct (learned_match_same s ip mac n1 n2) as (Hr & Hd & Hi).
    assert (matcher_ok (fst (learned_match s ip mac n1 n2))) by
      (destruct mac; [by apply MatchLearnedIPWithSource_ok|by apply MatchLearnedIP_ok]).
    destruct (learned_match s ip mac n1 n2) as [s' a]. cbn [fst] in *. rewrite Hd, Hi. split_and!; first [done|apply Ht].
  - done.
Qed.

(** ** The cache of the regular expressions *)

(** A call that has seen room in the cache and has not counted its entry yet, and one
    that has stored the entry. *)
Definition past_check p : list unit := match p with RegexStore _ _ | RegexAdd _ => [tt] | _ => [] end.
Definition past_store p : list unit := match p with RegexAdd _ => [tt] | _ => [] end.

Lemma learn_regex s ip domain set now : let s' := LearnIPToDomain s ip domain set now in
  regexCache s' = regexCache s ∧ regexCacheSize s' = regexCacheSize s.
Proof. unfold LearnIPToDomain. by repeat case_match. Qed.
Lemma learned_match_regex s ip mac now1 now2 : let s' := fst (learned_match s ip mac now1 now2) in
  regexCache s' = regexCache s ∧ regexCacheSize s' = regexCacheSize s.
Proof. destruct mac; cbn; unfold MatchLearnedIP, MatchLearnedIPWithSource; by repeat case_match. Qed.

(** A step leaves the counter and the entries that will be counted alone, or finds room;
    the entries of the cache grow only where they are to be counted. *)
Lemma access_regex s p : let '(s', p') := next_access s p in
  (regexCacheSize s' + len (past_check p') = regexCacheSize s + len (past_check p)
   ∨ regexCacheSize s' = regexCacheSize s ∧ regexCacheSize s < regexCacheLimit)
  ∧ Z.of_nat (size (regexCache s')) - regexCacheSize s' - len (past_store p')
     <= Z.of_nat (size (regexCache s)) - regexCacheSize s - len (past_store p).
Proof.
  assert (∀ ru h res, past_check (after_domain ru h res) = [] ∧ past_store (after_domain ru h res) = []) as Ha
    by (intros; unfold after_domain; by repeat case_match).
  destruct p as [h|h|h|h|h res|h res|res|ip|ip|ip|ip d set now|ip mac n1 n2|ip mac n1 n2|a]; cbn [next_access].
  - destruct (entries _ !! h); cbn; lia.
  - unfold domain_take. destruct (entries _ !! h) as [e|]; cbn [past_check past_store]; [|lia].
    destruct (Ha (r s) h e) as [-> ->]. cbn. lia.
  - unfold domain_put. destruct (entries _ !! h) as [e|]; match goal with |- context [after_domain ?ru ?h ?x] =>
      destruct (Ha ru h x) as [-> ->] end; cbn; lia.
  - destruct (regex_load s h); cbn; lia.
  - unfold regex_room. destruct (regexCacheSize s <? regexCacheLimit) eqn:E; cbn; lia.
  - cbn. split; [lia|]. destruct (regexCache s !! h) as [e|] eqn:E.
    + rewrite map_size_insert_Some by (by exists e). lia.
    + rewrite map_size_insert_None by done. lia.
  - cbn. lia.
  - destruct (entries _ !! ip_string ip); cbn; lia.
  - unfold ip_take. destruct (entries _ !! ip_string ip); cbn; lia.
  - unfold cacheIPResult. cbn. lia.
  - destruct (learn_regex s ip d set now) as [-> ->]. cbn. lia.
  - repeat case_match; cbn; lia.
  - destruct (learned_match_regex s ip mac n1 n2) as [H1 H2]. destruct (learned_match s ip mac n1 n2) as [s' a].
    cbn [fst] in *. rewrite H1, H2. cbn. lia.
  - lia.
Qed.

(** ** The invariant of the interleavings *)

(** What the running calls hold, together. *)
Definition held {A} (f : call → phase → list A) (l : list (option (call * phase))) : list A :=
  concat (map (λ x, match x with Some (c, p) => f c p | None => [] end) l).

Lemma held_update {A} (f : call → phase → list A) l t x y : l !! t = Some x →
  held f (<[t := y]> l) ++ held f [x] ≡ₚ held f l ++ held f [y].
Proof.
  revert t. unfold held. induction l as [|z l IH]; intros [|t] Hx; try done; cbn [lookup list_lookup insert list_insert map concat] in *.
  - simplify_eq. rewrite !app_nil_r, <- !app_assoc. set (a := match x with Some _ => _ | None => _ end).
    set (b := match y with Some _ => _ | None => _ end). solve_Permutation.
  - rewrite <- !app_assoc. f_equiv. by apply IH.
Qed.
Lemma held_idle {A} (f : call → phase → list A) l : Forall (λ x, x = None) l → held f l = [].
Proof. unfold held. induction 1 as [|? ? -> _ IH]; [done|]. by cbn. Qed.
Lemma held_length f l : (∀ c p, (length (f c p) <= 1)%nat) → (length (held (A := unit) f l) <= length l)%nat.
Proof.
  intros Hf. unfold held. induction l as [|[[c p]|] l IH]; cbn [map concat length]; rewrite ?length_app; [lia| |cbn; lia].
  pose proof (Hf c p). lia.
Qed.

Record run_ok ru (goroutines : nat) (y : system) : Prop := {
  y_matcher : matcher_ok (shared y);
  y_rules : r (shared y) = ru;
  y_slots : length (slots y) = goroutines;
  y_threads t c p : slots y !! t = Some (Some (c, p)) → thread_ok ru c p;
  y_answers : Forall (λ x, right_answer ru (fst x) (snd x)) (answered y);
  y_domains : order (domainCache (shared y)) = recent domainCacheLimit (names y);
  y_ips : order (ipCache (shared y)) = recent ipCacheLimit (addresses y);
  y_names : names y ≡ₚ omap (looked_up ru) (map fst (answered y)) ++ held (names_of ru) (slots y);
  y_addresses : addresses y ≡ₚ omap ip_looked_up (map fst (answered y)) ++ held addresses_of (slots y);
  y_check : regexCacheSize (shared y) + len (held (λ _, past_check) (slots y)) <= regexCacheLimit - 1 + Z.of_nat goroutines;
  y_store : Z.of_nat (size (regexCache (shared y))) <= regexCacheSize (shared y) + len (held (λ _, past_store) (slots y)) }.

Lemma init_ok cfgs n : run_ok (build_rules cfgs) n (init cfgs n).
Proof.
  assert (Forall (λ x, x = None) (replicate n (@None (call * phase)))) as Hi by (by apply Forall_replicate).
  split; cbn [shared slots names addresses answered init]; rewrite ?held_idle by done; try done.
  - apply NewSuffixSet_ok.
  - apply length_replicate.
  - intros t c p [? ?]%lookup_replicate. done.
  - cbn. unfold regexCacheLimit. lia.
Qed.

Lemma held_len {A} (f : call → phase → list A) l t x y : l !! t = Some x →
  len (held f (<[t := y]> l)) + len (held f [x]) = len (held f l) + len (held f [y]).
Proof. intros Hx. pose proof (Permutation_length (held_update f l t x y Hx)) as H. rewrite !length_app in H. lia. Qed.

Lemma slots_update {A} (l : list (option A)) t x t' v : <[t := x]> l !! t' = Some (Some v) →
  Some v = x ∨ l !! t' = Some (Some v).
Proof. intros [(-> & -> & _)|[_ ?]]%list_lookup_insert_Some; auto. Qed.

Lemma held_one {A} (f : call → phase → list A) c p : held f [Some (c, p)] = f c p.
Proof. unfold held. cbn. apply app_nil_r. Qed.

Lemma used_recent limit k l (ks : list string) : l = recent limit ks → used limit k l = recent limit (option_list k ++ ks).
Proof.
  intros ->. destruct k as [k|]; [|done]. change (option_list (Some k) ++ ks) with (k :: ks). by rewrite recent_cons.
Qed.

Lemma call_ok_step ru n y t c : run_ok ru n y → call_ok c → slots y !! t = Some None → run_ok ru n (step y (ECall t c)).
Proof.
  intros Hy Hc Ht. cbn [step]. rewrite Ht. destruct Hy as [Hm Hr Hn Hth Ha Hd Hi Hns Has Hck Hst].
  destruct (begin_ok ru c Hc) as (S1 & S2 & S3). rewrite Hr.
  assert (past_check (first_phase ru c) = [] ∧ past_store (first_phase ru c) = []) as [S4 S5]
    by (destruct c; cbn; by repeat case_match).
  assert (∀ A (f : call → phase → list A), f c (first_phase ru c) = [] →
    held f (<[t := Some (c, first_phase ru c)]> (slots y)) ≡ₚ held f (slots y)) as Hh.
  { intros A f Hf. pose proof (held_update f _ t _ (Some (c, first_phase ru c)) Ht) as H.
    rewrite held_one, Hf in H. change (held f [None]) with (@nil A) in H. by rewrite !app_nil_r in H. }
  split; cbn [shared slots names addresses answered]; try done.
  - by rewrite length_insert.
  - intros t' c' p' [[= -> ->]|?]%slots_update; [done|by eapply Hth].
  - by rewrite Hh.
  - by rewrite Hh.
  - by rewrite (Hh _ (λ _, past_check)).
  - by rewrite (Hh _ (λ _, past_store)).
Qed.

Lemma access_step ru n y t c p : run_ok ru n y → slots y !! t = Some (Some (c, p)) →
  run_ok ru n {| shared := fst (next_access (shared y) p); slots := <[t := Some (c, snd (next_access (shared y) p))]> (slots y);
                 names := option_list (name_used (shared y) p) ++ names y;
                 addresses := option_list (address_used (shared y) p) ++ addresses y; answered := answered y |}.
Proof.
  intros Hy Ht. destruct Hy as [Hm Hr Hn Hth Ha Hd Hi Hns Has Hck Hst].
  pose proof (Hth t c p Ht) as Hp. rewrite <- Hr in Hp.
  pose proof (access_ok (shared y) c p Hm Hp) as Hadv. pose proof (access_regex (shared y) p) as Hrx.
  destruct (next_access (shared y) p) as [s' p']. destruct Hadv as ((Hm' & Hr' & Ht') & Hod & Hoi & Hn' & Ha').
  cbn [fst snd]. rewrite Hr in *.
  pose proof (held_len (λ _, past_check) _ t _ (Some (c, p')) Ht) as Hc.
  pose proof (held_len (λ _, past_store) _ t _ (Some (c, p')) Ht) as Hs. rewrite !held_one in Hc, Hs.
  assert (∀ (f : call → phase → list string) k l, f c p' = option_list k ++ f c p →
    names y ≡ₚ l ++ held f (slots y) ∨ addresses y ≡ₚ l ++ held f (slots y) →
    option_list k ++ l ++ held f (slots y) ≡ₚ l ++ held f (<[t := Some (c, p')]> (slots y))) as Hkeys.
  { intros f k l Hf _. pose proof (held_update f _ t _ (Some (c, p')) Ht) as H. rewrite !held_one, Hf in H.
    assert (held f (<[t := Some (c, p')]> (slots y)) ≡ₚ option_list k ++ held f (slots y)) as ->.
    { apply (Permutation_app_inv_r (f c p)). rewrite H. solve_Permutation. }
    solve_Permutation. }
  split; cbn [shared slots names addresses answered]; try done.
  - by rewrite length_insert.
  - intros t' c' q [[= -> ->]|?]%slots_update; [done|by eapply Hth].
  - rewrite Hod. by apply used_recent.
  - rewrite Hoi. by apply used_recent.
  - rewrite Hns at 1. apply Hkeys; auto.
  - rewrite Has at 1. apply Hkeys; auto.
  - pose proof (held_length (λ _, past_check) (<[t := Some (c, p')]> (slots y))) as Hle.
    rewrite length_insert, Hn in Hle. specialize (Hle ltac:(intros _ []; cbn; lia)). lia.
  - lia.
Qed.

Lemma return_step ru n y t c a : run_ok ru n y → slots y !! t = Some (Some (c, Done a)) →
  run_ok ru n {| shared := shared y; slots := <[t := None]> (slots y); names := names y; addresses := addresses y;
                 answered := (c, a) :: answered y |}.
Proof.
  intros Hy Ht. destruct Hy as [Hm Hr Hn Hth Ha Hd Hi Hns Has Hck Hst]. pose proof (Hth t c _ Ht) as Hp.
  pose proof (held_len (λ _, past_check) _ t _ None Ht) as Hc.
  pose proof (held_len (λ _, past_store) _ t _ None Ht) as Hs. rewrite !held_one in Hc, Hs. cbn in Hc, Hs.
  assert (∀ (f : call → phase → list string) (k : call → option string) m, f c (Done a) = option_list (k c) →
    omap k m ++ held f (slots y) ≡ₚ omap k (c :: m) ++ held f (<[t := None]> (slots y))) as Hkeys.
  { intros f k m Hf. pose proof (held_update f _ t _ None Ht) as H. rewrite held_one, Hf in H.
    change (held f [None]) with (@nil string) in H. rewrite app_nil_r in H. rewrite <- H. cbn [omap list_omap].
    destruct (k c); cbn; [|by rewrite app_nil_r]. solve_Permutation. }
  split; cbn [shared slots names addresses answered map fst]; try done.
  - by rewrite length_insert.
  - intros t' c' q [?|?]%slots_update; [done|by eapply Hth].
  - constructor; [exact Hp|done].
  - rewrite Hns. by apply Hkeys.
  - rewrite Has. by apply Hkeys.
  - lia.
  - lia.
Qed.

Lemma step_ok ru n y e : run_ok ru n y → event_ok e → run_ok ru n (step y e).
Proof.
  intros Hy He. destruct e as [t c|t].
  - destruct (slots y !! t) as [[]|] eqn:E; try (cbn [step]; rewrite E; done). by apply call_ok_step.
  - cbn [step]. destruct (slots y !! t) as [[[c p]|]|] eqn:E; [|done..].
    pose proof (access_step ru n y t c p Hy E) as H1. destruct p; try exact H1. by apply return_step.
Qed.

Lemma wp_run cfgs n es : Forall event_ok es → run_ok (build_rules cfgs) n (run (init cfgs n) es).
Proof.
  unfold run. assert (∀ y, run_ok (build_rules cfgs) n y → Forall event_ok es →
    run_ok (build_rules cfgs) n (foldl step y es)) as H.
  { induction es as [|e es IH]; intros y Hy Hes; [done|]. apply Forall_cons_1 in Hes as [He Hes].
    cbn [foldl]. apply IH; [by apply step_ok|done]. }
  intros Hes. by apply H; [apply init_ok|].
Qed.

Lemma held_past l : len (held (λ _, past_store) l) <= len (held (λ _, past_check) l).
Proof.
  unfold held. induction l as [|[[c p]|] l IH]; cbn [map concat]; rewrite ?length_app; [done| |done].
  assert (len (past_store p) <= len (past_check p)) by (destruct p; cbn; lia). lia.
Qed.

(** C9: Lookups may overlap in any way, any number of goroutines interleaving their
    accesses to one matcher.  Every lookup of a name or of an address that returns gives
    the answer of the rules alone.  The caches of names and of addresses are
    least-recently-used caches of at most 2000 entries: they hold exactly the keys used
    last, and the keys used are those of the lookups, each used once while it ran.  The
    learned addresses stay within 5000, and no set that asks for matching by domain only
    is ever learned.  The cached answers of the regular expressions are right, but their
    limit of 2000 is checked without a lock: with n lookups at a time there are at most
    1999 + n of them. *)
Theorem caches_recent (cfgs : list SetConfig) (goroutines : nat) (es : list event) :
  Forall event_ok es →
  let y := run (init cfgs goroutines) es in
  let s := shared y in let ru := build_rules cfgs in
  Forall (λ '(c, a), right_answer ru c a) (answered y)
  ∧ (∀ h, is_Some (entries (domainCache s) !! h) ↔ h ∈ recent domainCacheLimit (names y))
  ∧ (∀ k, is_Some (entries (ipCache s) !! k) ↔ k ∈ recent ipCacheLimit (addresses y))
  ∧ names y ≡ₚ omap (looked_up ru) (map fst (answered y)) ++ held (names_of ru) (slots y)
  ∧ addresses y ≡ₚ omap ip_looked_up (map fst (answered y)) ++ held addresses_of (slots y)
  ∧ Z.of_nat (size (entries (domainCache s))) <= domainCacheLimit
  ∧ Z.of_nat (size (entries (ipCache s))) <= ipCacheLimit
  ∧ Z.of_nat (size (entries (learnedIPCache s))) <= learnedIPCacheLimit
  ∧ (∀ k e, entries (learnedIPCache s) !! k = Some e → DomainOnly (Targets (l_set e)) = false)
  ∧ (∀ h res, regexCache s !! h = Some res → res = ref_regex ru h)
  ∧ Z.of_nat (size (regexCache s)) <= regexCacheLimit - 1 + Z.of_nat goroutines.
Proof.
  intros Hes. cbv zeta. destruct (wp_run cfgs goroutines es Hes) as [Hm Hr Hn Hth Ha Hd Hi Hns Has Hck Hst].
  pose proof Hm as [Hl _ Hx Hil _ Hll Hle]. rewrite Hr in Hx. rewrite <- Hd, <- Hi.
  rewrite <- (lru_length _ _ Hl), <- (lru_length _ _ Hil), <- (lru_length _ _ Hll).
  pose proof (held_past (slots (run (init cfgs goroutines) es))).
  split_and!; try done.
  - eapply Forall_impl; [exact Ha|]. by intros [c a].
  - intros h. by rewrite (lru_in _ _ h Hl).
  - intros k. by rewrite (lru_in _ _ k Hil).
  - apply Hl.
  - apply Hil.
  - apply Hll.
  - lia.
Qed.

Ltac unfold_access :=
  cbn [step slots shared names addresses answered lookup list_lookup insert list_insert next_access fst snd].

(** The limit is indeed passed: two lookups that both find room for one entry more both
    store theirs. *)
Theorem regex_limit_passed (y : system) (c1 c2 : call) (h1 h2 : string) :
  regexCacheSize (shared y) = regexCacheLimit - 1 → Z.of_nat (size (regexCache (shared y))) = regexCacheLimit - 1 →
  h1 ≠ h2 → regexCache (shared y) !! h1 = None → regexCache (shared y) !! h2 = None →
  slots y = [Some (c1, RegexLoad h1); Some (c2, RegexLoad h2)] →
  let s := shared (run y (concat (replicate 4 [EStep 0; EStep 1]))) in
  Z.of_nat (size (regexCache s)) = regexCacheLimit + 1.
Proof.
  intros Hn Hs Hne H1 H2 Hsl. destruct y as [s sl ns ks an]. cbn [shared slots] in *. subst sl.
  cbn [replicate concat app]. assert (∀ y e es, run y (e :: es) = run (step y e) es) as Hrun by done.
  do 2 (rewrite Hrun; unfold_access; unfold regex_load; rewrite ?H1, ?H2).
  do 2 (rewrite Hrun; unfold_access; unfold regex_room; rewrite Hn;
    change (regexCacheLimit - 1 <? regexCacheLimit) with true).
  do 4 (rewrite Hrun; unfold_access; unfold regex_store, regex_add). cbn [run foldl shared].
  cbn [with_regexCache regexCache].
  rewrite map_size_insert_None by (by rewrite lookup_insert_ne).
  rewrite map_size_insert_None by done. lia.
Qed.
End overlap.

(** ** A run *)

#[local] Existing Instances unicode_demo regexp_demo net_demo ranger_demo.

(** Three goroutines: two look up the same name, one of them after the other has cached
    it, and the third an address. *)
Definition overlap_demo : list event :=
  [ECall 0 (CMatchSNI "ya.ru"); ECall 1 (CMatchSNI "YA.ru"); EStep 0; ECall 2 (CMatchIP [10; 1; 9; 9]); EStep 1; EStep 1;
   EStep 0; EStep 2; EStep 0; EStep 1; EStep 0; EStep 1; EStep 0; EStep 1; EStep 0; EStep 1; EStep 2; EStep 0; EStep 1;
   EStep 2]%string.
Lemma overlap_demo_ok : Forall event_ok overlap_demo.
Proof. repeat constructor; try done. Qed.

Lemma caches_recent_witness :
  let y := run (init match_demo 3) overlap_demo in
  map (λ x, snd (fst (snd x))) (answered y) = [match_demo !! 1%nat; match_demo !! 1%nat; match_demo !! 1%nat]
  ∧ Z.of_nat (size (regexCache (shared y))) <= regexCacheLimit - 1 + 3
  ∧ regexCacheSize (shared y) = 2 ∧ size (regexCache (shared y)) = 1%nat.
Proof.
  destruct (caches_recent match_demo 3 overlap_demo overlap_demo_ok) as (_ & _ & _ & _ & _ & _ & _ & _ & _ & _ & H).
  split; [by vm_compute|]. split; [exact H|]. by vm_compute.
Defined.
