(* ===== verification/ConnState.v ===== *)
(** * Connection state of package [nfq]

    src/src/nfq/connstate.go: the TLS-info cache, the per-destination tracker
    (blocked hosts, escalations, RST kills) and the per-connection tracker.  A
    tracker is a record of finite maps keyed by strings; a mutex-protected method
    is a function from the tracker to its result and the next tracker.  Each call
    of [time.Now] is an argument (nanoseconds), the order in which Go visits a
    map's keys is the argument [order], and a random draw is the argument [r].
    A pointer to a set is a value of the type [S]. *)

From Stdlib Require Import ZArith Lia Ascii.
From stdpp Require Import base list numbers strings gmap pretty.
From S2P Require Import Prelude Config GoString.

Local Open Scope Z_scope.

(** A point in time; 0 is Go's zero [time.Time].  [dur_second] is
    [time.Second]. *)
Abbreviation time := Z.
Definition dur_second : Z := 1000000000.

Definition u64 (z : Z) : Z := z mod 18446744073709551616.

(** ** The eviction loop

    The four bounded maps are trimmed by the same loop: it deletes what is stale,
    remembers the oldest of the rest, and deletes that one if the map is still
    full. *)
Section eviction.
Context {V : Type} (stamp : V → time) (stale : V → bool).

Fixpoint scan_oldest (order : list string) (m : gmap string V)
    (oldestKey : string) (oldestTime : time) : gmap string V * string :=
  match order with
  | [] => (m, oldestKey)
  | k :: rest =>
      match m !! k with
      | None => scan_oldest rest m oldestKey oldestTime
      | Some v =>
          if stale v then scan_oldest rest (delete k m) oldestKey oldestTime
          else if (oldestTime =? 0) || (stamp v <? oldestTime)
          then scan_oldest rest m k (stamp v)
          else scan_oldest rest m oldestKey oldestTime
      end
  end.

Definition evict (maxEntries : Z) (order : list string) (m : gmap string V)
    : gmap string V :=
  if maxEntries <=? Z.of_nat (size m)
  then
    let '(m, oldestKey) := scan_oldest order m EmptyString 0 in
    if (maxEntries <=? Z.of_nat (size m)) && negb (bool_decide (oldestKey = EmptyString))
    then delete oldestKey m else m
  else m.

(** The loops that only delete what is stale. *)
Definition drop_stale (m : gmap string V) : gmap string V :=
  filter (λ kv, stale kv.2 = false) m.
End eviction.

(** ** [tlsInfoCache] *)
Record tlsInfo := { t_host : string; tlsVersion : Z; t_lastSeen : time }.
Abbreviation tlsInfoCache := (gmap string tlsInfo).
Definition maxTLSCacheEntries : Z := 20000.

Definition tls_stale (now : time) (v : tlsInfo) : bool :=
  120 * dur_second <? now - t_lastSeen v.

Module TlsCache.
Definition Store (order : list string) (now1 now2 : time)
    (connKey host : string) (ver : Z) (c : tlsInfoCache) : tlsInfoCache :=
  let c := evict t_lastSeen (tls_stale now1) maxTLSCacheEntries order c in
  <[connKey := {| t_host := host; tlsVersion := ver; t_lastSeen := now2 |}]> c.

Definition Lookup (connKey : string) (c : tlsInfoCache) : string * Z * bool :=
  match c !! connKey with
  | None => (EmptyString, 0, false)
  | Some info => (t_host info, tlsVersion info, true)
  end.

Definition Cleanup (now : time) (c : tlsInfoCache) : tlsInfoCache :=
  drop_stale (tls_stale now) c.
End TlsCache.

(** ** [destStateTracker] *)
Record ipBlockEntry := { firstSeen : time; retransmits : Z; rstSent : bool; b_host : string }.
Record escalationEntry := { setId : string; setAt : time; hops : Z; ttl : Z }.
Record rstKillEntry := { count : Z; firstAt : time; window : Z }.

Record destStateTracker := {
  d_conns : gmap string ipBlockEntry;
  blocked : gmap string time;
  escalations : gmap string escalationEntry;
  rstKills : gmap string rstKillEntry }.

Definition maxIPBlockEntries : Z := 10000.
Definition maxIPBlockCacheEntries : Z := 5000.
Definition maxEscalationCacheEntries : Z := 5000.
Definition maxRSTKillEntries : Z := 5000.
Definition RSTKillThreshold : Z := 3.
Definition RSTKillWindow : Z := 30 * dur_second.
Definition EscalationTTL : Z := 3600 * dur_second.
Definition MaxEscalationHops : Z := 8.

Definition block_stale (now : time) (v : ipBlockEntry) : bool :=
  120 * dur_second <? now - firstSeen v.
Definition esc_stale (now : time) (v : escalationEntry) : bool := ttl v <? now - setAt v.
Definition kill_stale (now : time) (v : rstKillEntry) : bool := window v <? now - firstAt v.

Module DestState.
Definition with_conns (t : destStateTracker) x : destStateTracker :=
  {| d_conns := x; blocked := blocked t; escalations := escalations t; rstKills := rstKills t |}.
Definition with_blocked (t : destStateTracker) x : destStateTracker :=
  {| d_conns := d_conns t; blocked := x; escalations := escalations t; rstKills := rstKills t |}.
Definition with_escalations (t : destStateTracker) x : destStateTracker :=
  {| d_conns := d_conns t; blocked := blocked t; escalations := x; rstKills := rstKills t |}.
Definition with_rstKills (t : destStateTracker) x : destStateTracker :=
  {| d_conns := d_conns t; blocked := blocked t; escalations := escalations t; rstKills := x |}.

Definition RecordClientHello (now1 now2 : time) (connKey host : string)
    (t : destStateTracker) : (Z * time) * destStateTracker :=
  let conns :=
    if maxIPBlockEntries <=? Z.of_nat (size (d_conns t))
    then drop_stale (block_stale now1) (d_conns t) else d_conns t in
  let entry :=
    match conns !! connKey with
    | Some e => e
    | None => {| firstSeen := now2; retransmits := 0; rstSent := false; b_host := host |}
    end in
  let entry := {| firstSeen := firstSeen entry; retransmits := retransmits entry + 1;
                  rstSent := rstSent entry; b_host := b_host entry |} in
  ((retransmits entry, firstSeen entry), with_conns t (<[connKey := entry]> conns)).

Definition HasRSTSent (connKey : string) (t : destStateTracker) : bool :=
  match d_conns t !! connKey with Some e => rstSent e | None => false end.

Definition MarkRSTSent (connKey : string) (t : destStateTracker) : destStateTracker :=
  match d_conns t !! connKey with
  | Some e =>
      with_conns t (<[connKey := {| firstSeen := firstSeen e; retransmits := retransmits e;
                                    rstSent := true; b_host := b_host e |}]> (d_conns t))
  | None => t
  end.

Definition IsBlocked (now : time) (dstIPPort : string) (t : destStateTracker)
    : bool * destStateTracker :=
  match blocked t !! dstIPPort with
  | Some _ => (true, with_blocked t (<[dstIPPort := now]> (blocked t)))
  | None => (false, t)
  end.

Definition AddBlocked (now1 now2 : time) (dstIPPort : string) (t : destStateTracker)
    : destStateTracker :=
  let b := if maxIPBlockCacheEntries <=? Z.of_nat (size (blocked t))
           then drop_stale (λ v, 300 * dur_second <? now1 - v) (blocked t) else blocked t in
  with_blocked t (<[dstIPPort := now2]> b).

Definition Cleanup (now : time) (cacheTTL : Z) (t : destStateTracker) : destStateTracker :=
  {| d_conns := drop_stale (block_stale now) (d_conns t);
     blocked := if 0 <? cacheTTL then drop_stale (λ v, cacheTTL <? now - v) (blocked t)
                else blocked t;
     escalations := drop_stale (esc_stale now) (escalations t);
     rstKills := drop_stale (kill_stale now) (rstKills t) |}.

Definition GetEscalation (now : time) (host : string) (t : destStateTracker)
    : string * Z * bool :=
  match escalations t !! host with
  | None => (EmptyString, 0, false)
  | Some e => if esc_stale now e then (EmptyString, 0, false) else (setId e, hops e, true)
  end.

Definition SetEscalation (order : list string) (now1 now2 now3 : time)
    (host sid : string) (ttl : Z) (t : destStateTracker) : bool * destStateTracker :=
  let ttl := if ttl <=? 0 then EscalationTTL else ttl in
  let esc := evict setAt (esc_stale now1) maxEscalationCacheEntries order (escalations t) in
  let prev := esc !! host in
  let expired := match prev with Some p => esc_stale now2 p | None => false end in
  let esc := if expired then delete host esc else esc in
  let prev := if expired then None else prev in
  let hops := match prev with Some p => hops p + 1 | None => 1 end in
  if MaxEscalationHops <? hops then (false, with_escalations t esc)
  else
    (true, with_escalations t
       (<[host := {| setId := sid; setAt := now3; hops := hops; ttl := ttl |}]> esc)).

(** The snapshots, in the order the map is visited. *)
Definition ListEscalations (order : list string) (now : time) (t : destStateTracker)
    : list (string * string * Z * time * time) :=
  omap (λ host,
    match escalations t !! host with
    | None => None
    | Some e => if esc_stale now e then None
                else Some (host, setId e, hops e, setAt e, setAt e + ttl e)
    end) order.

Definition ClearEscalation (host : string) (t : destStateTracker) : destStateTracker :=
  with_escalations t (delete host (escalations t)).

Definition ResetEscalations (t : destStateTracker) : destStateTracker :=
  {| d_conns := d_conns t; blocked := blocked t; escalations := ∅; rstKills := ∅ |}.

Definition RecordRSTKill (order : list string) (now1 now2 : time) (host : string)
    (threshold win : Z) (t : destStateTracker) : bool * destStateTracker :=
  let threshold := if threshold <=? 0 then RSTKillThreshold else threshold in
  let win := if win <=? 0 then RSTKillWindow else win in
  let kills := evict firstAt (kill_stale now1) maxRSTKillEntries order (rstKills t) in
  match kills !! host with
  | Some entry =>
      if kill_stale now2 entry
      then (false, with_rstKills t
              (<[host := {| count := 1; firstAt := now2; window := win |}]> kills))
      else
        let n := count entry + 1 in
        if threshold <=? n then (true, with_rstKills t (delete host kills))
        else (false, with_rstKills t
                (<[host := {| count := n; firstAt := firstAt entry;
                              window := window entry |}]> kills))
  | None =>
      (false, with_rstKills t
         (<[host := {| count := 1; firstAt := now2; window := win |}]> kills))
  end.
End DestState.

(** ** [connStateTracker]

    [S] is the type of [*config.SetConfig]; [None] is the nil pointer. *)
Record connInfo (S : Type) := {
  bytesIn : Z;
  threshold : Z;
  c_set : option S;
  c_lastSeen : time;
  serverTTL : Z;
  ttlRecorded : bool;
  responseSeen : bool;
  rstCount : Z;
  serverHasOpts : bool;
  established : bool }.
Arguments bytesIn {S}. Arguments threshold {S}. Arguments c_set {S}.
Arguments c_lastSeen {S}. Arguments serverTTL {S}. Arguments ttlRecorded {S}.
Arguments responseSeen {S}. Arguments rstCount {S}. Arguments serverHasOpts {S}.
Arguments established {S}.

Definition maxConnStateEntries : Z := 10000.

(** The reasons [CheckRST] reports, with the numbers its messages print. *)
Inductive rstReason : Type :=
| NoReason
| MultipleRSTs (count : Z)
| BeforeResponse
| OptionsStripped
| BareRST
| TTLMismatch (rst server delta : Z).

(** [fmt.Sprintf(... %s:%d->%s:%d ...)] *)
Definition connKeyOf (clientIP : string) (clientPort : N) (serverIP : string)
    (serverPort : N) : string :=
  clientIP +:+ ":" +:+ pretty clientPort +:+ "->" +:+ serverIP +:+ ":" +:+ pretty serverPort.

Module ConnTracker.
Section conn_state.
Context {S : Type}.
Abbreviation tracker := (gmap string (connInfo S)).

Definition conn_stale (now : time) (v : connInfo S) : bool :=
  120 * dur_second <? now - c_lastSeen v.

Definition RegisterOutgoing (order : list string) (now1 now2 : time) (connKey : string)
    (set : option S) (conns : tracker) : tracker :=
  let conns := evict c_lastSeen (conn_stale now1) maxConnStateEntries order conns in
  match conns !! connKey with
  | Some e =>
      <[connKey := {| bytesIn := bytesIn e; threshold := threshold e; c_set := set;
          c_lastSeen := now2; serverTTL := serverTTL e; ttlRecorded := ttlRecorded e;
          responseSeen := responseSeen e; rstCount := rstCount e;
          serverHasOpts := serverHasOpts e; established := established e |}]> conns
  | None =>
      <[connKey := {| bytesIn := 0; threshold := 0; c_set := set; c_lastSeen := now2;
          serverTTL := 0; ttlRecorded := false; responseSeen := false; rstCount := 0;
          serverHasOpts := false; established := false |}]> conns
  end.

Definition RecordServerResponse (outKey : string) (ttl : Z) (hasOpts : bool)
    (conns : tracker) : tracker :=
  match conns !! outKey with
  | None => conns
  | Some e =>
      <[outKey := {| bytesIn := bytesIn e; threshold := threshold e; c_set := c_set e;
          c_lastSeen := c_lastSeen e;
          serverTTL := if ttlRecorded e then serverTTL e else ttl; ttlRecorded := true;
          responseSeen := true; rstCount := rstCount e;
          serverHasOpts := if hasOpts then true else serverHasOpts e;
          established := established e |}]> conns
  end.

(** What [CheckRST] answers for a connection whose count is already raised. *)
Definition rst_verdict (info : connInfo S) (rstTTL : Z) (rstHasOpts rstHasACK : bool)
    (tolerance : Z) : bool * rstReason :=
  if 1 <? rstCount info then (true, MultipleRSTs (rstCount info))
  else if negb (responseSeen info) then (true, BeforeResponse)
  else if serverHasOpts info && negb rstHasOpts then (true, OptionsStripped)
  else if serverHasOpts info && negb rstHasACK then (true, BareRST)
  else if ttlRecorded info
  then
    let delta := rstTTL - serverTTL info in
    let delta := if delta <? 0 then - delta else delta in
    if tolerance <? delta then (true, TTLMismatch rstTTL (serverTTL info) delta)
    else (false, NoReason)
  else (false, NoReason).

Definition CheckRST (outKey : string) (rstTTL : Z) (rstHasOpts rstHasACK : bool)
    (tolerance : Z) (conns : tracker) : (bool * rstReason) * tracker :=
  match conns !! outKey with
  | None => ((false, NoReason), conns)
  | Some e =>
      let e := {| bytesIn := bytesIn e; threshold := threshold e; c_set := c_set e;
          c_lastSeen := c_lastSeen e; serverTTL := serverTTL e; ttlRecorded := ttlRecorded e;
          responseSeen := responseSeen e; rstCount := rstCount e + 1;
          serverHasOpts := serverHasOpts e; established := established e |} in
      (rst_verdict e rstTTL rstHasOpts rstHasACK tolerance, <[outKey := e]> conns)
  end.

Definition MarkEstablished (now : time) (connKey : string) (conns : tracker) : tracker :=
  match conns !! connKey with
  | None => conns
  | Some e =>
      <[connKey := {| bytesIn := bytesIn e; threshold := threshold e; c_set := c_set e;
          c_lastSeen := now; serverTTL := serverTTL e; ttlRecorded := ttlRecorded e;
          responseSeen := responseSeen e; rstCount := rstCount e;
          serverHasOpts := serverHasOpts e; established := true |}]> conns
  end.

Definition ShouldDropOutboundRST (connKey : string) (conns : tracker) : bool :=
  match conns !! connKey with
  | None => false
  | Some e => negb (established e)
  end.

Definition GetSetForIncoming (now : time) (outKey : string) (conns : tracker)
    : option S * tracker :=
  match conns !! outKey with
  | None => (None, conns)
  | Some e =>
      match c_set e with
      | None => (None, conns)
      | Some set =>
          (Some set, <[outKey := {| bytesIn := bytesIn e; threshold := threshold e;
              c_set := c_set e; c_lastSeen := now; serverTTL := serverTTL e;
              ttlRecorded := ttlRecorded e; responseSeen := responseSeen e;
              rstCount := rstCount e; serverHasOpts := serverHasOpts e;
              established := established e |}]> conns)
      end
  end.

(** The threshold drawn when none is set: [r] is [rand.Intn(maxKB-minKB+1)]. *)
Definition draw_threshold (inc : IncomingConfig) (r : Z) : Z :=
  let minKB := in_Min inc in
  let maxKB := in_Max inc in
  let maxKB := if (maxKB =? 0) || (maxKB <? minKB) then minKB else maxKB in
  let small := minKB <=? 0 in
  let minKB := if small then 14 else minKB in
  let maxKB := if small then 14 else maxKB in
  if minKB =? maxKB then u64 (minKB * 1024) else u64 ((minKB + r) * 1024).

Definition TrackIncomingBytes (r : Z) (now : time) (outKey : string) (bytes : Z)
    (inc : IncomingConfig) (conns : tracker) : bool * tracker :=
  match conns !! outKey with
  | None => (false, conns)
  | Some e =>
      let thr := if threshold e =? 0 then draw_threshold inc r else threshold e in
      let prevBytes := bytesIn e in
      let total := u64 (bytesIn e + bytes) in
      let fire := (prevBytes <? thr) && (thr <=? total) in
      (fire, <[outKey := {| bytesIn := if fire then 0 else total;
          threshold := if fire then 0 else thr; c_set := c_set e; c_lastSeen := now;
          serverTTL := serverTTL e; ttlRecorded := ttlRecorded e;
          responseSeen := responseSeen e; rstCount := rstCount e;
          serverHasOpts := serverHasOpts e; established := established e |}]> conns)
  end.

Definition Cleanup (now : time) (conns : tracker) : tracker :=
  drop_stale (conn_stale now) conns.
End conn_state.
End ConnTracker.

(** ** [runtimeState] *)
Record runtimeState (S : Type) := {
  tlsCache : tlsInfoCache;
  connState : gmap string (connInfo S);
  destState : destStateTracker }.
Arguments tlsCache {S}. Arguments connState {S}. Arguments destState {S}.

Definition newRuntimeState {S : Type} : runtimeState S :=
  {| tlsCache := ∅; connState := ∅;
     destState := {| d_conns := ∅; blocked := ∅; escalations := ∅; rstKills := ∅ |} |}.

(** ** What the eviction loop does *)
Section eviction_facts.
Context {V : Type} (stamp : V → time) (stale : V → bool).
Implicit Types (m : gmap string V) (order : list string).

(** [order] visits every key of [m]. *)
Definition covers order m : Prop := ∀ x, is_Some (m !! x) → x ∈ order.

(** What is left of the map: the stale entries that were visited are gone. *)
Lemma scan_oldest_map order m k t x v :
  (scan_oldest stamp stale order m k t).1 !! x = Some v ↔
  m !! x = Some v ∧ (stale v = false ∨ x ∉ order).
Proof.
  revert m k t. induction order as [|y order IH]; intros m k t; cbn.
  { split; [|tauto]. intros H. split; [done|right; apply not_elem_of_nil]. }
  rewrite not_elem_of_cons. destruct (m !! y) as [w|] eqn:Hy.
  2:{ rewrite IH. split; [|tauto]. intros [Hx Hd]. split; [done|].
      destruct Hd; [by left|right]. split; [congruence|done]. }
  assert (stale w = false → m !! x = Some v →
    stale v = false ∨ x ∉ order → stale v = false ∨ x ≠ y ∧ x ∉ order) as Hw.
  { intros ? ? [|]; [by left|]. destruct (decide (x = y)) as [->|]; [|by right].
    left. congruence. }
  destruct (stale w) eqn:Hs.
  - rewrite IH, lookup_delete_Some. split.
    + intros [[? ?] [|]]; auto.
    + intros [Hx Hd]. assert (y ≠ x) by (intros ->; destruct Hd as [|[]]; congruence).
      split; [done|]. destruct Hd as [|[]]; auto.
  - destruct ((t =? 0) || (stamp w <? t)); rewrite IH; split; intros [Hx Hd];
      (split; [done|]); auto; destruct Hd as [|[]]; auto.
Qed.

(** The key it remembers: none when every visited entry is stale, and otherwise
    that of a surviving entry, the oldest if all stamps are set. *)
Definition oldest_of order m (k k' : string) (t : time) : Prop :=
  (k' = EmptyString ∧ k = EmptyString
     ∧ ∀ x w, x ∈ order → m !! x = Some w → stale w = true)
  ∨ ∃ v, m !! k' = Some v ∧ stale v = false
      ∧ ((∀ y w, m !! y = Some w → 0 < stamp w) →
         (k ≠ EmptyString → stamp v <= t)
         ∧ ∀ x w, x ∈ order → m !! x = Some w → stale w = false → stamp v <= stamp w).

Definition remembered m (k : string) (t : time) : Prop :=
  k = EmptyString ∧ t = 0 ∨ ∃ v, m !! k = Some v ∧ stale v = false ∧ stamp v = t.

Lemma remembered_step m x v k t :
  m !! x = Some v → stale v = false → m !! EmptyString = None → remembered m k t →
  ∃ k1 t1, remembered m k1 t1 ∧ k1 ≠ EmptyString
    ∧ (if (t =? 0) || (stamp v <? t) then (x, stamp v) else (k, t)) = (k1, t1)
    ∧ ((∀ y w, m !! y = Some w → 0 < stamp w) →
       (k ≠ EmptyString → t1 <= t) ∧ t1 <= stamp v).
Proof.
  intros Hx Hst He Hk. destruct ((t =? 0) || (stamp v <? t)) eqn:Eb; bprop.
  - exists x, (stamp v). split_and!; [right; by exists v|congruence|done|].
    intros Hpos. split; [|lia]. intros Hne. destruct Hk as [[? _]|(w & Hw & _ & Htw)]; [done|].
    specialize (Hpos _ _ Hw). lia.
  - exists k, t. destruct Hk as [[-> ->]|Hk]; [done|]. split_and!; [by right| |done|lia].
    destruct Hk as (w & Hw & _). congruence.
Qed.

Lemma scan_oldest_key order m k t :
  m !! EmptyString = None → remembered m k t →
  oldest_of order m k (scan_oldest stamp stale order m k t).2 t.
Proof.
  revert m k t. induction order as [|x order IH]; intros m k t He Hk; cbn.
  { destruct Hk as [[-> ->]|(v & Hv & Hs & Ht)]; [left|right].
    - split_and!; [done..|]. intros x w Hx. by apply not_elem_of_nil in Hx.
    - exists v. split_and!; [done..|]. intros _. split; [lia|].
      intros x w Hx. by apply not_elem_of_nil in Hx. }
  destruct (m !! x) as [v|] eqn:Hx.
  2:{ destruct (IH m k t He Hk) as [(Ha&Hb&Hc)|(v&Hv&Hs&Hmin)]; [left|right].
      - split_and!; [done..|]. intros y w [->|Hy]%elem_of_cons ?; [congruence|eauto].
      - exists v. split_and!; [done..|]. intros Hpos. destruct (Hmin Hpos) as [H1 H2].
        split; [done|]. intros y w [->|Hy]%elem_of_cons ?; [congruence|eauto]. }
  destruct (stale v) eqn:Hst.
  - destruct (IH (delete x m) k t) as [(Ha&Hb&Hc)|(w&Hw&Hs&Hmin)].
    { rewrite lookup_delete_None. by right. }
    { destruct Hk as [?|(w & Hw & Hsw & Htw)]; [by left|right].
      exists w. rewrite lookup_delete_ne; [done|congruence]. }
    + left. split_and!; [done..|]. intros y w Hy Hyw.
      destruct (decide (y = x)) as [->|Hne]; [congruence|].
      apply elem_of_cons in Hy as [|Hy]; [done|]. apply (Hc y w Hy).
      by rewrite lookup_delete_ne.
    + apply lookup_delete_Some in Hw as [Hne Hw]. right. exists w. split_and!; [done..|].
      intros Hpos. destruct Hmin as [H1 H2].
      { intros y u Hy. apply lookup_delete_Some in Hy as [_ Hy]. eauto. }
      split; [done|]. intros y u Hy Hyu Hsu.
      destruct (decide (y = x)) as [->|Hyx]; [congruence|].
      apply elem_of_cons in Hy as [|Hy]; [done|]. apply (H2 y u Hy); [|done].
      by rewrite lookup_delete_ne.
  - destruct (remembered_step m x v k t) as (k1&t1&Hk1&Hne1&Hst1&Ht1); [done..|].
    replace (if (t =? 0) || (stamp v <? t) then scan_oldest stamp stale order m x (stamp v)
             else scan_oldest stamp stale order m k t)
      with (scan_oldest stamp stale order m k1 t1) by (case_if; congruence).
    right. destruct (IH m k1 t1 He Hk1) as [(_&?&_)|(w&Hw&Hs&Hmin)]; [done|].
    exists w. split_and!; [done..|]. intros Hpos. destruct (Hmin Hpos) as [H1 H2].
    destruct (Ht1 Hpos) as [H3 H4]. specialize (H1 Hne1). split; [intros Hn; specialize (H3 Hn); lia|].
    intros y u [->|Hy]%elem_of_cons ? ?; [|by eauto].
    assert (u = v) as -> by congruence. lia.
Qed.

Lemma scan_oldest_subseteq order m k t : (scan_oldest stamp stale order m k t).1 ⊆ m.
Proof. apply map_subseteq_spec. intros x v H. by apply scan_oldest_map in H as [H _]. Qed.

(** [evict] makes room: a map within its bound has space for one more. *)
Lemma evict_size (n : Z) order m :
  covers order m → m !! EmptyString = None → 0 < n → Z.of_nat (size m) <= n →
  Z.of_nat (size (evict stamp stale n order m)) < n.
Proof.
  intros Hc He Hn Hs. unfold evict. destruct (n <=? Z.of_nat (size m)) eqn:E; [|zlia].
  pose proof (scan_oldest_subseteq order m EmptyString 0) as Hsub.
  pose proof (scan_oldest_key order m EmptyString 0 He (or_introl (conj eq_refl eq_refl))) as Hk.
  pose proof (scan_oldest_map order m EmptyString 0) as Hm.
  destruct (scan_oldest stamp stale order m EmptyString 0) as [m' k']. cbn in *.
  assert (size m' <= size m)%nat by (by apply map_subseteq_size).
  destruct (n <=? Z.of_nat (size m')) eqn:E1; simpl; [|zlia].
  destruct Hk as [(->&_&Hall)|(v&Hv&Hst&_)].
  - exfalso. assert (m' = ∅) as ->.
    { apply map_empty. intros x. destruct (m' !! x) as [w|] eqn:Hx; [|done].
      apply Hm in Hx as [Hx Hd]. pose proof (Hc x (ltac:(eauto))) as Hin.
      rewrite (Hall x w Hin Hx) in Hd. naive_solver. }
    rewrite map_size_empty in E1. zlia.
  - assert (k' ≠ EmptyString) by congruence. rewrite bool_decide_false by done. simpl.
    assert (m' !! k' = Some v) as Hv' by (apply Hm; auto).
    rewrite map_size_delete_Some by eauto. zlia.
Qed.

Lemma evict_lookup (n : Z) order m x v :
  evict stamp stale n order m !! x = Some v → m !! x = Some v.
Proof.
  unfold evict. case_if; [|done].
  pose proof (scan_oldest_map order m EmptyString 0 x v) as Hm.
  destruct (scan_oldest stamp stale order m EmptyString 0) as [m' k']. cbn in Hm.
  case_if; [|tauto]. rewrite lookup_delete_Some. tauto.
Qed.

(** What it removes is stale, or no younger than any entry that is not. *)
Lemma evict_victim (n : Z) order m x v :
  covers order m → m !! EmptyString = None → (∀ y w, m !! y = Some w → 0 < stamp w) →
  m !! x = Some v → evict stamp stale n order m !! x = None →
  stale v = true ∨ ∀ y w, m !! y = Some w → stale w = false → stamp v <= stamp w.
Proof.
  intros Hc He Hpos Hx. unfold evict. case_if; [|congruence].
  pose proof (scan_oldest_key order m EmptyString 0 He (or_introl (conj eq_refl eq_refl))) as Hk.
  pose proof (scan_oldest_map order m EmptyString 0 x v) as Hm.
  destruct (scan_oldest stamp stale order m EmptyString 0) as [m' k']. cbn in *.
  destruct (stale v) eqn:Hst; [by left|]. right.
  assert (m' !! x = Some v) as Hx' by (apply Hm; auto).
  destruct Hk as [(->&_&Hall)|(u&Hu&Hsu&Hmin)].
  { rewrite (Hall x v (Hc x (ltac:(eauto))) Hx) in Hst. done. }
  revert H. case_if; [|congruence]. rewrite lookup_delete_None. intros [->|]; [|congruence].
  assert (u = v) as -> by congruence. destruct (Hmin Hpos) as [_ H2].
  intros y w Hy Hw. apply (H2 y w); eauto.
Qed.
End eviction_facts.

(** ** Runs of the three trackers

    Every method that changes state, as an event of the shared [runtimeState]. *)
Section runs.
Context {S : Type}.

Inductive event :=
| EvTlsStore (order : list string) (now1 now2 : time) (connKey host : string) (ver : Z)
| EvTlsCleanup (now : time)
| EvClientHello (now1 now2 : time) (connKey host : string)
| EvMarkRST (connKey : string)
| EvIsBlocked (now : time) (dst : string)
| EvAddBlocked (now1 now2 : time) (dst : string)
| EvDestCleanup (now : time) (cacheTTL : Z)
| EvSetEscalation (order : list string) (now1 now2 now3 : time) (host sid : string) (ttl : Z)
| EvClearEscalation (host : string)
| EvResetEscalations
| EvRSTKill (order : list string) (now1 now2 : time) (host : string) (threshold win : Z)
| EvRegister (order : list string) (now1 now2 : time) (connKey : string) (set : option S)
| EvServerResponse (outKey : string) (ttl : Z) (hasOpts : bool)
| EvCheckRST (outKey : string) (rstTTL : Z) (hasOpts hasACK : bool) (tolerance : Z)
| EvEstablished (now : time) (connKey : string)
| EvGetSet (now : time) (outKey : string)
| EvTrackBytes (r : Z) (now : time) (outKey : string) (n : Z) (inc : IncomingConfig)
| EvConnCleanup (now : time).

Definition on_tls (s : runtimeState S) x : runtimeState S :=
  {| tlsCache := x; connState := connState s; destState := destState s |}.
Definition on_conn (s : runtimeState S) x : runtimeState S :=
  {| tlsCache := tlsCache s; connState := x; destState := destState s |}.
Definition on_dest (s : runtimeState S) x : runtimeState S :=
  {| tlsCache := tlsCache s; connState := connState s; destState := x |}.

Definition exec (e : event) (s : runtimeState S) : runtimeState S :=
  match e with
  | EvTlsStore o n1 n2 k h v => on_tls s (TlsCache.Store o n1 n2 k h v (tlsCache s))
  | EvTlsCleanup n => on_tls s (TlsCache.Cleanup n (tlsCache s))
  | EvClientHello n1 n2 k h =>
      on_dest s (DestState.RecordClientHello n1 n2 k h (destState s)).2
  | EvMarkRST k => on_dest s (DestState.MarkRSTSent k (destState s))
  | EvIsBlocked n d => on_dest s (DestState.IsBlocked n d (destState s)).2
  | EvAddBlocked n1 n2 d => on_dest s (DestState.AddBlocked n1 n2 d (destState s))
  | EvDestCleanup n t => on_dest s (DestState.Cleanup n t (destState s))
  | EvSetEscalation o n1 n2 n3 h i t =>
      on_dest s (DestState.SetEscalation o n1 n2 n3 h i t (destState s)).2
  | EvClearEscalation h => on_dest s (DestState.ClearEscalation h (destState s))
  | EvResetEscalations => on_dest s (DestState.ResetEscalations (destState s))
  | EvRSTKill o n1 n2 h t w =>
      on_dest s (DestState.RecordRSTKill o n1 n2 h t w (destState s)).2
  | EvRegister o n1 n2 k x => on_conn s (ConnTracker.RegisterOutgoing o n1 n2 k x (connState s))
  | EvServerResponse k t h => on_conn s (ConnTracker.RecordServerResponse k t h (connState s))
  | EvCheckRST k t o a tol => on_conn s (ConnTracker.CheckRST k t o a tol (connState s)).2
  | EvEstablished n k => on_conn s (ConnTracker.MarkEstablished n k (connState s))
  | EvGetSet n k => on_conn s (ConnTracker.GetSetForIncoming n k (connState s)).2
  | EvTrackBytes r n k b i =>
      on_conn s (ConnTracker.TrackIncomingBytes r n k b i (connState s)).2
  | EvConnCleanup n => on_conn s (ConnTracker.Cleanup n (connState s))
  end.

(** What Go and the callers guarantee: a range loop visits every key, and
    connection keys and hosts are not empty. *)
Definition event_ok (e : event) (s : runtimeState S) : Prop :=
  match e with
  | EvTlsStore o _ _ k _ _ => covers o (tlsCache s) ∧ k ≠ EmptyString
  | EvSetEscalation o _ _ _ h _ _ => covers o (escalations (destState s)) ∧ h ≠ EmptyString
  | EvRSTKill o _ _ h _ _ => covers o (rstKills (destState s)) ∧ h ≠ EmptyString
  | EvRegister o _ _ k _ => covers o (connState s) ∧ k ≠ EmptyString
  | _ => True
  end.

Inductive reachable : runtimeState S → Prop :=
| reach_init : reachable newRuntimeState
| reach_step s e : reachable s → event_ok e s → reachable (exec e s).

(** The invariant: a bounded map has at most its limit of entries and no empty
    key; escalation chains have 1 to 8 hops; kill counters are positive. *)
Definition map_ok {V} (n : Z) (P : V → Prop) (m : gmap string V) : Prop :=
  Z.of_nat (size m) <= n ∧ m !! EmptyString = None ∧ map_Forall (λ _, P) m.

Definition bounded (s : runtimeState S) : Prop :=
  map_ok maxTLSCacheEntries (λ _, True) (tlsCache s)
  ∧ map_ok maxConnStateEntries (λ c, 0 <= rstCount c) (connState s)
  ∧ map_ok maxEscalationCacheEntries (λ e, 1 <= hops e <= MaxEscalationHops ∧ 0 < ttl e)
      (escalations (destState s))
  ∧ map_ok maxRSTKillEntries (λ k, 1 <= count k ∧ 0 < window k) (rstKills (destState s)).

Section map_ok_rules.
Context {V : Type} (n : Z) (P : V → Prop).
Implicit Types (m : gmap string V).

Lemma map_ok_empty : 0 <= n → map_ok n P ∅.
Proof. intros. split_and!; [rewrite map_size_empty; lia|done|apply map_Forall_empty]. Qed.

Lemma map_ok_subset m m' : map_ok n P m → m' ⊆ m → map_ok n P m'.
Proof.
  intros (Hs & He & HP) Hsub. split_and!.
  - pose proof (map_subseteq_size _ _ Hsub). lia.
  - by eapply lookup_weaken_None.
  - intros x v Hx. eapply HP. by eapply lookup_weaken.
Qed.

Lemma map_ok_delete m k : map_ok n P m → map_ok n P (delete k m).
Proof. intros H. apply (map_ok_subset m); [done|apply delete_subseteq]. Qed.

Lemma map_ok_drop stale m : map_ok n P m → map_ok n P (drop_stale stale m).
Proof. intros H. apply (map_ok_subset m); [done|apply map_filter_subseteq]. Qed.

Lemma map_ok_update m k v v' :
  map_ok n P m → m !! k = Some v → P v' → map_ok n P (<[k := v']> m).
Proof.
  intros (Hs & He & HP) Hk Hv. split_and!.
  - by rewrite map_size_insert_Some.
  - rewrite lookup_insert_ne; [done|congruence].
  - by apply map_Forall_insert_2.
Qed.

Lemma map_ok_insert m k v :
  map_ok n P m → Z.of_nat (size m) < n → k ≠ EmptyString → P v → map_ok n P (<[k := v]> m).
Proof.
  intros (Hs & He & HP) Hn Hk Hv. split_and!.
  - rewrite map_size_insert. destruct (m !! k); simpl; lia.
  - by rewrite lookup_insert_ne.
  - by apply map_Forall_insert_2.
Qed.

Lemma map_ok_evict stamp stale order m :
  map_ok n P m → map_ok n P (evict stamp stale n order m).
Proof.
  intros H. apply (map_ok_subset m); [done|].
  apply map_subseteq_spec. intros x v. apply evict_lookup.
Qed.

Lemma map_ok_room stamp stale order m :
  map_ok n P m → 0 < n → covers order m →
  Z.of_nat (size (evict stamp stale n order m)) < n.
Proof. intros (Hs & He & _) Hn Hc. by apply evict_size. Qed.
End map_ok_rules.

#[local] Hint Resolve map_ok_delete map_ok_drop map_ok_evict map_ok_room : core.

Lemma limits_positive :
  0 < maxTLSCacheEntries ∧ 0 < maxConnStateEntries
  ∧ 0 < maxEscalationCacheEntries ∧ 0 < maxRSTKillEntries.
Proof. done. Qed.

Abbreviation esc_ok := (λ e : escalationEntry, 1 <= hops e <= MaxEscalationHops ∧ 0 < ttl e).
Abbreviation kill_ok := (λ k : rstKillEntry, 1 <= count k ∧ 0 < window k).
Abbreviation conn_ok := (λ c : connInfo S, 0 <= rstCount c).

Lemma SetEscalation_ok o n1 n2 n3 h i t d :
  map_ok maxEscalationCacheEntries esc_ok (escalations d) →
  covers o (escalations d) → h ≠ EmptyString →
  map_ok maxEscalationCacheEntries esc_ok
    (escalations (DestState.SetEscalation o n1 n2 n3 h i t d).2).
Proof.
  intros Hm Hc Hh. destruct limits_positive as (_&_&Hn&_).
  unfold DestState.SetEscalation.
  set (t' := if t <=? 0 then EscalationTTL else t).
  assert (0 < t') as Ht' by (unfold t', EscalationTTL, dur_second; case_if; zlia).
  pose proof (map_ok_room _ _ setAt (esc_stale n1) o _ Hm Hn Hc) as Hroom.
  apply (map_ok_evict _ _ setAt (esc_stale n1) o) in Hm. clear Hc.
  set (esc := evict _ _ _ _ _) in *.
  destruct (esc !! h) as [p|] eqn:Hp.
  - pose proof Hm as (_&_&HP). specialize (HP h p Hp).
    destruct (esc_stale n2 p).
    + change (MaxEscalationHops <? 1) with false. cbn.
      pose proof (delete_subseteq esc h) as Hsub%map_subseteq_size.
      apply map_ok_insert; [by apply map_ok_delete|lia|done|].
      cbn. unfold MaxEscalationHops. lia.
    + case_if; cbn; [done|]. bprop. apply map_ok_insert; cbn; [done..|].
      unfold MaxEscalationHops in *. lia.
  - change (MaxEscalationHops <? 1) with false. cbn.
    apply map_ok_insert; [done..|]. cbn. unfold MaxEscalationHops. lia.
Qed.

Lemma RecordRSTKill_ok o n1 n2 h t w d :
  map_ok maxRSTKillEntries kill_ok (rstKills d) → covers o (rstKills d) → h ≠ EmptyString →
  map_ok maxRSTKillEntries kill_ok (rstKills (DestState.RecordRSTKill o n1 n2 h t w d).2).
Proof.
  intros Hm Hc Hh. destruct limits_positive as (_&_&_&Hn).
  unfold DestState.RecordRSTKill.
  set (w' := if w <=? 0 then RSTKillWindow else w).
  assert (0 < w') as Hw' by (unfold w', RSTKillWindow, dur_second; case_if; zlia).
  pose proof (map_ok_room _ _ firstAt (kill_stale n1) o _ Hm Hn Hc) as Hroom.
  apply (map_ok_evict _ _ firstAt (kill_stale n1) o) in Hm. clear Hc.
  set (kills := evict _ _ _ _ _) in *.
  destruct (kills !! h) as [p|] eqn:Hp.
  - pose proof Hm as (_&_&HP). specialize (HP h p Hp). cbn in HP.
    destruct (kill_stale n2 p); [|case_if]; cbn; auto;
      eapply map_ok_update; eauto; cbn; lia.
  - cbn. apply map_ok_insert; [done..|cbn; lia].
Qed.

Lemma SetEscalation_kills o n1 n2 n3 h i t d :
  rstKills (DestState.SetEscalation o n1 n2 n3 h i t d).2 = rstKills d.
Proof. unfold DestState.SetEscalation. by case_if. Qed.

Lemma RecordRSTKill_escalations o n1 n2 h t w d :
  escalations (DestState.RecordRSTKill o n1 n2 h t w d).2 = escalations d.
Proof.
  unfold DestState.RecordRSTKill. destruct (_ !! h); [|done].
  destruct (kill_stale n2 r); [done|]. by destruct (_ <=? _).
Qed.

Lemma RegisterOutgoing_ok o n1 n2 k x (m : gmap string (connInfo S)) :
  map_ok maxConnStateEntries conn_ok m → covers o m → k ≠ EmptyString →
  map_ok maxConnStateEntries conn_ok (ConnTracker.RegisterOutgoing o n1 n2 k x m).
Proof.
  intros Hm Hc Hh. destruct limits_positive as (_&Hn&_&_).
  unfold ConnTracker.RegisterOutgoing.
  pose proof (map_ok_room _ _ c_lastSeen (ConnTracker.conn_stale n1) o _ Hm Hn Hc) as Hroom.
  apply (map_ok_evict _ _ c_lastSeen (ConnTracker.conn_stale n1) o) in Hm.
  set (conns := evict _ _ _ _ _) in *.
  destruct (conns !! k) as [e|] eqn:He.
  - pose proof Hm as (_&_&HP). specialize (HP k e He). cbn in HP.
    eapply map_ok_update; eauto.
  - apply map_ok_insert; [done..|cbn; lia].
Qed.

(** The methods that only update an entry that is there. *)
Lemma conn_update_ok (m : gmap string (connInfo S)) k f :
  map_ok maxConnStateEntries conn_ok m → (∀ e, 0 <= rstCount e → 0 <= rstCount (f e)) →
  map_ok maxConnStateEntries conn_ok
    match m !! k with None => m | Some e => <[k := f e]> m end.
Proof.
  intros Hm Hf. destruct (m !! k) as [e|] eqn:He; [|done].
  eapply map_ok_update; [done..|]. apply Hf. pose proof Hm as (_&_&HP). by apply (HP k e).
Qed.

Lemma bounded_init : bounded newRuntimeState.
Proof. split_and!; by apply map_ok_empty. Qed.

Lemma bounded_exec s e : bounded s → event_ok e s → bounded (exec e s).
Proof.
  intros (Ht & Hc & He & Hk) Hok. destruct limits_positive as (Hn1&_).
  assert (∀ d, map_ok maxEscalationCacheEntries esc_ok (escalations d) →
    map_ok maxRSTKillEntries kill_ok (rstKills d) → bounded (on_dest s d)) as Hdest
    by (intros; by split_and!).
  assert (∀ c, map_ok maxConnStateEntries conn_ok c → bounded (on_conn s c)) as Hconn
    by (intros; by split_and!).
  assert (∀ c, map_ok maxTLSCacheEntries (λ _, True) c → bounded (on_tls s c)) as Htls
    by (intros; by split_and!).
  destruct e; cbn [event_ok exec] in *;
    try (apply Hdest); try (apply Hconn); try (apply Htls); cbn; auto.
  - destruct Hok. apply map_ok_insert; [by apply map_ok_evict|by eapply map_ok_room|done..].
  - by apply map_ok_drop.
  - unfold DestState.MarkRSTSent. by destruct (d_conns _ !! _).
  - unfold DestState.MarkRSTSent. by destruct (d_conns _ !! _).
  - unfold DestState.IsBlocked. by destruct (blocked _ !! _).
  - unfold DestState.IsBlocked. by destruct (blocked _ !! _).
  - destruct Hok. by apply SetEscalation_ok.
  - by rewrite SetEscalation_kills.
  - by apply map_ok_empty.
  - by apply map_ok_empty.
  - by rewrite RecordRSTKill_escalations.
  - destruct Hok. by apply RecordRSTKill_ok.
  - destruct Hok. by apply RegisterOutgoing_ok.
  - by apply conn_update_ok.
  - unfold ConnTracker.CheckRST. pose proof Hc as (_&_&HP).
    destruct (connState s !! outKey) as [c|] eqn:E; cbn; [|done].
    eapply map_ok_update; [done..|]. cbn. pose proof (HP _ _ E). cbn in *. lia.
  - by apply conn_update_ok.
  - unfold ConnTracker.GetSetForIncoming. pose proof Hc as (_&_&HP).
    destruct (connState s !! outKey) as [c|] eqn:E; cbn; [|done].
    destruct (c_set c); cbn; [|done]. eapply map_ok_update; [done..|]. apply (HP _ _ E).
  - unfold ConnTracker.TrackIncomingBytes. pose proof Hc as (_&_&HP).
    destruct (connState s !! outKey) as [c|] eqn:E; cbn; [|done].
    eapply map_ok_update; [done..|]. apply (HP _ _ E).
  - by apply map_ok_drop.
Qed.

(** C21: Whatever sequence of method calls the workers make on the shared
    runtime state, the TLS-info cache, the connection table, the escalation
    table and the RST-kill table never exceed their limits, every escalation
    chain has between 1 and 8 hops and a positive lifetime, and every kill
    counter is at least 1. *)
Theorem reachable_bounded (s : runtimeState S) : reachable s → bounded s.
Proof. induction 1; [apply bounded_init|by apply bounded_exec]. Qed.
End runs.
Arguments event : clear implicits.

Lemma reachable_bounded_witness :
  bounded (exec (EvSetEscalation [] 5 6 7 "a.com" "s2" 0) (@newRuntimeState nat)).
Proof.
  apply reachable_bounded, reach_step; [apply reach_init|]. split; [|done].
  intros x [v Hv]. vm_compute in Hv. discriminate.
Defined.

(** An entry is removed from the TLS-info cache to make room only if it is
    stale (unused for two minutes) or no other live entry is older; the entry
    being stored is afterwards what [Lookup] returns. *)
Theorem Store_evicts_oldest (order : list string) (now1 now2 : time) (k host : string)
    (ver : Z) (c : tlsInfoCache) :
  covers order c → c !! EmptyString = None →
  map_Forall (λ _ v, 0 < t_lastSeen v) c →
  let c' := TlsCache.Store order now1 now2 k host ver c in
  TlsCache.Lookup k c' = (host, ver, true)
  ∧ (∀ x v, x ≠ k → c !! x = Some v → c' !! x = None →
      120 * dur_second < now1 - t_lastSeen v
      ∨ ∀ y w, c !! y = Some w → now1 - t_lastSeen w <= 120 * dur_second →
               t_lastSeen v <= t_lastSeen w)
  ∧ (∀ x v, x ≠ k → c' !! x = Some v → c !! x = Some v).
Proof.
  intros Hc He Hpos c'. unfold c', TlsCache.Store, TlsCache.Lookup. split_and!.
  - by rewrite lookup_insert_eq.
  - intros x v Hx Hv. rewrite lookup_insert_ne by done. intros Hn.
    destruct (evict_victim _ _ _ _ _ _ _ Hc He Hpos Hv Hn) as [H|H]; unfold tls_stale in *.
    + left. zlia.
    + right. intros y w Hy Hw. eapply H; [done|]. apply Z.ltb_ge. lia.
  - intros x v Hx. rewrite lookup_insert_ne by done. apply evict_lookup.
Qed.

Lemma Store_evicts_oldest_witness :
  TlsCache.Lookup "k" (TlsCache.Store ["a"%string] 10 11 "k" "h" 772
    {["a"%string := {| t_host := "x"; tlsVersion := 771; t_lastSeen := 3 |}]})
  = ("h"%string, 772, true).
Proof.
  apply (Store_evicts_oldest ["a"%string] 10 11 "k" "h" 772
    {["a"%string := {| t_host := "x"; tlsVersion := 771; t_lastSeen := 3 |}]}).
  - intros x [v Hv]. apply lookup_singleton_Some in Hv as [<- _]. by left.
  - reflexivity.
  - intros x v Hv. apply lookup_singleton_Some in Hv as [_ <-]. reflexivity.
Defined.

(** ** Escalation chains *)

Lemma evict_below {V} (stamp : V → time) stale (n : Z) order (m : gmap string V) :
  Z.of_nat (size m) < n → evict stamp stale n order m = m.
Proof. intros H. unfold evict. destruct (n <=? Z.of_nat (size m)) eqn:E; [zlia|done]. Qed.

(** While the table has room, escalating a host succeeds exactly when its
    live chain has fewer than 8 hops; the new entry is then read back with one
    hop more (1 if there was no live entry) until its lifetime ends, and the
    other hosts keep theirs. *)
Theorem SetEscalation_chain (order : list string) (now : time) (host sid : string) (d : Z)
    (t : destStateTracker) :
  Z.of_nat (size (escalations t)) < maxEscalationCacheEntries → 0 < d →
  let g := DestState.GetEscalation now host t in
  let hops := if g.2 then g.1.2 else 0 in
  let r := DestState.SetEscalation order now now now host sid d t in
  r.1 = bool_decide (hops < 8)
  ∧ (r.1 = true → ∀ later, now <= later →
      DestState.GetEscalation later host r.2 =
        if later <=? now + d then (sid, hops + 1, true) else (EmptyString, 0, false))
  ∧ (∀ later other, other ≠ host →
      DestState.GetEscalation later other r.2 = DestState.GetEscalation later other t).
Proof.
  intros Hroom Hd. unfold DestState.GetEscalation, DestState.SetEscalation.
  rewrite evict_below by done. destruct (d <=? 0) eqn:Ed; [zlia|].
  destruct (escalations t !! host) as [e|] eqn:He; [destruct (esc_stale now e) eqn:Hst|].
  - change (MaxEscalationHops <? 1) with false. cbn. split_and!; [done|intros _ l Hl|].
    + rewrite lookup_insert_eq. unfold esc_stale; cbn. zcases; done.
    + intros l o Ho. by rewrite lookup_insert_ne, lookup_delete_ne.
  - cbn. unfold MaxEscalationHops. destruct (8 <? hops e + 1) eqn:Eh; cbn.
    + rewrite bool_decide_false by zlia. by split_and!.
    + rewrite bool_decide_true by zlia. split_and!; [done|intros _ l Hl|].
      * rewrite lookup_insert_eq. unfold esc_stale; cbn. zcases; done.
      * intros l o Ho. by rewrite lookup_insert_ne.
  - change (MaxEscalationHops <? 1) with false. cbn. split_and!; [done|intros _ l Hl|].
    + rewrite lookup_insert_eq. unfold esc_stale; cbn. zcases; done.
    + intros l o Ho. by rewrite lookup_insert_ne.
Qed.

Lemma SetEscalation_chain_witness :
  (DestState.GetEscalation 9 "a" (DestState.SetEscalation [] 5 5 5 "a" "s" 10
     (destState (@newRuntimeState nat))).2).1.2 = 1.
Proof.
  pose proof (SetEscalation_chain [] 5 "a" "s" 10 (destState (@newRuntimeState nat)) eq_refl eq_refl)
    as (_ & H & _). by rewrite (H eq_refl 9).
Defined.

(** ** RST kills

    The answers to kills of one host reported at the given times. *)
Fixpoint kill_run (order : list string) (host : string) (threshold win : Z)
    (times : list time) (t : destStateTracker) : list bool * destStateTracker :=
  match times with
  | [] => ([], t)
  | now :: rest =>
      let '(b, t) := DestState.RecordRSTKill order now now host threshold win t in
      let '(bs, t) := kill_run order host threshold win rest t in
      (b :: bs, t)
  end.

(** One report within the window of a live entry. *)
Lemma RecordRSTKill_live order now host threshold win t e :
  Z.of_nat (size (rstKills t)) < maxRSTKillEntries → 0 < threshold →
  rstKills t !! host = Some e → now - firstAt e <= window e →
  DestState.RecordRSTKill order now now host threshold win t =
    if threshold <=? count e + 1
    then (true, DestState.with_rstKills t (delete host (rstKills t)))
    else (false, DestState.with_rstKills t (<[host := {| count := count e + 1;
            firstAt := firstAt e; window := window e |}]> (rstKills t))).
Proof.
  intros Hs Ht He Hn. unfold DestState.RecordRSTKill. rewrite evict_below, He by done.
  unfold kill_stale. destruct (threshold <=? 0) eqn:E; [zlia|].
  destruct (window e <? now - firstAt e) eqn:E1; [zlia|]. done.
Qed.

Lemma kill_run_live order host threshold win t0 (times : list time) (t : destStateTracker) c :
  Z.of_nat (size (rstKills t)) < maxRSTKillEntries →
  rstKills t !! host = Some {| count := c; firstAt := t0; window := win |} →
  Forall (λ now, now <= t0 + win) times → 1 <= c →
  Z.of_nat (length times) = threshold - c → times ≠ [] →
  (kill_run order host threshold win times t).1 = replicate (length times - 1)%nat false ++ [true]
  ∧ rstKills (kill_run order host threshold win times t).2 !! host = None
  ∧ ∀ other, other ≠ host →
     rstKills (kill_run order host threshold win times t).2 !! other = rstKills t !! other.
Proof.
  revert t c. induction times as [|now times IH]; intros t c Hs He Ht Hc Hl Hpos;
    [done|].
  apply Forall_cons_1 in Ht as [Hnow Ht]. cbn [length] in Hl. cbn [kill_run].
  assert (0 < threshold) as Hth by lia.
  rewrite (RecordRSTKill_live _ _ _ _ _ _ _ Hs Hth He) by (cbn; lia). cbn [count firstAt window].
  destruct times as [|now2 times].
  - destruct (threshold <=? c + 1) eqn:E; [|cbn in Hl; zlia]. cbn. split_and!; [done|apply lookup_delete_eq|].
    intros o Ho. by rewrite lookup_delete_ne.
  - destruct (threshold <=? c + 1) eqn:E; [cbn [length] in Hl; zlia|].
    set (t1 := DestState.with_rstKills _ _).
    destruct (IH t1 (c + 1)) as (H1 & H2 & H3).
    + unfold t1; cbn. by rewrite map_size_insert_Some.
    + unfold t1; cbn. apply lookup_insert_eq.
    + done.
    + lia.
    + lia.
    + done.
    + destruct (kill_run order host threshold win (now2 :: times) t1) as [bs t'] eqn:Er.
      cbn [fst snd] in *. split_and!; [|done|].
      * rewrite H1. cbn [length]. replace (S (S (length times)) - 1)%nat with (S (S (length times) - 1)) by lia.
        done.
      * intros o Ho. rewrite H3 by done. unfold t1; cbn. by rewrite lookup_insert_ne.
Qed.

(** [threshold] (at least 2) connections to a host killed within the window
    of the first trip the escalation on the last one and not before; the host's
    counter is then gone and the counters of other hosts are untouched. *)
Theorem RecordRSTKill_trips (order : list string) (host : string) (threshold win t0 : Z)
    (later : list time) (t : destStateTracker) :
  2 <= threshold → 0 < win → Z.of_nat (size (rstKills t)) + 1 < maxRSTKillEntries →
  rstKills t !! host = None →
  Z.of_nat (length later) = threshold - 1 → Forall (λ now, now <= t0 + win) later →
  let r := kill_run order host threshold win (t0 :: later) t in
  r.1 = replicate (length later) false ++ [true]
  ∧ rstKills r.2 !! host = None
  ∧ ∀ other, other ≠ host → rstKills r.2 !! other = rstKills t !! other.
Proof.
  intros Hth Hw Hs Hn Hl Ht. cbn [kill_run]. unfold DestState.RecordRSTKill.
  rewrite evict_below, Hn by lia. destruct (win <=? 0) eqn:E; [zlia|].
  set (t1 := DestState.with_rstKills _ _).
  destruct (kill_run_live order host threshold win t0 later t1 1) as (H1 & H2 & H3).
  - unfold t1; cbn. rewrite map_size_insert_None by done. lia.
  - unfold t1; cbn. apply lookup_insert_eq.
  - done.
  - lia.
  - done.
  - intros ->. cbn in Hl. lia.
  - destruct (kill_run order host threshold win later t1) as [bs t']. cbn [fst snd] in *.
    split_and!; [|done|].
    + rewrite H1. destruct later; [cbn in Hl; lia|]. cbn [length]. cbn. by rewrite Nat.sub_0_r.
    + intros o Ho. rewrite H3 by done. unfold t1; cbn. by rewrite lookup_insert_ne.
Qed.

Lemma RecordRSTKill_trips_witness :
  (kill_run [] "a" 3 10 [0; 4; 9] (destState (@newRuntimeState nat))).1 = [false; false; true].
Proof.
  pose proof (RecordRSTKill_trips [] "a" 3 10 0 [4; 9] (destState (@newRuntimeState nat))
    ltac:(lia) ltac:(lia) eq_refl eq_refl eq_refl) as H.
  destruct H as (H & _ & _); [repeat constructor; lia|exact H].
Defined.

(** The user interface offers 1 as the number of failures before switching,
    but the first kill of a host never trips: with a threshold of 1 the set is
    switched only by the second kill, as with a threshold of 2. *)
Theorem RecordRSTKill_first_never_trips (order : list string) (now1 now2 : time)
    (host : string) (threshold win : Z) (t : destStateTracker) :
  rstKills t !! host = None →
  (DestState.RecordRSTKill order now1 now2 host threshold win t).1 = false.
Proof.
  intros Hn. unfold DestState.RecordRSTKill.
  destruct (evict _ _ _ _ _ !! host) as [e|] eqn:E; [|done].
  apply evict_lookup in E. congruence.
Qed.

Lemma RecordRSTKill_first_never_trips_witness :
  (DestState.RecordRSTKill [] 1 1 "a" 1 30 (destState (@newRuntimeState nat))).1 = false.
Proof. by apply RecordRSTKill_first_never_trips. Defined.

(** ** Connections *)

(** Two flows with different endpoints never share a connection key, so the
    trackers never mix them up (an address contains no dash). *)
Theorem connKeyOf_inj (c1 c2 s1 s2 : string) (cp1 cp2 sp1 sp2 : N) :
  "-"%char ∉ chars c1 → "-"%char ∉ chars c2 →
  connKeyOf c1 cp1 s1 sp1 = connKeyOf c2 cp2 s2 sp2 →
  c1 = c2 ∧ cp1 = cp2 ∧ s1 = s2 ∧ sp1 = sp2.
Proof.
  intros H1 H2 H. unfold connKeyOf in H. apply (f_equal chars) in H.
  rewrite !chars_app in H.
  assert (∀ (c : string) (cp : N), "-"%char ∉ chars c → "-"%char ∉ chars c ++ ":"%char :: chars (pretty cp))
    as Hdash.
  { intros c cp Hc. rewrite elem_of_app, elem_of_cons. intros [?|[?|Hin]]; [done|done|].
    revert Hin. by apply pretty_chars, dash_digit. }
  assert ((chars c1 ++ ":"%char :: chars (pretty cp1))
      ++ "-"%char :: (">"%char :: chars s1 ++ ":"%char :: chars (pretty sp1))
    = (chars c2 ++ ":"%char :: chars (pretty cp2))
      ++ "-"%char :: (">"%char :: chars s2 ++ ":"%char :: chars (pretty sp2))) as H'
    by (rewrite <- !(assoc_L (++)); exact H).
  apply split_first in H' as [Hl Hr]; [|by apply Hdash..].
  apply split_last in Hl as [Hc Hcp]; [|by apply pretty_chars, colon_digit..].
  injection Hr as Hr. apply split_last in Hr as [Hs Hsp];
    [|by apply pretty_chars, colon_digit..].
  split_and!; [by apply chars_inj|by apply (inj pretty), chars_inj|by apply chars_inj|
               by apply (inj pretty), chars_inj].
Qed.

Lemma connKeyOf_inj_witness :
  connKeyOf "10.0.0.1" 5000 "1.1.1.1" 443 = connKeyOf "10.0.0.1" 5000 "1.1.1.1" 443 ∧ 5000%N = 5000%N.
Proof.
  split; [reflexivity|].
  destruct (connKeyOf_inj "10.0.0.1" "10.0.0.1" "1.1.1.1" "1.1.1.1" 5000 5000 443 443)
    as (_ & H & _); [|..|reflexivity|exact H].
  - cbn. rewrite !not_elem_of_cons. split_and!; try discriminate. apply not_elem_of_nil.
  - cbn. rewrite !not_elem_of_cons. split_and!; try discriminate. apply not_elem_of_nil.
Defined.

Section conn_facts.
Context {S : Type}.
Implicit Types (conns : gmap string (connInfo S)).

(** What a reset must look like to be believed. *)
Definition rst_plausible (e : connInfo S) (rstTTL : Z) (hasOpts hasACK : bool) (tolerance : Z)
    : Prop :=
  responseSeen e = true
  ∧ (serverHasOpts e = true → hasOpts = true ∧ hasACK = true)
  ∧ (ttlRecorded e = true → Z.abs (rstTTL - serverTTL e) <= tolerance).

(** The connection outlives a call: it is not evicted to make room, not even by its own
    registration, and not cleaned up. *)
Definition keeps (k : string) (ev : event S) (s : runtimeState S) : Prop :=
  match ev with
  | EvRegister order now _ _ _ =>
      is_Some (evict c_lastSeen (ConnTracker.conn_stale now) maxConnStateEntries order (connState s) !! k)
  | EvConnCleanup now => is_Some (ConnTracker.Cleanup now (connState s) !! k)
  | _ => True
  end.
Fixpoint outlives (k : string) (evs : list (event S)) (s : runtimeState S) : Prop :=
  match evs with [] => True | ev :: evs => keeps k ev s ∧ outlives k evs (exec ev s) end.
Definition exec_all (evs : list (event S)) (s : runtimeState S) : runtimeState S := foldl (λ s ev, exec ev s) s evs.

(** The connection has had a reset. *)
Definition reset_before (k : string) conns : Prop := ∃ e, conns !! k = Some e ∧ 1 <= rstCount e.

Lemma reset_before_insert k k' e e' conns : reset_before k conns → conns !! k' = Some e → rstCount e <= rstCount e' →
  reset_before k (<[k' := e']> conns).
Proof.
  intros (x & Hx & H1) He Hle. destruct (decide (k' = k)) as [->|Hne].
  - exists e'. rewrite lookup_insert_eq. split; [done|]. assert (x = e) as -> by congruence. lia.
  - exists x. by rewrite lookup_insert_ne.
Qed.

Lemma reset_before_exec k ev s : keeps k ev s → reset_before k (connState s) → reset_before k (connState (exec ev s)).
Proof.
  intros Hk Hr. destruct ev; cbn [exec connState on_conn on_tls on_dest]; try exact Hr.
  - unfold ConnTracker.RegisterOutgoing. cbn in Hk. destruct Hk as [x Hx]. pose proof Hr as (e & He & H1).
    assert (reset_before k (evict c_lastSeen (ConnTracker.conn_stale now1) maxConnStateEntries order (connState s))) as Hev.
    { exists x. split; [done|]. apply evict_lookup in Hx. by assert (x = e) as -> by congruence. }
    set (m := evict _ _ _ _ _) in *. clearbody m. destruct (m !! connKey) as [y|] eqn:Ey.
    + by eapply reset_before_insert.
    + destruct Hev as (z & Hz & H1z). exists z. rewrite lookup_insert_ne by congruence. done.
  - unfold ConnTracker.RecordServerResponse. destruct (_ !! outKey) eqn:E; [|exact Hr]. by eapply reset_before_insert.
  - unfold ConnTracker.CheckRST. destruct (_ !! outKey) eqn:E; [|exact Hr]. eapply reset_before_insert; [done..|cbn; lia].
  - unfold ConnTracker.MarkEstablished. destruct (_ !! connKey) eqn:E; [|exact Hr]. by eapply reset_before_insert.
  - unfold ConnTracker.GetSetForIncoming. destruct (_ !! outKey) eqn:E; [|exact Hr].
    destruct (c_set _); [|exact Hr]. by eapply reset_before_insert.
  - unfold ConnTracker.TrackIncomingBytes. repeat (case_match; try exact Hr); cbn; by eapply reset_before_insert.
  - cbn in Hk. destruct Hk as [x Hx]. destruct Hr as (e & He & H1). exists x. split; [done|].
    unfold ConnTracker.Cleanup, drop_stale in *. cbn. apply map_lookup_filter_Some in Hx as Hx1. destruct Hx1 as [Hx1 _]. by assert (x = e) as -> by congruence.
Qed.

Lemma reset_before_all k evs s : outlives k evs s → reset_before k (connState s) → reset_before k (connState (exec_all evs s)).
Proof.
  revert s. induction evs as [|ev evs IH]; intros s Ho Hr; [done|]. destruct Ho as [Hk Ho].
  apply IH; [done|]. by apply reset_before_exec.
Qed.

Lemma reset_before_drops k conns ttl o a tol : reset_before k conns → (ConnTracker.CheckRST k ttl o a tol conns).1.1 = true.
Proof.
  intros (e & He & H1). unfold ConnTracker.CheckRST. rewrite He. cbn. unfold ConnTracker.rst_verdict. cbn [rstCount].
  destruct (1 <? rstCount e + 1) eqn:E; [done|zlia].
Qed.

(** C23: The first reset of a tracked connection is let through exactly when the
    server has answered before, the reset carries options and an ACK if the
    server used options, and its TTL is within the tolerance of the server's;
    every later reset is dropped, whatever the workers do in between, as long as the
    connection is tracked; resets of untracked connections pass. *)
Theorem CheckRST_decides (s : runtimeState S) k ttl o a tol :
  (connState s !! k = None → (ConnTracker.CheckRST k ttl o a tol (connState s)).1.1 = false)
  ∧ ∀ e, connState s !! k = Some e → rstCount e = 0 →
      ((ConnTracker.CheckRST k ttl o a tol (connState s)).1.1 = false ↔ rst_plausible e ttl o a tol)
      ∧ ∀ evs, let s1 := exec (EvCheckRST k ttl o a tol) s in outlives k evs s1 →
          ∀ ttl2 o2 a2 tol2, (ConnTracker.CheckRST k ttl2 o2 a2 tol2 (connState (exec_all evs s1))).1.1 = true.
Proof.
  split; [intros Hn; unfold ConnTracker.CheckRST; by rewrite Hn|]. intros e He H0. split.
  - unfold ConnTracker.CheckRST. rewrite He. cbn.
    unfold ConnTracker.rst_verdict, rst_plausible. cbn. rewrite H0. cbn.
    destruct (responseSeen e); cbn; [|split; [done|by intros [? _]]].
    destruct (serverHasOpts e), o, a; cbn;
      try (split; [done|intros (_&H&_); by destruct (H eq_refl)]);
      (destruct (ttlRecorded e); cbn; [|by split]);
      destruct (ttl - serverTTL e <? 0) eqn:E1;
      match goal with |- context [tol <? ?d] => destruct (tol <? d) eqn:E2 end; cbn;
      (split; [intros Hf; split_and!; [done..|intros _]|intros (_&_&H); specialize (H eq_refl)]);
      first [done | zlia].
  - intros evs s1 Ho ttl2 o2 a2 tol2. apply reset_before_drops, reset_before_all; [exact Ho|].
    unfold s1. cbn [exec connState on_conn]. unfold ConnTracker.CheckRST. rewrite He. cbn.
    eexists. rewrite lookup_insert_eq. split; [done|]. cbn. lia.
Qed.

(** The state of the byte counter between firings. *)
Definition track_ok (e : connInfo S) : Prop :=
  0 <= bytesIn e ∧ (threshold e = 0 ∧ bytesIn e = 0 ∨ bytesIn e < threshold e).

Lemma draw_threshold_range (inc : IncomingConfig) (r : Z) :
  0 <= r <= Z.max 0 (in_Max inc - in_Min inc) ->
  in_Min inc < 2 ^ 40 -> in_Max inc < 2 ^ 40 ->
  let lo := if in_Min inc <=? 0 then 14 else in_Min inc in
  let hi := if in_Min inc <=? 0 then 14 else Z.max (in_Min inc) (in_Max inc) in
  lo * 1024 <= ConnTracker.draw_threshold inc r <= hi * 1024.
Proof.
  intros Hr Hmin Hmax lo hi. unfold ConnTracker.draw_threshold, u64, lo, hi.
  change (2 ^ 40) with 1099511627776 in *.
  destruct (in_Min inc <=? 0) eqn:E.
  { vm_compute. split; discriminate. }
  destruct ((in_Max inc =? 0) || (in_Max inc <? in_Min inc)) eqn:E1;
    [rewrite Z.eqb_refl|destruct (in_Min inc =? in_Max inc) eqn:E2]; bprop; rewrite Z.mod_small by lia; lia.
Qed.

(** The incoming-data trigger of a tracked connection fires on a packet
    exactly when the bytes since the last firing reach the connection's
    threshold, which is drawn from the configured range (in KiB, 14 when no
    minimum is set) when none is set; firing resets both, and otherwise the
    counter advances by the packet. *)
Theorem TrackIncomingBytes_fires conns k e r now n inc :
  conns !! k = Some e → track_ok e → 0 <= n < 2 ^ 62 → threshold e < 2 ^ 62 →
  0 <= r <= Z.max 0 (in_Max inc - in_Min inc) → in_Min inc < 2 ^ 40 → in_Max inc < 2 ^ 40 →
  let res := ConnTracker.TrackIncomingBytes r now k n inc conns in
  ∃ thr e', res.2 !! k = Some e' ∧ track_ok e'
    ∧ (threshold e ≠ 0 → thr = threshold e)
    ∧ (threshold e = 0 →
         (if in_Min inc <=? 0 then 14 else in_Min inc) * 1024 <= thr
         <= (if in_Min inc <=? 0 then 14 else Z.max (in_Min inc) (in_Max inc)) * 1024)
    ∧ (res.1 = true ↔ thr <= bytesIn e + n)
    ∧ (res.1 = true → bytesIn e' = 0 ∧ threshold e' = 0)
    ∧ (res.1 = false → bytesIn e' = bytesIn e + n ∧ threshold e' = thr).
Proof.
  intros He (Hb & Ht) Hn Hthr Hr Hmin Hmax. cbn zeta. unfold ConnTracker.TrackIncomingBytes.
  rewrite He. cbn [fst snd]. pose proof (draw_threshold_range inc r Hr Hmin Hmax) as Hd.
  cbn zeta in Hd.
  set (thr := if threshold e =? 0 then ConnTracker.draw_threshold inc r else threshold e).
  assert (bytesIn e < thr /\ 0 < thr) as [Hlt Hpos].
  { assert (1 <= (if in_Min inc <=? 0 then 14 else in_Min inc)) by (case_if; zlia).
    unfold thr. destruct (threshold e =? 0) eqn:E; bprop; lia. }
  assert (u64 (bytesIn e + n) = bytesIn e + n) as ->.
  { assert (thr <= 2 ^ 62).
    { unfold thr. destruct (threshold e =? 0); [|lia].
      change (2 ^ 62) with 4611686018427387904.
      change (2 ^ 40) with 1099511627776 in *. destruct (in_Min inc <=? 0); lia. }
    apply Z.mod_small. change (2 ^ 62) with 4611686018427387904 in *.
    change (2 ^ 40) with 1099511627776 in *. lia. }
  exists thr. eexists. split; [by rewrite lookup_insert_eq|].
  destruct (bytesIn e <? thr) eqn:E; [|zlia]. simpl.
  destruct (thr <=? bytesIn e + n) eqn:E1; bprop; unfold track_ok; cbn; split_and!; try done;
    try lia; try (unfold thr; intros; case_if; zlia); try (by intros; lia).
  - intros H0. unfold thr. rewrite H0. cbn [Z.eqb]. done.
  - intros H0. unfold thr. rewrite H0. cbn [Z.eqb]. done.
Qed.
End conn_facts.

Definition demo_conn : connInfo nat :=
  {| bytesIn := 14000; threshold := 14336; c_set := Some 1%nat; c_lastSeen := 5; serverTTL := 60;
     ttlRecorded := true; responseSeen := true; rstCount := 0; serverHasOpts := true;
     established := true |}.

(** The first reset passes; the third is dropped, after a second and an answer of the server. *)
Lemma CheckRST_decides_witness :
  let s := {| tlsCache := ∅; connState := {["k"%string := demo_conn]}; destState := destState (@newRuntimeState nat) |} in
  let s1 := exec (EvCheckRST "k" 61 true true 2) s in
  (ConnTracker.CheckRST "k" 61 true true 2 (connState s)).1.1 = false
  ∧ (ConnTracker.CheckRST "k" 61 true true 2
       (connState (exec_all [EvCheckRST "k" 61 true true 2; EvServerResponse "k" 60 true] s1))).1.1 = true.
Proof.
  intros s s1. destruct (CheckRST_decides s "k" 61 true true 2) as [_ H]. destruct (H demo_conn) as [H1 H2]; [done..|].
  split; [|by apply H2].
  apply H1. split_and!; [done|done|intros _; vm_compute; discriminate].
Defined.

Lemma TrackIncomingBytes_fires_witness :
  (ConnTracker.TrackIncomingBytes 0 9 "k" 400 (Incoming (TCP DefaultSetConfig))
     {["k"%string := demo_conn]}).1 = true.
Proof.
  destruct (TrackIncomingBytes_fires {["k"%string := demo_conn]} "k" demo_conn 0 9 400
    (Incoming (TCP DefaultSetConfig))) as (thr & e' & _ & _ & Hthr & _ & Hfire & _);
    [reflexivity|split; cbn; [lia|right; lia]|cbn; lia..|].
  apply Hfire. rewrite Hthr by done. vm_compute. discriminate.
Defined.

(** ** The ClientHello table is not bounded

    Reports of [n] distinct connections within two minutes. *)
Definition hello_run (now : time) (n : nat) (t : destStateTracker) : destStateTracker :=
  foldl (λ t i, (DestState.RecordClientHello now now (pretty (N.of_nat i)) "h" t).2) t (seq 0 n).

(** [maxIPBlockEntries] does not bound the ClientHello table: the trimming
    pass only drops entries older than two minutes, so any number of fresh
    connections are all kept. *)
Theorem RecordClientHello_unbounded (now : time) (n : nat) :
  size (d_conns (hello_run now n (destState (@newRuntimeState nat)))) = n.
Proof.
  enough (size (d_conns (hello_run now n (destState (@newRuntimeState nat)))) = n
    ∧ map_Forall (λ k e, firstSeen e = now ∧ ∃ i, (i < n)%nat ∧ k = pretty (N.of_nat i))
        (d_conns (hello_run now n (destState (@newRuntimeState nat))))) by tauto.
  induction n as [|n [IHs IHf]]; [split; [done|apply map_Forall_empty]|].
  unfold hello_run. rewrite seq_S, foldl_app. cbn [foldl Nat.add].
  fold (hello_run now n (destState (@newRuntimeState nat))).
  set (t := hello_run now n _) in *. unfold DestState.RecordClientHello.
  assert ((if maxIPBlockEntries <=? Z.of_nat (size (d_conns t))
           then drop_stale (block_stale now) (d_conns t) else d_conns t) = d_conns t) as ->.
  { case_if; [|done]. apply map_filter_id. intros k e He. destruct (IHf k e He) as [Hn _].
    cbn. unfold block_stale. apply Z.ltb_ge. rewrite Hn. unfold dur_second. lia. }
  assert (d_conns t !! pretty (N.of_nat n) = None) as Hnone.
  { apply eq_None_not_Some. intros [e He]. destruct (IHf _ _ He) as (_ & i & Hi & Hp).
    apply (inj pretty) in Hp. lia. }
  rewrite Hnone. cbn. split.
  - by rewrite map_size_insert_None, IHs.
  - apply map_Forall_insert_2.
    + cbn. split; [done|]. exists n. split; [lia|done].
    + eapply map_Forall_impl; [exact IHf|]. intros k e (He & i & Hi & Hk).
      split; [done|]. exists i. split; [lia|done].
Qed.
