(* ===== verification/Worker.v ===== *)
(** * A queue worker

    The state of a worker and of its packets, from src/src/nfq/types.go, handler.go
    (parseIPHeaders and the needs), verdict.go, iface.go and dns_routing.go.

    A handler takes the worker's state and gives the next one with what it did, in order:
    the verdict, the packets it sent, the goroutines it started and the calls of the two
    routing hooks.  Clock readings, random draws and map orders are in the [readings] of
    a packet, numbered by their place in the code.  Logging, metrics and the capture of
    payloads to files are left out. *)

From Stdlib Require Import ZArith Lia Ascii.
From stdpp Require Import base list numbers strings gmap pretty.
From S2P Require Import Prelude Config GoString Text NetIP Ports Lru Match ConnState Segment Strategies Assemble Incoming.

Local Open Scope Z_scope.

Definition IPv4HeaderMinLen : Z := 20.
Definition IPv6HeaderLen : Z := 40.
Definition TCPHeaderMinLen : Z := 20.
Definition UDPHeaderLen : Z := 8.

(** ** What a handler does *)

Inductive effect :=
| Accept
| Drop
(** A packet through [w.sock], and through [w.clientSender()]. *)
| Inject (a : action)
| ToClient (a : action)
(** The goroutines: [dropAndInjectTCP], [dropAndInjectQUIC] (by IP version) and
    [resolveDNSRedirect]. *)
| GoTCP (ver : Z) (set : SetConfig) (raw dst : bytes)
| GoQUIC (ver : Z) (set : SetConfig) (raw dst : bytes)
| GoDNS (ver : Z) (set : SetConfig) (query clientIP : bytes) (clientPort : Z) (originalDst : bytes)
    (targetIP : option bytes) (delay : Z)
(** [RoutingLearnIPFunc] and [RoutingHandleDNSFunc]. *)
| LearnRoute (set : SetConfig) (ip : bytes)
| HandleDNS (set : SetConfig) (ips : list bytes).

(** ** State *)

Record pendingDNSRoute := { setID : string; expires : time }.

(** What a worker reads: the configuration, the devices by address, the TUN source resolver,
    whether the hooks are set, and the names of the interfaces. *)
Record env := {
  e_cfg : Config; ipToMac : gmap string string;
  srcResolver : option (Z → bytes → Z → bytes → Z → option bytes);
  has_HandleDNS : bool; has_LearnIP : bool; InterfaceByIndex : Z → option string }.

Record worker `{Regexp, Ranger} := {
  matcher : SuffixSet; rt : runtimeState SetConfig; quic : cmap; dnsRoutePending : gmap string pendingDNSRoute;
  ifaceCache : gmap Z string; packetsProcessed : Z }.

(** One packet's readings; [t_drop] tells whether the drop verdict reached the kernel. *)
Record readings := {
  t_now : nat → time; t_order : nat → list string; t_draws : nat → draws; t_inc : Z → inc_draws; t_track : Z;
  t_delay : Z; t_id : Z; t_drop : bool }.

Record pktInfo := {
  p_raw : bytes; p_ver : Z; p_proto : Z; p_src : bytes; p_dst : bytes; p_srcStr : string; p_dstStr : string;
  p_srcMac : string; p_ihl : Z }.

Section worker.
Context {Un : Unicode} {Rx : Regexp} {Nt : Net} {Rg : Ranger} {Srt : SortSlice}.
Implicit Types (e : env) (w : worker) (d : readings).

Definition with_matcher w m : worker :=
  {| matcher := m; rt := rt w; quic := quic w; dnsRoutePending := dnsRoutePending w; ifaceCache := ifaceCache w;
     packetsProcessed := packetsProcessed w |}.
Definition with_rt w x : worker :=
  {| matcher := matcher w; rt := x; quic := quic w; dnsRoutePending := dnsRoutePending w; ifaceCache := ifaceCache w;
     packetsProcessed := packetsProcessed w |}.
Definition with_quic w x : worker :=
  {| matcher := matcher w; rt := rt w; quic := x; dnsRoutePending := dnsRoutePending w; ifaceCache := ifaceCache w;
     packetsProcessed := packetsProcessed w |}.
Definition with_routes w x : worker :=
  {| matcher := matcher w; rt := rt w; quic := quic w; dnsRoutePending := x; ifaceCache := ifaceCache w;
     packetsProcessed := packetsProcessed w |}.
Definition with_ifaces w x : worker :=
  {| matcher := matcher w; rt := rt w; quic := quic w; dnsRoutePending := dnsRoutePending w; ifaceCache := x;
     packetsProcessed := packetsProcessed w |}.
Definition with_count w x : worker :=
  {| matcher := matcher w; rt := rt w; quic := quic w; dnsRoutePending := dnsRoutePending w; ifaceCache := ifaceCache w;
     packetsProcessed := x |}.

Definition with_tls w x : worker :=
  with_rt w {| tlsCache := x; connState := connState (rt w); destState := destState (rt w) |}.
Definition with_conns w x : worker :=
  with_rt w {| tlsCache := tlsCache (rt w); connState := x; destState := destState (rt w) |}.
Definition with_dest w x : worker :=
  with_rt w {| tlsCache := tlsCache (rt w); connState := connState (rt w); destState := x |}.

(** Reading a field of a pointer to a set. *)
Definition deref (set : option SetConfig) : go SetConfig :=
  match set with Some s => Ret s | None => Panic end.

(** [fmt.Sprintf(connKeyFormat, ...)] *)
Definition conn_key (srcStr : string) (sport : Z) (dstStr : string) (dport : Z) : string :=
  connKeyOf srcStr (Z.to_N sport) dstStr (Z.to_N dport).

Definition getMacByIp e (ip : string) : string := default ""%string (ipToMac e !! ip).

(** ** The interface filter *)

Definition getIfaceName e (idx : Z) w : string * worker :=
  if idx =? 0 then (""%string, w)
  else match ifaceCache w !! idx with
       | Some v => (v, w)
       | None => match InterfaceByIndex e idx with
                 | None => (""%string, w)
                 | Some name => (name, with_ifaces w (<[idx := name]> (ifaceCache w)))
                 end
       end.

(** [None] is the nil pointer of a missing attribute. *)
Definition matchesInterface e (inDev outDev : option Z) w : bool * worker :=
  let ifaces := Interfaces (Queue (e_cfg e)) in
  if bool_decide (ifaces = []) then (true, w) else
  let idx := match outDev with
             | Some o => if negb (o =? 0) then o else default 0 inDev
             | None => default 0 inDev
             end in
  if idx =? 0 then (true, w) else
  let '(name, w) := getIfaceName e idx w in
  (bool_decide (name ∈ ifaces), w).

(** ** The headers of a packet *)

(** The end of the extension headers, and the protocol behind them. *)
Fixpoint ext_headers (fuel : nat) (raw : bytes) (nextHeader offset : Z) : go (option (Z * Z)) :=
  match fuel with
  | O => Spin
  | S f =>
      if (nextHeader =? 0) || (nextHeader =? 43) || (nextHeader =? 60)
      then
        if len raw <? offset + 2 then Ret None else
        let! next := idx raw offset in
        let! l := idx raw (offset + 1) in
        let hdrLen := l * 8 + 8 in
        ext_headers f raw next (offset + hdrLen)
      else if nextHeader =? 44 then Ret None
      else Ret (Some (nextHeader, offset))
  end.

(** The addresses and the protocol of a packet that is no fragment. *)
Definition ip_fields (raw : bytes) (v : Z) : go (option (Z * bytes * bytes * Z)) :=
  if v =? 4
  then
    if len raw <? IPv4HeaderMinLen then Ret None else
    let! b0 := idx raw 0 in
    let ihl := Z.land b0 0x0f * 4 in
    if len raw <? ihl then Ret None else
    let! fragWord := be16 raw 6 in
    let fragOffset := Z.land fragWord 0x1FFF in
    let moreFragments := negb (Z.land fragWord 0x2000 =? 0) in
    if negb (fragOffset =? 0) || moreFragments then Ret None else
    let! proto := idx raw 9 in
    let! src := slice raw 12 16 in
    let! dst := slice raw 16 20 in
    Ret (Some (proto, src, dst, ihl))
  else
    if len raw <? IPv6HeaderLen then Ret None else
    let! nextHeader := idx raw 6 in
    let! o := ext_headers (S (length raw)) raw nextHeader 40 in
    match o with
    | None => Ret None
    | Some (proto, ihl) =>
        let! src := slice raw 8 24 in
        let! dst := slice raw 24 40 in
        Ret (Some (proto, src, dst, ihl))
    end.

(** The source behind a NAT, when the TUN device is used. *)
Definition real_source e (raw : bytes) (v proto : Z) (src dst : bytes) (ihl : Z) : go bytes :=
  match srcResolver e with
  | Some resolve =>
      if (v =? 4) && ((proto =? 6) || (proto =? 17)) && (ihl + 4 <=? len raw)
      then
        let! sport := be16 raw ihl in
        let! dport := be16 raw (ihl + 2) in
        Ret (default src (resolve proto src sport dst dport))
      else Ret src
  | None => Ret src
  end.

(** [None] is (nil, false). *)
Definition parseIPHeaders e (raw : bytes) : go (option pktInfo) :=
  let! b0 := idx raw 0 in
  let v := Z.shiftr b0 4 in
  if negb (v =? 4) && negb (v =? 6) then Ret None else
  let! o := ip_fields raw v in
  match o with
  | None => Ret None
  | Some (proto, src, dst, ihl) =>
      if IsLoopback src || IsLoopback dst then Ret None else
      let! src := real_source e raw v proto src dst ihl in
      Ret (Some {| p_raw := raw; p_ver := v; p_proto := proto; p_src := src; p_dst := dst; p_srcStr := ip_string src;
                   p_dstStr := ip_string dst; p_srcMac := getMacByIp e (ip_string src); p_ihl := ihl |})
  end.

(** ** What a set asks for *)

Definition pool_empty (set : SetConfig) : bool := bool_decide (StrategyPool (Fragmentation set) = []).

Definition needsTCPInjection (set : option SetConfig) : bool :=
  match set with
  | None => false
  | Some set =>
      DropSACK (TCP set) || SNI (Faking set) || negb (bool_decide (Mode (SNIMutation (Faking set)) = ConfigOff))
      || negb (bool_decide (ds_Mode (Desync (TCP set)) = ConfigOff)) || PostDesync (Desync (TCP set))
      || negb (bool_decide (w_Mode (Win (TCP set)) = ConfigOff))
      || negb (bool_decide (Strategy (Fragmentation set) = ConfigNone)) || negb (pool_empty set)
  end.

Definition needsTCPSynInjection (set : option SetConfig) : bool :=
  match set with
  | None => false
  | Some set =>
      let hasActiveStrategy := negb (bool_decide (Strategy (Fragmentation set) = ConfigNone)) || negb (pool_empty set) in
      SynFake (TCP set) || (hasActiveStrategy && TCPMD5 (Faking set))
  end.

(** ** Routes *)

Definition registerEscalatedRoute e (escSet : SetConfig) (dst : bytes) : list effect :=
  if negb (rt_Enabled (Routing escSet)) || negb (has_HandleDNS e) then []
  else if IsDiscovery (Queue (e_cfg e)) then [] else [HandleDNS escSet [dst]].

Definition registerLearnedRoute e (set : SetConfig) (dst : bytes) : list effect :=
  if negb (rt_Enabled (Routing set)) || negb (has_LearnIP e) then []
  else if DomainOnly (Targets set) then []
  else if IsDiscovery (Queue (e_cfg e)) then [] else [LearnRoute set dst].

Definition dnsRouteKeyRequest (ipVersion : Z) (clientIP : bytes) (clientPort : Z) (dnsServerIP : bytes)
    (dnsServerPort txid : Z) (domain : string) : string :=
  pretty ipVersion +:+ "|" +:+ ip_string clientIP +:+ "|" +:+ pretty clientPort +:+ "|" +:+ ip_string dnsServerIP
  +:+ "|" +:+ pretty dnsServerPort +:+ "|" +:+ pretty txid +:+ "|" +:+ domain.

Definition dnsRouteKeyResponse (ipVersion : Z) (clientIP : bytes) (clientPort : Z) (dnsServerIP : bytes)
    (dnsServerPort txid : Z) (domain : string) : string :=
  dnsRouteKeyRequest ipVersion clientIP clientPort dnsServerIP dnsServerPort txid domain.

Definition storeDNSPendingRoute (now : time) (key sid : string) w : worker :=
  with_routes w (<[key := {| setID := sid; expires := now + 120 * dur_second |}]> (dnsRoutePending w)).

(** [None] is ("", false). *)
Definition consumeDNSPendingRoute (now : time) (key : string) w : option string * worker :=
  match dnsRoutePending w !! key with
  | None => (None, w)
  | Some r =>
      (if expires r <? now then None else Some (setID r), with_routes w (delete key (dnsRoutePending w)))
  end.

(** The number removed, and what is left. *)
Definition cleanupDNSPendingRoutes (now : time) w : Z * worker :=
  let kept := filter (λ kv, negb (expires kv.2 <? now) = true) (dnsRoutePending w) in
  (Z.of_nat (size (dnsRoutePending w)) - Z.of_nat (size kept), with_routes w kept).
End worker.
