(* ===== verification/Held.v ===== *)
(** * The sets a worker holds

    A worker meets the sets of the configuration in the rules of its matcher, in the
    addresses it learned and in the connections it tracks.  What holds of all the sets it
    was given holds of every set it reads back: the matching answers with one of them, and
    every operation of the matcher and of the tracker keeps it that way. *)

From Stdlib Require Import ZArith Lia Ascii.
From stdpp Require Import base list numbers strings gmap.
From S2P Require Import Prelude Config GoString Text NetIP Ports Lru Match ConnState Segment Strategies Assemble Incoming Worker.

#[local] Set Default Proof Using "Type*".
Local Open Scope Z_scope.

(** What [MatchTCPPort] and its like answer: no set, or one with [P]. *)
Definition answers (P : SetConfig → Prop) (x : result) : Prop :=
  x = (false, None) ∨ ∃ s, x = (true, Some s) ∧ P s.

(** The trie gives back what was put into it. *)
Class RangerContents `{Ranger} := {
  NewRanger_contents ip es : ContainingNetworks NewRanger ip = Some es → es = [];
  Insert_contents rg x ip es y : ContainingNetworks (Insert rg x) ip = Some es → y ∈ es →
    y = x ∨ ∃ es', ContainingNetworks rg ip = Some es' ∧ y ∈ es' }.

Section held.
Context {Un : Unicode} {Rx : Regexp} {Nt : Net} {Rg : Ranger} {Srt : SortSlice}.
Context (P : SetConfig → Prop).
Implicit Types (s : SuffixSet) (ru : rules) (w : worker).

Definition rules_hold ru : Prop :=
  map_Forall (λ _ set, P set) (sets ru) ∧ map_Forall (λ _ l, Forall P l) (multiSets ru)
  ∧ Forall (λ x, P (snd x)) (regexes ru)
  ∧ (∀ ip es, ContainingNetworks (ipRanger ru) ip = Some es → Forall (λ x, P (ip_set x)) es)
  ∧ Forall (λ x, P (snd x)) (udpPortRanges ru) ∧ Forall (λ x, P (snd x)) (tcpPortRanges ru).
Definition matcher_holds s : Prop :=
  rules_hold (r s) ∧ map_Forall (λ _ e, P (l_set e)) (entries (learnedIPCache s)).
Definition conns_hold (m : gmap string (connInfo SetConfig)) : Prop :=
  map_Forall (λ _ c, ∀ set, c_set c = Some set → P set) m.
Definition worker_holds w : Prop := matcher_holds (matcher w) ∧ conns_hold (connState (rt w)).

(** ** Matching *)

Lemma found_answers o : (∀ set, o = Some set → P set) → answers P (found o).
Proof. destruct o as [set|]; [right; eauto|by left]. Qed.

Lemma find_holds {A} (f : A → bool) (g : A → SetConfig) l x :
  Forall (λ y, P (g y)) l → List.find f l = Some x → P (g x).
Proof. intros Hl [Hin _]%find_some_in. by apply (proj1 (Forall_forall _ _) Hl x). Qed.

Lemma select_answers l mac tls ip : Forall P l → answers P (selectSetBySourceAndTLS l mac tls ip).
Proof.
  intros Hl. apply found_answers. intros set.
  assert (∀ t i set, select_once l mac t i = Some set → P set) as Ho.
  { intros t i set'. unfold select_once. destruct (List.find _ l) eqn:E; [intros [= <-]|]; intros.
    - by apply (find_holds _ id l _ Hl E).
    - by apply (find_holds _ id l set' Hl H). }
  destruct (select_once l mac tls ip) eqn:E; [intros [= <-]; by eapply Ho|]. case_if; [apply Ho|done].
Qed.

Lemma port_answers l port : Forall (λ x, P (snd x)) l → answers P (match_port l port).
Proof.
  intros Hl. unfold match_port. destruct (List.find _ l) as [x|] eqn:E; [right|by left].
  exists (snd x). split; [done|]. by apply (find_holds _ snd l x Hl E).
Qed.

Lemma lookup_parents_in {A} (m : gmap string A) h x : lookup_parents m h = Some x → ∃ k, m !! k = Some x.
Proof.
  induction h as [|a h IH]; cbn; [done|]. repeat case_match; naive_solver.
Qed.

Lemma MatchSNI_answers s host mac tls ip : matcher_holds s → answers P (MatchSNIWithSourceTLS s host mac tls ip).
Proof.
  intros [(_ & Hm & Hr & _) _]. unfold MatchSNIWithSourceTLS. case_if; [by left|].
  assert (Forall P (findDomainCandidates (r s) (ToLower host))) as Hc.
  { unfold findDomainCandidates, lookup_suffix. destruct (multiSets (r s) !! ToLower host) as [l|] eqn:E.
    - by apply (Hm _ _ E).
    - destruct (lookup_parents _ _) as [l|] eqn:E2; [|constructor].
      apply lookup_parents_in in E2 as [k E2]. by apply (Hm _ _ E2). }
  destruct (select_answers _ mac tls ip Hc) as [->|(set & -> & Hs)]; [|right; eauto].
  case_if; [by left|]. apply select_answers, Forall_map.
  apply Forall_forall. intros x [_ Hx]%list_elem_of_filter. by apply (proj1 (Forall_forall _ _) Hr x).
Qed.

Lemma MatchIP_answers s ip mac : matcher_holds s → answers P (MatchIPWithSource s ip mac).
Proof.
  intros [(_ & _ & _ & Hn & _) _]. unfold MatchIPWithSource. case_if; [by left|].
  destruct (ContainingNetworks _ ip) as [es|] eqn:E; [|by left].
  apply select_answers, Forall_map. unfold sortEntriesBySpecificity. rewrite sort_slice_perm. by apply (Hn ip).
Qed.

Lemma refresh_holds s k e now : matcher_holds s → P (l_set e) → matcher_holds (refresh s k e now).
Proof. intros [Hr Hl] He. split; [done|]. cbn. by apply map_Forall_insert_2. Qed.

Lemma MatchLearned_answers s ip mac now1 now2 : matcher_holds s →
  let '(s', (res, domain)) := MatchLearnedIPWithSource s ip mac now1 now2 in
  matcher_holds s' ∧ answers P res.
Proof.
  intros Hs. unfold MatchLearnedIPWithSource. case_if; [split; [done|by left]|].
  destruct (entries (learnedIPCache s) !! ip_string ip) as [e|] eqn:E; [|split; [done|by left]].
  pose proof (proj2 Hs _ _ E) as He. cbn in He.
  case_if; [split; [done|by left]|]. case_if; [split; [|by left]|].
  { destruct Hs as [Hr Hl]. split; [done|]. cbn. by apply map_Forall_delete. }
  case_if; [|split; [by apply refresh_holds|right; eauto]].
  pose proof (MatchSNI_answers s (l_domain e) mac 0 (ipVersionOf ip) Hs) as Ha.
  destruct (MatchSNIWithSourceTLS _ _ _ _ _) as [[] o]; cbn in *; [|split; [done|by left]].
  split; [by apply refresh_holds|]. destruct Ha as [[=]|(set & [= ->] & ?)]. right; eauto.
Qed.

Lemma Learn_holds s ip domain set now : matcher_holds s → (∀ x, set = Some x → P x) →
  matcher_holds (LearnIPToDomain s ip domain set now).
Proof.
  intros [Hr Hl] Hset. destruct set as [set|]; [|done]. cbn. case_if; [done|]. split; [done|]. cbn.
  specialize (Hset set eq_refl). case_match; cbn; [by apply map_Forall_insert_2|].
  unfold lru_add. case_if; [destruct (last _)|]; cbn; apply map_Forall_insert_2; try done. by apply map_Forall_delete.
Qed.

(** A lookup without the caches. *)
Lemma ref_sni_answers ru host : rules_hold ru → answers P (ref_sni ru host).
Proof.
  intros (Hs & _ & Hr & _). unfold ref_sni. case_if; [by left|].
  assert (answers P (ref_domain ru (ToLower host))) as Hd.
  { apply found_answers. intros set. unfold lookup_suffix.
    destruct (sets ru !! ToLower host) as [x|] eqn:E; [intros [= <-]; by apply (Hs _ _ E)|].
    intros Hx%lookup_parents_in. destruct Hx as [k Hk]. by apply (Hs _ _ Hk). }
  case_if; [done|]. apply found_answers. intros set. unfold find_regex.
  destruct (List.find _ _) as [x|] eqn:E; [|done]. intros [= <-]. by apply (find_holds _ snd _ x Hr E).
Qed.

(** A matcher takes over what another one learned. *)
Lemma transfer_holds s todo now : matcher_ok s → matcher_holds s → matcher_holds (transfer s todo now).
Proof.
  revert s. induction todo as [|[k en] todo IH]; intros s Hok Hs; [done|]. cbn.
  pose proof (MatchSNI_ok s (l_domain en) Hok) as Hm. destruct (MatchSNI s (l_domain en)) as [s1 [matched newSet]].
  destruct Hm as (Hok1 & Hr & _ & Hl & Hres & _).
  assert (matcher_holds s1) as Hs1 by (destruct Hs; split; [by rewrite Hr|by rewrite Hl]).
  pose proof (ref_sni_answers (r s) (l_domain en) (proj1 Hs)) as Ha. rewrite <- Hres in Ha.
  apply IH; repeat case_match; auto using LearnIPToDomain_ok. apply Learn_holds; [done|].
  intros x ->. destruct Ha as [[=]|(? & [= <-] & ?)]; done.
Qed.

(** ** Tracking *)

Lemma insert_holds (m : gmap string (connInfo SetConfig)) k c c' : conns_hold m → m !! k = Some c → c_set c' = c_set c →
  conns_hold (<[k := c']> m).
Proof. intros Hm Hk Hc. apply map_Forall_insert_2; [|done]. rewrite Hc. by apply (Hm k). Qed.

Lemma Register_holds order now1 now2 k set m : conns_hold m → P set →
  conns_hold (ConnTracker.RegisterOutgoing order now1 now2 k (Some set) m).
Proof.
  intros Hm Hs. unfold ConnTracker.RegisterOutgoing.
  assert (conns_hold (evict c_lastSeen (ConnTracker.conn_stale now1) maxConnStateEntries order m)) as He.
  { intros x v Hx%evict_lookup. by apply (Hm x). }
  case_match; (apply map_Forall_insert_2; [|done]); cbn; congruence.
Qed.

Lemma Record_holds k ttl opts m : conns_hold m → conns_hold (ConnTracker.RecordServerResponse k ttl opts m).
Proof. intros Hm. unfold ConnTracker.RecordServerResponse. case_match; [|done]. by eapply insert_holds. Qed.

Lemma CheckRST_holds k ttl opts ack tol m : conns_hold m → conns_hold (ConnTracker.CheckRST k ttl opts ack tol m).2.
Proof. intros Hm. unfold ConnTracker.CheckRST. case_match; [|done]. by eapply insert_holds. Qed.

Lemma Established_holds now k m : conns_hold m → conns_hold (ConnTracker.MarkEstablished now k m).
Proof. intros Hm. unfold ConnTracker.MarkEstablished. case_match; [|done]. by eapply insert_holds. Qed.

Lemma Track_holds x now k n inc m : conns_hold m → conns_hold (ConnTracker.TrackIncomingBytes x now k n inc m).2.
Proof. intros Hm. unfold ConnTracker.TrackIncomingBytes. case_match; [|done]. by eapply insert_holds. Qed.

Lemma GetSet_holds now k m : conns_hold m →
  let '(set, m') := ConnTracker.GetSetForIncoming now k m in conns_hold m' ∧ ∀ x, set = Some x → P x.
Proof.
  intros Hm. unfold ConnTracker.GetSetForIncoming. destruct (m !! k) as [c|] eqn:E; [|done].
  destruct (c_set c) as [set|] eqn:Ec; [|done]. split; [by eapply insert_holds|]. intros x [= <-]. by apply (Hm _ _ E).
Qed.

Lemma Cleanup_holds now m : conns_hold m → conns_hold (ConnTracker.Cleanup now m).
Proof. intros Hm k c [Hk _]%map_lookup_filter_Some. by apply (Hm k). Qed.
End held.

(** More sets. *)
Lemma answers_mono (P Q : SetConfig → Prop) x : (∀ s, P s → Q s) → answers P x → answers Q x.
Proof. intros H [->|(s & -> & Hs)]; [by left|right; eauto]. Qed.

Section more.
Context {Un : Unicode} {Rx : Regexp} {Nt : Net} {Rg : Ranger} {Srt : SortSlice}.
Context (P Q : SetConfig → Prop) (H : ∀ s, P s → Q s).

Lemma rules_mono ru : rules_hold P ru → rules_hold Q ru.
Proof.
  intros (H1 & H2 & H3 & H4 & H5 & H6). split_and!.
  - eapply map_Forall_impl; [exact H1|auto].
  - eapply map_Forall_impl; [exact H2|]. cbn. intros k l Hl. eapply Forall_impl; [exact Hl|auto].
  - eapply Forall_impl; [exact H3|auto].
  - intros ip es He. eapply Forall_impl; [by eapply H4|auto].
  - eapply Forall_impl; [exact H5|auto].
  - eapply Forall_impl; [exact H6|auto].
Qed.
Lemma worker_mono w : worker_holds P w → worker_holds Q w.
Proof.
  intros [[Hr Hl] Hc]. split; [split; [by apply rules_mono|]|].
  - eapply map_Forall_impl; [exact Hl|auto].
  - intros k c Hk s Hs. apply H. by apply (Hc k c Hk).
Qed.
End more.

(** ** The first matcher *)

Section built.
Context {Un : Unicode} {Rx : Regexp} {Nt : Net} {Rg : Ranger} {Srt : SortSlice} {Rc : RangerContents}.
Context (P : SetConfig → Prop).

Lemma foldl_holds {A B} (I : A → Prop) (f : A → B → A) l a :
  I a → (∀ a b, b ∈ l → I a → I (f a b)) → I (foldl f a l).
Proof using Type.
  revert a. induction l as [|b l IH]; intros a Ha Hf; [done|]. cbn. apply IH; [apply Hf; [by left|done]|].
  intros a' b' Hb. apply Hf. by right.
Qed.

Lemma add_domain_holds set st d : P set → rules_hold P st.1 → rules_hold P (add_domain set st d).1.
Proof using Type.
  intros Hs. destruct st as [ru seen]. intros (H1 & Hm & Hr & Hn & Hu & Ht). unfold add_domain. cbv zeta.
  case_if; [done|]. case_if.
  - case_if; [done|]. case_match; [|done]. split_and!; try done. cbn. apply Forall_app_2; [done|by repeat constructor].
  - split_and!; try done; cbn; [case_match; [done|by apply map_Forall_insert_2]|].
    apply map_Forall_insert_2; [|done]. apply Forall_app_2; [|by constructor].
    destruct (multiSets ru !! _) eqn:E; [by apply (Hm _ _ E)|constructor].
Qed.

Lemma add_ip_holds set ru s : P set → rules_hold P ru → rules_hold P (add_ip set ru s).
Proof.
  intros Hs (H1 & Hm & Hr & Hn & Hu & Ht). unfold add_ip. cbv zeta. case_if; [done|]. case_match; [|done].
  split_and!; try done. cbn. intros ip es He. apply Forall_forall. intros y Hy.
  destruct (Insert_contents _ _ _ _ _ He Hy) as [->|(es' & He' & Hy')]; [done|].
  by apply (proj1 (Forall_forall _ _) (Hn ip es' He') y).
Qed.

Lemma add_ports_holds set ru : P set → rules_hold P ru → rules_hold P (add_ports set ru).
Proof using Type.
  intros Hs (H1 & Hm & Hr & Hn & Hu & Ht).
  assert (∀ f, Forall (λ x : Z * Z * SetConfig, P (snd x)) (port_ranges set f)) as Hp.
  { intros f. unfold port_ranges. case_if; [constructor|]. apply Forall_forall. intros x.
    rewrite list_elem_of_omap. intros (part & _ & Hx). destruct (parsePortRange part); naive_solver. }
  split_and!; try done; cbn; by apply Forall_app_2.
Qed.

(** A matcher built from sets with [P] holds such sets. *)
Lemma NewSuffixSet_holds cfgs : Forall P cfgs → matcher_holds P (NewSuffixSet cfgs).
Proof.
  intros Hc. split; [|apply map_Forall_empty]. cbn. unfold build_rules.
  apply (foldl_holds (λ st, rules_hold P st.1)).
  { split; [apply map_Forall_empty|]. split; [apply map_Forall_empty|]. split; [apply Forall_nil_2|].
    split; [|split; apply Forall_nil_2]. intros ip es He. by rewrite (NewRanger_contents _ _ He). }
  intros [ru seen] set Hin Hru. assert (P set) as Hset by (by apply (proj1 (Forall_forall _ _) Hc)).
  unfold add_set. case_if; [done|].
  pose proof (foldl_holds (λ st, rules_hold P st.1) (add_domain set) (DomainsToMatch (Targets set)) (ru, seen) Hru) as Hd.
  destruct (foldl (add_domain set) _ _) as [ru' seen']. apply add_ports_holds; [done|].
  apply (foldl_holds (rules_hold P)); [|intros; by apply add_ip_holds]. apply Hd. intros. by apply add_domain_holds.
Qed.
End built.
