(* ===== verification/DnsHandler.v ===== *)
(** * DNS in the packet handler

    src/src/nfq/dns.go: queries for the names of a set are blocked, redirected to another
    resolver or remembered, and the addresses of the responses are handed to the routing
    tables. *)

From Stdlib Require Import ZArith Lia Ascii.
From stdpp Require Import base list numbers strings gmap pretty.
From S2P Require Import Prelude Config Fragment Buffer Segment Strategies GoString Text NetIP Udp Dns Ports Escalate Lru Match ConnState Worker.

Local Open Scope Z_scope.

Section dns.
Context {Un : Unicode} {Rx : Regexp} {Nt : Net} {Rg : Ranger} {Srt : SortSlice}.
Implicit Types (e : env) (w : worker) (d : readings).

(** The source and the destination of a packet. *)
Definition packet_ends (ipVersion : Z) (raw : bytes) : go (bytes * bytes) :=
  if ipVersion =? 4
  then let! s := slice raw 12 16 in let! t := slice raw 16 20 in Ret (s, t)
  else let! s := slice raw 8 24 in let! t := slice raw 24 40 in Ret (s, t).

Definition sendDNSResponseToClient (d : readings) (ipVersion : Z) (originalDst clientIP : bytes) (clientPort : Z)
    (resp : bytes) : go (list effect) :=
  if len resp =? 0 then Ret [] else
  let! pkt := (if ipVersion =? 4 then BuildUDPPacketV4 (t_id d) originalDst clientIP 53 clientPort resp
               else BuildUDPPacketV6 originalDst clientIP 53 clientPort resp) in
  match pkt with
  | Some pkt => Ret [ToClient (Send pkt)]
  | None => Ret []
  end.

(** A query for a name of a set that blocks; [None] goes on with the query. *)
Definition block_query e d (ipVersion sport : Z) (payload raw : bytes) (set : SetConfig) : go (option (list effect)) :=
  if rt_Enabled (Routing set) && RoutingIsBlock (rt_Mode (Routing set)) && negb (IsDiscovery (Queue (e_cfg e)))
  then
    if bool_decide (NormalizeBlockAction (BlockAction (Routing set)) = BlockActionDrop) then Ret (Some [Drop]) else
    let ipv6Disabled := (ipVersion =? 6) && negb (IPv6Enabled (Queue (e_cfg e))) in
    if negb ipv6Disabled
    then
      let! resp := BuildBlockResponse payload in
      match resp with
      | None => Ret None
      | Some resp =>
          let! (clientIP, originalDst) := packet_ends ipVersion raw in
          let! pkt := (if ipVersion =? 4 then BuildUDPPacketV4 (t_id d) originalDst clientIP 53 sport resp
                       else BuildUDPPacketV6 originalDst clientIP 53 sport resp) in
          Ret (Some (match pkt with Some pkt => [ToClient (Send pkt)] | None => [] end ++ [Drop]))
      end
    else Ret None
  else Ret None.

(** The set of a routed query is remembered for its response. *)
Definition remember_query e d w (ipVersion sport dport : Z) (raw : bytes) (txid : option Z) (domain : string)
    (set : SetConfig) : go worker :=
  match txid with
  | Some txid =>
      if rt_Enabled (Routing set) && negb (DomainOnly (Targets set)) && negb (IsDiscovery (Queue (e_cfg e)))
      then
        let! (clientIP, dnsServerIP) := packet_ends ipVersion raw in
        Ret (storeDNSPendingRoute (t_now d 0) (dnsRouteKeyRequest ipVersion clientIP sport dnsServerIP dport txid domain)
               (Id set) w)
      else Ret w
  | None => Ret w
  end.

(** Redirecting the query, or passing it. *)
Definition redirect_query e d (ipVersion sport : Z) (payload raw : bytes) (set : SetConfig) : go (list effect) :=
  let useDoH := negb (bool_decide (DoHURL (DNS set) = ""%string)) in
  if negb (dns_Enabled (DNS set) && (negb (bool_decide (TargetDNS (DNS set) = ""%string)) || useDoH)) then Ret [Accept] else
  let targetIP := if useDoH then None else ParseIP (TargetDNS (DNS set)) in
  if negb useDoH && bool_decide (targetIP = None) then Ret [Accept] else
  if (ipVersion =? 6) && negb (IPv6Enabled (Queue (e_cfg e))) then Ret [Accept] else
  let! (clientIP, originalDst) := packet_ends ipVersion raw in
  let delay := ResolveSeg2Delay (t_delay d) (u_Seg2Delay (UDP set)) (u_Seg2DelayMax (UDP set)) in
  Ret [Drop; GoDNS ipVersion set payload clientIP sport originalDst targetIP delay].

(** The part for [dport == 53]; [None] goes on with the packet. *)
Definition dns_query e d w (ipVersion sport dport : Z) (payload raw : bytes) (srcMac : string)
    : go (worker * option (list effect)) :=
  let! name := ParseQueryDomain payload in
  let! txid := ParseTransactionID payload in
  match name with
  | None => Ret (w, None)
  | Some name =>
      let domain := ToLower (string_of name) in
      let '(matchedSet, set) := MatchSNIWithSource (matcher w) domain srcMac in
      if matchedSet
      then
        let! set := deref set in
        let! blocked := block_query e d ipVersion sport payload raw set in
        match blocked with
        | Some acts => Ret (w, Some acts)
        | None =>
            let! w := remember_query e d w ipVersion sport dport raw txid domain set in
            let! acts := redirect_query e d ipVersion sport payload raw set in
            Ret (w, Some acts)
        end
      else Ret (w, None)
  end.

(** The name of a response. *)
Definition response_name (payload : bytes) : go string :=
  let! name := ParseQueryDomain payload in
  match name with
  | Some name => Ret (ToLower (string_of name))
  | None =>
      let! name := parseDNSName payload 12 in
      match name with
      | Some name => Ret (ToLower (string_of name))
      | None => Ret ""%string
      end
  end.

(** The routes of a response by the name it answers for. *)
Definition route_by_name e w (payload : bytes) (clientIP : bytes) (domain : string) : go (list effect) :=
  if bool_decide (domain = ""%string) then Ret [] else
  let clientMac := getMacByIp e (ip_string clientIP) in
  let '(matched, set) := MatchSNIWithSource (matcher w) domain clientMac in
  if matched
  then
    let! set := deref set in
    if Enabled set
    then
      let! ips := ParseResponseIPs payload in
      if rt_Enabled (Routing set) && negb (DomainOnly (Targets set)) && negb (bool_decide (ips = []))
         && has_HandleDNS e && negb (IsDiscovery (Queue (e_cfg e)))
      then Ret [HandleDNS set ips] else Ret []
    else Ret []
  else Ret [].

(** The routes of a response by the query that was remembered. *)
Definition route_by_query e (payload : bytes) (sid : option string) (routed : bool) : go (list effect) :=
  match sid with
  | None => Ret []
  | Some sid =>
      if routed then Ret [] else
      let! ips := ParseResponseIPs payload in
      if bool_decide (ips = []) then Ret [] else
      match GetSetById (e_cfg e) sid with
      | None => Ret []
      | Some set =>
          if negb (DomainOnly (Targets set)) && has_HandleDNS e && negb (IsDiscovery (Queue (e_cfg e)))
          then Ret [HandleDNS set ips] else Ret []
      end
  end.

(** The part for [sport == 53]. *)
Definition dns_response e d w (ipVersion sport dport : Z) (payload raw : bytes) : go (worker * list effect) :=
  let! txid := ParseTransactionID payload in
  match txid with
  | None => Ret (w, [])
  | Some txid =>
      let! domain := response_name payload in
      let! (dnsServerIP, clientIP) := packet_ends ipVersion raw in
      let! acts := route_by_name e w payload clientIP domain in
      let '(sid, w) := consumeDNSPendingRoute (t_now d 0)
                         (dnsRouteKeyResponse ipVersion clientIP dport dnsServerIP sport txid domain) w in
      let! acts2 := route_by_query e payload sid (negb (bool_decide (acts = []))) in
      Ret (w, acts ++ acts2)
  end.

Definition processDnsPacket e d w (ipVersion sport dport : Z) (payload raw : bytes) (srcMac : string)
    : go (worker * list effect) :=
  let! (w, done) := (if dport =? 53 then dns_query e d w ipVersion sport dport payload raw srcMac else Ret (w, None)) in
  match done with
  | Some acts => Ret (w, acts)
  | None =>
      let! (w, acts) := (if sport =? 53 then dns_response e d w ipVersion sport dport payload raw else Ret (w, [])) in
      Ret (w, acts ++ [Accept])
  end.

(** The goroutine of a redirect; [answer] is what the resolver gave, [None] an error. *)
Definition resolveDNSRedirect e d (ipVersion : Z) (set : SetConfig) (query clientIP : bytes) (clientPort : Z)
    (originalDst : bytes) (answer : option bytes) : go (list effect) :=
  match answer with
  | None =>
      let! resp := BuildServfailResponse query in
      sendDNSResponseToClient d ipVersion originalDst clientIP clientPort (default [] resp)
  | Some resp =>
      let! acts := sendDNSResponseToClient d ipVersion originalDst clientIP clientPort resp in
      if rt_Enabled (Routing set) && negb (DomainOnly (Targets set)) && negb (IsDiscovery (Queue (e_cfg e)))
         && has_HandleDNS e
      then
        let! ips := ParseResponseIPs resp in
        Ret (acts ++ (if bool_decide (ips = []) then [] else [HandleDNS set ips]))
      else Ret acts
  end.
End dns.
