(* ===== verification/Handler.v ===== *)
(** * The packet handler

    src/src/nfq/handler.go, inc.go (HandleIncoming) and verdict.go (ProcessPacket): what the
    worker does with a packet of the queue.  The TCP handler is cut at its stages; each
    stage is a definition.  Names of sets are read where the code reads them for its log
    lines, since a nil set panics there. *)

From Stdlib Require Import ZArith Lia Ascii.
From stdpp Require Import base list numbers strings gmap pretty.
From S2P Require Import Prelude Config Fragment Buffer Segment Strategies Decoys Tls Quic Assemble QuicSni Voice GoString Text NetIP Udp Rewrite Syn Incoming Dns Ports Escalate Lru Match ConnState Worker DnsHandler.

Local Open Scope Z_scope.

(** [time.Duration(sec) * time.Second] *)
Definition seconds (sec : Z) : Z := i64 (sec * dur_second).

Section handler.
Context {Un : Unicode} {Rx : Regexp} {Nt : Net} {Rg : Ranger} {Srt : SortSlice} {Cb : Cryptobyte}.
Context (hp_encrypt : bytes → Z → bytes → bytes).
Context (initial_iv : bytes → Z → bytes).
Context (aead_open : bytes → Z → bytes → bytes → bytes → option bytes).
Implicit Types (e : env) (w : worker) (d : readings).

(** ** Packets from the server *)

Definition packet_ttl (v : Z) (raw : bytes) : go Z :=
  if (v =? 4) && (8 <? len raw) then idx raw 8
  else if (v =? 6) && (7 <? len raw) then idx raw 7
  else Ret 0.

(** An RST that is no server's: the host may be escalated. *)
Definition rst_escalation e d w (src : bytes) (outKey : string) (set : SetConfig) : worker * list effect :=
  let '(host, _, _) := TlsCache.Lookup outKey (tlsCache (rt w)) in
  let win := seconds (RstWindowSec (Escalate set)) in
  let ttl := seconds (TtlSec (Escalate set)) in
  if bool_decide (host = ""%string) then (w, []) else
  let '(kill, dest) := DestState.RecordRSTKill (t_order d 1) (t_now d 1) (t_now d 2) host (RstThreshold (Escalate set)) win
                         (destState (rt w)) in
  let w := with_dest w dest in
  if kill
  then
    match GetSetById (e_cfg e) (To (Escalate set)) with
    | Some next =>
        if Enabled next
        then
          let '(ok, dest) := DestState.SetEscalation (t_order d 2) (t_now d 3) (t_now d 4) (t_now d 5) host (Id next) ttl
                               (destState (rt w)) in
          (with_dest w dest, if ok then registerEscalatedRoute e next src else [])
        else (w, [])
    | None => (w, [])
    end
  else (w, []).

(** The first half of [HandleIncoming]; [true] when the packet was dropped. *)
Definition watch_server e d w (v : Z) (raw : bytes) (ihl : Z) (src : bytes) (outKey : string) (set : SetConfig)
    : go (worker * (list effect * bool)) :=
  let! tcp := slice_from raw ihl in
  let! tcpFlags := idx tcp 13 in
  let isRst := negb (Z.land tcpFlags 0x04 =? 0) in
  let hasACK := negb (Z.land tcpFlags 0x10 =? 0) in
  let! off := idx tcp 12 in
  let tcpHdrLen := u8 (Z.shiftr off 4 * 4) in
  let hasOpts := 20 <? tcpHdrLen in
  let! pktTTL := packet_ttl v raw in
  let w := if negb isRst && (0 <? pktTTL)
           then with_conns w (ConnTracker.RecordServerResponse outKey pktTTL hasOpts (connState (rt w))) else w in
  let rstProtOn := rp_Enabled (RSTProtection (TCP set)) in
  let canEscalate := negb (bool_decide (To (Escalate set) = ""%string)) in
  if isRst && (rstProtOn || canEscalate)
  then
    let tolerance := TTLTolerance (RSTProtection (TCP set)) in
    let tolerance := if tolerance <=? 0 then 3 else tolerance in
    let '((drop, _), conns) := ConnTracker.CheckRST outKey pktTTL hasOpts hasACK tolerance (connState (rt w)) in
    let w := with_conns w conns in
    if drop
    then
      let '(w, acts) := (if canEscalate then rst_escalation e d w src outKey set else (w, [])) in
      if rstProtOn then Ret (w, (acts ++ [Drop], true)) else Ret (w, (acts, false))
    else Ret (w, ([], false))
  else Ret (w, ([], false)).

(** The second half: packets that look like the client's answers. *)
Definition answer_server d w (v : Z) (raw : bytes) (ihl : Z) (outKey : string) (payload : bytes) (set : SetConfig)
    : go (worker * list effect) :=
  let inc := Incoming (TCP set) in
  let mode := in_Mode inc in
  if bool_decide (mode = ConfigOff) || (len payload <=? 0) then Ret (w, []) else
  if bool_decide (mode = "fake"%string)
  then
    let! acts := (if v =? 4 then InjectFakeIncoming set (t_inc d) raw ihl else InjectFakeIncomingV6 set (t_inc d) raw) in
    Ret (w, map Inject acts)
  else if bool_decide (mode ∈ ["reset"; "fin"; "desync"]%string)
  then
    let '(fire, conns) := ConnTracker.TrackIncomingBytes (t_track d) (t_now d 6) outKey (len payload) inc (connState (rt w)) in
    let w := with_conns w conns in
    if fire
    then
      let! acts :=
        (if bool_decide (mode = "reset"%string)
         then if v =? 4 then InjectResetIncoming set (t_inc d) raw ihl else InjectResetIncomingV6 set (t_inc d) raw
         else if bool_decide (mode = "fin"%string)
         then if v =? 4 then InjectFinIncoming set (t_inc d) raw ihl else InjectFinIncomingV6 set (t_inc d) raw
         else if v =? 4 then InjectDesyncIncoming set (t_inc d) raw ihl else InjectDesyncIncomingV6 set (t_inc d) raw) in
      Ret (w, map Inject acts)
    else Ret (w, [])
  else Ret (w, []).

Definition HandleIncoming e d w (v : Z) (raw : bytes) (ihl : Z) (src : bytes) (dstStr : string) (dport : Z)
    (srcStr : string) (sport : Z) (payload : bytes) : go (worker * list effect) :=
  let outKey := conn_key dstStr dport srcStr sport in
  let '(incomingSet, conns) := ConnTracker.GetSetForIncoming (t_now d 0) outKey (connState (rt w)) in
  let w := with_conns w conns in
  match incomingSet with
  | None => Ret (w, [Accept])
  | Some set =>
      let! (w, r) := (if ihl + 13 <? len raw then watch_server e d w v raw ihl src outKey set else Ret (w, ([], false))) in
      if r.2 then Ret (w, r.1) else
      let! (w, acts) := answer_server d w v raw ihl outKey payload set in
      Ret (w, r.1 ++ acts ++ [Accept])
  end.

(** ** Packets to the server *)

(** The choice of a set, as the stages refine it. *)
Record flow := { f_matched : bool; f_set : option SetConfig; f_st : option SetConfig; f_learned : bool }.
(** What the stage of the payload found. *)
Record hello_info := { h_host : string; h_client : bool; h_tls : Z; h_sni : bool }.

Definition is_syn (flags : Z) : bool := negb (Z.land flags 0x02 =? 0).
Definition is_ack (flags : Z) : bool := negb (Z.land flags 0x10 =? 0).
Definition is_rst (flags : Z) : bool := negb (Z.land flags 0x04 =? 0).

Definition unmatched (fl : flow) : flow :=
  {| f_matched := false; f_set := None; f_st := f_st fl; f_learned := f_learned fl |}.
Definition chosen (set : option SetConfig) (fl : flow) : flow :=
  {| f_matched := true; f_set := set; f_st := f_st fl; f_learned := f_learned fl |}.

(** The set by address, by learned address and by port. *)
Definition tcp_match e d w (pkt : pktInfo) (dport : Z) (matched : bool) (set st : option SetConfig) : go (worker * flow) :=
  let fl := {| f_matched := matched; f_set := set; f_st := st; f_learned := false |} in
  let! fl := (if matched then let! s := deref set in Ret (if MatchesTCPDPort s dport then fl else unmatched fl)
              else Ret fl) in
  let '(m, ((mLearned, learnedSet), _)) :=
    MatchLearnedIPWithSource (matcher w) (p_dst pkt) (p_srcMac pkt) (t_now d 10) (t_now d 11) in
  let w := with_matcher w m in
  let! fl := (if mLearned
              then let! s := deref learnedSet in
                   Ret (if MatchesTCPDPort s dport
                        then {| f_matched := true; f_set := Some s; f_st := Some s; f_learned := true |} else fl)
              else Ret fl) in
  Ret (w, if negb (f_matched fl) && IsTCPPort (e_cfg e) dport
          then let '(portMatched, portSet) := MatchTCPPort (matcher w) dport in if portMatched then chosen portSet fl else fl
          else fl).

Definition tproxied (fl : flow) : bool :=
  f_matched fl && match f_set fl with
                  | Some s => rt_Enabled (Routing s) && RoutingUsesTProxy (rt_Mode (Routing s))
                  | None => false
                  end.

(** Sending a packet several times; [None] goes on. *)
Definition tcp_duplicate e d (pkt : pktInfo) (dport : Z) (fl : flow) : go (option (list effect)) :=
  if f_matched fl && negb (tproxied fl) && IsTCPPort (e_cfg e) dport
  then
    let! s := deref (f_set fl) in
    let dup := Duplicate (TCP s) in
    if dup_Enabled dup && (0 <? dup_Count dup)
    then Ret (Some (Drop :: if t_drop d then replicate (Z.to_nat (dup_Count dup)) (Inject (Send (p_raw pkt))) else []))
    else Ret None
  else Ret None.

Definition rst_protected (fl : flow) : bool :=
  f_matched fl && match f_set fl with Some s => rp_Enabled (RSTProtection (TCP s)) | None => false end.

(** Whether the connection is tracked. *)
Definition tracked (set : SetConfig) : bool :=
  negb (bool_decide (in_Mode (Incoming (TCP set)) = ConfigOff)) || rp_Enabled (RSTProtection (TCP set))
  || negb (bool_decide (To (Escalate set) = ""%string)).

Definition register e d w (connKey : string) (set : SetConfig) : worker :=
  if tracked set
  then with_conns w (ConnTracker.RegisterOutgoing (t_order d 10) (t_now d 12) (t_now d 13) connKey (Some set) (connState (rt w)))
  else w.

(** The fakes before a SYN and the SYN itself; [None] goes on. *)
Definition tcp_syn e d w (pkt : pktInfo) (connKey : string) (dport flags datOff : Z) (fl : flow)
    : go (worker * option (list effect)) :=
  if is_syn flags && negb (is_ack flags) && negb (tproxied fl) && IsTCPPort (e_cfg e) dport && f_matched fl
  then
    let! s := deref (f_set fl) in
    if negb (dup_Enabled (Duplicate (TCP s))) && needsTCPSynInjection (Some s)
    then
      let v4 := p_ver pkt =? 4 in
      let! fakes := (if SynFake (TCP s)
                     then if v4 then sendFakeSynV4 s (t_draws d 0) (p_raw pkt) (p_ihl pkt) datOff
                          else sendFakeSynV6 s (t_draws d 0) (p_raw pkt) (p_ihl pkt) datOff
                     else Ret []) in
      let! md5s := (if negb (bool_decide (Strategy (Fragmentation s) = ConfigNone)) && TCPMD5 (Faking s)
                    then if v4 then sendFakeSynWithMD5V4 s (t_draws d 1) (p_raw pkt) (p_ihl pkt)
                         else sendFakeSynWithMD5V6 s (t_draws d 1) (p_raw pkt)
                    else Ret []) in
      Ret (register e d w connKey s, Some (map Inject (fakes ++ md5s ++ [Send (p_raw pkt)]) ++ [Drop]))
    else Ret (w, None)
  else Ret (w, None).

(** The name in the payload and the set it matches. *)
Definition tcp_payload e d w (pkt : pktInfo) (connKey : string) (dport : Z) (payload : bytes) (fl : flow)
    : go (worker * (flow * hello_info) * list effect) :=
  if IsTCPPort (e_cfg e) dport && (0 <? len payload)
  then
    let! (sni, tlsVersion, _) := ParseTLSClientHelloSNI payload in
    let host := string_of sni in
    let named := negb (bool_decide (host = ""%string)) in
    let w := if named && negb (tlsVersion =? 0)
             then with_tls w (TlsCache.Store (t_order d 11) (t_now d 14) (t_now d 15) connKey host tlsVersion (tlsCache (rt w)))
             else w in
    let '(mSNI, stSNI) := if named then MatchSNIWithSourceTLS (matcher w) host (p_srcMac pkt) tlsVersion (p_ver pkt)
                          else (false, None) in
    let! by_name := (if mSNI then let! s := deref stSNI in Ret (if MatchesTCPDPort s dport then Some s else None)
                     else Ret None) in
    let '(w, fl, acts) := match by_name with
      | Some s => (with_matcher w (LearnIPToDomain (matcher w) (p_dst pkt) host (Some s) (t_now d 16)), chosen (Some s) fl,
                   registerLearnedRoute e s (p_dst pkt))
      | None => (w, fl, [])
      end in
    let matchedSNI := bool_decide (by_name ≠ None) in
    let fl := if f_matched fl && negb matchedSNI && match f_set fl with
                                                    | Some s => negb (MatchesTLSVersion s tlsVersion)
                                                    | None => false
                                                    end
              then unmatched fl else fl in
    let fl := if f_learned fl && negb matchedSNI && negb (get payload 0 =? 0x16) && match f_set fl with
                | Some s => bool_decide (Strategy (Fragmentation s) = ConfigNone) && pool_empty s
                            && bool_decide (ds_Mode (Desync (TCP s)) = ConfigOff)
                | None => false
                end
              then unmatched fl else fl in
    Ret (w, (fl, {| h_host := host; h_client := named; h_tls := tlsVersion; h_sni := matchedSNI |}), acts)
  else Ret (w, (fl, {| h_host := ""; h_client := false; h_tls := 0; h_sni := false |}), []).

(** The name seen earlier on the connection. *)
Definition recall w (connKey : string) (h : hello_info) : hello_info :=
  if bool_decide (h_host h = ""%string) || (h_tls h =? 0)
  then
    let '(cachedHost, cachedTLS, found) := TlsCache.Lookup connKey (tlsCache (rt w)) in
    if found
    then {| h_host := if bool_decide (h_host h = ""%string) then cachedHost else h_host h; h_client := h_client h;
            h_tls := if h_tls h =? 0 then cachedTLS else h_tls h; h_sni := h_sni h |}
    else h
  else h.

(** A host that was escalated gets the set it was escalated to. *)
Definition escalated e w (now : time) (host : string) (set : option SetConfig) : go (worker * option SetConfig) :=
  let '(escId, _, ok) := DestState.GetEscalation now host (destState (rt w)) in
  if ok
  then
    match GetSetById (e_cfg e) escId with
    | Some escSet =>
        if Enabled escSet then let! _ := deref set in Ret (w, Some escSet)
        else Ret (with_dest w (DestState.ClearEscalation host (destState (rt w))), set)
    | None => Ret (with_dest w (DestState.ClearEscalation host (destState (rt w))), set)
    end
  else Ret (w, set).

Definition tcp_escalated e d w (dport : Z) (fl : flow) (h : hello_info) : go (worker * flow) :=
  if f_matched fl && h_client h && negb (bool_decide (h_host h = ""%string)) && IsTCPPort (e_cfg e) dport
  then
    let! (w, set) := escalated e w (t_now d 17) (h_host h) (f_set fl) in
    Ret (w, {| f_matched := f_matched fl; f_set := set; f_st := f_st fl; f_learned := f_learned fl |})
  else Ret (w, fl).

Definition rst_to_client d (pkt : pktInfo) : go (list effect) :=
  let! acts := (if p_ver pkt =? 4
                then sendRSTToClientV4 (p_raw pkt) (p_ihl pkt) (default [] (To4 (p_src pkt))) (default [] (To4 (p_dst pkt))) (t_now d 18)
                else sendRSTToClientV6 (p_raw pkt) (default [] (To16 (p_src pkt))) (default [] (To16 (p_dst pkt)))) in
  Ret (map ToClient acts).

(** A destination known to be blocked is refused at once; [None] goes on. *)
Definition tcp_blocked e d w (pkt : pktInfo) (dport : Z) (dstIPPort : string) (fl : flow) (h : hello_info)
    : go (worker * option (list effect)) :=
  if f_matched fl && h_client h
  then
    let! s := deref (f_set fl) in
    let ibd := IPBlockDetect (TCP s) in
    if ib_Enabled ibd && negb (bool_decide (h_host h = ""%string)) && IsTCPPort (e_cfg e) dport && CacheBlockedIPs ibd
    then
      let '(hit, dest) := DestState.IsBlocked (t_now d 19) dstIPPort (destState (rt w)) in
      let w := with_dest w dest in
      if hit then let! acts := rst_to_client d pkt in Ret (w, Some (acts ++ [Drop])) else Ret (w, None)
    else Ret (w, None)
  else Ret (w, None).

(** The routing modes that end the handling; [None] goes on. *)
Definition tcp_routing d (pkt : pktInfo) (fl : flow) (h : hello_info) : go (option (list effect)) :=
  if f_matched fl
  then
    match f_set fl with
    | Some s =>
        let r := Routing s in
        if rt_Enabled r && RoutingIsBlock (rt_Mode r)
        then
          if h_sni h || (bool_decide (f_st fl ≠ None) && negb (f_learned fl))
          then
            let! acts := (if bool_decide (NormalizeBlockAction (BlockAction r) ≠ BlockActionDrop) then rst_to_client d pkt
                          else Ret []) in
            Ret (Some (acts ++ [Drop]))
          else Ret (Some [Accept])
        else if rt_Enabled r && RoutingUsesTProxy (rt_Mode r) then Ret (Some [Accept])
        else Ret None
    | None => Ret None
    end
  else Ret None.

(** Counting a ClientHello that is sent again: the host escalates, or the client is reset. *)
Definition tcp_retransmission e d w (pkt : pktInfo) (connKey dstIPPort : string) (host : string) (s : SetConfig)
    : go (worker * option (list effect)) :=
  let ibd := IPBlockDetect (TCP s) in
  let canEscalate := negb (bool_decide (To (Escalate s) = ""%string)) in
  let '((count, firstSeen), dest) := DestState.RecordClientHello (t_now d 20) (t_now d 21) connKey host (destState (rt w)) in
  let w := with_dest w dest in
  let threshold := if RetransmitThreshold ibd <=? 0 then 3 else RetransmitThreshold ibd in
  let timeout := i64 (TimeoutMs ibd * millisecond) in
  let timeout := if timeout <=? 0 then 3000 * millisecond else timeout in
  if (threshold <=? count) || ((1 <? count) && (timeout <? t_now d 22 - firstSeen))
  then
    let '(w, escalation) :=
      if canEscalate
      then match GetSetById (e_cfg e) (To (Escalate s)) with
           | Some next =>
               if Enabled next
               then
                 let '(ok, dest) := DestState.SetEscalation (t_order d 12) (t_now d 23) (t_now d 24) (t_now d 25) host (Id next)
                                      (seconds (TtlSec (Escalate s))) (destState (rt w)) in
                 (with_dest w dest, if ok then Some (registerEscalatedRoute e next (p_dst pkt) ++ [Drop]) else None)
               else (w, None)
           | None => (w, None)
           end
      else (w, None) in
    match escalation with
    | Some acts => Ret (w, Some acts)
    | None =>
        if ib_Enabled ibd
        then
          if DestState.HasRSTSent connKey (destState (rt w)) then Ret (w, Some [Drop])
          else
            let w := with_dest w (DestState.MarkRSTSent connKey (destState (rt w))) in
            let! acts := rst_to_client d pkt in
            let w := if CacheBlockedIPs ibd
                     then with_dest w (DestState.AddBlocked (t_now d 26) (t_now d 27) dstIPPort (destState (rt w))) else w in
            Ret (w, Some (acts ++ [Drop]))
        else Ret (w, None)
    end
  else Ret (w, None).

(** Handing the packet to the injection. *)
Definition tcp_inject e d w (pkt : pktInfo) (connKey : string) (tproxy : bool) (s : SetConfig) : go (worker * list effect) :=
  let w := register e d w connKey s in
  if tproxy || negb (needsTCPInjection (Some s)) then Ret (w, [Accept]) else
  let! packet := (if DropSACK (TCP s)
                  then if p_ver pkt =? 4 then StripSACKFromTCP (p_raw pkt) else StripSACKFromTCPv6 (p_raw pkt)
                  else Ret (p_raw pkt)) in
  Ret (w, Drop :: if t_drop d then [GoTCP (p_ver pkt) s packet (p_dst pkt)] else []).

Definition tcp_matched e d w (pkt : pktInfo) (connKey dstIPPort : string) (dport : Z) (tproxy : bool) (fl : flow)
    (h : hello_info) : go (worker * list effect) :=
  if f_matched fl
  then
    let! s := deref (f_set fl) in
    let ibdOn := ib_Enabled (IPBlockDetect (TCP s)) in
    let canEscalate := negb (bool_decide (To (Escalate s) = ""%string)) in
    let! (w, done) := (if h_client h && negb tproxy && (ibdOn || canEscalate) && negb (bool_decide (h_host h = ""%string))
                          && IsTCPPort (e_cfg e) dport
                       then tcp_retransmission e d w pkt connKey dstIPPort (h_host h) s else Ret (w, None)) in
    match done with
    | Some acts => Ret (w, acts)
    | None => tcp_inject e d w pkt connKey tproxy s
    end
  else Ret (w, [Accept]).

(** From the payload on. *)
Definition tcp_stream e d w (pkt : pktInfo) (connKey : string) (dport : Z) (payload : bytes) (fl : flow)
    : go (worker * list effect) :=
  let tproxy := tproxied fl in
  let dstIPPort := p_dstStr pkt +:+ ":" +:+ pretty dport in
  let! (w, (fl, h), learned) := tcp_payload e d w pkt connKey dport payload fl in
  let h := recall w connKey h in
  let! (w, fl) := tcp_escalated e d w dport fl h in
  let! (w, done) := tcp_blocked e d w pkt dport dstIPPort fl h in
  match done with
  | Some acts => Ret (w, learned ++ acts)
  | None =>
      let! _ := (if f_matched fl then let! s := deref (f_set fl) in Ret (Name s) else Ret ""%string) in
      let! done := tcp_routing d pkt fl h in
      match done with
      | Some acts => Ret (w, learned ++ acts)
      | None =>
          let! (w, acts) := tcp_matched e d w pkt connKey dstIPPort dport tproxy fl h in
          Ret (w, learned ++ acts)
      end
  end.

Definition handleTCPPacket e d w (pkt : pktInfo) (matched : bool) (set st : option SetConfig) : go (worker * list effect) :=
  let! tcp := slice_from (p_raw pkt) (p_ihl pkt) in
  if len tcp <? TCPHeaderMinLen then Ret (w, [Accept]) else
  let! off := idx tcp 12 in
  let datOff := Z.land (Z.shiftr off 4) 0x0f * 4 in
  if len tcp <? datOff then Ret (w, [Accept]) else
  let! payload := slice_from tcp datOff in
  let! sport := be16 tcp 0 in
  let! dport := be16 tcp 2 in
  if IsTCPPort (e_cfg e) sport
  then HandleIncoming e d w (p_ver pkt) (p_raw pkt) (p_ihl pkt) (p_src pkt) (p_dstStr pkt) dport (p_srcStr pkt) sport payload
  else
    let connKey := conn_key (p_srcStr pkt) sport (p_dstStr pkt) dport in
    let! (w, fl) := tcp_match e d w pkt dport matched set st in
    let! dup := tcp_duplicate e d pkt dport fl in
    match dup with
    | Some acts => Ret (w, acts)
    | None =>
        let! flags := idx tcp 13 in
        if is_rst flags && IsTCPPort (e_cfg e) dport && rst_protected fl
           && ConnTracker.ShouldDropOutboundRST connKey (connState (rt w))
        then Ret (w, [Drop])
        else
          let w := if is_ack flags && negb (is_syn flags) && negb (is_rst flags) && IsTCPPort (e_cfg e) dport && rst_protected fl
                   then with_conns w (ConnTracker.MarkEstablished (t_now d 9) connKey (connState (rt w))) else w in
          let! (w, syn) := tcp_syn e d w pkt connKey dport flags datOff fl in
          match syn with
          | Some acts => Ret (w, acts)
          | None => tcp_stream e d w pkt connKey dport payload fl
          end
    end.

(** ** Datagrams *)

Record udp_flow := {
  u_matched : bool; u_set : option SetConfig; u_ip : bool; u_learned : bool; u_port : bool; u_quic : bool;
  u_host : string }.

(** The set by address, by learned address and by port. *)
Definition udp_match d w (pkt : pktInfo) (dport : Z) (matched : bool) (set st : option SetConfig) : go (worker * udp_flow) :=
  let none := {| u_matched := false; u_set := None; u_ip := false; u_learned := false; u_port := false; u_quic := false;
                 u_host := "" |} in
  let fl := match st with
            | Some s => if MatchesUDPDPort s dport
                        then {| u_matched := matched; u_set := set; u_ip := true; u_learned := false; u_port := false;
                                u_quic := false; u_host := "" |}
                        else none
            | None => {| u_matched := matched; u_set := set; u_ip := false; u_learned := false; u_port := false;
                         u_quic := false; u_host := "" |}
            end in
  let! (w, fl) :=
    (if u_ip fl then Ret (w, fl)
     else
       let '(m, ((mLearned, learnedSet), learnedDomain)) :=
         MatchLearnedIPWithSource (matcher w) (p_dst pkt) (p_srcMac pkt) (t_now d 10) (t_now d 11) in
       let w := with_matcher w m in
       if mLearned
       then let! s := deref learnedSet in
            Ret (w, if MatchesUDPDPort s dport
                    then {| u_matched := true; u_set := Some s; u_ip := true; u_learned := true; u_port := false;
                            u_quic := false; u_host := learnedDomain |}
                    else fl)
       else Ret (w, fl)) in
  if u_matched fl then Ret (w, fl)
  else
    let '(portMatched, portSet) := MatchUDPPort (matcher w) dport in
    if portMatched
    then let! s := deref portSet in
         Ret (w, {| u_matched := true; u_set := Some s; u_ip := u_ip fl; u_learned := u_learned fl; u_port := true;
                    u_quic := false; u_host := u_host fl |})
    else Ret (w, fl).

(** The set by the name of a QUIC connection. *)
Definition udp_name e d w (pkt : pktInfo) (dport : Z) (payload : bytes) (isQUIC : bool) (fl : udp_flow)
    : go (worker * udp_flow * list effect) :=
  let! (w, host) :=
    (if bool_decide (u_host fl = ""%string) && isQUIC
     then
       let! (h, buffers) := ParseQUICClientHelloSNI hp_encrypt initial_iv aead_open (t_now d 30) (t_now d 31) payload (quic w) in
       Ret (with_quic w buffers, match h with Some h => string_of h | None => u_host fl end)
     else Ret (w, u_host fl)) in
  let '(mSNI, sniSet) := if bool_decide (host = ""%string) then (false, None)
                         else MatchSNIWithSourceTLS (matcher w) host (p_srcMac pkt) 0x0304 (p_ver pkt) in
  let! by_name := (if mSNI then let! s := deref sniSet in Ret (if MatchesUDPDPort s dport then Some s else None)
                   else Ret None) in
  let fl := {| u_matched := u_matched fl; u_set := u_set fl; u_ip := u_ip fl; u_learned := u_learned fl; u_port := u_port fl;
               u_quic := u_quic fl; u_host := host |} in
  match by_name with
  | Some s =>
      Ret (with_matcher w (LearnIPToDomain (matcher w) (p_dst pkt) host (Some s) (t_now d 32)),
           {| u_matched := u_matched fl; u_set := Some s; u_ip := u_ip fl; u_learned := u_learned fl; u_port := u_port fl;
              u_quic := true; u_host := host |},
           registerLearnedRoute e s (p_dst pkt))
  | None =>
      if u_ip fl || u_port fl
      then let! s := deref (u_set fl) in
           Ret (w, {| u_matched := u_matched fl; u_set := u_set fl; u_ip := u_ip fl; u_learned := u_learned fl;
                      u_port := u_port fl; u_quic := bool_decide (u_FilterQUIC (UDP s) = "all"%string) && isQUIC; u_host := host |}, [])
      else Ret (w, fl, [])
  end.

Definition icmp_reject (pkt : pktInfo) : go (list effect) :=
  let! icmp := (if p_ver pkt =? 4
                then BuildICMPv4Reject (p_raw pkt) (default [] (To4 (p_src pkt))) (default [] (To4 (p_dst pkt)))
                else BuildICMPv6Reject (p_raw pkt) (default [] (To16 (p_src pkt))) (default [] (To16 (p_dst pkt)))) in
  Ret match icmp with Some icmp => [ToClient (Send icmp)] | None => [] end.

(** What the chosen set does with the datagram. *)
Definition udp_apply d (pkt : pktInfo) (fl : udp_flow) : go (list effect) :=
  let! s := deref (u_set fl) in
  if rt_Enabled (Routing s) && RoutingIsBlock (rt_Mode (Routing s))
  then
    if u_quic fl || (u_ip fl && negb (u_learned fl))
    then
      let! acts := (if bool_decide (NormalizeBlockAction (BlockAction (Routing s)) ≠ BlockActionDrop) then icmp_reject pkt
                    else Ret []) in
      Ret (acts ++ [Drop])
    else Ret [Accept]
  else if bool_decide (u_Mode (UDP s) = "drop"%string) then Ret [Drop]
  else if bool_decide (u_Mode (UDP s) = "reject"%string)
  then if t_drop d then let! acts := icmp_reject pkt in Ret (Drop :: acts) else Ret [Drop]
  else if bool_decide (u_Mode (UDP s) = "fake"%string)
  then Ret (Drop :: if t_drop d then [GoQUIC (p_ver pkt) s (p_raw pkt) (p_dst pkt)] else [])
  else Ret [Accept].

Definition filters_voice (set : option SetConfig) : bool := match set with Some s => u_FilterSTUN (UDP s) | None => false end.

Definition handleUDPPacket e d w (pkt : pktInfo) (matched : bool) (set st : option SetConfig) : go (worker * list effect) :=
  let! udp := slice_from (p_raw pkt) (p_ihl pkt) in
  if len udp <? UDPHeaderLen then Ret (w, [Accept]) else
  let! payload := slice_from udp 8 in
  let! sport := be16 udp 0 in
  let! dport := be16 udp 2 in
  if (sport =? 53) || (dport =? 53)
  then processDnsPacket e d w (p_ver pkt) sport dport payload (p_raw pkt) (p_srcMac pkt)
  else if IsPrivateIP (p_dst pkt) then Ret (w, [Accept])
  else
    let! (w, fl) := udp_match d w pkt dport matched set st in
    let! voice := is_voice payload in
    let! isQUIC := LooksLikeQUIC payload in
    let! (w, fl, learned) := udp_name e d w pkt dport payload isQUIC fl in
    let! shouldHandle :=
      (if u_ip fl || u_quic fl || u_port fl
       then if voice then let! s := deref (u_set fl) in Ret (negb (u_FilterSTUN (UDP s))) else Ret true
       else Ret false) in
    let! (w, set) :=
      (if shouldHandle && bool_decide (u_set fl ≠ None) && negb (bool_decide (u_host fl = ""%string))
       then escalated e w (t_now d 17) (u_host fl) (u_set fl) else Ret (w, u_set fl)) in
    let fl := {| u_matched := shouldHandle; u_set := set; u_ip := u_ip fl; u_learned := u_learned fl; u_port := u_port fl;
                 u_quic := u_quic fl; u_host := u_host fl |} in
    if voice && filters_voice set then Ret (w, learned ++ [Accept])
    else if negb shouldHandle then Ret (w, learned ++ [Accept])
    else let! acts := udp_apply d pkt fl in Ret (w, learned ++ acts).

(** ** Packets *)

Definition dispatch e d w (raw : bytes) : go (worker * list effect) :=
  let w := with_count w (u64 (packetsProcessed w + 1)) in
  let! pkt := parseIPHeaders e raw in
  match pkt with
  | None => Ret (w, [Accept])
  | Some pkt =>
      let '(matched, st) := MatchIPWithSource (matcher w) (p_dst pkt) (p_srcMac pkt) in
      let set := if matched then st else None in
      if (p_proto pkt =? 6) && (p_ihl pkt + TCPHeaderMinLen <=? len (p_raw pkt)) then handleTCPPacket e d w pkt matched set st
      else if (p_proto pkt =? 17) && (p_ihl pkt + UDPHeaderLen <=? len (p_raw pkt)) then handleUDPPacket e d w pkt matched set st
      else Ret (w, [Accept])
  end.

(** The attributes of a packet of the queue; [None] is a missing one. *)
Record Attribute := {
  PacketID : option Z; Payload : option bytes; a_Mark : option Z; InDev : option Z; OutDev : option Z }.

(** [stopped]: the worker's context is done. *)
Definition handlePacket e d w (a : Attribute) (mark : Z) (stopped : bool) : go (worker * list effect) :=
  match PacketID a, Payload a with
  | Some _, Some raw =>
      if len raw =? 0 then Ret (w, [Accept]) else
      if bool_decide (a_Mark a = Some (u32 mark)) then Ret (w, [Accept]) else
      let '(allowed, w) := matchesInterface e (InDev a) (OutDev a) w in
      if negb allowed then Ret (w, [Accept]) else
      if stopped then Ret (w, []) else dispatch e d w raw
  | Some _, None => Ret (w, [Accept])
  | None, _ => Ret (w, [])
  end.

(** The verdict that the TUN device reads. *)
Definition verdict (acts : list effect) : bool :=
  foldl (λ v a, match a with Accept => true | Drop => false | _ => v end) true acts.

Definition ProcessPacket e d w (raw : bytes) : go (worker * bool) :=
  if len raw =? 0 then Ret (w, true) else
  let! (w, acts) := dispatch e d w raw in
  Ret (w, verdict acts).
End handler.
