(* ===== verification/Pool.v ===== *)
(** * The pool of workers

    src/src/nfq/pool.go.  The workers of a pool share the matcher, the trackers and the
    package's tables, so the state of one is the state of all; [UpdateConfig] and the ticks
    of the clean-up change it between packets. *)

From Stdlib Require Import ZArith Lia Ascii.
From stdpp Require Import base list numbers strings gmap.
From S2P Require Import Prelude Config GoString Text NetIP Ports Escalate Lru Match ConnState Assemble Worker.

Local Open Scope Z_scope.

Section pool.
Context {Un : Unicode} {Rx : Regexp} {Nt : Net} {Rg : Ranger} {Srt : SortSlice}.
Implicit Types (w : worker) (cfg : Config).

Definition buildMatcher cfg : SuffixSet :=
  if 0 <? len (Sets cfg) then NewSuffixSet (Sets cfg) else NewSuffixSet [].

(** The state the workers of a new pool share. *)
Definition NewPool cfg : worker :=
  {| matcher := buildMatcher cfg; rt := newRuntimeState; quic := ∅; dnsRoutePending := ∅; ifaceCache := ∅;
     packetsProcessed := 0 |}.

Definition ClearEscalations w : worker := with_dest w (DestState.ResetEscalations (destState (rt w))).
(** [ClearEscalation] *)
Definition ClearHostEscalation (host : string) w : worker := with_dest w (DestState.ClearEscalation host (destState (rt w))).

(** [reuse] is the answer of [reflect.DeepEqual] on the old and the new sets; [iter] is the
    order in which the old matcher's learned addresses are visited. *)
Definition UpdateConfig (newCfg : Config) (reuse : bool) (iter : list (string * learnedIPEntry)) (now1 : time)
    (now2 : string → time) w : worker :=
  if reuse then w
  else ClearEscalations (with_matcher w (TransferLearnedIPs (buildMatcher newCfg) iter now1 now2)).

(** One tick of the clean-up, with a reading of the clock for each table. *)
Definition cleanup_tick (now1 now2 now3 : time) w : worker :=
  let w := with_conns w (ConnTracker.Cleanup now1 (connState (rt w))) in
  let w := with_tls w (TlsCache.Cleanup now2 (tlsCache (rt w))) in
  with_dest w (DestState.Cleanup now3 (300 * dur_second) (destState (rt w))).

(** What the pool reports: the host, the name of its set, the hops and the times. *)
Definition GetEscalations cfg (order : list string) (now : time) w : list (string * string * Z * time * time) :=
  map (λ '(host, sid, hops, setAt, expiresAt),
         let toName := match GetSetById cfg sid with
                       | Some set => if bool_decide (Name set = ""%string) then sid else Name set
                       | None => sid
                       end in
         (host, toName, hops, setAt, expiresAt))
      (DestState.ListEscalations order now (destState (rt w))).
End pool.
