(* ===== verification/HandlerOk.v ===== *)
(** * The packet handler never fails

    Every packet gets exactly one verdict and no step of the handler panics or loops: for any
    datagram, and for any well-formed TCP packet, in any state a worker can reach.  What the
    handler hands to its goroutines is fit for them. *)

From Stdlib Require Import ZArith Lia Ascii.
From stdpp Require Import base list numbers strings gmap pretty.
From S2P Require Import Prelude Config Payloads Checksum Fragment Fragment6 Buffer Segment Families Mutation Strategies FakeSni Decoys Tls Quic Assemble QuicSni Voice GoString Text NetIP Udp Rewrite Syn Incoming Dns Ports Escalate Lru Match ConnState Worker Held DnsHandler Handler Pool.

Local Open Scope Z_scope.

(** [account]: the verdicts in lists of effects; [worker]: the parts of the state. *)
Create HintDb account.
Create HintDb worker.

(** ** What is assumed *)

(** The values that Go's types allow, and payloads that fit a packet. *)
Definition set_ok (set : SetConfig) : Prop := syn_ok set ∧ is_byte (in_FakeTTL (Incoming (TCP set))).

(** A TCP packet of one IP version whose headers are complete and that has room for an
    option; over IPv6 the TCP header is behind the IPv6 header. *)
Definition tcp_formed `{Receiver} (ihl : Z) (raw : bytes) : Prop :=
  captured raw ∧ total raw = len raw ∧ hdr raw = ihl ∧ len raw + 20 <= 65535 + len_base.

(** What [parseIPHeaders] gives. *)
Record pkt_ok (raw : bytes) (pkt : pktInfo) : Prop := {
  k_raw : p_raw pkt = raw; k_ok : bytes_ok raw; k_src : bytes_ok (p_src pkt); k_dst : bytes_ok (p_dst pkt);
  k_ihl : 0 <= p_ihl pkt;
  k_ver : (p_ver pkt = 4 ∧ 20 <= len raw ∧ p_ihl pkt = ihl4 raw ∧ is_Some (To4 (p_src pkt)) ∧ len (p_dst pkt) = 4)
    ∨ (p_ver pkt = 6 ∧ 40 <= len raw ∧ 40 <= p_ihl pkt ∧ len (p_src pkt) = 16 ∧ len (p_dst pkt) = 16) }.

(** A TUN resolver gives IPv4 addresses. *)
Definition resolver_ok (e : env) : Prop :=
  ∀ resolve proto src sport dst dport lan, srcResolver e = Some resolve →
    resolve proto src sport dst dport = Some lan → bytes_ok lan ∧ is_Some (To4 lan).

(** ** Headers *)

Section headers.
Context {Un : Unicode} {Rx : Regexp} {Nt : Net} {Rg : Ranger} {Srt : SortSlice}.

Lemma wp_ext_headers fuel raw next offset : bytes_ok raw → 0 <= offset → 0 < Z.of_nat fuel →
  len raw < offset + Z.of_nat fuel →
  wp (ext_headers fuel raw next offset) (λ o, ∀ x, o = Some x → offset <= x.2).
Proof.
  intros Hok. revert next offset. induction fuel as [|f IH]; intros next offset Ho Hf Hl; [lia|]. cbn [ext_headers].
  wp_step. 2:{ wp_step; apply wp_ret; [done|]. intros x [= <-]. cbn. lia. }
  wp_step; [by apply wp_ret|]. bprop. do 4 wp_step. cbv zeta.
  pose proof (bytes_ok_get raw (offset + 1) Hok) as Hb. unfold is_byte in Hb.
  eapply wp_mono; [apply IH; lia|]. intros o Hx x E. specialize (Hx x E). lia.
Qed.

Lemma wp_ip_fields raw v : bytes_ok raw → v = 4 ∨ v = 6 →
  wp (ip_fields raw v) (λ o, ∀ proto src dst ihl, o = Some (proto, src, dst, ihl) →
    bytes_ok src ∧ bytes_ok dst ∧ 0 <= ihl
    ∧ (v = 4 ∧ 20 <= len raw ∧ ihl = ihl4 raw ∧ len src = 4 ∧ len dst = 4
       ∨ v = 6 ∧ 40 <= len raw ∧ 40 <= ihl ∧ len src = 16 ∧ len dst = 16)).
Proof.
  intros Hok Hv. unfold ip_fields, IPv4HeaderMinLen, IPv6HeaderLen. wp_step; bprop.
  - destruct (ihl4_range raw Hok) as [Hr _]. wp_step; [by apply wp_ret|]. bprop. do 2 wp_step. cbv zeta.
    wp_step; [by apply wp_ret|]. bprop. do 2 wp_step. wp_step; [by apply wp_ret|]. do 6 wp_step. apply wp_ret.
    intros proto src dst ihl [= <- <- <- <-]. fold (ihl4 raw). split_and!; [auto with b4..|lia|]. left.
    rewrite !len_sub by lia. split_and!; lia || done.
  - wp_step; [by apply wp_ret|]. bprop. do 2 wp_step. wp_step.
    eapply wp_mono; [apply wp_ext_headers; [done|lia..]|]. intros [[proto ihl]|] Hx; [|by apply wp_ret].
    specialize (Hx _ eq_refl). cbn in Hx. do 4 wp_step. apply wp_ret.
    intros p s t i [= <- <- <- <-]. split_and!; [auto with b4..|lia|]. right. rewrite !len_sub by lia. lia.
Qed.

Lemma To4_of_4 ip : len ip = 4 → To4 ip = Some ip.
Proof. intros Hl. unfold To4. case_if; [done|zlia]. Qed.

Lemma wp_parseIPHeaders (e : env) raw : resolver_ok e → bytes_ok raw → 0 < len raw →
  wp (parseIPHeaders e raw) (λ o, ∀ pkt, o = Some pkt → pkt_ok raw pkt).
Proof.
  intros He Hok Hl. unfold parseIPHeaders. do 2 wp_step. cbv zeta. wp_step; [by apply wp_ret|].
  set (v := Z.shiftr (get raw 0) 4) in *. wp_step.
  eapply wp_mono; [apply wp_ip_fields; [done|zlia]|]. intros [[[[proto src] dst] ihl]|] Hx; [|by apply wp_ret].
  destruct (Hx _ _ _ _ eq_refl) as (Hs & Hd & Hi & Hv). wp_step; [by apply wp_ret|].
  wp_step. apply (wp_mono _ (λ s, bytes_ok s ∧ (v = 4 → is_Some (To4 s)) ∧ (v = 6 → len s = 16))).
  - assert (bytes_ok src ∧ (v = 4 → is_Some (To4 src)) ∧ (v = 6 → len src = 16)) as Hsrc.
    { split_and!; [done|intros Hv4; rewrite To4_of_4 by lia; done|lia]. }
    unfold real_source. destruct (srcResolver e) as [resolve|] eqn:Er; [|by apply wp_ret].
    wp_step; [|by apply wp_ret]. bprop. do 4 wp_step. apply wp_ret.
    destruct (resolve _ _ _ _ _) as [lan|] eqn:El; [|done]. destruct (He _ _ _ _ _ _ _ Er El). split_and!; [done..|lia].
  - intros s (Hso & Hs4 & Hs6). apply wp_ret. intros pkt [= <-]. split; try done. cbn.
    destruct Hv as [(Hv & ? & ? & ? & ?)|(Hv & ? & ? & ? & ?)]; [left|right]; split_and!; auto.
Qed.
End headers.

(** ** Accounts of what was done *)

(** [f] is the captured packet [p] up to its options. *)
Definition handed `{Receiver} (p f : bytes) : Prop :=
  captured f ∧ hdr f = hdr p ∧ seq_no f = seq_no p ∧ payload_of f = payload_of p.

Definition is_verdict (a : effect) : bool := match a with Accept | Drop => true | _ => false end.
Definition verdicts (acts : list effect) : nat := length (filter (λ a, is_verdict a = true) acts).

Section accounts.
Context (P : SetConfig → Prop).

(** The sets are known ones, and the goroutines get the packet they can handle. *)
Definition effect_ok (raw : bytes) (a : effect) : Prop :=
  match a with
  | GoTCP ver set f dst => P set ∧ (if ver =? 4 then @handed IPv4 _ raw f else @handed IPv6 _ raw f)
  | GoQUIC ver set f dst => P set ∧ f = raw
  | GoDNS _ set _ _ _ _ _ _ | LearnRoute set _ | HandleDNS set _ => P set
  | _ => True
  end.

(** The sets whose packets may be lost: those that block, refuse, escalate or guard against
    resets. *)
Definition discards (s : SetConfig) : Prop :=
  rt_Enabled (Routing s) = true ∧ RoutingIsBlock (rt_Mode (Routing s)) = true
  ∨ u_Mode (UDP s) = "drop"%string ∨ u_Mode (UDP s) = "reject"%string
  ∨ rp_Enabled (RSTProtection (TCP s)) = true ∨ To (Escalate s) ≠ ""%string ∨ ib_Enabled (IPBlockDetect (TCP s)) = true.

(** The packet goes on: it is sent again, or a goroutine has it. *)
Definition carries (raw : bytes) (a : effect) : Prop :=
  match a with
  | Inject (Send f) => f = raw
  | GoTCP _ _ _ _ | GoQUIC _ _ _ _ | GoDNS _ _ _ _ _ _ _ _ => True
  | _ => False
  end.

(** A dropped packet goes on, or a set asked for the loss; [dr] tells whether the kernel got
    the verdict. *)
Definition kept (dr : bool) raw acts : Prop :=
  dr = false ∨ Exists (carries raw) acts ∨ ∃ s, P s ∧ discards s.

(** Without a verdict, and with exactly one. *)
Definition quiet raw acts : Prop := Forall (effect_ok raw) acts ∧ verdicts acts = 0%nat.
Definition decided (dr : bool) raw acts : Prop :=
  Forall (effect_ok raw) acts ∧ verdicts acts = 1%nat ∧ (Drop ∈ acts → kept dr raw acts).

Lemma verdicts_app a b : verdicts (a ++ b) = (verdicts a + verdicts b)%nat.
Proof. unfold verdicts. by rewrite filter_app, length_app. Qed.
Lemma verdicts_none acts : verdicts acts = 0%nat → Drop ∉ acts.
Proof.
  unfold verdicts. intros H%length_zero_iff_nil Hd. assert (Drop ∈ filter (λ a, is_verdict a = true) acts) as Hf.
  { by apply list_elem_of_filter. }
  rewrite H in Hf. by apply elem_of_nil in Hf.
Qed.

Lemma quiet_nil raw : quiet raw [].
Proof. by repeat constructor. Qed.
Lemma quiet_app raw a b : quiet raw a → quiet raw b → quiet raw (a ++ b).
Proof. intros [Ha Va] [Hb Vb]. split; [by apply Forall_app|]. rewrite verdicts_app. lia. Qed.
Lemma decided_app dr raw a b : quiet raw a → decided dr raw b → decided dr raw (a ++ b).
Proof.
  intros [Ha Va] (Hb & Vb & Kb). split; [by apply Forall_app|]. split; [rewrite verdicts_app; lia|].
  intros [H|H]%elem_of_app; [by apply verdicts_none in Va|].
  destruct (Kb H) as [|[Hx|]]; [by left| |by right; right]. right; left. apply Exists_app. by right.
Qed.
Lemma decided_cons dr raw a : quiet raw a → kept dr raw a → decided dr raw (Drop :: a).
Proof.
  intros [Ha Va] Hk. split; [by constructor|]. split.
  - unfold verdicts in *. rewrite filter_cons_True by done. cbn. by rewrite Va.
  - intros _. destruct Hk as [|[Hx|]]; [by left| |by right; right]. right; left. by constructor.
Qed.
Lemma decided_accept dr raw : decided dr raw [Accept].
Proof. split; [by repeat constructor|]. split; [done|]. intros H%list_elem_of_singleton. done. Qed.
Lemma decided_drop dr raw s : P s → discards s → decided dr raw [Drop].
Proof. intros Hs Hd. split; [by repeat constructor|]. split; [done|]. intros _. right; right. eauto. Qed.
Lemma decided_back dr raw a : quiet raw a → kept dr raw a → decided dr raw (a ++ [Drop]).
Proof.
  intros [Ha Va] Hk. split; [by apply Forall_app; split; [|repeat constructor]|].
  split; [rewrite verdicts_app, Va; done|]. intros _. destruct Hk as [|[Hx|]]; [by left| |by right; right].
  right; left. apply Exists_app. by left.
Qed.
Lemma decided_last dr raw a s : P s → discards s → quiet raw a → decided dr raw (a ++ [Drop]).
Proof. intros Hs Hd Ha. apply decided_app; [done|]. by eapply decided_drop. Qed.

Lemma quiet_inject raw acts : quiet raw (map Inject acts).
Proof. induction acts as [|a l [Hl Vl]]; [apply quiet_nil|]. split; [by constructor|done]. Qed.
Lemma quiet_client raw acts : quiet raw (map ToClient acts).
Proof. induction acts as [|a l [Hl Vl]]; [apply quiet_nil|]. split; [by constructor|done]. Qed.
Lemma quiet_repeat raw n a : quiet raw (replicate n (Inject a)).
Proof. induction n as [|n [Hl Vl]]; [apply quiet_nil|]. split; [by constructor|done]. Qed.
Lemma quiet_one raw a : effect_ok raw a → is_verdict a = false → quiet raw [a].
Proof. intros Ha Hv. split; [by constructor|]. unfold verdicts. by rewrite filter_cons_False by (by rewrite Hv). Qed.
End accounts.

#[export] Hint Resolve quiet_nil quiet_app decided_app decided_accept quiet_inject quiet_client quiet_repeat : account.

(** ** Configured sets *)

Section handler.
Context {Un : Unicode} {Rx : Regexp} {Nt : Net} {Rg : Ranger} {Srt : SortSlice} {Cb : Cryptobyte}.
Context (P : SetConfig → Prop) (HP : ∀ set, P set → set_ok set).
Implicit Types (e : env) (w : worker) (d : readings).

Record env_ok e : Prop := { e_sets : Forall P (Sets (e_cfg e)); e_resolver : resolver_ok e }.
Definition worker_ok w : Prop := worker_holds P w ∧ cmap_wf (quic w).

(** The state stays in order, and there is one verdict or none. *)
Definition settled d raw (r : worker * list effect) : Prop := worker_ok r.1 ∧ decided P (t_drop d) raw r.2.
Definition pending d raw (r : worker * option (list effect)) : Prop :=
  worker_ok r.1 ∧ ∀ acts, r.2 = Some acts → decided P (t_drop d) raw acts.

Lemma GetSetById_holds e id set : env_ok e → GetSetById (e_cfg e) id = Some set → P set.
Proof. intros [Hs _] Hg. by apply (find_holds P _ (λ s, s) _ _ Hs Hg). Qed.

Lemma quiet_learned e raw set dst : P set → quiet P raw (registerLearnedRoute e set dst).
Proof. intros Hp. unfold registerLearnedRoute. repeat case_if; auto with account. by apply quiet_one. Qed.
Lemma quiet_escalated e raw set dst : P set → quiet P raw (registerEscalatedRoute e set dst).
Proof. intros Hp. unfold registerEscalatedRoute. repeat case_if; auto with account. by apply quiet_one. Qed.

(** The parts of the state that hold no sets. *)
Lemma with_tls_ok w x : worker_ok w → worker_ok (with_tls w x).
Proof. done. Qed.
Lemma with_dest_ok w x : worker_ok w → worker_ok (with_dest w x).
Proof. done. Qed.
Lemma with_routes_ok w x : worker_ok w → worker_ok (with_routes w x).
Proof. done. Qed.
Lemma with_ifaces_ok w x : worker_ok w → worker_ok (with_ifaces w x).
Proof. done. Qed.
Lemma with_count_ok w x : worker_ok w → worker_ok (with_count w x).
Proof. done. Qed.
Lemma with_conns_ok w x : worker_ok w → conns_hold P x → worker_ok (with_conns w x).
Proof. intros [[Hm _] Hq] Hx. done. Qed.
Lemma with_matcher_ok w m : worker_ok w → matcher_holds P m → worker_ok (with_matcher w m).
Proof. intros [[_ Hc] Hq] Hx. done. Qed.
Lemma with_quic_ok w x : worker_ok w → cmap_wf x → worker_ok (with_quic w x).
Proof. intros [Hw _] Hx. done. Qed.
End handler.

#[export] Hint Resolve quiet_learned quiet_escalated : account.
#[export] Hint Resolve with_tls_ok with_dest_ok with_routes_ok with_ifaces_ok with_count_ok with_conns_ok with_matcher_ok with_quic_ok : worker.

(** The set asked for the loss. *)
Ltac discard := unfold discards; bprop; rewrite ?bool_decide_eq_true, ?bool_decide_eq_false in *; tauto.

(** The end of a stage. *)
Ltac settle := apply wp_ret; split; cbn [fst snd]; auto with worker account.

(** ** Packets from the server *)

Section incoming.
Context {Un : Unicode} {Rx : Regexp} {Nt : Net} {Rg : Ranger} {Srt : SortSlice} {Cb : Cryptobyte}.
Context (P : SetConfig → Prop) (HP : ∀ set, P set → set_ok set).
#[local] Set Default Proof Using "Type*".
Implicit Types (e : env) (w : worker) (d : readings).

(** The headers of the IP version and a TCP header are there. *)
Definition tcp_there (v ihl : Z) (raw : bytes) : Prop :=
  bytes_ok raw ∧ 0 <= ihl ∧ ihl + 20 <= len raw ∧ (v = 4 ∧ 20 <= len raw ∨ v = 6 ∧ 40 <= ihl).

Lemma wp_packet_ttl v raw : wp (packet_ttl v raw) (λ _, True).
Proof using Type. unfold packet_ttl. wp_step; bprop; [by wp_step|]. wp_step; bprop; [by wp_step|done]. Qed.

Lemma escalation_ok e d w src key set : env_ok P e → worker_ok P w →
  let '(w', acts) := rst_escalation e d w src key set in worker_ok P w' ∧ ∀ raw, quiet P raw acts.
Proof using Type.
  intros He Hw. unfold rst_escalation. destruct (TlsCache.Lookup _ _) as [[host ?] ?]. cbv zeta.
  case_if; [split; [done|auto with account]|].
  destruct (DestState.RecordRSTKill _ _ _ _ _ _ _) as [kill dest].
  destruct kill; [|split; [done|auto with account]].
  destruct (GetSetById _ _) as [next|] eqn:E; [|split; [done|auto with account]].
  apply GetSetById_holds with (P := P) in E; [|done].
  case_if; [|split; [done|auto with account]]. cbn [destState rt with_dest with_rt].
  destruct (DestState.SetEscalation _ _ _ _ _ _ _ _) as [[] dest']; (split; [done|auto with account]).
Qed.

Lemma wp_watch_server e d w v raw ihl src key set : env_ok P e → worker_ok P w → P set → tcp_there v ihl raw →
  wp (watch_server e d w v raw ihl src key set) (λ r, worker_ok P r.1
    ∧ if r.2.2 : bool then decided P (t_drop d) raw r.2.1 else quiet P raw r.2.1).
Proof using Type.
  intros He Hw Hset (Hok & Hi & Hl & _). unfold watch_server. do 2 wp_step.
  pose proof (len_sub raw ihl (len raw) ltac:(lia) ltac:(lia) ltac:(lia)) as Hls.
  do 2 wp_step. cbv zeta. do 2 wp_step. cbv zeta. wp_step. eapply wp_mono; [apply wp_packet_ttl|]. intros ttl _.
  set (isRst := negb (_ =? 0)). set (opts := 20 <? _). cbv zeta.
  match goal with |- context [if ?b then with_conns w ?x else w] => set (w1 := if b then with_conns w x else w) end.
  assert (worker_ok P w1) as Hw1.
  { unfold w1. case_if; [|done]. apply with_conns_ok; [done|]. apply Record_holds, Hw. }
  clearbody w1. destruct (isRst && _); [|settle].
  pose proof (CheckRST_holds P key ttl opts (negb (Z.land (get (sub raw ihl (len raw)) 13) 16 =? 0))
    (if TTLTolerance (RSTProtection (TCP set)) <=? 0 then 3 else TTLTolerance (RSTProtection (TCP set)))
    (connState (rt w1)) ltac:(apply Hw1)) as Hc.
  destruct (ConnTracker.CheckRST _ _ _ _ _ _) as [[drop reason] conns]. cbn in Hc.
  destruct drop; [|settle].
  set (w2 := with_conns w1 conns). assert (worker_ok P w2) as Hw2 by (by apply with_conns_ok). clearbody w2.
  match goal with |- context [if ?b then ?x else (w2, [])] => set (r := if b then x else (w2, [])) end.
  assert (let '(w', acts) := r in worker_ok P w' ∧ ∀ raw, quiet P raw acts) as Hr.
  { unfold r. case_if; [by apply escalation_ok|]. split; [done|auto with account]. }
  clearbody r. destruct r as [w3 acts]. destruct Hr as [Hw3 Hq].
  case_if; [|settle]. apply wp_ret. split; [done|]. apply (decided_last P _ _ _ set Hset); [discard|done].
Qed.

Lemma wp_answer_server d w v raw ihl key payload set : worker_ok P w → P set → tcp_there v ihl raw →
  wp (answer_server d w v raw ihl key payload set) (λ r, worker_ok P r.1 ∧ quiet P raw r.2).
Proof.
  intros Hw Hset (Hok & Hi & Hl & Hv). destruct (HP set Hset) as [_ Httl]. unfold answer_server. cbv zeta.
  wp_step; [settle|]. wp_step.
  { wp_step. apply (wp_mono _ (λ _, True)); [|intros acts _; settle].
    destruct Hv as [[-> ?]|[-> ?]]; cbn [Z.eqb Pos.eqb].
    - eapply wp_mono; [apply (@wp_inject_fakes IPv4 _ _); try done; cbn; lia|done].
    - eapply wp_mono; [apply (@wp_inject_fakes IPv6 _ _); try done; cbn; lia|done]. }
  wp_step; [|settle].
  pose proof (Track_holds P (t_track d) (t_now d 6) key (len payload) (Incoming (TCP set)) (connState (rt w))
    ltac:(apply Hw)) as Hc.
  destruct (ConnTracker.TrackIncomingBytes _ _ _ _ _ _) as [fire conns]. cbn in Hc.
  assert (worker_ok P (with_conns w conns)) as Hw' by (by apply with_conns_ok).
  destruct fire; [|settle].
  wp_step. apply (wp_mono _ (λ _, True)); [|intros acts _; settle].
  assert (∀ flags, Forall is_byte flags →
    wp (if v =? 4 then @inject_flags IPv4 set flags (t_inc d) raw ihl else @inject_flags IPv6 set flags (t_inc d) raw 40)
       (λ _, True)) as Hf.
  { intros flags Hfl. destruct Hv as [[-> ?]|[-> ?]]; cbn [Z.eqb Pos.eqb].
    - eapply wp_mono; [apply (@wp_inject_flags IPv4 _ _); try done; cbn; lia|done].
    - eapply wp_mono; [apply (@wp_inject_flags IPv6 _ _); try done; cbn; lia|done]. }
  repeat case_if; (apply Hf || idtac); repeat constructor; lia.
Qed.

Lemma wp_HandleIncoming e d w v raw ihl src dstStr dport srcStr sport payload :
  env_ok P e → worker_ok P w → tcp_there v ihl raw →
  wp (HandleIncoming e d w v raw ihl src dstStr dport srcStr sport payload) (settled P d raw).
Proof.
  intros He Hw Ht. unfold HandleIncoming. cbv zeta.
  pose proof (GetSet_holds P (t_now d 0) (conn_key dstStr dport srcStr sport) (connState (rt w)) ltac:(apply Hw)) as Hg.
  destruct (ConnTracker.GetSetForIncoming _ _ _) as [[set|] conns]; destruct Hg as [Hc Hset].
  2:{ apply wp_ret. split; [by apply with_conns_ok|apply decided_accept]. }
  specialize (Hset set eq_refl). assert (worker_ok P (with_conns w conns)) as Hw' by (by apply with_conns_ok).
  wp_step. apply (wp_mono _ (λ r, worker_ok P r.1 ∧ if r.2.2 : bool then decided P (t_drop d) raw r.2.1 else quiet P raw r.2.1)).
  { wp_step; [by apply wp_watch_server|]. settle. }
  intros [w1 [acts drop]] [Hw1 Hd]. cbn in Hw1, Hd. cbn [snd fst]. destruct drop; [by apply wp_ret|].
  wp_step. eapply wp_mono; [by apply wp_answer_server|]. intros [w2 more] [Hw2 Hq]. settle.
Qed.
End incoming.

(** ** Packets to the server *)

Section stages.
Context {Un : Unicode} {Rx : Regexp} {Nt : Net} {Rg : Ranger} {Srt : SortSlice} {Cb : Cryptobyte}.
Context (P : SetConfig → Prop) (HP : ∀ set, P set → set_ok set).
#[local] Set Default Proof Using "Type*".
Implicit Types (e : env) (w : worker) (d : readings) (fl : flow).

(** A matched flow has a set. *)
Definition flow_ok fl : Prop := (∀ s, f_set fl = Some s → P s) ∧ (f_matched fl = true → f_set fl ≠ None).
Definition tcp_pkt raw (pkt : pktInfo) : Prop :=
  pkt_ok raw pkt ∧ if p_ver pkt =? 4 then @tcp_formed IPv4 _ (p_ihl pkt) raw else @tcp_formed IPv6 _ (p_ihl pkt) raw.

Lemma unmatched_ok fl : flow_ok (unmatched fl).
Proof using Type. done. Qed.
Lemma chosen_ok fl s : P s → flow_ok (chosen (Some s) fl).
Proof using Type. intros Hs. split; [by intros ? [= <-]|done]. Qed.

(** A matched flow's set can be read. *)
Lemma wp_flow_set fl Q : flow_ok fl → f_matched fl = true → (∀ s, f_set fl = Some s → P s → Q s) → wp (deref (f_set fl)) Q.
Proof using Type. intros [Hs Hm] Hf HQ. specialize (Hm Hf). destruct (f_set fl) as [s|]; [|done]. cbn. auto. Qed.

Lemma wp_tcp_match e d w pkt dport matched set st : worker_ok P w →
  answers P (matched, st) → set = (if matched then st else None) →
  wp (tcp_match e d w pkt dport matched set st) (λ r, worker_ok P r.1 ∧ flow_ok r.2).
Proof using Type.
  intros Hw Ha ->. unfold tcp_match. cbv zeta.
  set (fl0 := {| f_matched := _ |}). assert (flow_ok fl0) as H0.
  { destruct Ha as [[= -> ->]|(s & [= -> ->] & Hs)]; split; cbn; naive_solver. }
  wp_step. apply (wp_mono _ flow_ok).
  { clearbody fl0. destruct Ha as [[= -> ->]|(s & [= -> ->] & Hs)]; [by apply wp_ret|].
    wp_step. cbn. apply wp_ret. case_if; [done|apply unmatched_ok]. }
  intros fl1 H1.
  pose proof (MatchLearned_answers P (matcher w) (p_dst pkt) (p_srcMac pkt) (t_now d 10) (t_now d 11) ltac:(apply Hw)) as Hl.
  destruct (MatchLearnedIPWithSource _ _ _ _ _) as [m [[mLearned learnedSet] dom]]. destruct Hl as [Hm Hres].
  assert (worker_ok P (with_matcher w m)) as Hw1 by (by apply with_matcher_ok).
  wp_step. apply (wp_mono _ flow_ok).
  { destruct Hres as [[= -> ->]|(s & [= -> ->] & Hs)]; [by apply wp_ret|]. wp_step. cbn. apply wp_ret.
    case_if; [|done]. split; cbn; naive_solver. }
  intros fl2 H2. apply wp_ret. split; [done|]. cbn [snd]. case_if; [|done].
  destruct (port_answers P (tcpPortRanges (r (matcher (with_matcher w m)))) dport) as [E|(s & E & Hs)].
  { apply Hw1. }
  - unfold MatchTCPPort. rewrite E. done.
  - unfold MatchTCPPort. rewrite E. by apply chosen_ok.
Qed.

Lemma wp_tcp_duplicate e d raw pkt dport fl : flow_ok fl → p_raw pkt = raw →
  wp (tcp_duplicate e d pkt dport fl) (λ o, ∀ acts, o = Some acts → decided P (t_drop d) raw acts).
Proof using Type.
  intros Hf Hr. unfold tcp_duplicate. wp_step; [|by apply wp_ret]. bprop. wp_step. apply (wp_flow_set fl); [done..|].
  intros s _ _. cbv zeta. rewrite Hr. wp_step; apply wp_ret; [|done]. bprop. intros acts [= <-].
  destruct (t_drop d); (apply decided_cons; [auto with account|]); [right; left|by left].
  destruct (Z.to_nat (dup_Count (Duplicate (TCP s)))) eqn:En; [lia|]. by constructor.
Qed.

Lemma register_ok e d w key s : worker_ok P w → P s → worker_ok P (register e d w key s).
Proof using Type.
  intros Hw Hs. unfold register. case_if; [|done]. apply with_conns_ok; [done|]. apply Register_holds; [apply Hw|done].
Qed.

Lemma tcp_pkt_raw raw pkt : tcp_pkt raw pkt → p_raw pkt = raw.
Proof using Type. by intros [[] _]. Qed.

Lemma wp_returns {A} (m : go A) (Q : A → Prop) : wp m Q → wp m (λ _, True).
Proof using Type. intros H. eapply wp_mono; [exact H|done]. Qed.

(** Both versions of a routine that takes the whole packet. *)
Lemma tcp_pkt_cases raw pkt {A} (Q : A → Prop) (m4 m6 : go A) : tcp_pkt raw pkt →
  ((p_ver pkt =? 4) = true → @tcp_formed IPv4 _ (p_ihl pkt) raw → wp m4 Q) →
  ((p_ver pkt =? 4) = false → @tcp_formed IPv6 _ (p_ihl pkt) raw → wp m6 Q) →
  wp (if p_ver pkt =? 4 then m4 else m6) Q.
Proof using Type. intros [_ Hp] H4 H6. destruct (p_ver pkt =? 4); auto. Qed.

Lemma wp_tcp_syn e d w raw pkt key dport flags datOff fl : worker_ok P w → flow_ok fl → tcp_pkt raw pkt →
  datOff = (if p_ver pkt =? 4 then @Segment.off IPv4 _ raw else @Segment.off IPv6 _ raw) - p_ihl pkt →
  wp (tcp_syn e d w pkt key dport flags datOff fl) (pending P d raw).
Proof.
  intros Hw Hf Hp Ho. unfold tcp_syn. wp_step; [|by apply wp_ret]. bprop. wp_step. apply (wp_flow_set fl); [done..|].
  intros s _ Hs. pose proof (HP s Hs) as [Hsyn _]. pose proof Hsyn as (_ & Httl & _). wp_step; [|by apply wp_ret]. cbv zeta. rewrite (tcp_pkt_raw _ _ Hp).
  wp_step. apply (wp_mono _ (λ _, True)).
  { wp_step; [|by apply wp_ret]. apply (tcp_pkt_cases raw pkt _ _ _ Hp); intros Ev (Hc & _ & Hh & _); rewrite Ho, Ev, <- Hh.
    - unfold sendFakeSynV4. exact (wp_returns _ _ (@sendFakeSyn_decoy IPv4 _ _ _ _ s _ raw Hc Hsyn)).
    - unfold sendFakeSynV6. exact (wp_returns _ _ (@sendFakeSyn_decoy IPv6 _ _ _ _ s _ raw Hc Hsyn)). }
  intros fakes _. wp_step. apply (wp_mono _ (λ _, True)).
  { wp_step; [|by apply wp_ret]. apply (tcp_pkt_cases raw pkt _ _ _ Hp); intros Ev (Hc & Ht & Hh & Hfit).
    - rewrite <- Hh. exact (wp_returns _ _ (@wp_sendFakeSynWithMD5_any IPv4 _ _ _ s _ raw Hc Ht Httl Hfit)).
    - exact (wp_returns _ _ (@wp_sendFakeSynWithMD5_any IPv6 _ _ _ s _ raw Hc Ht Httl Hfit)). }
  intros md5s _. apply wp_ret. split; [by apply register_ok|]. intros acts [= <-].
  apply decided_back; [auto with account|]. right; left. rewrite !map_app, !Exists_app. right; right. by constructor.
Qed.
End stages.

Section stream.
Context {Un : Unicode} {Rx : Regexp} {Nt : Net} {Rg : Ranger} {Srt : SortSlice} {Cb : Cryptobyte}.
Context (P : SetConfig → Prop) (HP : ∀ set, P set → set_ok set).
#[local] Set Default Proof Using "Type*".
Implicit Types (e : env) (w : worker) (d : readings) (fl : flow).

Lemma wp_ParseTLS b : bytes_ok b → wp (ParseTLSClientHelloSNI b) (λ _, True).
Proof using Type. intros Hok. eapply wp_returns, wp_record_loop; [done|lia|lia]. Qed.

Lemma unmatched_if fl (b : bool) : flow_ok P fl → flow_ok P (if b then unmatched fl else fl).
Proof using Type. by destruct b. Qed.
Lemma To16_of_16 ip : len ip = 16 → To16 ip = Some ip.
Proof using Type. intros Hl. unfold To16. case_if; [zlia|]. case_if; [done|zlia]. Qed.

Lemma wp_tcp_payload e d w raw pkt key dport payload fl : worker_ok P w → flow_ok P fl → bytes_ok payload →
  wp (tcp_payload e d w pkt key dport payload fl) (λ r, worker_ok P r.1.1 ∧ flow_ok P r.1.2.1 ∧ quiet P raw r.2).
Proof using Type.
  intros Hw Hf Hb. unfold tcp_payload. wp_step; [|apply wp_ret; split_and!; cbn; auto with account].
  wp_step. eapply wp_mono; [by apply wp_ParseTLS|]. intros [[sni ver] ok] _. cbv zeta.
  set (named := negb (bool_decide (string_of sni = ""%string))).
  match goal with |- context [if ?b then with_tls w ?x else w] => set (w1 := if b then with_tls w x else w) end.
  assert (worker_ok P w1) as Hw1 by (unfold w1; case_if; auto with worker). clearbody w1.
  match goal with |- context [if named then ?x else (false, None)] =>
    set (res := if named then x else (false, None)) end.
  assert (answers P res) as Hres.
  { unfold res. case_if; [apply MatchSNI_answers, Hw1|by left]. }
  clearbody res. destruct res as [mSNI stSNI].
  wp_step. apply (wp_mono _ (λ o, ∀ s, o = Some s → P s)).
  { destruct Hres as [[= -> ->]|(s & [= -> ->] & Hs)]; [by apply wp_ret|]. cbn. case_if; [by intros ? [= <-]|done]. }
  intros [s|] Hbn; apply wp_ret; cbn [fst snd].
  - specialize (Hbn s eq_refl). split; [|split; [by apply unmatched_if, unmatched_if, chosen_ok|by apply quiet_learned]].
    apply with_matcher_ok; [done|]. apply Learn_holds; [apply Hw1|by intros ? [= <-]].
  - split; [done|]. split; [by apply unmatched_if, unmatched_if|auto with account].
Qed.

Lemma wp_escalated e w now host set : env_ok P e → worker_ok P w → (∃ s, set = Some s ∧ P s) →
  wp (escalated e w now host set) (λ r, worker_ok P r.1 ∧ ∃ s, r.2 = Some s ∧ P s).
Proof using Type.
  intros He Hw (s & -> & Hs). unfold escalated.
  destruct (DestState.GetEscalation _ _ _) as [[sid ?] ok]. wp_step; [|apply wp_ret; eauto].
  destruct (GetSetById (e_cfg e) sid) as [next|] eqn:E; [|apply wp_ret; cbn; eauto with worker].
  wp_step; cbn; [|eauto with worker]. split; [done|]. exists next. split; [done|]. by eapply GetSetById_holds.
Qed.

Lemma wp_tcp_escalated e d w dport fl h : env_ok P e → worker_ok P w → flow_ok P fl →
  wp (tcp_escalated e d w dport fl h) (λ r, worker_ok P r.1 ∧ flow_ok P r.2).
Proof using Type.
  intros He Hw Hf. unfold tcp_escalated. wp_step; [|by apply wp_ret]. bprop.
  assert (f_matched fl = true) as Hm by done.
  destruct (f_set fl) as [s|] eqn:Es; [|by destruct (proj2 Hf Hm)].
  wp_step. eapply wp_mono; [apply wp_escalated; [done..|]|].
  { exists s. split; [done|]. by apply (proj1 Hf). }
  intros [w1 set] [Hw1 (s' & Hs' & Hp)]. cbn in *. subst. apply wp_ret. split; [done|]. split; cbn; naive_solver.
Qed.

Lemma wp_rst_to_client d raw pkt : pkt_ok raw pkt → p_ihl pkt + 20 <= len raw →
  wp (rst_to_client d pkt) (quiet P raw).
Proof using Type.
  intros [<- Hok Hs Hd Hi Hv] Hl. unfold rst_to_client. wp_step. apply (wp_mono _ (λ _, True)).
  2:{ intros acts _. apply wp_ret. auto with account. }
  destruct Hv as [(-> & ? & ? & [s4 Es] & Ld)|(-> & ? & ? & Ls & Ld)]; cbn [Z.eqb Pos.eqb].
  - rewrite Es, (To4_of_4 (p_dst pkt)) by done. cbn [default]; unfold id. pose proof (To4_len _ _ Es). pose proof (To4_ok _ _ Hs Es).
    eapply wp_returns, wp_sendRST4; try done; lia.
  - rewrite !To16_of_16 by done. cbn [default]; unfold id. eapply wp_returns, wp_sendRST6; try done; lia.
Qed.

Lemma wp_tcp_blocked e d w raw pkt dport dst fl h : worker_ok P w → flow_ok P fl → pkt_ok raw pkt → p_ihl pkt + 20 <= len raw →
  wp (tcp_blocked e d w pkt dport dst fl h) (pending P d raw).
Proof using Type.
  intros Hw Hf Hp Hl. unfold tcp_blocked. wp_step; [|by apply wp_ret]. bprop. wp_step. apply (wp_flow_set P fl); [done..|].
  intros s _ Hs. cbv zeta. wp_step; [|by apply wp_ret].
  destruct (DestState.IsBlocked _ _ _) as [hit dest]. wp_step; [|by apply wp_ret].
  wp_step. eapply wp_mono; [by apply wp_rst_to_client|]. intros acts Ha. apply wp_ret. split; [done|].
  intros ? [= <-]. apply (decided_last P _ _ _ s Hs); [discard|done].
Qed.

Lemma wp_tcp_routing d raw pkt fl h : flow_ok P fl → pkt_ok raw pkt → p_ihl pkt + 20 <= len raw →
  wp (tcp_routing d pkt fl h) (λ o, ∀ acts, o = Some acts → decided P (t_drop d) raw acts).
Proof using Type.
  intros Hf Hp Hl. unfold tcp_routing. wp_step; [|by apply wp_ret].
  destruct (f_set fl) as [s|] eqn:Es; [|by apply wp_ret]. pose proof (proj1 Hf s Es) as Hs.
  cbv zeta. wp_step.
  - wp_step; [|apply wp_ret; intros ? [= <-]; auto with account].
    wp_step. apply (wp_mono _ (quiet P raw)).
    { wp_step; [by apply wp_rst_to_client|]. apply wp_ret. auto with account. }
    intros acts Ha. apply wp_ret. intros ? [= <-]. apply (decided_last P _ _ _ s Hs); [discard|done].
  - wp_step; apply wp_ret; [intros ? [= <-]; auto with account|done].
Qed.
End stream.

Section tcp.
Context {Un : Unicode} {Rx : Regexp} {Nt : Net} {Rg : Ranger} {Srt : SortSlice} {Cb : Cryptobyte}.
Context (P : SetConfig → Prop) (HP : ∀ set, P set → set_ok set).
#[local] Set Default Proof Using "Type*".
Implicit Types (e : env) (w : worker) (d : readings) (fl : flow).

Lemma wp_tcp_retransmission e d w raw pkt key dst host s : env_ok P e → worker_ok P w → P s →
  pkt_ok raw pkt → p_ihl pkt + 20 <= len raw →
  wp (tcp_retransmission e d w pkt key dst host s) (pending P d raw).
Proof using Type.
  intros He Hw Hs Hp Hl. unfold tcp_retransmission. cbv zeta.
  destruct (DestState.RecordClientHello _ _ _ _ _) as [[count firstSeen] dest].
  set (w1 := with_dest w dest). assert (worker_ok P w1) as Hw1 by auto with worker. clearbody w1.
  wp_step; [|by apply wp_ret].
  match goal with |- context [if negb ?b then ?x else (w1, None)] => set (esc := if negb b then x else (w1, None)) end.
  assert (pending P d raw esc) as [Hw2 Ha].
  { unfold esc. case_if; [|done]. destruct (GetSetById _ _) as [next|] eqn:E; [|done].
    apply (GetSetById_holds P) in E; [|done]. case_if; [|done].
    destruct (DestState.SetEscalation _ _ _ _ _ _ _ _) as [[] dest']; (split; [done|]); [|done].
    intros ? [= <-]. apply (decided_last P _ _ _ s Hs); [discard|auto with account]. }
  clearbody esc. destruct esc as [w2 [acts|]]; cbn [fst snd] in *; [by apply wp_ret|].
  wp_step; [|by apply wp_ret]. wp_step; [apply wp_ret; split; [done|]; intros ? [= <-]; apply (decided_drop P _ _ s Hs); discard|].
  wp_step. eapply wp_mono; [by apply (wp_rst_to_client P)|]. intros acts Hq. cbv zeta. apply wp_ret.
  split; cbn [fst snd]; [by case_if|]. intros ? [= <-]. apply (decided_last P _ _ _ s Hs); [discard|done].
Qed.

(** SACK or not, the goroutine gets the captured packet. *)
Lemma wp_stripped `{Reader} raw ihl (b : bool) : tcp_formed ihl raw →
  wp (if b then StripSACK raw else Ret raw) (handed raw).
Proof using Type.
  intros (Hc & _). destruct b; [|by apply wp_ret]. eapply wp_mono; [by apply wp_StripSACK|].
  intros f [[_ ->]|(o & Ho & _)]; [done|]. destruct (seq_no_reopt _ _ _ Hc Ho) as [Hs _].
  destruct Ho as (_ & Hcf & Hh & _ & _ & Hp & _). done.
Qed.

Lemma wp_tcp_inject e d w raw pkt key tproxy s : worker_ok P w → P s → tcp_pkt raw pkt →
  wp (tcp_inject e d w pkt key tproxy s) (settled P d raw).
Proof using Type.
  intros Hw Hs Hp. unfold tcp_inject. cbv zeta. pose proof (register_ok P e d w key s Hw Hs) as Hw1.
  wp_step; [settle|]. rewrite (tcp_pkt_raw _ _ Hp).
  wp_step. apply (wp_mono _ (λ f, if p_ver pkt =? 4 then @handed IPv4 _ raw f else @handed IPv6 _ raw f)).
  { destruct Hp as [_ Hp]. destruct (p_ver pkt =? 4).
    - exact (@wp_stripped IPv4 _ _ raw _ (DropSACK (TCP s)) Hp).
    - exact (@wp_stripped IPv6 _ _ raw _ (DropSACK (TCP s)) Hp). }
  intros f Hf. apply wp_ret. split; [done|]. apply decided_cons.
  - case_if; [by apply quiet_one|auto with account].
  - destruct (t_drop d); [right; left; by constructor|by left].
Qed.

Lemma wp_tcp_matched e d w raw pkt key dst dport tproxy fl h : env_ok P e → worker_ok P w → flow_ok P fl →
  tcp_pkt raw pkt → p_ihl pkt + 20 <= len raw →
  wp (tcp_matched e d w pkt key dst dport tproxy fl h) (settled P d raw).
Proof using Type.
  intros He Hw Hf Hp Hl. pose proof (proj1 Hp) as Hk. unfold tcp_matched. wp_step; [|settle]. wp_step. apply (wp_flow_set P fl); [done..|].
  intros s _ Hs. cbv zeta. wp_step. apply (wp_mono _ (pending P d raw)).
  { wp_step; [|by apply wp_ret]. by apply wp_tcp_retransmission. }
  intros [w1 [acts|]] [Hw1 Ha]; cbn [fst snd] in *; [|by apply wp_tcp_inject]. apply wp_ret. split; [done|]. by apply Ha.
Qed.

Lemma wp_tcp_stream e d w raw pkt key dport payload fl : env_ok P e → worker_ok P w → flow_ok P fl →
  tcp_pkt raw pkt → p_ihl pkt + 20 <= len raw → bytes_ok payload →
  wp (tcp_stream e d w pkt key dport payload fl) (settled P d raw).
Proof using Type.
  intros He Hw Hf Hp Hl Hb. pose proof (proj1 Hp) as Hk. unfold tcp_stream. cbv zeta. wp_step.
  eapply wp_mono; [by apply (wp_tcp_payload P) with (raw := raw)|]. intros [[w1 [fl1 h]] learned] (Hw1 & Hf1 & Hq). cbn [fst snd] in *.
  wp_step. eapply wp_mono; [by apply (wp_tcp_escalated P)|]. intros [w2 fl2] [Hw2 Hf2]. cbn [fst snd] in *.
  wp_step. eapply wp_mono; [by apply (wp_tcp_blocked P)|]. intros [w3 [acts|]] [Hw3 Ha]; cbn [fst snd] in *.
  { specialize (Ha acts eq_refl). settle. }
  wp_step. apply (wp_mono _ (λ _, True)).
  { wp_step; [|done]. wp_step. apply (wp_flow_set P fl2); done. }
  intros _ _. wp_step. eapply wp_mono; [by apply (wp_tcp_routing P)|]. intros [acts|] Hr.
  { specialize (Hr acts eq_refl). settle. }
  wp_step. eapply wp_mono; [by apply wp_tcp_matched|]. intros [w4 acts] [Hw4 Hd]. settle.
Qed.

Lemma rst_protected_set fl : flow_ok P fl → rst_protected fl = true → ∃ s, P s ∧ rp_Enabled (RSTProtection (TCP s)) = true.
Proof using Type.
  intros [Hs _] Hp. unfold rst_protected in Hp. bprop. destruct (f_set fl) as [s|]; [|done]. exists s. auto.
Qed.

(** The data offset of a well-formed packet. *)
Lemma formed_offset `{Receiver} ihl raw (tcp := sub raw ihl (len raw)) : tcp_formed ihl raw →
  0 <= ihl ∧ ihl + 20 <= len raw ∧ Z.land (Z.shiftr (get tcp 12) 4) 15 * 4 = Segment.off raw - ihl
  ∧ ihl + 20 <= Segment.off raw <= len raw.
Proof using Type.
  intros (Hc & _ & Hh & _). pose proof (captured_range raw Hc) as Hr. destruct Hc as (Hok & _ & Ho & Hl & _).
  assert (Z.shiftr (get tcp 12) 4 * 4 = Segment.off raw - ihl) as E.
  { unfold tcp. rewrite get_sub by lia. zcases. unfold Segment.off. rewrite Hh. lia. }
  split_and!; try lia. rewrite <- E. f_equal. change 15 with (Z.ones 4). rewrite Z.land_ones by lia.
  apply Z.mod_small. unfold tcp. pose proof (bytes_ok_get (sub raw ihl (len raw)) 12 ltac:(auto with b4)) as Hb.
  unfold is_byte in Hb. rewrite Z.shiftr_div_pow2 by lia. change (2 ^ 4) with 16. Z.div_mod_to_equations. lia.
Qed.

Lemma wp_handleTCPPacket e d w raw pkt matched set st : env_ok P e → worker_ok P w → tcp_pkt raw pkt →
  answers P (matched, st) → set = (if matched then st else None) →
  wp (handleTCPPacket e d w pkt matched set st) (settled P d raw).
Proof.
  intros He Hw Hp Ha Hset. pose proof Hp as [Hk Hform]. unfold handleTCPPacket. rewrite (tcp_pkt_raw _ _ Hp).
  set (tcp := sub raw (p_ihl pkt) (len raw)).
  assert (0 <= p_ihl pkt ∧ p_ihl pkt + 20 <= len raw ∧ Z.land (Z.shiftr (get tcp 12) 4) 15 * 4
      = (if p_ver pkt =? 4 then @Segment.off IPv4 _ raw else @Segment.off IPv6 _ raw) - p_ihl pkt
    ∧ p_ihl pkt + 20 <= (if p_ver pkt =? 4 then @Segment.off IPv4 _ raw else @Segment.off IPv6 _ raw) <= len raw)
    as (H0 & Hl & Ho & Hol).
  { destruct (p_ver pkt =? 4); by apply formed_offset. }
  pose proof (k_ok _ _ Hk) as Hok.
  assert (len tcp = len raw - p_ihl pkt) as Hlt by (unfold tcp; rewrite len_sub by lia; lia).
  wp_step. wp_step. fold tcp. unfold TCPHeaderMinLen. wp_step; [settle|]. bprop. do 2 wp_step. rewrite Ho. cbv zeta.
  set (o := if p_ver pkt =? 4 then _ else _ : Z) in *.
  wp_step; [settle|]. bprop. do 6 wp_step.
  assert (bytes_ok tcp) as Htok by (unfold tcp; auto with b4).
  wp_step.
  { apply wp_HandleIncoming; try done. split_and!; try done.
    destruct (k_ver _ _ Hk) as [(Hv & ? & _)|(Hv & _ & ? & _)]; [left|right]; done. }
  wp_step. eapply wp_mono; [by apply (wp_tcp_match P)|]. intros [w1 fl] [Hw1 Hf]. cbn [fst snd] in *.
  wp_step. eapply wp_mono; [apply (wp_tcp_duplicate P) with (raw := raw); [done|by apply tcp_pkt_raw]|]. intros [acts|] Hdup.
  { specialize (Hdup acts eq_refl). settle. }
  do 2 wp_step. wp_step.
  { bprop. apply wp_ret. split; [done|]. destruct (rst_protected_set fl) as (s & Hs & Hd); [done..|].
    apply (decided_drop P _ _ s Hs). discard. }
  cbv zeta.
  match goal with |- context [if ?b then with_conns w1 ?x else w1] => set (w2 := if b then with_conns w1 x else w1) end.
  assert (worker_ok P w2) as Hw2.
  { unfold w2. case_if; [|done]. apply with_conns_ok; [done|]. apply Established_holds, Hw1. }
  clearbody w2. wp_step. eapply wp_mono; [by eapply (wp_tcp_syn P)|].
  intros [w3 [acts|]] [Hw3 Hs]; cbn [fst snd] in *.
  { specialize (Hs acts eq_refl). settle. }
  apply wp_tcp_stream; try done. auto with b4.
Qed.
End tcp.

(** ** DNS *)

Section dns.
Context {Un : Unicode} {Rx : Regexp} {Nt : Net} {Rg : Ranger} {Srt : SortSlice}.
Context (P : SetConfig → Prop).
Implicit Types (e : env) (w : worker) (d : readings).

Definition port_ok (p : Z) : Prop := 0 <= p < 65536.
(** The headers of the IP version are there. *)
Definition ip_there (v : Z) (raw : bytes) : Prop := bytes_ok raw ∧ (v = 4 ∧ 20 <= len raw ∨ v = 6 ∧ 40 <= len raw).

Lemma wp_BuildUDPPacketV4_any id src dst sport dport payload :
  bytes_ok src → bytes_ok dst → bytes_ok payload → port_ok sport → port_ok dport →
  wp (BuildUDPPacketV4 id src dst sport dport payload) (λ _, True).
Proof.
  intros Hs Ht Hp Hsp Hdp. destruct (65535 - 28 <? len payload) eqn:El.
  { unfold BuildUDPPacketV4. destruct (To4 src), (To4 dst); try done. by rewrite El. }
  destruct (To4 src) as [s|] eqn:Es; [|unfold BuildUDPPacketV4; by rewrite Es].
  destruct (To4 dst) as [t|] eqn:Et; [|unfold BuildUDPPacketV4; by rewrite Es, Et].
  eapply wp_returns, wp_BuildUDPPacketV4; done || zlia.
Qed.

Lemma wp_BuildUDPPacketV6_any src dst sport dport payload :
  bytes_ok src → bytes_ok dst → bytes_ok payload → port_ok sport → port_ok dport →
  wp (BuildUDPPacketV6 src dst sport dport payload) (λ _, True).
Proof.
  intros Hs Ht Hp Hsp Hdp. destruct (To16 src) as [s|] eqn:Es; [|unfold BuildUDPPacketV6; by rewrite Es].
  destruct (To16 dst) as [t|] eqn:Et; [|unfold BuildUDPPacketV6; by rewrite Es, Et].
  destruct (To4 src) eqn:E4; [unfold BuildUDPPacketV6; by rewrite Es, Et, E4|].
  destruct (To4 dst) eqn:E4'; [unfold BuildUDPPacketV6; by rewrite Es, Et, E4, E4'|].
  destruct (65535 - 8 <? len payload) eqn:El; [unfold BuildUDPPacketV6; by rewrite Es, Et, E4, E4', El|].
  assert (∀ ip x, To16 ip = Some x → To4 ip = None → len ip = 16) as H16.
  { intros ip x. unfold To16, To4. repeat case_if; done || zlia. }
  eapply wp_returns, wp_BuildUDPPacketV6; try done; [by eapply H16|by eapply H16|zlia].
Qed.

Lemma wp_packet_ends v raw : ip_there v raw → wp (packet_ends v raw) (λ x, bytes_ok x.1 ∧ bytes_ok x.2).
Proof.
  intros [Hok Hv]. unfold packet_ends. destruct Hv as [[-> ?]|[-> ?]]; cbn [Z.eqb Pos.eqb]; do 4 wp_step; apply wp_ret;
    split; cbn; auto with b4.
Qed.

Lemma wp_sendDNSResponseToClient d v dst client port resp raw :
  bytes_ok dst → bytes_ok client → bytes_ok resp → port_ok port →
  wp (sendDNSResponseToClient d v dst client port resp) (quiet P raw).
Proof.
  intros Hd Hc Hr Hp. unfold sendDNSResponseToClient. wp_step; [apply wp_ret; auto with account|].
  wp_step. apply (wp_mono _ (λ _, True)).
  { wp_step; [apply wp_BuildUDPPacketV4_any|apply wp_BuildUDPPacketV6_any]; done. }
  intros [pkt|] _; apply wp_ret; [apply (quiet_client P raw [Send pkt])|auto with account].
Qed.

Lemma wp_block_query e d v sport payload raw set : P set → ip_there v raw → bytes_ok payload → port_ok sport →
  wp (block_query e d v sport payload raw set) (λ o, ∀ acts, o = Some acts → decided P (t_drop d) raw acts).
Proof.
  intros Hset Hr Hb Hp. unfold block_query. wp_step; [|by apply wp_ret].
  wp_step; [apply wp_ret; intros ? [= <-]; apply (decided_drop P _ _ set Hset); discard|]. cbv zeta. wp_step; [|by apply wp_ret].
  wp_step. eapply wp_mono; [by apply wp_BuildBlockResponse_any|]. intros [resp|] Hresp; [|by apply wp_ret].
  destruct (Hresp resp eq_refl) as [Hrok _].
  wp_step. eapply wp_mono; [by apply wp_packet_ends|]. intros [client dst] [Hc Hd]. cbn in Hc, Hd.
  wp_step. apply (wp_mono _ (λ _, True)).
  { wp_step; [apply wp_BuildUDPPacketV4_any|apply wp_BuildUDPPacketV6_any]; done. }
  intros pkt _. apply wp_ret. intros ? [= <-]. apply (decided_last P _ _ _ set Hset); [discard|].
  destruct pkt as [pkt|]; [apply (quiet_client P raw [Send pkt])|auto with account].
Qed.

Lemma wp_remember_query e d w v sport dport raw txid domain set : worker_ok P w → ip_there v raw →
  wp (remember_query e d w v sport dport raw txid domain set) (worker_ok P).
Proof.
  intros Hw Hr. unfold remember_query. destruct txid; [|by apply wp_ret]. wp_step; [|by apply wp_ret].
  wp_step. eapply wp_mono; [by apply wp_packet_ends|]. intros [client server] _. apply wp_ret. unfold storeDNSPendingRoute.
  auto with worker.
Qed.

Lemma wp_redirect_query e d v sport payload raw set : ip_there v raw → P set →
  wp (redirect_query e d v sport payload raw set) (decided P (t_drop d) raw).
Proof.
  intros Hr Hs. unfold redirect_query. cbv zeta. do 3 (wp_step; [apply wp_ret; auto with account|]).
  wp_step. eapply wp_mono; [by apply wp_packet_ends|]. intros [client dst] _. apply wp_ret.
  apply decided_cons; [by apply quiet_one|].
  right; left. by constructor.
Qed.

Lemma wp_dns_query e d w v sport dport payload raw mac : worker_ok P w → ip_there v raw → bytes_ok payload → port_ok sport →
  wp (dns_query e d w v sport dport payload raw mac) (pending P d raw).
Proof.
  intros Hw Hr Hb Hp. unfold dns_query. wp_step. eapply wp_mono; [by apply wp_ParseQueryDomain_any|]. intros name _.
  wp_step. eapply wp_mono; [by apply wp_ParseTransactionID_any|]. intros txid _.
  destruct name as [name|]; [|by apply wp_ret]. cbv zeta.
  destruct (MatchSNI_answers P (matcher w) (ToLower (string_of name)) mac 0 0 ltac:(apply Hw)) as [E|(s & E & Hs)];
    unfold MatchSNIWithSource; rewrite E; [by apply wp_ret|].
  cbn [deref go_bind]. wp_step. eapply wp_mono; [by apply wp_block_query|]. intros [acts|] Ha.
  { apply wp_ret. split; [done|]. intros ? [= <-]. by apply Ha. }
  wp_step. eapply wp_mono; [by apply wp_remember_query|]. intros w1 Hw1.
  wp_step. eapply wp_mono; [by apply wp_redirect_query|]. intros acts Hacts. apply wp_ret. split; [done|]. by intros ? [= <-].
Qed.

Lemma wp_response_name payload : bytes_ok payload → wp (response_name payload) (λ _, True).
Proof.
  intros Hb. unfold response_name. wp_step. eapply wp_mono; [by apply wp_ParseQueryDomain_any|]. intros [name|] _; [done|].
  wp_step. eapply wp_mono; [by apply wp_parseDNSName_any|]. by intros [name|] _.
Qed.

Lemma wp_route_by_name e w payload client domain raw : worker_ok P w → bytes_ok payload →
  wp (route_by_name e w payload client domain) (quiet P raw).
Proof.
  intros Hw Hb. unfold route_by_name. wp_step; [apply wp_ret; auto with account|]. cbv zeta.
  destruct (MatchSNI_answers P (matcher w) domain (getMacByIp e (ip_string client)) 0 0 ltac:(apply Hw)) as [E|(s & E & Hs)];
    unfold MatchSNIWithSource; rewrite E; [apply wp_ret; auto with account|].
  cbn [deref go_bind]. wp_step; [|apply wp_ret; auto with account]. wp_step.
  eapply wp_mono; [by apply wp_ParseResponseIPs|]. intros ips _. wp_step; apply wp_ret; [by apply quiet_one|auto with account].
Qed.

Lemma wp_route_by_query e payload sid routed raw : env_ok P e → bytes_ok payload →
  wp (route_by_query e payload sid routed) (quiet P raw).
Proof.
  intros He Hb. unfold route_by_query. destruct sid as [sid|]; [|apply wp_ret; auto with account].
  wp_step; [apply wp_ret; auto with account|]. wp_step.
  eapply wp_mono; [by apply wp_ParseResponseIPs|]. intros ips _. wp_step; [apply wp_ret; auto with account|].
  destruct (GetSetById _ _) as [s|] eqn:E; [|apply wp_ret; auto with account]. apply (GetSetById_holds P) in E; [|done].
  wp_step; apply wp_ret; [by apply quiet_one|auto with account].
Qed.

Lemma wp_dns_response e d w v sport dport payload raw : env_ok P e → worker_ok P w → ip_there v raw → bytes_ok payload →
  wp (dns_response e d w v sport dport payload raw) (λ r, worker_ok P r.1 ∧ quiet P raw r.2).
Proof.
  intros He Hw Hr Hb. unfold dns_response. wp_step. eapply wp_mono; [by apply wp_ParseTransactionID_any|].
  intros [txid|] _; [|settle]. wp_step. eapply wp_mono; [by apply wp_response_name|]. intros domain _.
  wp_step. eapply wp_mono; [by apply wp_packet_ends|]. intros [server client] _.
  wp_step. eapply wp_mono; [by apply (wp_route_by_name e w payload client domain raw)|]. intros acts Ha.
  match goal with |- context [consumeDNSPendingRoute ?a ?b w] => destruct (consumeDNSPendingRoute a b w) as [sid w1] eqn:Ec end.
  assert (worker_ok P w1) as Hw1.
  { unfold consumeDNSPendingRoute in Ec. destruct (dnsRoutePending w !! _); injection Ec as _ <-; auto with worker. }
  wp_step. eapply wp_mono; [by apply (wp_route_by_query e payload sid _ raw)|]. intros acts2 Ha2. settle.
Qed.

Lemma wp_processDnsPacket e d w v sport dport payload raw mac : env_ok P e → worker_ok P w → ip_there v raw →
  bytes_ok payload → port_ok sport →
  wp (processDnsPacket e d w v sport dport payload raw mac) (settled P d raw).
Proof.
  intros He Hw Hr Hb Hp. unfold processDnsPacket. wp_step. apply (wp_mono _ (pending P d raw)).
  { wp_step; [by apply wp_dns_query|]. by apply wp_ret. }
  intros [w1 [acts|]] [Hw1 Ha]; cbn [fst snd] in *. { specialize (Ha acts eq_refl). settle. }
  wp_step. apply (wp_mono _ (λ r, worker_ok P r.1 ∧ quiet P raw r.2)).
  { wp_step; [by apply wp_dns_response|settle]. }
  intros [w2 acts] [Hw2 Hq]. cbn [fst snd] in *. settle.
Qed.
End dns.

(** ** Datagrams *)

Section udp.
Context {Un : Unicode} {Rx : Regexp} {Nt : Net} {Rg : Ranger} {Srt : SortSlice} {Cb : Cryptobyte} {Laws : CryptobyteLaws}.
Context (hp_encrypt : bytes → Z → bytes → bytes) (initial_iv : bytes → Z → bytes).
Context (aead_open : bytes → Z → bytes → bytes → bytes → option bytes).
Context (Hsh : cipher_shape hp_encrypt initial_iv aead_open).
Context (P : SetConfig → Prop) (HP : ∀ set, P set → set_ok set).
#[local] Set Default Proof Using "Type".
Implicit Types (e : env) (w : worker) (d : readings) (fl : udp_flow).

(** A datagram that matched has a set. *)
Definition udp_ok fl : Prop :=
  (∀ s, u_set fl = Some s → P s) ∧ (u_ip fl || u_port fl || u_quic fl = true → u_set fl ≠ None).

Lemma wp_udp_set (o : option SetConfig) (Q : SetConfig → Prop) : o ≠ None → (∀ s, o = Some s → P s) →
  (∀ s, o = Some s → P s → Q s) → wp (deref o) Q.
Proof. intros Hn Hs HQ. destruct o as [s|]; [|done]. cbn. auto. Qed.

Lemma wp_udp_match d w pkt dport matched set st : worker_ok P w →
  answers P (matched, st) → set = (if matched then st else None) →
  wp (udp_match d w pkt dport matched set st) (λ r, worker_ok P r.1 ∧ udp_ok r.2).
Proof.
  intros Hw Ha ->. unfold udp_match. cbv zeta.
  set (fl0 := match st with Some s => _ | None => _ end).
  assert (udp_ok fl0 ∧ (u_ip fl0 = false → u_set fl0 = None ∧ u_host fl0 = ""%string ∧ u_learned fl0 = false)) as [H0 H0'].
  { unfold fl0. destruct Ha as [[= -> ->]|(s & [= -> ->] & Hs)]; [done|].
    destruct (MatchesUDPDPort s dport); (split; [split; cbn; naive_solver|done]). }
  clearbody fl0. wp_step. apply (wp_mono _ (λ r, worker_ok P r.1 ∧ udp_ok r.2)).
  { wp_step; [by apply wp_ret|].
    pose proof (MatchLearned_answers P (matcher w) (p_dst pkt) (p_srcMac pkt) (t_now d 10) (t_now d 11) ltac:(apply Hw)) as Hl.
    destruct (MatchLearnedIPWithSource _ _ _ _ _) as [m [[mLearned learnedSet] dom]]. destruct Hl as [Hm Hres].
    assert (worker_ok P (with_matcher w m)) as Hw1 by (by apply with_matcher_ok).
    destruct Hres as [[= -> ->]|(s & [= -> ->] & Hs)]; [by apply wp_ret|]. cbn [deref go_bind]. apply wp_ret. split; [done|].
    cbn [snd]. case_if; [|done]. split; cbn; naive_solver. }
  intros [w1 fl] [Hw1 Hf]. cbn [fst snd] in *. wp_step; [by apply wp_ret|].
  destruct (port_answers P (udpPortRanges (r (matcher w1))) dport ltac:(apply Hw1)) as [E|(s & E & Hs)];
    unfold MatchUDPPort; rewrite E; [by apply wp_ret|].
  cbn [deref go_bind]. apply wp_ret. split; [done|]. split; cbn; naive_solver.
Qed.

Lemma wp_udp_name e d w raw pkt dport payload isQUIC fl : worker_ok P w → udp_ok fl → bytes_ok payload →
  wp (udp_name hp_encrypt initial_iv aead_open e d w pkt dport payload isQUIC fl)
     (λ r, worker_ok P r.1.1 ∧ udp_ok r.1.2 ∧ quiet P raw r.2).
Proof using Hsh Laws.
  intros Hw Hf Hb. unfold udp_name. wp_step. apply (wp_mono _ (λ r, worker_ok P r.1)).
  { wp_step; [|by apply wp_ret]. wp_step.
    eapply wp_mono; [apply wp_ParseQUICClientHelloSNI; [done|done|apply Hw]|]. intros [h m] Hm. apply wp_ret. by apply with_quic_ok. }
  intros [w1 host] Hw1. cbn [fst] in Hw1.
  match goal with |- context [if bool_decide (host = ""%string) then (false, None) else ?x] =>
    set (res := if bool_decide (host = ""%string) then (false, None) else x) end.
  assert (answers P res) as Hres by (unfold res; case_if; [by left|apply MatchSNI_answers, Hw1]).
  clearbody res. destruct res as [mSNI sniSet]. wp_step. apply (wp_mono _ (λ o, ∀ s, o = Some s → P s)).
  { destruct Hres as [[= -> ->]|(s & [= -> ->] & Hs)]; [by apply wp_ret|]. cbn. case_if; [by intros ? [= <-]|done]. }
  intros [s|] Hbn; cbv zeta.
  - specialize (Hbn s eq_refl). apply wp_ret. split; [|split; [|by apply quiet_learned]]; cbn [fst snd].
    + apply with_matcher_ok; [done|]. apply Learn_holds; [apply Hw1|by intros ? [= <-]].
    + split; cbn; naive_solver.
  - destruct Hf as [Hs Hn]. cbn [u_ip u_port u_set u_matched u_learned u_host u_quic]. wp_step.
    + wp_step. apply wp_udp_set; [apply Hn; by destruct (u_ip fl), (u_port fl)|done|]. intros s Es Hp. apply wp_ret. cbn [fst snd].
      split; [done|]. split; [|auto with account]. split; cbn; [exact Hs|intros _; by rewrite Es].
    + apply wp_ret. split; [done|]. split; [|auto with account]. split; cbn; [exact Hs|rewrite Heqb; exact Hn].
Qed.

Lemma To4_default ip : bytes_ok ip → bytes_ok (default [] (To4 ip)).
Proof. intros H. destruct (To4 ip) eqn:E; [by eapply To4_ok|constructor]. Qed.
Lemma To16_default ip : bytes_ok ip → bytes_ok (default [] (To16 ip)).
Proof. intros H. destruct (To16 ip) eqn:E; [by eapply To16_ok|constructor]. Qed.

Lemma wp_icmp_reject raw pkt : pkt_ok raw pkt → wp (icmp_reject pkt) (quiet P raw).
Proof.
  intros [<- Hok Hs Hd Hi Hv]. unfold icmp_reject.
  wp_step. apply (wp_mono _ (λ _, True)).
  { wp_step; [eapply wp_returns, BuildICMPv4Reject_quotes|eapply wp_returns, BuildICMPv6Reject_quotes]; auto using To4_default, To16_default. }
  intros [icmp|] _; apply wp_ret; [apply (quiet_client P (p_raw pkt) [Send icmp])|auto with account].
Qed.

Lemma wp_udp_apply d raw pkt fl : pkt_ok raw pkt → udp_ok fl → u_ip fl || u_port fl || u_quic fl = true →
  wp (udp_apply d pkt fl) (decided P (t_drop d) raw).
Proof.
  intros Hp [Hs Hn] Hm. unfold udp_apply. wp_step. apply wp_udp_set; [by apply Hn|done|]. intros s _ Hset.
  wp_step.
  { wp_step; [|apply wp_ret; auto with account]. wp_step. apply (wp_mono _ (quiet P raw)).
    - wp_step; [by apply wp_icmp_reject|apply wp_ret; auto with account].
    - intros acts Ha. apply wp_ret. apply (decided_last P _ _ _ s Hset); [discard|done]. }
  wp_step; [apply wp_ret, (decided_drop P _ _ s Hset); discard|]. wp_step.
  { wp_step; [|apply wp_ret, (decided_drop P _ _ s Hset); discard]. wp_step. eapply wp_mono; [by apply wp_icmp_reject|].
    intros acts Ha. apply wp_ret. apply decided_cons; [done|]. right; right. exists s. split; [done|discard]. }
  wp_step; apply wp_ret; [|auto with account]. apply decided_cons.
  - case_if; [|auto with account]. apply quiet_one; [|done]. split; [done|]. apply Hp.
  - destruct (t_drop d); [right; left; by constructor|by left].
Qed.

Lemma wp_handleUDPPacket e d w raw pkt matched set st : env_ok P e → worker_ok P w → pkt_ok raw pkt →
  p_ihl pkt + 8 <= len raw → answers P (matched, st) → set = (if matched then st else None) →
  wp (handleUDPPacket hp_encrypt initial_iv aead_open e d w pkt matched set st) (settled P d raw).
Proof using Hsh Laws.
  intros He Hw Hk Hl Ha Hset. unfold handleUDPPacket. pose proof (k_ok _ _ Hk) as Hok. rewrite (k_raw _ _ Hk).
  pose proof (k_ihl _ _ Hk). set (udp := sub raw (p_ihl pkt) (len raw)).
  assert (len udp = len raw - p_ihl pkt) as Hlu by (unfold udp; rewrite len_sub by lia; lia).
  assert (bytes_ok udp) as Huok by (unfold udp; auto with b4).
  wp_step. wp_step. fold udp. unfold UDPHeaderLen. wp_step; [settle|]. do 6 wp_step.
  pose proof (get16_range udp 0 Huok). pose proof (get16_range udp 2 Huok).
  set (payload := sub udp 8 (len udp)). assert (bytes_ok payload) as Hb by (unfold payload; auto with b4).
  wp_step.
  { apply wp_processDnsPacket; try done. split; [done|].
    destruct (k_ver _ _ Hk) as [(Hv & ? & _)|(Hv & ? & _)]; [left|right]; done. }
  wp_step; [settle|]. wp_step. eapply wp_mono; [by apply wp_udp_match|]. intros [w1 fl1] [Hw1 Hf1]. cbn [fst snd] in *.
  wp_step. eapply wp_mono; [apply wp_is_voice|]. intros voice _.
  wp_step. eapply wp_mono; [by apply wp_LooksLikeQUIC|]. intros isQUIC _.
  wp_step. eapply wp_mono; [by apply (wp_udp_name e d w1 raw)|]. intros [[w2 fl] learned] (Hw2 & Hf & Hq). cbn [fst snd] in *.
  wp_step. apply (wp_mono _ (λ b, b = true → u_ip fl || u_port fl || u_quic fl = true)).
  { assert (u_ip fl || u_quic fl || u_port fl = u_ip fl || u_port fl || u_quic fl) as ->
      by (by destruct (u_ip fl), (u_quic fl), (u_port fl)).
    wp_step; [|by apply wp_ret]. wp_step; [|by apply wp_ret]. wp_step. apply wp_udp_set; [by apply Hf|apply Hf|].
    intros s _ _. by apply wp_ret. }
  intros handle Hh. wp_step. apply (wp_mono _ (λ r, worker_ok P r.1 ∧ (∀ s, r.2 = Some s → P s) ∧ (handle = true → r.2 ≠ None))).
  { wp_step; bprop.
    - destruct (u_set fl) as [s|] eqn:Es; [|done]. eapply wp_mono; [apply (wp_escalated P); try done|].
      + exists s. split; [done|]. by apply (proj1 Hf).
      + intros [w3 o] [Hw3 (s' & E & Hs')]. cbn [fst snd] in *. subst. split; [done|]. split; [by intros ? [= <-]|done].
    - apply wp_ret. split; [done|]. split; [apply Hf|]. intros Hx. apply Hf. by apply Hh. }
  intros [w3 set3] (Hw3 & Hs3 & Hn3). cbn [fst snd] in *. cbv zeta. wp_step; [settle|]. wp_step; [settle|].
  assert (handle = true) as Ht by (by destruct handle). subst handle. wp_step. eapply wp_mono; [apply (wp_udp_apply d raw); try done|].
  - split; [done|]. intros _. by apply Hn3.
  - by apply Hh.
  - intros acts Hd. settle.
Qed.
End udp.

(** ** Packets *)

Section packets.
Context {Un : Unicode} {Rx : Regexp} {Nt : Net} {Rg : Ranger} {Srt : SortSlice} {Rc : RangerContents}.
Context {Cb : Cryptobyte} {Laws : CryptobyteLaws}.
Context (hp_encrypt : bytes → Z → bytes → bytes) (initial_iv : bytes → Z → bytes).
Context (aead_open : bytes → Z → bytes → bytes → bytes → option bytes).
Context (Hsh : cipher_shape hp_encrypt initial_iv aead_open).
#[local] Set Default Proof Using "Type".
Implicit Types (e : env) (w : worker) (d : readings).

(** Any packet with its first byte; a TCP packet is well-formed. *)
Definition packet_ok e (raw : bytes) : Prop :=
  bytes_ok raw ∧ 0 < len raw ∧ ∀ pkt, parseIPHeaders e raw = Ret (Some pkt) → p_proto pkt = 6 →
    if p_ver pkt =? 4 then @tcp_formed IPv4 _ (p_ihl pkt) raw else @tcp_formed IPv6 _ (p_ihl pkt) raw.

Lemma wp_dispatch (P : SetConfig → Prop) e d w raw : (∀ set, P set → set_ok set) → env_ok P e → worker_ok P w →
  packet_ok e raw →
  wp (dispatch hp_encrypt initial_iv aead_open e d w raw) (settled P d raw).
Proof using Hsh Laws.
  intros HP He Hw (Hok & Hl & Hform). unfold dispatch. cbv zeta.
  set (w1 := with_count w _). assert (worker_ok P w1) as Hw1 by auto with worker. clearbody w1.
  wp_step. eapply wp_mono; [apply wp_self, wp_parseIPHeaders; [apply He|done|done]|].
  intros [pkt|] [Hk E]; [|settle]. specialize (Hk pkt eq_refl). specialize (Hform pkt E).
  pose proof (MatchIP_answers P (matcher w1) (p_dst pkt) (p_srcMac pkt) ltac:(apply Hw1)) as Ha.
  destruct (MatchIPWithSource _ _ _) as [matched st]. wp_step; bprop.
  { apply (wp_handleTCPPacket P HP); try done. split; [done|]. by apply Hform. }
  rewrite (k_raw _ _ Hk). wp_step; [|settle]. bprop. unfold UDPHeaderLen in *. by apply wp_handleUDPPacket.
Qed.

(** A worker's life: packets, configurations, clean-ups; [known] are the sets of all
    configurations so far. *)
Inductive reachable : list SetConfig → env → worker → Prop :=
| r_start e : resolver_ok e → reachable (Sets (e_cfg e)) e (NewPool (e_cfg e))
| r_packet known e w d a mark stopped w' acts : reachable known e w →
    handlePacket hp_encrypt initial_iv aead_open e d w a mark stopped = Ret (w', acts) →
    (∀ raw, Payload a = Some raw → 0 < len raw → packet_ok e raw) →
    reachable known e w'
| r_config known e w e' reuse iter now1 now2 : reachable known e w → resolver_ok e' →
    (reuse = true → Sets (e_cfg e') = Sets (e_cfg e)) →
    reachable (Sets (e_cfg e') ++ known) e' (UpdateConfig (e_cfg e') reuse iter now1 now2 w)
| r_cleanup known e w now1 now2 now3 : reachable known e w → reachable known e (cleanup_tick now1 now2 now3 w)
| r_dns known e w now : reachable known e w → reachable known e (cleanupDNSPendingRoutes now w).2
| r_clear known e w host : reachable known e w → reachable known e (ClearHostEscalation host w)
| r_clear_all known e w : reachable known e w → reachable known e (ClearEscalations w).

Lemma matchesInterface_ok (P : SetConfig → Prop) e i o w : worker_ok P w → worker_ok P (matchesInterface e i o w).2.
Proof.
  intros Hw. unfold matchesInterface, getIfaceName. repeat case_match; simplify_eq; cbn; auto with worker.
Qed.

(** What the handler of a packet of the queue owes: the state stays in order; there is at most
    one verdict, and one if the packet has an id and the worker was not stopped; what is done is
    fit for the packet, and it is not lost unless a set asks for it. *)
Definition handled (P : SetConfig → Prop) d (a : Attribute) (stopped : bool) (r : worker * list effect) : Prop :=
  worker_ok P r.1 ∧ (verdicts r.2 <= 1)%nat ∧ (PacketID a ≠ None → stopped = false → verdicts r.2 = 1%nat)
  ∧ ∀ raw, Payload a = Some raw → Forall (effect_ok P raw) r.2 ∧ (Drop ∈ r.2 → kept P (t_drop d) raw r.2).

Lemma handled_accept P d a stopped w : worker_ok P w → handled P d a stopped (w, [Accept]).
Proof.
  intros Hw. split; [done|]. cbn [fst snd]. change (verdicts [Accept]) with 1%nat. split; [lia|]. split; [done|].
  intros raw _. destruct (decided_accept P (t_drop d) raw) as (H1 & _ & H2). done.
Qed.
Lemma handled_nothing P d a stopped w : worker_ok P w → PacketID a = None ∨ stopped = true → handled P d a stopped (w, []).
Proof.
  intros Hw Ha. split; [done|]. cbn [fst snd]. change (verdicts []) with 0%nat. split; [lia|]. split.
  - intros H1 ->. destruct Ha; done.
  - intros raw _. split; [constructor|]. intros H%elem_of_nil. done.
Qed.

Lemma wp_handlePacket (P : SetConfig → Prop) e d w a mark stopped : (∀ set, P set → set_ok set) → env_ok P e → worker_ok P w →
  (∀ raw, Payload a = Some raw → 0 < len raw → packet_ok e raw) →
  wp (handlePacket hp_encrypt initial_iv aead_open e d w a mark stopped) (handled P d a stopped).
Proof using Hsh Laws.
  intros HP He Hw Hp. unfold handlePacket.
  destruct (PacketID a) as [pid|] eqn:Eid; [|apply wp_ret, handled_nothing; by auto].
  destruct (Payload a) as [raw|] eqn:Er; [|apply wp_ret; by apply handled_accept].
  wp_step; [apply wp_ret; by apply handled_accept|]. bprop.
  wp_step; [apply wp_ret; by apply handled_accept|].
  pose proof (matchesInterface_ok P e (InDev a) (OutDev a) w Hw) as Hw1.
  destruct (matchesInterface _ _ _ _) as [allowed w1]. cbn in Hw1.
  wp_step; [apply wp_ret; by apply handled_accept|]. wp_step.
  { apply wp_ret, handled_nothing; by auto. }
  eapply wp_mono; [apply (wp_dispatch P); try done; apply Hp; [done|lia]|].
  intros [w2 acts] (Hw2 & Ha & Hv & Hd). unfold handled. cbn [fst snd] in *. rewrite Er, Hv.
  split; [done|]. split; [lia|]. split; [done|]. by intros ? [= <-].
Qed.

Lemma tick_ok (P : SetConfig → Prop) now1 now2 now3 w : worker_ok P w → worker_ok P (cleanup_tick now1 now2 now3 w).
Proof. intros Hw. unfold cleanup_tick. apply with_dest_ok, with_tls_ok, with_conns_ok; [done|]. apply Cleanup_holds, Hw. Qed.

Lemma buildMatcher_ok (P : SetConfig → Prop) cfg : Forall P (Sets cfg) →
  matcher_ok (buildMatcher cfg) ∧ matcher_holds P (buildMatcher cfg).
Proof using Rc.
  intros Hs. unfold buildMatcher. case_if; (split; [apply NewSuffixSet_ok|]); apply NewSuffixSet_holds; done || constructor.
Qed.

(** What is true of all sets configured so far is true of the sets a worker has. *)
Lemma reachable_ok known e w : reachable known e w → Forall set_ok known →
  env_ok (λ s, s ∈ known) e ∧ worker_ok (λ s, s ∈ known) w.
Proof using Hsh Laws Rc.
  induction 1 as [e Hr|known e w d a mark stopped w' acts Hw IH Hacts Hp|known e w e' reuse iter now1 now2 Hw IH Hr Hsame
    |known e w now1 now2 now3 Hw IH|known e w now Hw IH|known e w host Hw IH|known e w Hw IH]; intros Hk.
  - assert (Forall (λ s, s ∈ Sets (e_cfg e)) (Sets (e_cfg e))) as Hin by (by apply Forall_forall).
    split; [done|]. destruct (buildMatcher_ok _ _ Hin) as [_ Hm]. split; [split; [done|]; apply map_Forall_empty|].
    intros k c Hc. cbn in Hc. by rewrite lookup_empty in Hc.
  - destruct (IH Hk) as [He Hw1]. split; [done|].
    pose proof (wp_handlePacket (λ s, s ∈ known) e d w a mark stopped
      ltac:(intros s Hs; by apply (proj1 (Forall_forall _ _) Hk)) He Hw1 Hp) as H. rewrite Hacts in H. apply H.
  - apply Forall_app in Hk as [Hnew Hk]. destruct (IH Hk) as [He Hw1].
    assert (Forall (λ s, s ∈ Sets (e_cfg e') ++ known) (Sets (e_cfg e'))) as Hin.
    { apply Forall_forall. intros s Hs. apply elem_of_app. by left. }
    assert (worker_ok (λ s, s ∈ Sets (e_cfg e') ++ known) w) as Hw2.
    { destruct Hw1 as [Hh Hq]. split; [|done]. eapply worker_mono; [|exact Hh]. cbn. intros s Hs. apply elem_of_app. by right. }
    split; [by split|]. unfold UpdateConfig. destruct reuse; [done|]. unfold ClearEscalations. apply with_dest_ok, with_matcher_ok; [done|].
    destruct (buildMatcher_ok _ _ Hin). by apply transfer_holds.
  - destruct (IH Hk) as [He Hw1]. split; [done|]. by apply tick_ok.
  - destruct (IH Hk) as [He Hw1]. done.
  - destruct (IH Hk) as [He Hw1]. done.
  - destruct (IH Hk) as [He Hw1]. done.
Qed.

(** C2: The handler of a packet neither panics nor loops, on a 64-bit target, in any state
    that a worker reaches from the start by packets, changes of the configuration and
    clean-ups, under two conditions on what it is given.  Every TCP packet, the ones before
    included, is well formed ([packet_ok]): its total length is that of the packet, its TCP
    header has at least 20 bytes and is right behind the IP header - no IPv6 extension
    headers - and 20 bytes more would fit.  Every set has settings in range ([set_ok]): TTLs
    that are bytes and fake payloads of at most 65000 bytes.  Other packets may hold any bytes.
    The first condition is needed: see [short_offset_panics].

    The handler then leaves a reachable state and gives the kernel at most one verdict, and
    exactly one for a packet that has an id when the worker was not stopped.  The sets it acts
    on come from a configuration it was given, and a packet handed to the injection is the
    captured one up to its options; the injection itself runs in a goroutine of its own.  A
    packet whose drop reached the kernel goes on - it was sent again or a goroutine has it -
    unless some set is configured to block, to refuse, to escalate or to guard against resets. *)
Theorem handlePacket_total known e w d a mark stopped :
  reachable known e w → Forall set_ok known →
  (∀ raw, Payload a = Some raw → 0 < len raw → packet_ok e raw) →
  wp (handlePacket hp_encrypt initial_iv aead_open e d w a mark stopped) (λ '(w', acts),
    reachable known e w' ∧ (verdicts acts <= 1)%nat
    ∧ (PacketID a ≠ None → stopped = false → verdicts acts = 1%nat)
    ∧ ∀ raw, Payload a = Some raw → Forall (effect_ok (λ s, s ∈ known) raw) acts
        ∧ (Drop ∈ acts → kept (λ s, s ∈ known) (t_drop d) raw acts)).
Proof using Hsh Laws Rc.
  intros Hr Hk Hp. destruct (reachable_ok known e w Hr Hk) as [He Hw].
  eapply wp_mono; [apply wp_self, (wp_handlePacket (λ s, s ∈ known)); try done|].
  - intros s Hs. by apply (proj1 (Forall_forall _ _) Hk).
  - intros [w' acts] [(_ & Hv & Hv1 & Heff) E]. split; [by eapply r_packet|done].
Qed.
End packets.

(** ** Witnesses *)

Module Site.
#[local] Existing Instances unicode_demo regexp_demo ranger_demo.
#[export] Existing Instance net_demo.
#[export] Instance lower : Unicode := unicode_demo.
#[export] Instance exact_names : Regexp := regexp_demo.
#[export] Instance networks : Ranger := ranger_demo.
#[export] Instance contents : RangerContents.
Proof.
  split; cbn.
  - by intros ip es [= <-].
  - intros rg x ip es y [= <-]. rewrite filter_app, elem_of_app. intros [Hy|Hy]; [right; by eexists|left].
    apply list_elem_of_filter in Hy as [_ Hy]. by apply list_elem_of_singleton in Hy.
Qed.

(** The set of the site "a.io". *)
Definition set : SetConfig :=
  let s := sni_cfg "ttl" in
  {| Id := "site"; Name := "site"; TCP := TCP s; UDP := UDP s; Fragmentation := Fragmentation s; Faking := Faking s;
     Targets := Targets (target_set "site" ["a.io"] []); Enabled := true; DNS := DNS s; TCPPortRanges := [];
     UDPPortRanges := []; Routing := Routing s; Escalate := Escalate s; MSSClamp := MSSClamp s |}%string.

Definition config (sets : list SetConfig) : Config := {|
  Queue := {| q_Mode := "nfqueue"; StartNum := 537; Threads := 1; Mark := 32768; TCPConnBytesLimit := 19;
    UDPConnBytesLimit := 8; Interfaces := []; Devices := []; q_MSSClamp := MSSClamp set; IsDiscovery := false;
    IPv4Enabled := true; IPv6Enabled := true |};
  System := {| WebServer := {| web_Port := 7000; TLSCert := ""; TLSKey := ""; IsEnabled := true |};
    Socks5 := {| s5_Enabled := false; s5_Port := 1080 |};
    MTProto := {| mt_Enabled := false; mt_Port := 3128; MaxConnections := 0; TCPUserTimeoutSec := 0;
      IdleTimeoutSec := 0; UpstreamMode := ""; WSEndpointHost := "" |};
    MemoryLimit := ""; GeoSitePath := ""; GeoIpPath := ""; Directory := ""; Masquerade := false;
    DiscoveryFlowMark' := 0; DiscoveryInjectedMark' := 0 |};
  Sets := sets; tcpPortMap := Some {[443]}; ConfigPath := "" |}%string.

Definition machine (sets : list SetConfig) : env := {|
  e_cfg := config sets; ipToMac := ∅; srcResolver := None; has_HandleDNS := true; has_LearnIP := true;
  InterfaceByIndex := λ _, None |}.

Definition at_time (t : time) : readings := {|
  t_now := λ _, t; t_order := λ _, []; t_draws := λ _, draws_demo; t_inc := λ _, draws_at 1 2; t_track := 0; t_delay := 0;
  t_id := 7; t_drop := true |}.

Definition queued (raw : bytes) : Attribute :=
  {| PacketID := Some 1; Payload := Some raw; a_Mark := None; InDev := None; OutDev := None |}.
End Site.
#[local] Existing Instances QuicSni.Demo.reader QuicSni.Demo.laws.
Import Site.

Lemma site_ok : set_ok Site.set.
Proof. split; [|vmc]. split_and!; [split; constructor|vmc..]. Qed.

Lemma hello_ok_demo : packet_ok (machine [Site.set]) ch4_demo.
Proof.
  split; [by apply bytes_okb_spec|]. split; [vmc|]. intros pkt E _. vm_compute in E. injection E as <-. cbn [p_ver p_ihl Z.eqb Pos.eqb].
  split; [exact captured_ch4|]. vmc.
Qed.

(** A ClientHello for the site is dropped and handed to the injection. *)
Example handlePacket_demo :
  match handlePacket Toy.hp Toy.iv Toy.open (machine [Site.set]) (at_time 5) (NewPool (config [Site.set])) (queued ch4_demo) 0 false with
  | Ret (w, acts) => acts = [Drop; GoTCP 4 Site.set ch4_demo [93; 184; 216; 34]]
  | _ => False
  end.
Proof. vm_compute. reflexivity. Qed.

Lemma handlePacket_total_witness :
  wp (handlePacket Toy.hp Toy.iv Toy.open (machine [Site.set]) (at_time 5) (NewPool (config [Site.set])) (queued ch4_demo) 0 false)
    (λ '(w', acts), reachable Toy.hp Toy.iv Toy.open [Site.set] (machine [Site.set]) w'
      ∧ verdicts acts = 1%nat ∧ Forall (effect_ok (λ s, s ∈ [Site.set]) ch4_demo) acts
      ∧ (Drop ∈ acts → kept (λ s, s ∈ [Site.set]) true ch4_demo acts)).
Proof.
  eapply wp_mono; [apply (handlePacket_total Toy.hp Toy.iv Toy.open Toy.shape [Site.set] (machine [Site.set]))|].
  - apply (r_start Toy.hp Toy.iv Toy.open (machine [Site.set])). done.
  - constructor; [exact site_ok|constructor].
  - intros raw [= <-] _. exact hello_ok_demo.
  - intros [w' acts] (H1 & _ & H2 & H3). split; [exact H1|]. split; [by apply H2|by apply H3].
Defined.

(** The handler compares a data offset with the length of the segment but not with 20: a SYN
    whose offset is 0 makes the fake SYN of a set shorter than a TCP header, and completing its
    checksum panics.  The assumption [tcp_formed] cannot be dropped. *)
Module ShortOffset.
Definition syn_set : SetConfig :=
  let s := Site.set in let t := TCP s in
  {| Id := "syn"; Name := "syn";
     TCP := {| t_ConnBytesLimit := 19; Seg2Delay := 0; Seg2DelayMax := 0; SynFake := true; SynFakeLen := 0; SynTTL := 7;
       t_DPortFilter := "443"; DropSACK := false; Win := Win t; Desync := Desync t; Incoming := Incoming t;
       Duplicate := Duplicate t; IPBlockDetect := IPBlockDetect t; RSTProtection := RSTProtection t |};
     UDP := UDP s; Fragmentation := Fragmentation s; Faking := Faking s; Targets := Targets (target_set "syn" [] []);
     Enabled := true; DNS := DNS s; TCPPortRanges := []; UDPPortRanges := []; Routing := Routing s;
     Escalate := Escalate s; MSSClamp := MSSClamp s |}%string.
Definition syn : bytes :=
  [69;0] ++ bytes16 40 ++ [1;2;64;0; 64;6;0;0; 10;0;0;1; 93;184;216;34;
   200;1;1;187; 0;0;0;1; 0;0;0;2; 0;2;255;255; 9;9;0;0].
End ShortOffset.

Theorem short_offset_panics :
  set_ok ShortOffset.syn_set ∧ bytes_ok ShortOffset.syn ∧ get16 ShortOffset.syn 2 = len ShortOffset.syn
  ∧ handlePacket Toy.hp Toy.iv Toy.open (machine [ShortOffset.syn_set]) (at_time 5)
      (NewPool (config [ShortOffset.syn_set])) (queued ShortOffset.syn) 0 false = Panic.
Proof.
  split; [split; [|vmc]; split_and!; [split; constructor|vmc..]|]. split; [by apply bytes_okb_spec|]. split; vm_compute; reflexivity.
Qed.
