(* ===== verification/HandlerDns.v ===== *)
(** * What the handler does with DNS

    The branches of processDnsPacket (src/src/nfq/dns.go) as a client sees them: a query for
    the name of a blocking set is answered with NXDOMAIN, and the set of a routed query is
    remembered until its response. *)

From Stdlib Require Import ZArith Lia Ascii.
From stdpp Require Import base list numbers strings gmap pretty.
From S2P Require Import Prelude Config Payloads Checksum Fragment Fragment6 Buffer Segment Families Mutation Strategies FakeSni Decoys Tls Quic Assemble QuicSni Voice GoString Text NetIP Udp Rewrite Syn Incoming Dns Ports Escalate Lru Match ConnState Worker Held DnsHandler Handler Pool HandlerOk.

Local Open Scope Z_scope.

Section dns.
Context {Un : Unicode} {Rx : Regexp} {Nt : Net} {Rg : Ranger} {Srt : SortSlice} {Cb : Cryptobyte}.
Context (hp_encrypt : bytes → Z → bytes → bytes) (initial_iv : bytes → Z → bytes).
Context (aead_open : bytes → Z → bytes → bytes → bytes → option bytes).
#[local] Set Default Proof Using "Type".
Implicit Types (e : env) (w : worker) (d : readings).

(** [raw] is a datagram that the handler reads as [pkt]. *)
Record datagram e (raw : bytes) (pkt : pktInfo) (sport dport : Z) (payload : bytes) : Prop := {
  g_ok : bytes_ok raw; g_parse : parseIPHeaders e raw = Ret (Some pkt); g_proto : p_proto pkt = 17;
  g_len : p_ihl pkt + 8 <= len raw; g_sport : get16 raw (p_ihl pkt) = sport; g_dport : get16 raw (p_ihl pkt + 2) = dport;
  g_payload : sub raw (p_ihl pkt + 8) (len raw) = payload }.

Lemma datagram_ok e raw pkt sport dport payload : resolver_ok e → datagram e raw pkt sport dport payload → pkt_ok raw pkt.
Proof.
  intros He [Hok Hp _ Hl _ _ _]. destruct (decide (0 < len raw)) as [H0|H0].
  - pose proof (wp_parseIPHeaders e raw He Hok H0) as Hw. rewrite Hp in Hw. by apply Hw.
  - exfalso. destruct raw; [|cbn in H0; lia]. done.
Qed.

Lemma sub_sub l i j k n : 0 <= i → i <= j → j <= len l → 0 <= k → k <= n → n <= j - i →
  sub (sub l i j) k n = sub l (i + k) (i + n).
Proof.
  intros. assert (len (sub l i j) = j - i) by (by apply len_sub). apply list_ext_get.
  - rewrite !len_sub; lia.
  - intros m Hm. rewrite len_sub in Hm by lia. rewrite !get_sub by lia. zcases. all: f_equal; lia.
Qed.

(** The handler of a datagram of port 53. *)
Lemma dispatch_dns e d w raw pkt sport dport payload : resolver_ok e → datagram e raw pkt sport dport payload →
  sport = 53 ∨ dport = 53 →
  dispatch hp_encrypt initial_iv aead_open e d w raw
  = processDnsPacket e d (with_count w (u64 (packetsProcessed w + 1))) (p_ver pkt) sport dport payload raw (p_srcMac pkt).
Proof.
  intros He Hg H53. pose proof (datagram_ok _ _ _ _ _ _ He Hg) as Hk. destruct Hg as [Hok Hp Hpr Hl Hs Hd Hpl].
  pose proof (k_ihl _ _ Hk) as Hi. unfold dispatch. rewrite Hp. cbn [go_bind].
  destruct (MatchIPWithSource _ _ _) as [matched st]. rewrite Hpr, (k_raw _ _ Hk). cbn [Z.eqb Pos.eqb andb]. unfold UDPHeaderLen.
  destruct (p_ihl pkt + 8 <=? len raw) eqn:E; [|zlia]. unfold handleUDPPacket. rewrite (k_raw _ _ Hk). unfold slice_from at 1.
  rewrite (slice_ret raw) by lia. cbn [go_bind]. set (udp := sub raw (p_ihl pkt) (len raw)).
  assert (len udp = len raw - p_ihl pkt) as Hlu by (unfold udp; rewrite len_sub by lia; lia). unfold UDPHeaderLen.
  destruct (len udp <? 8) eqn:E8; [zlia|]. unfold slice_from. rewrite slice_ret by lia. cbn [go_bind].
  rewrite !be16_ret by lia. cbn [go_bind].
  assert (∀ k, 0 <= k → k + 2 <= len udp → get16 udp k = get16 raw (p_ihl pkt + k)) as H16.
  { intros k Hk0 Hk1. unfold udp. apply get16_eq; rewrite get_sub by lia; zcases. all: f_equal; lia. }
  rewrite !H16 by lia. rewrite Z.add_0_r, Hs, Hd.
  assert (sub udp 8 (len udp) = payload) as ->.
  { rewrite <- Hpl, Hlu. unfold udp. rewrite sub_sub by lia. f_equal; lia. }
  assert ((sport =? 53) || (dport =? 53) = true) as -> by (destruct H53 as [-> | ->]; [done|by rewrite orb_true_r]).
  done.
Qed.

(** The addresses of a packet, the client's first for what the client sent. *)
Definition ends (v : Z) (raw : bytes) : bytes * bytes :=
  if v =? 4 then (sub raw 12 16, sub raw 16 20) else (sub raw 8 24, sub raw 24 40).

Lemma packet_ends_there v raw : ip_there v raw → packet_ends v raw = Ret (ends v raw).
Proof. intros [_ [[-> ?]|[-> ?]]]; unfold packet_ends, ends; cbn [Z.eqb Pos.eqb]; by rewrite !slice_ret by lia. Qed.

Lemma datagram_there e raw pkt sport dport payload : resolver_ok e → datagram e raw pkt sport dport payload → ip_there (p_ver pkt) raw.
Proof.
  intros He Hg. pose proof (datagram_ok _ _ _ _ _ _ He Hg) as Hk. split; [by apply Hg|].
  destruct (k_ver _ _ Hk) as [(? & ? & _)|(? & ? & _)]; [left|right]; split; done || lia.
Qed.

(** A valid datagram between the ends of a query, back to the client. *)
Definition answer_to (v : Z) (raw : bytes) (sport : Z) (resp f : bytes) : Prop :=
  if v =? 4 then dgram4 f 64 (sub raw 16 20 ++ sub raw 12 16) (ports_of 53 sport) resp ∧ sum_verifies (udp_sum4 f)
  else dgram6 f 64 (sub raw 24 40 ++ sub raw 8 24) (ports_of 53 sport) resp ∧ accepts6 f.

(** The code leaves IPv6 alone. *)
Definition ipv6_off e (v : Z) : bool := (v =? 6) && negb (IPv6Enabled (Queue (e_cfg e))).
(** An address of an IPv6 packet is a mapped IPv4 address, for which no answer is built. *)
Definition mapped (v : Z) (raw : bytes) : bool :=
  (v =? 6) && (negb (bool_decide (To4 (sub raw 8 24) = None)) || negb (bool_decide (To4 (sub raw 24 40) = None))).

(** What becomes of a blocked query: dropped, passed on, or answered and dropped. *)
Definition blocked e (set : SetConfig) (v : Z) (raw : bytes) (sport : Z) (resp : bytes) (acts : list effect) : Prop :=
  if decide (BlockAction (Routing set) = BlockActionDrop) then acts = [Drop]
  else if ipv6_off e v then acts = [Accept]
  else if mapped v raw then acts = [Drop]
  else ∃ f, acts = [ToClient (Send f); Drop] ∧ answer_to v raw sport resp f.

Lemma block_answer_ok h q : bytes_ok h → bytes_ok q → bytes_ok (block_answer 131 h q).
Proof.
  intros Hh Hq. unfold block_answer. repeat (apply Forall_cons; split; [solve [auto 6 using bytes_ok_get with b4|unfold is_byte; lia]|]). done.
Qed.

(** A set that blocks the names it lists. *)
Definition blocks e (set : SetConfig) : Prop :=
  rt_Enabled (Routing set) = true ∧ RoutingIsBlock (rt_Mode (Routing set)) = true ∧ IsDiscovery (Queue (e_cfg e)) = false.

Lemma wp_build_answer d raw v sport resp : ip_there v raw → bytes_ok resp → len resp <= 65507 →
  0 <= sport < 65536 → (v = 6 → To4 (sub raw 8 24) = None ∧ To4 (sub raw 24 40) = None) →
  wp (if v =? 4 then BuildUDPPacketV4 (t_id d) (ends v raw).2 (ends v raw).1 53 sport resp
      else BuildUDPPacketV6 (ends v raw).2 (ends v raw).1 53 sport resp)
    (λ o, ∃ f, o = Some f ∧ answer_to v raw sport resp f).
Proof.
  intros [Hr Hv] Hb Hl Hs H6. unfold answer_to, ends. destruct Hv as [[-> Hn]|[-> Hn]]; cbn [Z.eqb Pos.eqb fst snd].
  - assert (∀ i, 0 <= i → i + 4 <= len raw → To4 (sub raw i (i + 4)) = Some (sub raw i (i + 4))) as H4
      by (intros; apply To4_of_4; rewrite len_sub; lia).
    eapply wp_mono; [eapply wp_BuildUDPPacketV4; [apply (H4 16)|apply (H4 12)|..]; auto with b4; lia|].
    intros o (f & -> & Hf & _ & Hsum). by exists f.
  - destruct (H6 eq_refl). eapply wp_mono; [apply wp_BuildUDPPacketV6; auto with b4; rewrite ?len_sub; lia|]. done.
Qed.

Lemma build_mapped raw sport resp : mapped 6 raw = true → 40 <= len raw →
  BuildUDPPacketV6 (sub raw 24 40) (sub raw 8 24) 53 sport resp = Ret None.
Proof.
  intros Hm Hl. unfold BuildUDPPacketV6, mapped in *. cbn [Z.eqb Pos.eqb andb] in Hm.
  destruct (To4 (sub raw 8 24)), (To4 (sub raw 24 40)); [by destruct (To16 (sub raw 24 40)), (To16 (sub raw 8 24))..|].
  rewrite !bool_decide_true in Hm by done. done.
Qed.

Lemma blocked_answered e set v raw sport resp acts : BlockAction (Routing set) ≠ BlockActionDrop → ipv6_off e v = false →
  (if mapped v raw then acts = [Drop] else ∃ f, acts = [ToClient (Send f); Drop] ∧ answer_to v raw sport resp f) →
  blocked e set v raw sport resp acts.
Proof. intros E E6 H. unfold blocked. by rewrite decide_False, E6. Qed.

(** [None]: the set does not block over a version of IP that the code leaves alone. *)
Lemma wp_block_query_answers e d v sport raw set h ls t rest : ip_there v raw → 0 <= sport < 65536 → bytes_ok (h ++ enc_name ls ++ t) →
  len h = 12 → Forall label_ok ls → len t = 4 → len (enc_name ls) <= 65491 → blocks e set →
  wp (block_query e d v sport (h ++ enc_name ls ++ t ++ rest) raw set) (λ o,
    if decide (BlockAction (Routing set) = BlockActionDrop) then o = Some [Drop]
    else if ipv6_off e v then o = None
    else ∃ acts, o = Some acts ∧ blocked e set v raw sport (block_answer 131 h (enc_name ls ++ t)) acts).
Proof.
  intros Hr Hs Hb Hh Hls Ht Hn (Hre & Hbl & Hdisc). unfold block_query. rewrite Hre, Hbl, Hdisc. cbn [andb negb].
  unfold NormalizeBlockAction. destruct (decide (BlockAction (Routing set) = BlockActionDrop)) as [E|E].
  { rewrite !(bool_decide_true _ E), bool_decide_true by done. by apply wp_ret. }
  rewrite (bool_decide_false _ E), bool_decide_false by done. cbv zeta. fold (ipv6_off e v).
  destruct (ipv6_off e v) eqn:E6; cbn [negb]; [by apply wp_ret|].
  apply Forall_app in Hb as [Hhok [Hnok Htok]%Forall_app]. wp_step. eapply wp_mono; [by apply wp_BuildBlockResponse|]. intros o ->.
  set (resp := block_answer _ _ _).
  assert (len resp <= 65507) as Hl by (unfold resp, block_answer; rewrite !len_app; cbn [length]; lia).
  assert (bytes_ok resp) as Hbok by (apply block_answer_ok; auto with b4). clearbody resp.
  rewrite (packet_ends_there _ _ Hr). destruct (ends v raw) as [client server] eqn:Ee. cbn [go_bind]. wp_step.
  destruct (mapped v raw) eqn:Em.
  - assert (v = 6) as -> by (unfold mapped in Em; zlia). cbn in Ee. injection Ee as <- <-. cbn [Z.eqb Pos.eqb].
    rewrite build_mapped by (done || destruct Hr as [_ [[? _]|[_ ?]]]; lia). do 2 apply wp_ret. exists [Drop]. split; [done|].
    apply blocked_answered; [done|done|]. by rewrite Em.
  - pose proof (wp_build_answer d raw v sport _ Hr Hbok Hl Hs) as Hw. rewrite Ee in Hw.
    eapply wp_mono; [apply Hw|].
    { intros ->. unfold mapped in Em. cbn [Z.eqb Pos.eqb andb] in Em. apply orb_false_iff in Em as [E1 E2].
      apply negb_false_iff, bool_decide_eq_true in E1. by apply negb_false_iff, bool_decide_eq_true in E2. }
    intros o (f & -> & Hf). apply wp_ret. eexists. split; [done|].
    apply blocked_answered; [done|done|]. rewrite Em. by exists f.
Qed.

(** A query that is not blocked because of [ipv6_off] is not redirected either. *)
Lemma redirect_off e d v sport payload raw set : ipv6_off e v = true → redirect_query e d v sport payload raw set = Ret [Accept].
Proof. intros E. unfold redirect_query, ipv6_off in *. rewrite E. by repeat case_match. Qed.

(** C3: A query for a name that a set blocks, with well-formed labels and small enough for the
    answer to fit in a datagram.  With the action [drop] it is dropped.  Otherwise the client
    gets NXDOMAIN for the same identifier and the same question, in one valid datagram from the
    resolver's address and port, and the query is dropped; when an address of the packet is a
    mapped IPv4 address it is dropped without an answer.  But over IPv6, as long as IPv6 is not
    enabled, which is the default, the query is accepted and goes on to its resolver. *)
Theorem blocked_query_answered P e d w raw pkt sport h ls t rest set :
  resolver_ok e → worker_ok P w → datagram e raw pkt sport 53 (h ++ enc_name ls ++ t ++ rest) →
  len h = 12 → Forall label_ok ls → ls ≠ [] → len t = 4 → len (enc_name ls) <= 65491 →
  MatchSNIWithSource (matcher w) (ToLower (string_of (join_dots ls))) (p_srcMac pkt) = (true, Some set) → blocks e set →
  wp (dispatch hp_encrypt initial_iv aead_open e d w raw) (λ '(w', acts),
    blocked e set (p_ver pkt) raw sport (block_answer 131 h (enc_name ls ++ t)) acts
    ∧ (acts ≠ [Accept] → w' = with_count w (u64 (packetsProcessed w + 1)))).
Proof.
  intros He Hwk Hg Hh Hls Hne Ht Hn Hm Hblk. pose proof (datagram_there _ _ _ _ _ _ He Hg) as Hr.
  rewrite (dispatch_dns _ _ _ _ _ _ _ _ He Hg) by auto.
  set (w1 := with_count w _). destruct Hg as [Hok _ _ _ Hsp _ Hpl]. rewrite <- Hsp.
  assert (bytes_ok (h ++ enc_name ls ++ t ++ rest)) as Hq by (rewrite <- Hpl; auto with b4).
  unfold processDnsPacket. rewrite Z.eqb_refl. unfold dns_query.
  rewrite (ParseQueryDomain_reads _ ls (stands_question h ls (t ++ rest) Hh) Hls Hne). cbn [go_bind].
  do 2 wp_step. eapply wp_mono; [by apply wp_ParseTransactionID_any|]. intros txid _. cbv zeta.
  change (matcher w1) with (matcher w). rewrite Hm. cbn [deref go_bind]. wp_step.
  apply Forall_app in Hq as [Hhok [Hnok [Htok _]%Forall_app]%Forall_app].
  eapply wp_mono; [apply wp_block_query_answers; try done; [by apply get16_range|by rewrite !bytes_ok_app]|].
  intros o Ho. unfold blocked. destruct (decide (BlockAction (Routing set) = BlockActionDrop)) as [E|E].
  { subst o. by do 2 apply wp_ret. }
  destruct (ipv6_off e (p_ver pkt)) eqn:E6.
  - subst o. wp_step. eapply wp_mono; [apply (wp_remember_query P); [by apply with_count_ok|done]|]. intros w2 _.
    rewrite redirect_off by done. cbn [go_bind]. by do 2 apply wp_ret.
  - destruct Ho as (acts & -> & Hb). do 2 apply wp_ret. split; [|done]. unfold blocked in Hb. by rewrite decide_False, E6 in Hb.
Qed.

(** ** Remembered queries *)

(** A set whose names the handler hands to the routing tables. *)
Definition routes e (set : SetConfig) : Prop :=
  rt_Enabled (Routing set) = true ∧ RoutingIsBlock (rt_Mode (Routing set)) = false ∧ DomainOnly (Targets set) = false
  ∧ IsDiscovery (Queue (e_cfg e)) = false.

(** Where the set of a query is remembered. *)
Definition query_key (v : Z) (raw : bytes) (sport txid : Z) (domain : string) : string :=
  dnsRouteKeyRequest v (ends v raw).1 sport (ends v raw).2 53 txid domain.

(** [raw2] answers the query [raw] with the addresses [ips]: the same question and identifier
    between the same ends, whatever the case of the letters. *)
Record reply e (v : Z) (raw : bytes) (sport txid : Z) (domain : string) (raw2 : bytes) (ips : list bytes) : Prop := {
  r_ends : ends v raw2 = ((ends v raw).2, (ends v raw).1);
  r_message : ∃ pkt h ls t, datagram e raw2 pkt 53 sport (h ++ enc_name ls ++ t) ∧ p_ver pkt = v ∧ len h = 12
    ∧ Forall label_ok ls ∧ ls ≠ [] ∧ get16 h 0 = txid ∧ ToLower (string_of (join_dots ls)) = domain
    ∧ ParseResponseIPs (h ++ enc_name ls ++ t) = Ret ips }.

Lemma ParseTransactionID_reads h q : len h = 12 → ParseTransactionID (h ++ q) = Ret (Some (get16 h 0)).
Proof.
  intros Hh. unfold ParseTransactionID. rewrite len_app. zcases. rewrite be16_ret by (rewrite ?len_app; lia). cbn [go_bind].
  do 2 f_equal. apply get16_eq; rewrite get_app; zcases; done.
Qed.

(** The handler of a routed query. *)
Lemma routed_query e d w v sport payload raw mac ls set txid : ip_there v raw →
  ParseQueryDomain payload = Ret (Some (join_dots ls)) → ParseTransactionID payload = Ret (Some txid) →
  MatchSNIWithSource (matcher w) (ToLower (string_of (join_dots ls))) mac = (true, Some set) → routes e set →
  wp (processDnsPacket e d w v sport 53 payload raw mac) (λ '(w', acts),
    w' = storeDNSPendingRoute (t_now d 0) (query_key v raw sport txid (ToLower (string_of (join_dots ls)))) (Id set) w
    ∧ (dns_Enabled (DNS set) = false → acts = [Accept])).
Proof.
  intros Hr Hq Ht Hm (Hre & Hbl & Hdo & Hdisc). unfold processDnsPacket. rewrite Z.eqb_refl. unfold dns_query.
  rewrite Hq, Ht. cbn [go_bind]. cbv zeta. rewrite Hm. cbn [deref go_bind]. unfold block_query, remember_query.
  rewrite Hre, Hbl, Hdo, Hdisc. cbn [andb negb go_bind]. rewrite (packet_ends_there _ _ Hr).
  unfold query_key. destruct (ends v raw) as [client server]. cbn [go_bind fst snd].
  wp_step. apply (wp_mono _ (λ r, ∃ acts, r = (storeDNSPendingRoute (t_now d 0)
    (dnsRouteKeyRequest v client sport server 53 txid (ToLower (string_of (join_dots ls)))) (Id set) w, Some acts)
    ∧ (dns_Enabled (DNS set) = false → acts = [Accept]))).
  2: { intros r (acts & -> & Ha). by apply wp_ret. }
  wp_step. unfold redirect_query. cbv zeta. destruct (dns_Enabled (DNS set)); cbn [andb negb].
  - do 3 (wp_step; [do 2 apply wp_ret; by eexists|]). rewrite (packet_ends_there _ _ Hr). destruct (ends v raw) as [c sv].
    cbn [go_bind]. do 2 apply wp_ret. by eexists.
  - do 2 apply wp_ret. by eexists.
Qed.

(** What a response routes by its own name. *)
Lemma by_name P e w payload client domain ips : worker_ok P w → ParseResponseIPs payload = Ret ips →
  wp (route_by_name e w payload client domain) (λ acts, acts = [] ∨ ∃ s, acts = [HandleDNS s ips]
    ∧ MatchSNIWithSource (matcher w) domain (getMacByIp e (ip_string client)) = (true, Some s)).
Proof.
  intros Hw Hp. unfold route_by_name. wp_step; [apply wp_ret; by left|]. cbv zeta.
  destruct (MatchSNI_answers P (matcher w) domain (getMacByIp e (ip_string client)) 0 0 ltac:(apply Hw)) as [E|(s & E & Hs)];
    unfold MatchSNIWithSource; rewrite E; [apply wp_ret; by left|].
  cbn [deref go_bind]. wp_step; [|apply wp_ret; by left]. rewrite Hp. cbn [go_bind].
  wp_step; apply wp_ret; [right; by exists s|by left].
Qed.

Lemma by_query e payload sid set ips : ParseResponseIPs payload = Ret ips → ips ≠ [] →
  GetSetById (e_cfg e) sid = Some set → DomainOnly (Targets set) = false → has_HandleDNS e = true →
  IsDiscovery (Queue (e_cfg e)) = false →
  route_by_query e payload (Some sid) false = Ret [HandleDNS set ips].
Proof.
  intros Hp Hi Hs Hd Hh Hdisc. unfold route_by_query. rewrite Hp. cbn [go_bind]. rewrite bool_decide_false by done.
  by rewrite Hs, Hd, Hh, Hdisc.
Qed.

(** The handler of the response. *)
Lemma routed_reply P e d w v raw sport txid domain raw2 h ls t ips sid set until mac : worker_ok P w → ip_there v raw2 → sport ≠ 53 →
  ends v raw2 = ((ends v raw).2, (ends v raw).1) → bytes_ok (h ++ enc_name ls ++ t) →
  len h = 12 → Forall label_ok ls → ls ≠ [] → get16 h 0 = txid → ToLower (string_of (join_dots ls)) = domain →
  ParseResponseIPs (h ++ enc_name ls ++ t) = Ret ips → ips ≠ [] →
  dnsRoutePending w !! query_key v raw sport txid domain = Some {| setID := sid; expires := until |} → t_now d 0 <= until →
  GetSetById (e_cfg e) sid = Some set → DomainOnly (Targets set) = false → has_HandleDNS e = true →
  IsDiscovery (Queue (e_cfg e)) = false →
  wp (processDnsPacket e d w v 53 sport (h ++ enc_name ls ++ t) raw2 mac) (λ '(w', acts),
    w' = with_routes w (delete (query_key v raw sport txid domain) (dnsRoutePending w))
    ∧ ∃ s, acts = [HandleDNS s ips; Accept] ∧ (s = set
       ∨ MatchSNIWithSource (matcher w) domain (getMacByIp e (ip_string (ends v raw).1)) = (true, Some s))).
Proof.
  intros Hw Hr Hsp He Hq Hh Hls Hne Hid Hdom Hp Hi Hk Ht Hset Hdo Hhas Hdisc. unfold processDnsPacket.
  rewrite (proj2 (Z.eqb_neq sport 53)) by done. cbn [go_bind Z.eqb Pos.eqb]. unfold dns_response.
  rewrite (ParseTransactionID_reads h _ Hh), Hid. cbn [go_bind]. unfold response_name.
  rewrite (ParseQueryDomain_reads _ ls (stands_question h ls t Hh) Hls Hne). cbn [go_bind]. rewrite Hdom.
  rewrite (packet_ends_there _ _ Hr), He. unfold query_key in *. destruct (ends v raw) as [client server].
  cbn [go_bind fst snd] in *. do 2 wp_step. eapply wp_mono; [by apply (by_name P)|]. intros acts Ha.
  unfold consumeDNSPendingRoute. unfold dnsRouteKeyResponse. rewrite Hk. cbn [expires setID].
  destruct (until <? t_now d 0) eqn:Eu; [zlia|].
  destruct Ha as [->|(s & -> & Hs)].
  - rewrite bool_decide_true by done. cbn [negb]. rewrite (by_query e _ sid set ips) by done. do 2 apply wp_ret.
    split; [done|]. exists set. by split; [|left].
  - rewrite bool_decide_false by done. cbn [negb go_bind route_by_query]. do 2 apply wp_ret.
    split; [done|]. exists s. by split; [|right].
Qed.

(** C4: The set of a query that is routed is remembered, and the addresses of the response
    that comes back within two minutes are handed to the routing tables, once, before the
    response goes on to the client: to the set its own name has for the client's address, or
    else to the set that the query was matched with. *)
Theorem remembered_query_routed P e d w raw pkt sport h ls t q :
  resolver_ok e → datagram e raw pkt sport 53 (h ++ enc_name ls ++ t) → sport ≠ 53 →
  len h = 12 → Forall label_ok ls → ls ≠ [] →
  let domain := ToLower (string_of (join_dots ls)) in
  let key := query_key (p_ver pkt) raw sport (get16 h 0) domain in
  MatchSNIWithSource (matcher w) domain (p_srcMac pkt) = (true, Some q) → routes e q →
  wp (dispatch hp_encrypt initial_iv aead_open e d w raw) (λ '(w1, acts1),
    w1 = storeDNSPendingRoute (t_now d 0) key (Id q) (with_count w (u64 (packetsProcessed w + 1)))
    ∧ (dns_Enabled (DNS q) = false → acts1 = [Accept])
    ∧ ∀ e2 d2 w2 raw2 ips set, resolver_ok e2 → worker_ok P w2 →
      dnsRoutePending w2 !! key = dnsRoutePending w1 !! key → t_now d2 0 <= t_now d 0 + 120 * dur_second →
      reply e2 (p_ver pkt) raw sport (get16 h 0) domain raw2 ips → ips ≠ [] →
      GetSetById (e_cfg e2) (Id q) = Some set → DomainOnly (Targets set) = false → has_HandleDNS e2 = true →
      IsDiscovery (Queue (e_cfg e2)) = false →
      wp (dispatch hp_encrypt initial_iv aead_open e2 d2 w2 raw2) (λ '(w3, acts2),
        dnsRoutePending w3 !! key = None ∧ ∃ s, acts2 = [HandleDNS s ips; Accept] ∧ (s = set
          ∨ MatchSNIWithSource (matcher w2) domain (getMacByIp e2 (ip_string (ends (p_ver pkt) raw).1)) = (true, Some s)))).
Proof.
  intros He Hg Hsp Hh Hls Hne domain key Hm Hq. pose proof (datagram_there _ _ _ _ _ _ He Hg) as Hr.
  rewrite (dispatch_dns _ _ _ _ _ _ _ _ He Hg) by auto. set (w0 := with_count w _).
  eapply wp_mono; [apply (routed_query e d w0 (p_ver pkt) sport _ raw (p_srcMac pkt) ls q (get16 h 0)); try done|].
  - exact (ParseQueryDomain_reads _ ls (stands_question h ls t Hh) Hls Hne).
  - by apply ParseTransactionID_reads.
  - intros [w1 acts1] [-> Ha]. split; [done|]. split; [exact Ha|]. intros e2 d2 w2 raw2 ips set He2 Hw2 Hk Ht Hrep Hi Hset Hdo Hhas Hdisc.
    destruct Hrep as [Hends (pkt2 & h2 & ls2 & t2 & Hg2 & Hv & Hh2 & Hls2 & Hne2 & Hid & Hdom & Hips)].
    pose proof (datagram_there _ _ _ _ _ _ He2 Hg2) as Hr2. rewrite (dispatch_dns _ _ _ _ _ _ _ _ He2 Hg2) by auto.
    rewrite Hv in *. unfold storeDNSPendingRoute in Hk. fold domain key in Hk. cbn in Hk. rewrite lookup_insert_eq in Hk.
    eapply wp_mono; [eapply (routed_reply P e2 d2 _ _ raw sport (get16 h 0) domain raw2 h2 ls2 t2 ips (Id q) set); try done|].
    + destruct Hg2 as [Hok _ _ _ _ _ <-]. auto with b4.
    + intros [w3 acts2] [-> Hacts]. split; [|exact Hacts]. cbn. by rewrite lookup_delete_eq.
Qed.

End dns.

(** ** A site whose names are blocked or routed *)

#[local] Existing Instances QuicSni.Demo.reader QuicSni.Demo.laws.
Module Names.
Import Site.
Definition routing (mode : string) : SetConfig :=
  let s := Site.set in let r := Routing s in
  {| Id := Id s; Name := Name s; TCP := TCP s; UDP := UDP s; Fragmentation := Fragmentation s; Faking := Faking s;
     Targets := Targets s; Enabled := true; DNS := DNS s; TCPPortRanges := []; UDPPortRanges := [];
     Routing := {| rt_Enabled := true; rt_Mode := mode; EgressInterface := EgressInterface r; Upstream := Upstream r;
       FWMark := FWMark r; Table := Table r; SourceInterfaces := SourceInterfaces r; IPTTLSeconds := IPTTLSeconds r;
       BlockAction := BlockAction r |};
     Escalate := Escalate s; MSSClamp := MSSClamp s |}.

Definition client : bytes := [10; 0; 0; 1].
Definition server : bytes := [10; 0; 0; 53].
Definition udp4 (src dst : bytes) (sport dport : Z) (payload : bytes) : bytes :=
  [69; 0] ++ bytes16 (28 + len payload) ++ [0; 1; 64; 0; 64; 17; 0; 0] ++ src ++ dst
  ++ bytes16 sport ++ bytes16 dport ++ bytes16 (8 + len payload) ++ [0; 0] ++ payload.

Definition labels : list bytes := map string_bytes ["a"; "io"]%string.
Definition tail : bytes := [0; 1; 0; 1].
Definition query : bytes := udp4 client server 40000 53 (query_header 7 ++ enc_name labels ++ tail).
(** The response, in capitals. *)
Definition response_header : bytes := [0; 7; 129; 128; 0; 1; 0; 1; 0; 0; 0; 0].
Definition LABELS : list bytes := map string_bytes ["A"; "IO"]%string.
Definition answer : bytes := tail ++ [192; 12; 0; 1; 0; 1; 0; 0; 0; 60; 0; 4; 93; 184; 216; 34].
Definition back : bytes := udp4 server client 53 40000 (response_header ++ enc_name LABELS ++ answer).

Definition header (raw : bytes) (e : env) : pktInfo :=
  match parseIPHeaders e raw with Ret (Some pkt) => pkt | _ => 
    {| p_raw := []; p_ver := 0; p_proto := 0; p_src := []; p_dst := []; p_srcStr := ""; p_dstStr := ""; p_srcMac := ""; p_ihl := 0 |} end.

Definition run (set : SetConfig) (w : worker) (now : Z) (raw : bytes) : go (worker * list effect) :=
  dispatch Toy.hp Toy.iv Toy.open (machine [set]) (at_time now) w raw.
Definition start (set : SetConfig) : worker := NewPool (config [set]).
End Names.
Import Site Names.

Lemma labels_ok : Forall label_ok labels.
Proof. repeat constructor; by apply bytes_okb_spec || vmc. Qed.

Lemma LABELS_ok : Forall label_ok LABELS.
Proof. repeat constructor; by apply bytes_okb_spec || vmc. Qed.

Lemma machine_resolver sets : resolver_ok (machine sets).
Proof. by intros ?????? lan [=]. Qed.

Lemma start_ok set : worker_ok (λ _, True) (start set).
Proof.
  destruct (buildMatcher_ok (λ _, True) (config [set])) as [_ Hm]; [by repeat constructor|].
  split; [split; [done|]; apply map_Forall_empty|]. intros k c Hc. cbn in Hc. by rewrite lookup_empty in Hc.
Qed.

Lemma query_datagram e : e = machine [routing RoutingModeBlock] ∨ e = machine [routing RoutingModeInterface] →
  datagram e query (header query e) 40000 53 (query_header 7 ++ enc_name labels ++ tail).
Proof. intros [-> | ->]; split; try by apply bytes_okb_spec. all: vm_compute; done. Qed.

Lemma back_datagram : let e := machine [routing RoutingModeInterface] in
  datagram e back (header back e) 53 40000 (response_header ++ enc_name LABELS ++ answer).
Proof. split; try by apply bytes_okb_spec. all: vm_compute; done. Qed.

Lemma blocked_query_answered_witness :
  let set := routing RoutingModeBlock in
  wp (run set (start set) 5 query) (λ '(_, acts), ∃ f, acts = [ToClient (Send f); Drop]
    ∧ answer_to 4 query 40000 (block_answer 131 (query_header 7) (enc_name labels ++ tail)) f).
Proof.
  set (e := machine [routing RoutingModeBlock]). cbv zeta. unfold run. eapply wp_mono.
  - apply (blocked_query_answered Toy.hp Toy.iv Toy.open (λ _, True) e (at_time 5) (start (routing RoutingModeBlock)) query
      (header query e) 40000 (query_header 7) labels tail [] (routing RoutingModeBlock)); try done.
    + apply start_ok.
    + rewrite app_nil_r. apply query_datagram. by left.
    + exact labels_ok.
  - intros [w acts] [H _]. exact H.
Defined.

Lemma remembered_query_routed_witness :
  let set := routing RoutingModeInterface in
  wp (run set (start set) 5 query) (λ '(w1, acts1), acts1 = [Accept]
    ∧ wp (run set w1 8 back) (λ '(_, acts2), acts2 = [HandleDNS set [[93; 184; 216; 34]]; Accept])).
Proof.
  set (e := machine [routing RoutingModeInterface]). cbv zeta. unfold run. eapply wp_mono.
  - apply (remembered_query_routed Toy.hp Toy.iv Toy.open (λ _, True) e (at_time 5) (start (routing RoutingModeInterface)) query
      (header query e) 40000 (query_header 7) labels tail (routing RoutingModeInterface)); try done.
    + apply query_datagram. by right.
    + exact labels_ok.
  - intros [w acts] (-> & Ha & H). split; [by apply Ha|]. eapply wp_mono.
    + apply (H e (at_time 8) _ back [[93; 184; 216; 34]] (routing RoutingModeInterface)); try done.
      * apply with_routes_ok, with_count_ok, start_ok.
      * split; [by vm_compute|]. exists (header back e), response_header, LABELS, answer.
        split; [exact back_datagram|]. split; [by vm_compute|]. split; [done|]. split; [exact LABELS_ok|].
        split_and!; [done|by vm_compute..].
    + intros [w2 acts2] (_ & s & -> & [-> |E]); [done|]. vm_compute in E. injection E as <-. done.
Defined.
